(* ===== verification/_CoqProject ===== *)
-Q . S2P
Prelude.v
JsNumber.v
JsArray.v
Binary64.v
JsString.v
JsPath.v
JsObject.v
Json.v
JsonText.v
JsonParser.v
PdfDoc.v
FontMetrics.v
Groups.v
Outline.v
Process.v
Cosine.v
CosineReal.v
Ranker.v
Report.v
ReportJson.v
Effects.v
Main.v
Console.v
Schema.v
Access.v
Embedding.v
Files.v
Request.v
Transition.v
Machine.v
Scheduler.v
EndToEnd.v
Writing.v
