(* ===== verification/Prelude.v ===== *)
(** * Verification of the PDF section extractor and relevance ranker

    The program (two ECMAScript modules, [src/helper.js] and
    [src/extract.js]) reads a request naming PDF documents, extracts a list
    of levelled text sections from each document, scores every section
    against a persona/task query with cosine similarity of embedding
    vectors, sorts the sections by descending score and writes a ranked
    report.

    ** How the program is modelled

    Every function of the two modules is a Rocq function of the same name,
    statement by statement. An [await]ed call is a [result] ([Ok] or
    [Throw]), so a rejected promise and a thrown exception are values and
    [x ← m; k] is the sequencing of the source. Numbers are an interface
    ([JsArith], [JsKey]) with two instances: Rocq's primitive floats, which
    are IEEE-754 binary64 and run by [vm_compute], and the reals, for what
    the arithmetic means. What pdf.js, the embedding model and the file
    system answer is data ([PdfDoc], [Env]); what the program prints,
    writes and exits with is state ([World]).

    The program is modelled three times over, each model proved to agree
    with the one before. [Main.main_spec] is the pipeline as a function
    of the answers of the environment. [Main.main] is the function
    [main] of [src/extract.js] in the monad [IO], with the console, the
    written files and the exit status. [Machine.step] is the same
    function as the event loop runs it: a state for every [await] with
    the locals that are live there, a step for every promise that
    settles, calls that may never settle, and the embeddings of
    [Promise.all] settling in any order. Under the records of the request
    and the report lie the texts of the two JSON files ([Json],
    [ReportJson], [Files]). [Main] takes the request as a record of the
    expected shape; [Request] is the program on whatever value
    [JSON.parse] returns, proved to agree with [Main] on the requests
    of that shape. [World] records a write when it has completed;
    [Writing] has the report file while the write is in flight.

    ** Files, in dependency order

    - [Prelude] (this file): [result] with its monad instances and laws,
      [mapM_result] (a loop of awaited calls), the tactics [run_result]
      (run a computation with the answers in the context), [inv_bind]
      (split a successful computation into its steps) and [by_compute]
      (decide by evaluation), generic list lemmas ([adjacent],
      [StronglySorted], [concat]).
    - [JsNumber]: [JsArith] (the arithmetic the program calls), [JsKey]
      and [JsKeyLaws] (numbers as property keys), the binary64 instances.
    - [JsArray]: [Array.prototype.sort] with a comparator as the stable
      insertion sort [js_sort]; [ConsistentOn] says when a comparator is
      an order; permutation, sortedness, stability, uniqueness of the
      stable sorted permutation, comparator combinators.
    - [Binary64]: binary64 beyond evaluation, from the specification of
      the operations ([SpecFloat], [FloatAxioms]): the sign of a rounded
      difference ([SFord] ranks the numbers that are not NaN by
      integers), and the arithmetic of zeros and NaN.
    - [JsString]: [trim], [slice(0, n)], [join], template literals.
    - [JsPath]: [path.join] and [path.basename] in POSIX form; a plain
      file name survives [basename (join dir name)], and [join] keeps
      the segments of paths without [".."].
    - [JsObject]: plain objects keyed by numbers as association lists in
      creation order, and the order of [Object.keys].
    - [Json]: the values JSON carries ([JsValue], an object as the list
      of its properties in creation order), [JSON.stringify(v, null, 2)]
      ([stringify_at]) and [JSON.parse] ([parse_value], with fuel), for
      integers up to 2^53 in magnitude, strings of 8-bit code units and
      objects without array-index keys; outside this fragment the parser
      answers [Unsupported].
    - [JsonText]: the round trip of [JSON.stringify] and [JSON.parse].
    - [JsonParser]: what the parser returns on any text: it leaves no
      more than it was given, its answer does not depend on the fuel
      above the length of the text, and its values are values of JSON in
      the fragment.
    - [PdfDoc]: sections ([Run], [Level]), outline trees ([OutlineItem]
      with its induction principle) and the document handle [PdfDoc].
    - [FontMetrics]: [extractByFontMetrics] of [src/helper.js]: the page
      scan, the histogram of font sizes, the three most frequent sizes,
      the levels, the sort by page and height, the merge of neighbours.
    - [Groups]: the grouping the merge loop computes ([groups]: blocks
      of neighbouring runs of one level and page), as a reference
      definition.
    - [Outline]: [extractOutline] of [src/helper.js] and its inner [walk],
      with the [try]/[catch] around destination resolution; [preorder] is
      the specification of the traversal.
    - [Process]: [processFileAndGetRuns] of [src/helper.js]: outline
      first, detector otherwise, [fileName] stamped on every section.
    - [Cosine]: [cosineSimilarity] of [src/extract.js] as its loop over
      indices with three accumulators, proved equal to the quotient of
      left-to-right sums, and evaluated on binary64.
    - [CosineReal]: what the formula means over the reals (Cauchy-Schwarz,
      the range [-1, 1], score 1 of a vector with itself, symmetry, unit
      vectors); not the numbers the program computes with.
    - [Ranker]: step 5 of [main]: scoring and the descending stable sort.
    - [Report]: the request and the report as records, and step 6 of
      [main] ([sectionTitle], [extractedSection], [buildOutput]).
    - [ReportJson]: the report as the object literal of step 6
      ([outputValue]), the text [fs.writeJson] writes for it
      ([report_text]), the request as the JSON object [main] reads
      ([requestOfValue]), and readers of both from parsed values.
    - [Effects]: [World] (console, written files, exit status), the monad
      [IO] of state and exceptions, [console_log], [for_of], and the
      predicates [returns], [quiet], [prints] and [logs] with their
      laws.
    - [Main]: [initializeModel], [main] and the handler of
      [main().catch(...)] as [program], over an environment [Env];
      [report_spec] and [main_spec] are the pipeline without the console.
    - [Console]: the lines a run prints: [success_log] is the console of
      a run as a function of the report it writes.
    - [Schema]: the shape of every report: [valid_report], a decidable
      predicate on [Report.OutputJson].
    - [Access]: the documents a run reads: [under_pdf_dir] says that a
      path lies under [PDF_DIR], [with_documents] changes the documents
      of an environment.
    - [Embedding]: the contract of the embedding provider over the
      reals, the class [UnitExtractor]: vectors of one dimension and of
      norm 1.
    - [Files]: a disk maps the path of a file to its text; [readJson_disk]
      and [writeJson_disk] are [fs.readJson] and [fs.writeJson] on it,
      [disk_after] the disk after the writes of a run, and the class
      [ReadsDisk] says when an environment of [Main] answers for a disk.
    - [Request]: lines 45 to 106 of [main] on the parsed request, a
      value of [Json]: property reads ([member]), the conversion of a
      template literal ([to_string]), [for ... of] ([iterate]),
      [path.join] on a value ([path_arg]) and [documents.map]
      ([array_map]) with their [TypeError]s; [report_request] with the
      console, [report_value] without; [reads_as] relates a parsed
      request to the request of [Report] it is processed as, and
      [typed_request] computes that request.
    - [Transition]: what [Machine] needs of a step relation: [eventually]
      (every run reaches a state), invariants of runs, termination from a
      measure in lexicographic order.
    - [Machine]: [initializeModel], [main] and the handler of [catch] as
      a step relation [step] over the control points [Ctl], one rule for
      each [await]; [hangs] names the calls that never settle; [exec] is
      a scheduler that settles the embeddings in list order; [rest_at]
      is the code that is left at a control point, in the monad of
      [Main].
    - [Scheduler]: the scheduler [Machine.exec] against [Machine.step]
      and [Main.main]: it steps whenever the machine can, and [exact]
      says that the machine is where [main] is.
    - [EndToEnd]: the disk of [Files], the console of [Console] and the
      schema of [Schema] under the runs of [Machine].
    - [Writing]: the report file beside the machine while
      [fs.writeJson] is in flight: [write_step] is a step of the machine
      or a step of the file system, which opens the file and writes the
      text piece by piece; [disk_at] is the disk at a state.

    ** What the theorems show

    - Detector ([FontMetrics]): the histogram counts every size
      ([sizeCounts_get]); the heading sizes are the most frequent ones in
      descending order of count ([headingSizes_top]); the size at index i
      is H(i+1) and every other size P; among sizes of equal count the
      order of [Object.keys] decides ([headingSizes_ties]); the sort is
      by page then height and stable, in binary64 whenever no height is
      NaN ([sortRuns_reading_order]), and the sections are then in the
      order of their pages ([Groups.sectionsOfRuns_page_order]); the
      merge loop computes the grouping of the sorted
      runs into blocks of one level and page ([sectionsOfRuns_groups]),
      so no two neighbouring sections share level and page and no text
      is lost ([mergeRuns_adjacent], [sectionsOfRuns_text]); a document
      in one font size is all H1, one section when it has one page
      ([single_size_document]); the detector fails exactly when a page
      cannot be read.
    - Outline ([Outline]): the walk is the preorder traversal
      ([walk_entries], [extractOutline_Some]); levels are H1 to H3
      whatever the depth ([extractOutline_levels]); an entry whose
      destination cannot be resolved is kept with a null page and never
      an error ([walk_keeps_unresolved]).
    - Processing ([Process]): outline first, detector as fallback; levels
      are H1, H2, H3 or P; a P section always has a page number.
    - Ranking ([Cosine], [Ranker]): the loop is the formula
      ([cosineSimilarity_ref]); in binary64 the score can exceed 1
      ([cosine_float_exceeds_one]) and is NaN for a vector of zeros
      ([Cosine.cosineSimilarity_void]) or a content vector that is too
      short ([cosineSimilarity_short]); that the score lies in [-1, 1]
      and is 1 for a vector and itself holds over the reals
      ([CosineReal]) and is not claimed of the program;
      ranking is a permutation, descending and stable when the scores are
      comparable, and a NaN score among scores that differ makes the
      comparator inconsistent ([Ranker.nan_score_inconsistent]).
    - Comparators ([Binary64]): in binary64 the sign of [a - b] is the
      comparison of [a] and [b] for all numbers, rounding, underflow,
      overflow and infinities included, and zero when one is NaN
      ([float_compare_spec]); so [(a, b) => b.relevance - a.relevance]
      is consistent on scores that are not NaN
      ([float_compare_consistent], [Ranker.relevance_cmp_float]), the
      ranking is then descending ([Ranker.rankRuns_float_descending])
      and sections with one score keep their pooled order
      ([Ranker.rankRuns_float_stable]).
    - Report ([Report]): titles ("Content from page n", or the first 80
      characters: [sectionTitle_rule]), ranks 1 to N, metadata passed
      through.
    - Embedding ([Embedding]): against a provider that keeps the
      contract the score of a section is the dot product of its vector
      with that of the context, between -1 and 1, and the report lists
      the sections in descending order of it ([report_spec_unit]); the
      program does not check the contract.
    - JSON ([JsonText], [JsonParser], [ReportJson]): parsing the text
      of a value gives the value back, without the properties that are
      [undefined] and with [null] for the elements that are
      ([parse_value_stringify], [JSON_parse_stringify]); a parsed value
      is a value of JSON in the fragment, and printing and parsing it
      gives it back ([parse_value_parsed], [JSON_parse_canonical]); the
      text written for a report parses to a value from which the whole
      report is read back ([report_text_parse]), and so does a request
      ([request_text_parse]).
    - Pipeline ([Main]): [main] ends as [main_spec] does
      ([returns_main]); the program writes the report as its last act or
      else writes nothing, prints the error and exits with 1
      ([program_outcome]); documents are processed in order and the first
      failure stops the loop; an empty request gives an empty report; a
      request without [persona], [job_to_be_done] or [documents] is fatal
      ([report_spec_malformed]) but a persona without [role] is not: the
      context reads "Persona: undefined" and the report has no persona
      ([report_spec_missing_role]).
    - Request ([Request]): when the request file holds a request of the
      expected shape, the program on the parsed value prints the lines
      and returns the report or the error of [Main.report]
      ([request_file_typed]); on any value, the program either takes the
      request for one of the expected shape, with the role and the task
      converted to strings, and then gives the report of the pipeline
      on that request with the role and the task as they were read, or
      throws ([report_value_cases]); a role that is a number is not
      fatal ([numbered_report]), and [documents: ""] fails only when
      the report is built ([empty_string_documents]).
    - Console ([Console]): a run that succeeds prints exactly the lines
      of [success_log]: the lines of the steps in order, one line for
      each document of the request, the number of sections found
      ([main_prints]); the success line is printed exactly when the
      report was written ([success_line_honest]).
    - Schema ([Schema]): every report of a run that succeeds is well
      formed ([report_spec_valid]): the documents have file names, the
      ranks are 1, 2, ... in list order, a title has at most 80 characters
      or is "Content from page n" for the page n, from 1, of its
      section, every section names [basename (join PDF_DIR filename)]
      for a file name of the request, and [subsection_analysis] is
      empty; a section of level P always has a page, so no title reads
      "Content from page null" ([Main.pooledRuns_P_title]). The
      predicate is decided by
      evaluation ([valid_report_samples]).
    - Access ([JsPath], [Access]): [path.join] of paths without a
      [".."] segment has the segments of its arguments in order
      ([JsPath.segments_path_join]) and is relative when the first is;
      so when no file name of the request has a [".."] segment every
      document is opened under [PDF_DIR], and the run is the same
      whatever the documents elsewhere are ([program_reads_pdf_dir]); a
      file name with [".."] leaves the directory ([escape_sample]); the
      [document] of a section is the last segment of the file name that
      names something ([document_name]).
    - Files ([Files]): with the request in the request file, a run that
      succeeds leaves in the report file a text that parses to the
      report, with the metadata of the request ([file_to_file]); with a
      request file that is missing or not JSON the run is fatal and the
      disk is as before ([unreadable_request_fatal]).
    - Event loop ([Machine]): every state a run reaches agrees with
      [Main.main] ([reachable_agrees]), so a run that ends has printed,
      written and exited as [Main.program] says ([run_outcome]); when
      every awaited call settles every run ends, in whatever order the
      embeddings settle ([main_terminates]); [Promise.all] yields the
      vectors in the order of the sections ([promise_all_order]); until
      a run ends no write has completed ([pending_untouched]); a run that
      waits only for calls that hang stays for ever ([stalled_forever]),
      but a rejection beside a hang ends the run
      ([hang_beside_rejection]).
    - Scheduler ([Scheduler]): the event loop that settles the embeddings
      in the order of the sections takes a step whenever there is one
      ([step_fn_complete]), stops at the end of the run or where all the
      awaited calls hang ([scheduler_stops]), and when no call hangs it
      ends exactly where [Main.main] ends, the error that is printed
      included ([scheduler_program]): the first rejection in the order
      of the sections is the one [main] reports
      ([slots_first_reject]).
    - End to end ([EndToEnd]): one write completes, at the end of a run
      that succeeds ([completed_until_end]); when the pipeline succeeds
      and no call hangs every run ends with the report in the report
      file ([run_writes_report]); when it fails every run ends with no
      write completed ([run_fatal_disk]); whenever a run is fulfilled,
      the report it computed is well formed, the console holds the lines
      of that report and the report file its text ([fulfilled_run]); and
      two runs that are fulfilled, at different times and with the
      embeddings settling in different orders, print the same lines and
      write the same report but for the time stamp ([rerun_fulfilled]).
    - The write ([Writing]): [fs.writeJson] is not atomic. At every
      moment of every run the disk is as it was before the run, or the
      pipeline has built the report and the report file holds the
      beginning of its text, all of it when the run is fulfilled
      ([disk_during_run]); a write that is rejected, hangs or is
      interrupted can leave any beginning of the text, an earlier report
      gone ([write_rejected_cut_short], [write_in_flight_cut_short],
      [sample_cut_short]). In [Main] and [Machine], "written" and
      "writes nothing" speak of the writes that have completed.

    ** Bounds and abstractions

    - The functions of the program need no fuel: every loop runs over
      a finite list or a finite tree and is a structural recursion.
    - [Json.parse_value] has fuel, which bounds the nesting of arrays
      and objects and the number of parts of each; [JSON_parse] gives it
      the length of the text plus one. That is enough for every text:
      the parser reads at least a character for every level of nesting
      and every part, so fuel above the length of the text makes no
      difference ([JsonParser.parse_value_fuel], [JSON_parse_fuel]), and
      [Unsupported] is never for want of fuel.
    - [Machine.exec] takes the number of turns of the event loop; the
      measure of [step_decreases] (the control point, then the number of
      embeddings in flight) bounds the length of every run, so some
      number of turns is enough and more turns change nothing
      ([Scheduler.exec_nf]); the sample runs end within 23 turns.
    - JSON numbers are integers up to 2^53 in magnitude, as the ranks and
      pages of a report are; fractions and exponents are [Unsupported].
    - Counts and ranks are natural numbers; the program's are doubles,
      exact below 2^53.
    - Strings are sequences of 8-bit code units; [trim] knows the white
      space below code 256.
    - [Array.prototype.sort] is modelled by one stable algorithm; its
      theorems need a comparator that is consistent on the elements
      sorted, and say nothing otherwise, as the language does. For the
      ranking in binary64 that is proved of all scores but NaN.
    - The primitive floats of the kernel are binary64; what is proved
      of them beyond evaluation rests on the axioms of [FloatAxioms],
      which tie them to [SpecFloat].
    - The contract of the embedding provider ([Embedding]) is stated
      over the reals; in binary64 a normalised vector has norm 1 up to
      rounding only, and the ranking is proved there of the scores as
      they are, not against the contract.
    - [Math.hypot] is the rounded square root of the rounded sum of
      squares, with the special cases of the language.
    - The witnesses of the theorems run the definitions on sample
      documents and vectors in binary64.

    ** Not modelled

    - The parsing of PDF files (pdf.js) and the embedding model
      (@xenova/transformers): their answers are parameters.
    - Of the file system: directories ([ensureDir] is an answer of the
      environment) and the encoding of a text in bytes. A write in
      flight is modelled for the report file only, and by the texts it
      can leave, not by the system calls.
    - Of JSON: numbers with a fraction or an exponent, code units above
      255, objects with array-index keys (which [Object.keys] and
      [JSON.stringify] enumerate first), [toJSON] methods and the
      replacer of [JSON.stringify], the reviver of [JSON.parse].
    - The write of a report whose role or task is not a string:
      [Request] has the value that is handed to [fs.writeJson], and
      [World] records reports of [Report].
    - Sources of nondeterminism other than the order in which promises
      settle: [sort] and [Object.keys] are functions, as the language
      defines them, and the answers of the environment do not change
      from one call to the next.
    - The time a call takes: a step of [Machine] is a promise that
      settles, and a call either settles or hangs for ever.
    - Rounding error of the cosine in binary64, beyond the samples: no
      bound on how far a score is from the cosine of the angle is
      proved, so the range [-1, 1] and the score 1 of a vector with
      itself are not properties of this development. *)

From stdpp Require Export prelude strings pretty sorting.

(** ** Thrown errors and rejected promises

    An [await]ed call either yields a value or rejects; a synchronous call
    either returns or throws. Both are [result]s: [Ok v] or [Throw e],
    where [e] is the diagnostic. The program runs its asynchronous calls
    one after the other (every call is [await]ed before the next
    statement), so [x ← m; k] is the sequencing of the source. *)

Inductive result (A : Type) : Type :=
  | Ok (a : A)
  | Throw (e : string).
Arguments Ok {A} a.
Arguments Throw {A} e.

#[export] Instance result_ret : MRet result := @Ok.
#[export] Instance result_bind : MBind result := λ A B f m,
  match m with Ok a => f a | Throw e => Throw e end.
#[export] Instance result_fmap : FMap result := λ A B f m,
  match m with Ok a => Ok (f a) | Throw e => Throw e end.

(** [for (const x of l) { await f x }] collecting the values: stops at the
    first rejection. *)
Fixpoint mapM_result {A B} (f : A → result B) (l : list A) : result (list B) :=
  match l with
  | [] => Ok []
  | x :: l => y ← f x; ys ← mapM_result f l; Ok (y :: ys)
  end.

Definition is_Ok {A} (m : result A) : Prop := ∃ a, m = Ok a.

#[export] Instance is_Ok_dec {A} (m : result A) : Decision (is_Ok m).
Proof.
  destruct m as [a|e]; [left; by exists a | right; by intros [a ?]].
Defined.

#[export] Instance result_eq_dec `{EqDecision A} : EqDecision (result A).
Proof. solve_decision. Defined.

(** ** Automation *)

(** Runs a computation in the goal as far as the hypotheses say what its
    calls answer: rewrites with the equations [m = Ok a] and [m = Throw e]
    of the context and reduces the binds they feed. *)
Ltac run_result :=
  repeat first
    [ progress cbn [mbind mret result_bind result_ret]
    | match goal with
      | H : ?m = Ok _ |- context [?m] => rewrite H
      | H : ?m = Throw _ |- context [?m] => rewrite H
      end ].

(** Decides a closed decidable proposition by evaluating its decision
    procedure. *)
Ltac by_compute :=
  lazymatch goal with
  | |- ?P =>
      let d := constr:(_ : Decision P) in
      apply (@bool_decide_unpack P d); vm_compute; exact I
  end.

(** ** Laws of the [result] monad *)

Section result.
Context {A B C : Type}.
Implicit Types (m : result A) (f : A → result B) (g : B → result C).

Lemma result_bind_Ok a f : (Ok a ≫= f) = f a.
Proof. done. Qed.

Lemma result_bind_Throw e f : (Throw e ≫= f) = Throw e.
Proof. done. Qed.

Lemma result_bind_ret m : (m ≫= Ok) = m.
Proof. by destruct m. Qed.

Lemma result_bind_assoc m f g : ((m ≫= f) ≫= g) = (m ≫= λ a, f a ≫= g).
Proof. by destruct m. Qed.

Lemma result_bind_ext m f f' : (∀ a, f a = f' a) → (m ≫= f) = (m ≫= f').
Proof. intros Hf. destruct m; simpl; auto. Qed.

Lemma result_bind_Ok_inv m f b :
  (m ≫= f) = Ok b ↔ ∃ a, m = Ok a ∧ f a = Ok b.
Proof.
  destruct m as [a|e]; simpl.
  - split; [intros ?; by exists a | by intros (a' & [= <-] & ?)].
  - split; [done | by intros (a' & [=] & ?)].
Qed.
End result.

(** Splits a hypothesis [x ← m; ... = Ok b] into the values of its
    steps. *)
Ltac inv_bind H :=
  repeat (let a := fresh "a" in let Ha := fresh "H" a in
          apply result_bind_Ok_inv in H as (a & Ha & H)).

Section mapM.
Context {A B : Type}.
Implicit Types (f : A → result B) (l : list A).

Lemma mapM_result_Ok f l ys :
  mapM_result f l = Ok ys ↔ Forall2 (λ x y, f x = Ok y) l ys.
Proof.
  revert ys. induction l as [|x l IH]; intros ys; simpl.
  - split; [intros [= <-]; constructor | by inversion 1].
  - rewrite result_bind_Ok_inv. setoid_rewrite result_bind_Ok_inv. split.
    + intros (y & ? & ys' & ?%IH & [= <-]). by constructor.
    + intros (y & ys' & Hy & Hys & ->)%Forall2_cons_inv_l.
      exists y. split; [done|]. exists ys'. by rewrite IH.
Qed.

Lemma mapM_result_pure (g : A → B) l :
  mapM_result (λ x, Ok (g x)) l = Ok (g <$> l).
Proof. induction l as [|x l IH]; simpl; [done|]. by rewrite IH. Qed.

Lemma mapM_result_is_Ok f l :
  Forall (λ x, is_Ok (f x)) l ↔ is_Ok (mapM_result f l).
Proof.
  induction l as [|x l IH]; simpl.
  - split; [by eexists|constructor].
  - rewrite Forall_cons, IH. split.
    + intros [[y ->] [ys ->]]. by eexists.
    + destruct (f x) as [y|e]; [|by intros [? ?]].
      destruct (mapM_result f l) as [ys|e]; [|by intros [? ?]].
      intros _. split; by eexists.
Qed.

(** The first rejection is the one that is reported. *)
Lemma mapM_result_Throw f l1 x l2 e :
  Forall (λ x, is_Ok (f x)) l1 → f x = Throw e →
  mapM_result f (l1 ++ x :: l2) = Throw e.
Proof.
  intros Hl1 Hx. induction Hl1 as [|y l1 [z Hz] _ IH]; simpl.
  - by rewrite Hx.
  - by rewrite Hz, IH.
Qed.

Lemma mapM_result_ext f (g : A → result B) l :
  Forall (λ x, f x = g x) l → mapM_result f l = mapM_result g l.
Proof. induction 1 as [|x l Hx _ IH]; simpl; [done|]. by rewrite Hx, IH. Qed.

Lemma mapM_result_length f l ys :
  mapM_result f l = Ok ys → length ys = length l.
Proof. rewrite mapM_result_Ok. intros H. symmetry. by eapply Forall2_length. Qed.
End mapM.

(** Two loops over lists whose elements answer alike answer alike. *)
Lemma mapM_result_Forall2 {A A' B} (f : A → result B) (g : A' → result B)
    (l : list A) (k : list A') :
  Forall2 (λ x y, f x = g y) l k → mapM_result f l = mapM_result g k.
Proof. induction 1 as [|x y l k Hxy _ IH]; simpl; [done|]. by rewrite Hxy, IH. Qed.

Lemma mapM_Forall2 {A B} (f : A → option B) (l : list A) (k : list B) :
  mapM f l = Some k → Forall2 (λ x y, f x = Some y) l k.
Proof. intros Hk. by apply mapM_Some. Qed.

(** ** Neighbours in a list

    [adjacent R l]: every element of [l] is related to its successor. *)

Fixpoint adjacent {A} (R : A → A → Prop) (l : list A) : Prop :=
  match l with
  | x :: (y :: _) as l' => R x y ∧ adjacent R l'
  | _ => True
  end.

#[export] Instance adjacent_dec {A} (R : A → A → Prop) `{!RelDecision R} l :
  Decision (adjacent R l).
Proof.
  induction l as [|x [|y l] IH]; simpl; [left; done..|]. apply and_dec; apply _.
Defined.

Section adjacent.
Context {A : Type} (R : A → A → Prop).
Implicit Types (x y : A) (l : list A).

Lemma adjacent_cons x l :
  adjacent R (x :: l) ↔ (∀ y, head l = Some y → R x y) ∧ adjacent R l.
Proof.
  destruct l as [|y l]; simpl.
  - split; [by split|done].
  - split; [intros [? ?]; split; [by intros ? [= <-]|done]|].
    intros [Hh ?]. split; [by apply Hh|done].
Qed.

Lemma adjacent_snoc l x :
  adjacent R (l ++ [x]) ↔ adjacent R l ∧ (∀ z, last l = Some z → R z x).
Proof.
  induction l as [|y l IH]; [by split; [split|]|].
  change ((y :: l) ++ [x]) with (y :: (l ++ [x])).
  rewrite !adjacent_cons, IH. destruct l as [|y' l]; simpl.
  - split; [intros [H _]; split; [by split|]; intros ? [= <-]; by apply H|].
    intros [_ H]. split; [intros ? [= <-]; by apply H|by split].
  - change (last (y :: y' :: l)) with (last (y' :: l)). tauto.
Qed.

Lemma adjacent_lookup l :
  adjacent R l ↔ ∀ i x y, l !! i = Some x → l !! S i = Some y → R x y.
Proof.
  induction l as [|x l IH]; [done|]. rewrite adjacent_cons, IH. split.
  - intros [Hh Ht] [|i] a b; simpl; [|by apply Ht].
    intros [= <-] Hb. apply Hh. by destruct l; simplify_eq/=.
  - intros Hl. split; [|intros i; apply (Hl (S i))].
    intros y Hy. apply (Hl 0 x y); [done|]. by destruct l; simplify_eq/=.
Qed.

Lemma adjacent_fmap {B} (f : B → A) (l : list B) :
  adjacent R (f <$> l) ↔ adjacent (λ a b, R (f a) (f b)) l.
Proof.
  induction l as [|x [|y l] IH]; [done..|]. simpl in *. by rewrite IH.
Qed.
End adjacent.

(** ** Lists: prefixes and order *)

Section list_facts.
Context {A : Type}.
Implicit Types (x y : A) (l : list A) (R : relation A).

Lemma NoDup_take_prefix n l : NoDup l → NoDup (take n l).
Proof.
  intros Hl. rewrite <-(take_drop n l) in Hl. by apply NoDup_app in Hl as [? _].
Qed.

Lemma elem_of_take_drop x n l : x ∈ l → x ∈ take n l ∨ x ∈ drop n l.
Proof. intros Hx. rewrite <-(take_drop n l) in Hx. by apply elem_of_app. Qed.

Lemma elem_of_take_elem x n l : x ∈ take n l → x ∈ l.
Proof. rewrite <-(take_drop n l) at 2. rewrite elem_of_app. auto. Qed.

(** A relation that orders a list orders it by any relation that holds
    wherever the first does on its elements. *)
Lemma StronglySorted_impl_elem R (R' : relation A) l :
  (∀ x y, x ∈ l → y ∈ l → R x y → R' x y) →
  StronglySorted R l → StronglySorted R' l.
Proof.
  intros HR Hs. induction Hs as [|x l Hs IH Hx]; constructor.
  - apply IH. intros a b Ha Hb. apply HR; by right.
  - rewrite Forall_forall in Hx |- *. intros y Hy.
    apply HR; [left|by right|by apply Hx].
Qed.

Lemma StronglySorted_take R n l : StronglySorted R l → StronglySorted R (take n l).
Proof.
  intros Hl. rewrite <-(take_drop n l) in Hl. by apply StronglySorted_app_1_l in Hl.
Qed.

(** In an ordered list, the elements of a prefix are related to all the
    others. *)
Lemma StronglySorted_take_rest R n l x y :
  StronglySorted R l → x ∈ take n l → y ∈ l → y ∉ take n l → R x y.
Proof.
  intros Hl Hx Hy Hy'. rewrite <-(take_drop n l) in Hl.
  eapply StronglySorted_app_1_elem_of; [done..|].
  by destruct (elem_of_take_drop y n l Hy).
Qed.

Lemma StronglySorted_lookup R l i j x y :
  StronglySorted R l → i < j → l !! i = Some x → l !! j = Some y → R x y.
Proof.
  intros Hl. revert i j. induction Hl as [|a l Hl IH Ha]; intros i j Hij; [done|].
  destruct j as [|j]; [lia|]. destruct i as [|i]; simpl.
  - intros [= <-] Hy. rewrite Forall_forall in Ha.
    by eapply Ha, list_elem_of_lookup_2.
  - apply IH. lia.
Qed.

Lemma StronglySorted_sublist R l k :
  l `sublist_of` k → StronglySorted R k → StronglySorted R l.
Proof.
  induction 1 as [|x l k Hs IH|x l k Hs IH]; [done| |];
    intros [Hx Hk]%StronglySorted_cons; [|by apply IH].
  apply StronglySorted_cons. split; [|by apply IH].
  eapply Forall_forall. intros y Hy. rewrite Forall_forall in Hx.
  apply Hx. by eapply elem_of_sublist.
Qed.

Lemma StronglySorted_fmap_inv {B} (f : B → A) R (l : list B) :
  StronglySorted R (f <$> l) → StronglySorted (λ a b, R (f a) (f b)) l.
Proof.
  induction l as [|x l IH]; [constructor|]. rewrite fmap_cons.
  intros [Hx Hl]%StronglySorted_cons. apply StronglySorted_cons.
  split; [exact (proj1 (Forall_fmap _ _ _) Hx)|by apply IH].
Qed.
Lemma elem_of_concat (x : A) (ls : list (list A)) :
  x ∈ concat ls ↔ ∃ l, l ∈ ls ∧ x ∈ l.
Proof.
  induction ls as [|l ls IH]; simpl.
  - rewrite elem_of_nil. split; [done|]. by intros (? & ?%elem_of_nil & _).
  - rewrite elem_of_app, IH. split.
    + intros [?|(l' & ? & ?)]; [exists l|exists l']; rewrite elem_of_cons; auto.
    + intros (l' & [->|?]%elem_of_cons & ?); eauto.
Qed.

Lemma concat_nil_Forall (ls : list (list A)) :
  Forall (λ l, l = []) ls → concat ls = [].
Proof. induction 1 as [|l ls -> _ IH]; [done|]. by simpl. Qed.

Lemma forallb_Forall (f : A → bool) (l : list A) :
  forallb f l = true ↔ Forall (λ x, f x = true) l.
Proof.
  induction l as [|x l IH]; simpl; [done|].
  rewrite andb_true_iff, Forall_cons, IH. done.
Qed.

(** Selecting from a list keeps what was a sublist a sublist. *)
Lemma filter_sublist_mono (P : A → Prop) `{∀ x, Decision (P x)} l1 l2 :
  l1 `sublist_of` l2 → filter P l1 `sublist_of` filter P l2.
Proof.
  induction 1 as [|x l1 l2 _ IH|x l1 l2 _ IH]; [done|..];
    rewrite ?filter_cons; destruct (decide (P x)); auto using sublist.
Qed.

(** A filter keeps a list whose elements all pass. *)
Lemma filter_Forall_id (P : A → Prop) `{∀ x, Decision (P x)} l :
  Forall P l → filter P l = l.
Proof.
  induction 1 as [|x l Hx _ IH]; [done|]. by rewrite filter_cons_True, IH.
Qed.

(** Two predicates that agree on the elements of a list select the same
    elements. *)
Lemma filter_ext_Forall (P Q : A → Prop)
    `{∀ x, Decision (P x), ∀ x, Decision (Q x)} l :
  Forall (λ x, P x ↔ Q x) l → filter P l = filter Q l.
Proof.
  induction 1 as [|x l Hx _ IH]; [done|].
  rewrite !filter_cons, IH. destruct (decide (P x)), (decide (Q x)); tauto.
Qed.
End list_facts.
