(* ===== verification/JsNumber.v ===== *)
(** * ECMAScript numbers as the program uses them

    The program computes with Number values: font sizes ([Math.hypot] of
    two transform components), vertical positions, dot products, norms and
    cosine scores, and it sorts by the sign of a difference. It also uses
    numbers as property keys of plain objects.

    [JsArith] is the arithmetic the program calls, [JsKey] what it needs of
    a number used as a property key. The instance on Rocq's primitive
    floats is IEEE-754 binary64, the Number type itself; definitions over
    the interface run on it with [vm_compute]. Theorems that idealise
    numbers as reals instantiate [JsArith] with [R] (file [CosineReal]). *)

From Stdlib Require Import Floats.
From S2P Require Import Prelude.

(** ** Arithmetic *)

Class JsArith (F : Type) : Type := {
  (** the literal [0] *)
  num_zero : F;
  (** [ToNumber(undefined)]: what arithmetic sees when an index is out of
      range or a field is missing *)
  num_undefined : F;
  num_add : F → F → F;
  num_sub : F → F → F;
  num_mul : F → F → F;
  num_div : F → F → F;
  (** [Math.sqrt] *)
  num_sqrt : F → F;
  (** [Math.hypot] of two arguments *)
  num_hypot : F → F → F;
  (** The sign of a comparator's result as [Array.prototype.sort] reads it:
      negative, positive, or neither (zero and NaN alike). *)
  num_sign : F → comparison;
}.

Declare Scope num_scope.
Delimit Scope num_scope with num.
Notation "x + y" := (num_add x y) : num_scope.
Notation "x - y" := (num_sub x y) : num_scope.
Notation "x * y" := (num_mul x y) : num_scope.
Notation "x / y" := (num_div x y) : num_scope.

(** The comparator [(a, b) => a - b] as sort reads it. *)
Definition num_compare `{JsArith F} (a b : F) : comparison :=
  num_sign (a - b)%num.

(** ** Numbers as property keys

    [obj[x]] converts [x] with [ToString]. [num_key x] is the number that
    stands for the string [ToString(x)]: two numbers name the same
    property exactly when their keys are equal, and [Number(ToString(x))]
    is [num_key x]. [num_index x] is [Some i] when [ToString(x)] is an
    array index, the integer [i] with [0 ≤ i < 2^32 - 1]: such keys come
    first, in ascending order, when the properties of an object are
    enumerated. *)

Class JsKey (F : Type) : Type := {
  num_eq_dec :: EqDecision F;
  num_key : F → F;
  num_index : F → option Z;
}.

(** What the development relies on: converting twice is converting once,
    a number and its key are the same array index or neither is, and
    array indices are below [2^32 - 1]. *)
Class JsKeyLaws (F : Type) `{JsKey F} : Prop := {
  num_key_idemp (x : F) : num_key (num_key x) = num_key x;
  num_index_key (x : F) : num_index (num_key x) = num_index x;
  num_index_range (x : F) i : num_index x = Some i → (0 ≤ i < 2 ^ 32 - 1)%Z;
}.

(** The largest array index, [2^32 - 2]. *)
Definition max_array_index : Z := 4294967294.

(** ** The binary64 instance *)

Module Float.
Local Open Scope float_scope.

Definition is_inf (x : float) : bool :=
  Leibniz.eqb x infinity || Leibniz.eqb x neg_infinity.

Definition is_zero (x : float) : bool :=
  Leibniz.eqb x zero || Leibniz.eqb x neg_zero.

(** [Math.hypot(a, d)]: infinite if an argument is, else NaN if an
    argument is, else [+0] if both are zero, else the square root of the
    sum of squares (which ECMAScript leaves implementation-approximated;
    here it is the rounded sum of the rounded squares). *)
Definition hypot (a d : float) : float :=
  if is_inf a || is_inf d then infinity
  else if is_nan a || is_nan d then nan
  else if is_zero a && is_zero d then zero
  else sqrt (a * a + d * d).

Definition sign (x : float) : comparison :=
  if zero <? x then Gt else if x <? zero then Lt else Eq.

(** [-0] prints as ["0"]; every other number is the only one with its
    string. *)
Definition key (x : float) : float := if is_zero x then zero else x.

(** The integer [m * 2^e] when it is one and an array index. *)
Definition index_of (m : positive) (e : Z) : option Z :=
  if (0 <=? e)%Z then
    let v := (Z.pos m * 2 ^ e)%Z in
    if (v <=? max_array_index)%Z then Some v else None
  else
    let d := (2 ^ (- e))%Z in
    if (Z.pos m mod d =? 0)%Z then
      let v := (Z.pos m / d)%Z in
      if (v <=? max_array_index)%Z then Some v else None
    else None.

Definition index (x : float) : option Z :=
  match Prim2SF x with
  | S754_zero _ => Some 0%Z
  | S754_finite false m e => index_of m e
  | _ => None
  end.

Lemma eq_dec : EqDecision float.
Proof.
  intros x y. destruct (Leibniz.eqb x y) eqn:E.
  - left. by apply Leibniz.eqb_spec.
  - right. intros ?%Leibniz.eqb_spec. congruence.
Defined.
End Float.

#[export] Instance float_eq_dec : EqDecision float := Float.eq_dec.

#[export] Instance float_arith : JsArith float := {|
  num_zero := PrimFloat.zero;
  num_undefined := PrimFloat.nan;
  num_add := PrimFloat.add;
  num_sub := PrimFloat.sub;
  num_mul := PrimFloat.mul;
  num_div := PrimFloat.div;
  num_sqrt := PrimFloat.sqrt;
  num_hypot := Float.hypot;
  num_sign := Float.sign;
|}.

#[export] Instance float_key : JsKey float := {|
  num_key := Float.key;
  num_index := Float.index;
|}.

(** ** Facts about the binary64 instance *)

Section float_facts.
Local Open Scope Z_scope.

Lemma float_index_of_range m e i :
  Float.index_of m e = Some i → 0 ≤ i < 2 ^ 32 - 1.
Proof.
  unfold Float.index_of, max_array_index.
  repeat case_match; intros [= <-]; try done.
  - split; [|lia]. apply Z.mul_nonneg_nonneg; [lia|].
    apply Z.pow_nonneg. lia.
  - split; [|lia]. apply Z.div_pos; [lia|]. apply Z.pow_pos_nonneg; lia.
Qed.

Lemma float_index_range x i : Float.index x = Some i → 0 ≤ i < 2 ^ 32 - 1.
Proof.
  unfold Float.index. repeat case_match; try done.
  - by intros [= <-].
  - apply float_index_of_range.
Qed.

Lemma float_key_idemp x : Float.key (Float.key x) = Float.key x.
Proof. unfold Float.key. destruct (Float.is_zero x) eqn:E; by rewrite ?E. Qed.

Lemma float_is_zero x :
  Float.is_zero x = true → x = PrimFloat.zero ∨ x = PrimFloat.neg_zero.
Proof.
  unfold Float.is_zero. intros [E|E]%orb_true_iff; apply Leibniz.eqb_spec in E; auto.
Qed.

Lemma float_index_key x : Float.index (Float.key x) = Float.index x.
Proof.
  unfold Float.key. destruct (Float.is_zero x) eqn:E; [|done].
  by destruct (float_is_zero x E) as [-> | ->].
Qed.
End float_facts.

#[export] Instance float_key_laws : JsKeyLaws float.
Proof.
  split.
  - apply float_key_idemp.
  - apply float_index_key.
  - apply float_index_range.
Qed.

(** Sample evaluations of the instance: a 3-4-5 triangle, an infinite
    argument beside a NaN, NaN read as "neither" by sort, the keys of
    whole and fractional sizes. *)
Example float_hypot_3_4 : num_hypot 3%float 4%float = 5%float.
Proof. vm_compute. reflexivity. Qed.

Example float_hypot_inf_nan : num_hypot infinity nan = infinity.
Proof. vm_compute. reflexivity. Qed.

Example float_sign_nan : num_compare (F:=float) nan 1%float = Eq.
Proof. vm_compute. reflexivity. Qed.

Example float_index_whole : num_index 12%float = Some 12%Z.
Proof. vm_compute. reflexivity. Qed.

Example float_index_fraction : num_index 10.5%float = None.
Proof. vm_compute. reflexivity. Qed.

Example float_index_too_large : num_index 4294967295%float = None.
Proof. vm_compute. reflexivity. Qed.

Example float_key_neg_zero : num_key neg_zero = PrimFloat.zero.
Proof. vm_compute. reflexivity. Qed.
