(* ===== verification/JsArray.v ===== *)
(** * [Array.prototype.sort] with a comparator

    ECMAScript specifies [sort] by its result: a permutation of the array
    that is ordered by the comparator and keeps the original order of the
    elements the comparator calls equal (the sort is stable), provided the
    comparator is consistent on the elements of the array. When it is not,
    the order is implementation-defined.

    [js_sort cmp l] is a stable insertion sort, where [cmp a b] is the
    sign of [comparefn(a, b)]: [Lt] puts [a] first, [Gt] puts [b] first,
    [Eq] keeps their order. The theorems are the specification's
    guarantees; [js_sort_unique] shows that a consistent comparator leaves
    no other result, so the definition stands for every engine's sort. *)

From S2P Require Import Prelude.

Section comparator.
Context {A : Type} (cmp : A → A → comparison).
Implicit Types (x y z : A) (l : list A) (P : A → Prop).

(** [a] may stay before [b]. *)
Definition cmp_le x y : Prop := cmp x y ≠ Gt.

(** The comparator calls [a] and [b] equal. *)
Definition cmp_eqv x y : Prop := cmp x y = Eq.

#[export] Instance cmp_le_dec : RelDecision cmp_le.
Proof. unfold cmp_le. solve_decision. Defined.

#[export] Instance cmp_eqv_dec : RelDecision cmp_eqv.
Proof. unfold cmp_eqv. solve_decision. Defined.

(** A comparator is consistent on the values satisfying [P] when swapping
    its arguments flips its sign and "may stay before" is transitive: the
    values fall into classes of equals, and the classes are totally
    ordered. *)
Record ConsistentOn P : Prop := {
  consistent_opp x y : P x → P y → cmp y x = CompOpp (cmp x y);
  consistent_trans x y z :
    P x → P y → P z → cmp_le x y → cmp_le y z → cmp_le x z;
}.

(** The same, checked on the elements of a list. *)
Definition ConsistentOnList l : Prop :=
  Forall (λ x, Forall (λ y,
    cmp y x = CompOpp (cmp x y) ∧
    Forall (λ z, cmp_le x y → cmp_le y z → cmp_le x z) l) l) l.

#[export] Instance ConsistentOnList_dec l : Decision (ConsistentOnList l).
Proof. unfold ConsistentOnList. apply _. Defined.

(** ** The sort *)

(** [x] goes before the first element it need not follow. *)
Fixpoint sort_insert x l : list A :=
  match l with
  | [] => [x]
  | y :: l' =>
      match cmp x y with
      | Gt => y :: sort_insert x l'
      | _ => x :: l
      end
  end.

Fixpoint js_sort l : list A :=
  match l with
  | [] => []
  | x :: l' => sort_insert x (js_sort l')
  end.

(** ** Consistent comparators *)

Lemma consistent_on_list l : ConsistentOnList l ↔ ConsistentOn (.∈ l).
Proof.
  unfold ConsistentOnList. repeat setoid_rewrite Forall_forall. split.
  - intros H. split.
    + intros x y Hx Hy. by apply H.
    + intros x y z Hx Hy Hz. by apply H.
  - intros [Ho Ht] x Hx y Hy. split; [by apply Ho|].
    intros z Hz. by apply Ht.
Qed.

Lemma consistent_on_impl P Q :
  (∀ x, Q x → P x) → ConsistentOn P → ConsistentOn Q.
Proof. intros HQ [Ho Ht]. split; eauto. Qed.

Section consistent.
Context (P : A → Prop) (HC : ConsistentOn P).

Lemma cmp_refl x : P x → cmp x x = Eq.
Proof.
  intros Hx. pose proof (consistent_opp P HC x x Hx Hx) as H.
  by destruct (cmp x x).
Qed.

Lemma cmp_Gt_Lt x y : P x → P y → cmp x y = Gt → cmp y x = Lt.
Proof. intros Hx Hy H. by rewrite (consistent_opp P HC x y), H. Qed.

Lemma cmp_Lt_Gt x y : P x → P y → cmp x y = Lt → cmp y x = Gt.
Proof. intros Hx Hy H. by rewrite (consistent_opp P HC x y), H. Qed.

Lemma cmp_eqv_sym x y : P x → P y → cmp_eqv x y → cmp_eqv y x.
Proof.
  unfold cmp_eqv. intros Hx Hy H. by rewrite (consistent_opp P HC x y), H.
Qed.

Lemma cmp_le_total x y : P x → P y → cmp_le x y ∨ cmp_le y x.
Proof.
  unfold cmp_le. intros Hx Hy. rewrite (consistent_opp P HC x y) by done.
  destruct (cmp x y); simpl; auto.
Qed.

Lemma cmp_Gt_le x y : P x → P y → cmp x y = Gt → cmp_le y x.
Proof. unfold cmp_le. intros Hx Hy H. by rewrite (cmp_Gt_Lt x y). Qed.

Lemma cmp_eqv_le x y : cmp_eqv x y → cmp_le x y.
Proof. unfold cmp_eqv, cmp_le. by intros ->. Qed.

Lemma cmp_le_antisym x y :
  P x → P y → cmp_le x y → cmp_le y x → cmp_eqv x y.
Proof.
  unfold cmp_le, cmp_eqv. intros Hx Hy. rewrite (consistent_opp P HC x y) by done.
  by destruct (cmp x y).
Qed.

Lemma cmp_eqv_trans x y z :
  P x → P y → P z → cmp_eqv x y → cmp_eqv y z → cmp_eqv x z.
Proof.
  intros Hx Hy Hz Hxy Hyz. apply cmp_le_antisym; [done..| |].
  - eapply (consistent_trans P HC x y z); eauto using cmp_eqv_le.
  - eapply (consistent_trans P HC z y x);
      eauto using cmp_eqv_le, cmp_eqv_sym.
Qed.

Lemma cmp_Lt_le_trans x y z :
  P x → P y → P z → cmp x y = Lt → cmp_le y z → cmp x z = Lt.
Proof.
  intros Hx Hy Hz Hxy Hyz.
  assert (cmp_le x z) as Hxz.
  { eapply (consistent_trans P HC x y z); [done..| |done].
    unfold cmp_le. by rewrite Hxy. }
  destruct (cmp x z) eqn:E; [|done|done].
  assert (cmp_le y x) as Hyx.
  { eapply (consistent_trans P HC y z x); [done..|].
    apply cmp_eqv_le, cmp_eqv_sym; done. }
  unfold cmp_le in Hyx. by rewrite (cmp_Lt_Gt x y) in Hyx.
Qed.

Lemma cmp_le_Lt_trans x y z :
  P x → P y → P z → cmp_le x y → cmp y z = Lt → cmp x z = Lt.
Proof.
  intros Hx Hy Hz Hxy Hyz.
  assert (cmp_le x z) as Hxz.
  { eapply (consistent_trans P HC x y z); [done..|].
    unfold cmp_le. by rewrite Hyz. }
  destruct (cmp x z) eqn:E; [|done|done].
  assert (cmp_le z y) as Hzy.
  { eapply (consistent_trans P HC z x y); [done..| |done].
    apply cmp_eqv_le, cmp_eqv_sym; done. }
  unfold cmp_le in Hzy. by rewrite (cmp_Lt_Gt y z) in Hzy.
Qed.

(** An element the comparator puts strictly after [x] is in no class of
    equals that [x] is in. *)
Lemma cmp_eqv_Gt a x y :
  P a → P x → P y → cmp_eqv a x → cmp x y = Gt → ¬ cmp_eqv a y.
Proof.
  intros Ha Hx Hy Hax Hxy Hay.
  assert (cmp_le x y) as Hle; [|by apply Hle].
  eapply (consistent_trans P HC x a y); [done..| |by apply cmp_eqv_le].
  by apply cmp_eqv_le, cmp_eqv_sym.
Qed.
End consistent.

(** ** The result is a permutation *)

Lemma sort_insert_perm x l : sort_insert x l ≡ₚ x :: l.
Proof.
  induction l as [|y l IH]; simpl; [done|].
  destruct (cmp x y); [done..|]. by rewrite IH, Permutation_swap.
Qed.

Lemma js_sort_perm l : js_sort l ≡ₚ l.
Proof.
  induction l as [|x l IH]; simpl; [done|]. by rewrite sort_insert_perm, IH.
Qed.

Lemma js_sort_length l : length (js_sort l) = length l.
Proof. by rewrite js_sort_perm. Qed.

Lemma elem_of_js_sort x l : x ∈ js_sort l ↔ x ∈ l.
Proof. by rewrite js_sort_perm. Qed.

Lemma Forall_js_sort (Q : A → Prop) l : Forall Q (js_sort l) ↔ Forall Q l.
Proof. by rewrite js_sort_perm. Qed.

(** ** The result is ordered *)

Lemma sort_insert_sorted P x l :
  ConsistentOn P → P x → Forall P l →
  StronglySorted cmp_le l → StronglySorted cmp_le (sort_insert x l).
Proof.
  intros HC Hx. induction l as [|y l IH]; intros HP Hs; simpl.
  { repeat constructor. }
  apply Forall_cons in HP as [Hy HP].
  apply StronglySorted_inv in Hs as [Hs Hyl].
  assert (cmp_le x y → StronglySorted cmp_le (x :: y :: l)) as Hfront.
  { intros Hxy. repeat constructor; [done..|].
    rewrite Forall_forall in HP, Hyl |- *. intros z Hz.
    eapply (consistent_trans P HC x y z); eauto. }
  destruct (cmp x y) eqn:E; [apply Hfront; unfold cmp_le; by rewrite E..|].
  constructor; [by apply IH|].
  rewrite sort_insert_perm. constructor; [|done].
  by apply (cmp_Gt_le P HC).
Qed.

Lemma js_sort_sorted P l :
  ConsistentOn P → Forall P l → StronglySorted cmp_le (js_sort l).
Proof.
  intros HC. induction l as [|x l IH]; intros HP; simpl; [constructor|].
  apply Forall_cons in HP as [Hx HP].
  apply (sort_insert_sorted P); auto. by apply Forall_js_sort.
Qed.

(** An array that is already in order is left as it is. *)
Lemma sort_insert_front x l : Forall (cmp_le x) l → sort_insert x l = x :: l.
Proof.
  destruct l as [|y l]; [done|]. intros [Hxy _]%Forall_cons. simpl.
  unfold cmp_le in Hxy. by destruct (cmp x y).
Qed.

Lemma js_sort_sorted_id l : StronglySorted cmp_le l → js_sort l = l.
Proof.
  induction 1 as [|x l Hs IH Hx]; simpl; [done|].
  rewrite IH. by apply sort_insert_front.
Qed.

(** ** The result is stable *)

Lemma sort_insert_stable P a x l :
  ConsistentOn P → P a → P x → Forall P l →
  filter (cmp_eqv a) (sort_insert x l) = filter (cmp_eqv a) (x :: l).
Proof.
  intros HC Ha Hx. induction l as [|y l IH]; intros HP; simpl; [done|].
  apply Forall_cons in HP as [Hy HP].
  destruct (cmp x y) eqn:E; [done..|].
  rewrite filter_cons, IH by done. rewrite !(filter_cons _ x), (filter_cons _ y).
  destruct (decide (cmp_eqv a x)) as [Hax|Hax]; [|reflexivity].
  by rewrite !decide_False by by eapply (cmp_eqv_Gt P HC a x y).
Qed.

Lemma js_sort_stable P a l :
  ConsistentOn P → P a → Forall P l →
  filter (cmp_eqv a) (js_sort l) = filter (cmp_eqv a) l.
Proof.
  intros HC Ha. induction l as [|x l IH]; intros HP; simpl; [done|].
  apply Forall_cons in HP as [Hx HP].
  rewrite (sort_insert_stable P) by (by rewrite ?Forall_js_sort).
  rewrite !(filter_cons _ x), IH by done. done.
Qed.

(** ** No other result *)

Lemma stable_sorted_unique P l1 l2 :
  ConsistentOn P → Forall P l1 →
  l1 ≡ₚ l2 →
  StronglySorted cmp_le l1 → StronglySorted cmp_le l2 →
  (∀ a, P a → filter (cmp_eqv a) l1 = filter (cmp_eqv a) l2) →
  l1 = l2.
Proof.
  intros HC. revert l2. induction l1 as [|x l1 IH]; intros l2 HP Hp Hs1 Hs2 Hf.
  { by apply Permutation_nil_l in Hp. }
  destruct l2 as [|y l2]; [by apply Permutation_nil_r in Hp|].
  assert (Forall P (y :: l2)) as HP2 by by rewrite <-Hp.
  apply Forall_cons in HP as [Hx HP]. apply Forall_cons in HP2 as [Hy HP2].
  apply StronglySorted_inv in Hs1 as [Hs1 Hx1].
  apply StronglySorted_inv in Hs2 as [Hs2 Hy2].
  assert (cmp_eqv x y) as Hxy.
  { apply (cmp_le_antisym P HC); [done..| |].
    - assert (y ∈ x :: l1) as [->|Hin]%elem_of_cons by (rewrite Hp; left).
      + apply cmp_eqv_le. by apply (cmp_refl P HC).
      + by eapply Forall_forall in Hx1.
    - assert (x ∈ y :: l2) as [->|Hin]%elem_of_cons by (rewrite <-Hp; left).
      + apply cmp_eqv_le. by apply (cmp_refl P HC).
      + by eapply Forall_forall in Hy2. }
  assert (x = y) as <-.
  { specialize (Hf x Hx). rewrite !filter_cons in Hf.
    rewrite decide_True in Hf by by apply (cmp_refl P HC).
    rewrite decide_True in Hf by done. by injection Hf. }
  f_equal. apply IH; [done|by eapply Permutation_cons_inv|done..|].
  intros a Ha. specialize (Hf a Ha). rewrite !filter_cons in Hf.
  destruct (decide (cmp_eqv a x)); [by injection Hf|done].
Qed.

Lemma js_sort_unique P l l' :
  ConsistentOn P → Forall P l →
  l' ≡ₚ l →
  StronglySorted cmp_le l' →
  (∀ a, P a → filter (cmp_eqv a) l' = filter (cmp_eqv a) l) →
  l' = js_sort l.
Proof.
  intros HC HP Hp Hs Hf. apply (stable_sorted_unique P); [done|by rewrite Hp| | | |].
  - by rewrite js_sort_perm.
  - done.
  - by apply (js_sort_sorted P).
  - intros a Ha. by rewrite (js_sort_stable P), Hf.
Qed.

Lemma js_sort_idemp P l :
  ConsistentOn P → Forall P l → js_sort (js_sort l) = js_sort l.
Proof. intros HC HP. by apply js_sort_sorted_id, (js_sort_sorted P). Qed.
End comparator.

Arguments ConsistentOn {A} cmp P.
Arguments ConsistentOnList {A} cmp l.

(** ** Comparators built from others *)

Section combinators.
Context {A B : Type}.
Implicit Types (cmp : A → A → comparison) (P : A → Prop).

(** [(a, b) => c1(a, b) || c2(a, b)]: the first difference that is not
    zero decides. *)
Definition cmp_lex (c1 c2 : A → A → comparison) (a b : A) : comparison :=
  match c1 a b with
  | Eq => c2 a b
  | c => c
  end.

(** [(a, b) => cmp(b, a)]: descending order. *)
Definition cmp_flip cmp (a b : A) : comparison := cmp b a.

(** [(a, b) => cmp(f(a), f(b))]: order by a key. *)
Definition cmp_on (f : A → B) (c : B → B → comparison) (a b : A) : comparison :=
  c (f a) (f b).

Lemma cmp_flip_consistent cmp P :
  ConsistentOn cmp P → ConsistentOn (cmp_flip cmp) P.
Proof.
  intros HC. split; unfold cmp_flip, cmp_le.
  - intros x y Hx Hy. by apply (consistent_opp cmp P HC).
  - intros x y z Hx Hy Hz Hxy Hyz.
    by apply (consistent_trans cmp P HC z y x).
Qed.

Lemma cmp_on_consistent (f : A → B) (c : B → B → comparison) P (Q : B → Prop) :
  (∀ x, P x → Q (f x)) → ConsistentOn c Q → ConsistentOn (cmp_on f c) P.
Proof.
  intros Hf HC. split; unfold cmp_on, cmp_le.
  - intros x y Hx Hy. apply (consistent_opp c Q HC); auto.
  - intros x y z Hx Hy Hz. apply (consistent_trans c Q HC); auto.
Qed.

Lemma cmp_lex_consistent c1 c2 P :
  ConsistentOn c1 P → ConsistentOn c2 P → ConsistentOn (cmp_lex c1 c2) P.
Proof.
  intros H1 H2. split; unfold cmp_lex, cmp_le.
  - intros x y Hx Hy. rewrite (consistent_opp c1 P H1 x y) by done.
    destruct (c1 x y); simpl; [|done..]. by apply (consistent_opp c2 P H2).
  - intros x y z Hx Hy Hz Hxy Hyz.
    destruct (c1 x y) eqn:Exy; [| |done].
    + destruct (c1 y z) eqn:Eyz; [| |done].
      * rewrite (cmp_eqv_trans c1 P H1 x y z) by done.
        by apply (consistent_trans c2 P H2 x y z).
      * rewrite (cmp_le_Lt_trans c1 P H1 x y z); try done.
        unfold cmp_le. by rewrite Exy.
    + rewrite (cmp_Lt_le_trans c1 P H1 x y z); try done.
      unfold cmp_le. by destruct (c1 y z).
Qed.
End combinators.
