(* ===== verification/Binary64.v ===== *)
(** * The order of binary64 numbers

    [Array.prototype.sort] is given comparators that subtract:
    [(a, b) => b.relevance - a.relevance] in [src/extract.js]. What the
    sort reads is the sign of a rounded difference. This file shows that
    in binary64 the sign is right: a difference of two numbers that are
    not NaN is negative, zero or positive as the first is less than,
    equal to or greater than the second, rounding, overflow and the
    infinities included ([float_compare_spec]). So the comparator is
    consistent on the numbers that are not NaN
    ([float_compare_consistent]), and it calls two of them equal only
    when they are one number, [+0] and [-0] being one
    ([float_compare_Eq]).

    The proofs go through the specification of the operations in the
    standard library ([SpecFloat], tied to the primitive floats by
    [FloatAxioms]). [SFord] gives every number that is not NaN a rank, an
    integer: its value in units of the least positive number. A
    difference is computed from the operands aligned at the lesser
    exponent, which is at least [emin], and rounding a mantissa that is
    not zero at such an exponent leaves a mantissa that is not zero
    ([binary_round_aux_sign]): binary64 has subnormal numbers, and the
    difference of two distinct numbers is never below the least of
    them.

    The last part is the arithmetic of numbers without direction: sums,
    products and square roots of zeros and NaNs are zeros and NaNs, a
    quotient of two of them is NaN, and NaN is contagious. File [Cosine]
    derives from it when a score is NaN. *)

From Stdlib Require Import ZArith Lia Floats.
From S2P Require Import Prelude JsNumber JsArray.

Local Open Scope Z_scope.

(** ** Signs and ranks of specified floats *)

(** The sign [sort] reads of a number with sign bit [s]. *)
Definition sign_of (s : bool) : comparison := if s then Lt else Gt.

(** The sign of a number as [sort] reads a comparator's result. *)
Definition SFsign (x : spec_float) : comparison :=
  match x with
  | S754_finite s _ _ | S754_infinity s => sign_of s
  | S754_zero _ | S754_nan => Eq
  end.

(** The rank of a number that is not NaN: its value in units of the
    least positive number, and beyond all of these for the infinities. *)
Definition SFord (x : spec_float) : Z :=
  match x with
  | S754_finite s m e => cond_Zopp s (Z.pos m * 2 ^ (e - emin))
  | S754_infinity s => cond_Zopp s (2 ^ (emax - emin))
  | S754_zero _ | S754_nan => 0
  end.

Definition float_ord (x : float) : Z := SFord (Prim2SF x).

(** A number without direction: a zero or NaN. *)
Definition SFvoid (x : spec_float) : bool :=
  match x with
  | S754_zero _ | S754_nan => true
  | _ => false
  end.

Definition float_void (x : float) : bool := SFvoid (Prim2SF x).

(** What a comparator's result is when it is the given comparison of
    floats: numbers that cannot be compared count as equal. *)
Definition cmp_of (c : float_comparison) : comparison :=
  match c with
  | FLt => Lt
  | FGt => Gt
  | FEq | FNotComparable => Eq
  end.

(** ** Digits and shifts *)

Lemma digits2_pos_bounds m :
  2 ^ (Z.pos (digits2_pos m) - 1) ≤ Z.pos m < 2 ^ Z.pos (digits2_pos m).
Proof.
  induction m as [m IH|m IH|]; simpl digits2_pos; [| |simpl; lia];
    rewrite Pos2Z.inj_succ;
    replace (Z.succ (Z.pos (digits2_pos m)) - 1)
      with (Z.succ (Z.pos (digits2_pos m) - 1)) by lia;
    rewrite !Z.pow_succ_r by lia; lia.
Qed.

Lemma shr_1_m mrs : 0 ≤ shr_m mrs → shr_m (shr_1 mrs) = shr_m mrs / 2.
Proof.
  rewrite <-Z.div2_div. destruct mrs as [[|[m|m|]|m] r s]; simpl; done.
Qed.

Lemma iter_shr_1_m p mrs :
  0 ≤ shr_m mrs → shr_m (SpecFloat.iter_pos shr_1 p mrs) = shr_m mrs / 2 ^ Z.pos p.
Proof.
  revert mrs. induction p as [p IH|p IH|]; intros mrs Hm; simpl SpecFloat.iter_pos.
  - assert (0 ≤ shr_m (shr_1 mrs)) by (rewrite shr_1_m by done; apply Z.div_pos; lia).
    assert (0 ≤ shr_m (SpecFloat.iter_pos shr_1 p (shr_1 mrs)))
      by (rewrite IH by done; apply Z.div_pos; lia).
    rewrite !IH, shr_1_m by done.
    rewrite !Z.div_div by lia. f_equal.
    replace (Z.pos p~1) with (1 + Z.pos p + Z.pos p) by lia.
    rewrite !Z.pow_add_r, Z.pow_1_r by lia. lia.
  - assert (0 ≤ shr_m (SpecFloat.iter_pos shr_1 p mrs))
      by (rewrite IH by done; apply Z.div_pos; lia).
    rewrite !IH by done. rewrite Z.div_div by lia. f_equal.
    replace (Z.pos p~0) with (Z.pos p + Z.pos p) by lia.
    by rewrite Z.pow_add_r by lia.
  - by apply shr_1_m.
Qed.

(** ** Rounding keeps the sign

    A number that is not zero does not round to zero: the exponent of
    the operands is at least [emin], so what is shifted out of a mantissa
    leaves [prec] digits of it. *)

Lemma emin_eq : emin = -1074.
Proof. reflexivity. Qed.

Lemma prec_eq : prec = 53.
Proof. reflexivity. Qed.

Lemma fexp_eq k : fexp prec emax k = Z.max (k - 53) (-1074).
Proof. reflexivity. Qed.

Lemma shr_record_of_loc_m m l : shr_m (shr_record_of_loc m l) = m.
Proof. by destruct l as [|[]]. Qed.

Lemma shr_fexp_pos m e l :
  0 < m → emin ≤ e →
  0 < shr_m (shr_fexp prec emax m e l).1 ∧ emin ≤ (shr_fexp prec emax m e l).2.
Proof.
  rewrite emin_eq. intros Hm He. unfold shr_fexp, shr. rewrite fexp_eq.
  destruct m as [|m|m]; [lia| |lia]. simpl Zdigits2.
  pose proof (digits2_pos_bounds m) as [Hlo _].
  destruct (_ - e) as [|p|p] eqn:Hn; simpl; rewrite ?shr_record_of_loc_m;
    [lia| |lia].
  rewrite iter_shr_1_m by (rewrite shr_record_of_loc_m; lia).
  rewrite shr_record_of_loc_m. split; [|lia].
  apply Z.div_str_pos. split; [lia|].
  etransitivity; [|exact Hlo]. apply Z.pow_le_mono_r; lia.
Qed.

Lemma round_nearest_even_pos m l : 0 < m → 0 < round_nearest_even m l.
Proof. intros Hm. destruct l as [|[]]; simpl; [done| |done|lia]. case_match; lia. Qed.

Lemma binary_round_aux_sign s m e l :
  0 < m → emin ≤ e → SFsign (binary_round_aux prec emax s m e l) = sign_of s.
Proof.
  intros Hm He. unfold binary_round_aux.
  destruct (shr_fexp_pos m e l Hm He) as [Hm' He'].
  destruct (shr_fexp prec emax m e l) as [mrs' e']. simpl in Hm', He'.
  pose proof (round_nearest_even_pos _ (loc_of_shr_record mrs') Hm') as Hr.
  destruct (shr_fexp_pos _ e' loc_Exact Hr He') as [Hm'' _].
  destruct (shr_fexp prec emax _ e' loc_Exact) as [mrs'' e'']. simpl in Hm''.
  destruct (shr_m mrs''); [lia| |lia]. by case_match.
Qed.

Lemma shl_align_exp m e e' :
  (shl_align m e e').2 = Z.min e e'.
Proof. unfold shl_align. destruct (e' - e) eqn:Hd; simpl; lia. Qed.

Lemma binary_round_sign s m e :
  emin ≤ e → SFsign (binary_round prec emax s m e) = sign_of s.
Proof.
  intros He. unfold binary_round.
  pose proof (shl_align_exp m e (fexp prec emax (Z.pos (digits2_pos m) + e))) as Hz.
  destruct (shl_align _ _ _) as [mz ez]. simpl in Hz.
  apply binary_round_aux_sign; [done|]. rewrite fexp_eq, emin_eq in *. lia.
Qed.

Lemma binary_normalize_sign m e :
  emin ≤ e → SFsign (binary_normalize prec emax m e false) = (m ?= 0).
Proof.
  intros He. destruct m; simpl; [done|by rewrite binary_round_sign..].
Qed.

(** ** Subtraction and the ranks *)

Lemma iter_xO_pos m d : Z.pos (Pos.iter xO m d) = Z.pos m * 2 ^ Z.pos d.
Proof.
  induction d as [|d IH] using Pos.peano_ind.
  - simpl. lia.
  - rewrite Pos.iter_succ, Pos2Z.inj_xO, IH, Pos2Z.inj_succ, Z.pow_succ_r; lia.
Qed.

Lemma shl_align_m m e e' :
  e' ≤ e → Z.pos (shl_align m e e').1 = Z.pos m * 2 ^ (e - e').
Proof.
  intros He. unfold shl_align. destruct (e' - e) as [|d|d] eqn:Hd; simpl.
  - replace (e - e') with 0 by lia. lia.
  - lia.
  - rewrite iter_xO_pos. f_equal. f_equal. lia.
Qed.

(** The operands of a subtraction, aligned at the exponent [ez], stand
    to each other as their ranks. *)
Lemma aligned_ord s m e ez :
  emin ≤ ez → ez ≤ e →
  SFord (S754_finite s m e) =
  cond_Zopp s (Z.pos (shl_align m e ez).1) * 2 ^ (ez - emin).
Proof.
  intros Hz He. simpl SFord. rewrite shl_align_m by done.
  replace (e - emin) with ((e - ez) + (ez - emin)) by lia.
  rewrite Z.pow_add_r by lia. destruct s; simpl; lia.
Qed.

(** A valid number has an exponent from [emin] on and a rank below that
    of infinity. *)
Lemma valid_finite s m e :
  valid_binary (S754_finite s m e) = true →
  emin ≤ e ∧ 0 < Z.pos m * 2 ^ (e - emin) < 2 ^ (emax - emin).
Proof.
  unfold valid_binary, bounded, canonical_mantissa. rewrite fexp_eq, emin_eq.
  intros [Hc He]%andb_prop. apply Z.eqb_eq in Hc. apply Z.leb_le in He.
  change (emax - prec) with 971 in He. change emax with 1024.
  pose proof (digits2_pos_bounds m) as [_ Hhi].
  assert (Z.pos (digits2_pos m) ≤ 53) as Hd by lia.
  split; [lia|]. split; [apply Z.mul_pos_pos; [lia|apply Z.pow_pos_nonneg; lia]|].
  apply Z.lt_le_trans with (2 ^ 53 * 2 ^ (e - -1074)).
  - apply Z.mul_lt_mono_pos_r; [apply Z.pow_pos_nonneg; lia|].
    eapply Z.lt_le_trans; [exact Hhi|]. apply Z.pow_le_mono_r; lia.
  - rewrite <-Z.pow_add_r by lia. apply Z.pow_le_mono_r; lia.
Qed.

Lemma compare_scaled a b k : 0 < k → (a * k ?= b * k) = (a ?= b).
Proof. intros Hk. destruct (Z.compare_spec a b); [subst; apply Z.compare_refl|..];
  [apply Z.compare_lt_iff|apply Z.compare_gt_iff]; nia. Qed.

Lemma compare_sub a b : (a - b ?= 0) = (a ?= b).
Proof.
  destruct (Z.compare_spec a b); [subst; by rewrite Z.sub_diag|..];
    [apply Z.compare_lt_iff|apply Z.compare_gt_iff]; lia.
Qed.

(** The sign of a difference is the comparison of the ranks. *)
Lemma SFsub_sign x y :
  valid_binary x = true → valid_binary y = true →
  x ≠ S754_nan → y ≠ S754_nan →
  SFsign (SF64sub x y) = (SFord x ?= SFord y).
Proof.
  intros Hx Hy Hnx Hny.
  destruct x as [sx|sx| |sx mx ex], y as [sy|sy| |sy my ey]; try done;
    try apply valid_finite in Hx as [Hex Hmx];
    try apply valid_finite in Hy as [Hey Hmy];
    unfold SF64sub, SFsub; cbv zeta;
    try (destruct sx, sy; cbn [SFsign SFord cond_Zopp negb]; symmetry;
         first [done|apply Z.compare_lt_iff; lia|apply Z.compare_gt_iff; lia]).
  rewrite binary_normalize_sign by lia. rewrite compare_sub.
  rewrite (aligned_ord sx mx ex (Z.min ex ey)),
    (aligned_ord sy my ey (Z.min ex ey)) by lia.
  symmetry. apply compare_scaled, Z.pow_pos_nonneg; lia.
Qed.

(** ** The comparison of two numbers and the ranks *)

Lemma compare_cont_Eq m1 m2 : Pos.compare_cont Eq m1 m2 = (Z.pos m1 ?= Z.pos m2).
Proof. done. Qed.

(** Of two valid numbers with the same sign, the one with the greater
    exponent has the greater magnitude. *)
Lemma valid_exp_lt s1 m1 e1 s2 m2 e2 :
  valid_binary (S754_finite s1 m1 e1) = true →
  valid_binary (S754_finite s2 m2 e2) = true →
  e1 < e2 → Z.pos m1 * 2 ^ (e1 - emin) < Z.pos m2 * 2 ^ (e2 - emin).
Proof.
  unfold valid_binary, bounded, canonical_mantissa. rewrite !fexp_eq, emin_eq.
  intros [H1%Z.eqb_eq _]%andb_prop [H2%Z.eqb_eq _]%andb_prop He.
  pose proof (digits2_pos_bounds m1) as [_ Hhi].
  pose proof (digits2_pos_bounds m2) as [Hlo _].
  assert (Z.pos (digits2_pos m2) = 53) as Hd2 by lia. rewrite Hd2 in Hlo.
  replace (e2 - -1074) with ((e2 - e1 - 1) + 1 + (e1 - -1074)) by lia.
  rewrite !Z.pow_add_r, Z.pow_1_r by lia.
  assert (0 < 2 ^ (e1 - -1074)) by (apply Z.pow_pos_nonneg; lia).
  assert (1 ≤ 2 ^ (e2 - e1 - 1)) by (apply (Z.pow_le_mono_r 2 0); lia).
  assert (Z.pos m1 < 2 ^ 53)
    by (eapply Z.lt_le_trans; [exact Hhi|apply Z.pow_le_mono_r; lia]).
  change (2 ^ (53 - 1)) with (2 ^ 52) in Hlo.
  change (2 ^ 53) with (2 * 2 ^ 52) in *.
  generalize dependent (2 ^ (e1 - -1074)). generalize dependent (2 ^ (e2 - e1 - 1)).
  generalize dependent (2 ^ 52). intros c Hc Hlo p Hp k Hk.
  apply Z.lt_le_trans with (2 * Z.pos m2 * k); [nia|].
  replace (Z.pos m2 * (p * 2 * k)) with (2 * Z.pos m2 * k * p) by lia. nia.
Qed.

(** Magnitudes of valid numbers compare by exponent, then mantissa. *)
Lemma magnitude_compare s1 m1 e1 s2 m2 e2 :
  valid_binary (S754_finite s1 m1 e1) = true →
  valid_binary (S754_finite s2 m2 e2) = true →
  match e1 ?= e2 with
  | Lt => Lt
  | Gt => Gt
  | Eq => Pos.compare_cont Eq m1 m2
  end = (Z.pos m1 * 2 ^ (e1 - emin) ?= Z.pos m2 * 2 ^ (e2 - emin)).
Proof.
  intros H1 H2. destruct (Z.compare_spec e1 e2) as [->|He|He].
  - apply valid_finite in H1 as [? _]. rewrite compare_scaled; [done|].
    apply Z.pow_pos_nonneg; lia.
  - symmetry. by eapply Z.compare_lt_iff, valid_exp_lt.
  - symmetry. by eapply Z.compare_gt_iff, valid_exp_lt.
Qed.

Lemma SFcompare_ord x y :
  valid_binary x = true → valid_binary y = true →
  x ≠ S754_nan → y ≠ S754_nan →
  SFcompare x y = Some (SFord x ?= SFord y).
Proof.
  intros Hx Hy Hnx Hny.
  destruct x as [sx|sx| |sx mx ex], y as [sy|sy| |sy my ey]; try done;
    try pose proof (valid_finite _ _ _ Hx) as [Hex Hmx];
    try pose proof (valid_finite _ _ _ Hy) as [Hey Hmy];
    cbn [SFcompare SFord]; f_equal;
    try (destruct sx, sy; cbn [cond_Zopp]; symmetry;
         first [done|apply Z.compare_lt_iff; lia|apply Z.compare_gt_iff; lia]).
  pose proof (magnitude_compare sx mx ex sy my ey Hx Hy) as Hm.
  destruct sx, sy; cbn [cond_Zopp]; symmetry.
  - rewrite Z.compare_opp, Z.compare_antisym, <-Hm. by destruct (ex ?= ey).
  - apply Z.compare_lt_iff. lia.
  - apply Z.compare_gt_iff. lia.
  - by rewrite <-Hm.
Qed.

(** ** Binary64 numbers *)

Lemma is_nan_Prim2SF x : is_nan x = true ↔ Prim2SF x = S754_nan.
Proof.
  unfold is_nan. rewrite FloatAxioms.eqb_spec, negb_true_iff. unfold SFeqb.
  pose proof (Prim2SF_valid x) as Hv.
  destruct (Prim2SF x) as [s|s| |s m e] eqn:Hx;
    [by destruct s..|done|].
  rewrite SFcompare_ord, Z.compare_refl by done. done.
Qed.

Lemma not_nan_Prim2SF x : is_nan x = false → Prim2SF x ≠ S754_nan.
Proof. intros Hn Hx%is_nan_Prim2SF. congruence. Qed.

Lemma float_sign_Prim2SF x : Float.sign x = SFsign (Prim2SF x).
Proof.
  unfold Float.sign. rewrite !FloatAxioms.ltb_spec. unfold SFltb.
  change (Prim2SF zero) with (S754_zero false).
  by destruct (Prim2SF x) as [s|[]| |[] m e].
Qed.

(** The comparator [(a, b) => a - b] reads two numbers that are not NaN
    as their ranks compare. *)
Lemma float_compare_ord a b :
  is_nan a = false → is_nan b = false →
  num_compare a b = (float_ord a ?= float_ord b).
Proof.
  intros Ha%not_nan_Prim2SF Hb%not_nan_Prim2SF. unfold num_compare. simpl.
  rewrite float_sign_Prim2SF, sub_spec.
  apply SFsub_sign; auto using Prim2SF_valid.
Qed.

(** So does the comparison of the two numbers. *)
Lemma float_cmp_ord a b :
  is_nan a = false → is_nan b = false →
  cmp_of (a ?= b)%float = (float_ord a ?= float_ord b).
Proof.
  intros Ha%not_nan_Prim2SF Hb%not_nan_Prim2SF.
  rewrite FloatAxioms.compare_spec, SFcompare_ord by auto using Prim2SF_valid.
  unfold float_ord. by destruct (_ ?= _).
Qed.

(** A difference with NaN is NaN. *)
Lemma float_compare_nan a b :
  is_nan a = true ∨ is_nan b = true →
  num_compare a b = Eq ∧ (a ?= b)%float = FNotComparable.
Proof.
  unfold num_compare. simpl. rewrite float_sign_Prim2SF, sub_spec, FloatAxioms.compare_spec.
  rewrite !is_nan_Prim2SF. intros [->| ->]; [done|].
  by destruct (Prim2SF a) as [[]|[]| |[] m e].
Qed.

(** The comparator [(a, b) => a - b] reads two numbers as they compare,
    and as equal when one is NaN. *)
Theorem float_compare_spec a b : num_compare a b = cmp_of (a ?= b)%float.
Proof.
  destruct (is_nan a) eqn:Ha; [|destruct (is_nan b) eqn:Hb].
  - by destruct (float_compare_nan a b) as [-> ->]; [left|].
  - by destruct (float_compare_nan a b) as [-> ->]; [right|].
  - by rewrite float_compare_ord, float_cmp_ord.
Qed.

(** The comparator is consistent on the numbers that are not NaN. *)
Theorem float_compare_consistent :
  ConsistentOn (num_compare (F:=float)) (λ x, is_nan x = false).
Proof.
  split.
  - intros x y Hx Hy. rewrite !float_compare_ord by done.
    apply Z.compare_antisym.
  - intros x y z Hx Hy Hz. unfold cmp_le. rewrite !float_compare_ord by done.
    rewrite !Z.compare_gt_iff. lia.
Qed.

(** ** Numbers of equal rank *)

(** Two valid numbers of one rank are one number, or two zeros. *)
Lemma SFord_inj x y :
  valid_binary x = true → valid_binary y = true →
  x ≠ S754_nan → y ≠ S754_nan → SFord x = SFord y →
  x = y ∨ ∃ s s', x = S754_zero s ∧ y = S754_zero s'.
Proof.
  intros Hx Hy Hnx Hny.
  assert (0 < 2 ^ (emax - emin)) as Hinf by done.
  destruct x as [sx|sx| |sx mx ex], y as [sy|sy| |sy my ey]; try done;
    try pose proof (valid_finite _ _ _ Hx) as [Hex Hmx];
    try pose proof (valid_finite _ _ _ Hy) as [Hey Hmy];
    cbn [SFord]; try (destruct sx, sy; cbn [cond_Zopp]; intros; first [by left|lia]).
  - intros _. right. by exists sx, sy.
  - pose proof (magnitude_compare sx mx ex sy my ey Hx Hy) as Hm.
    intros Ho. assert (sx = sy) as -> by (destruct sx, sy; cbn [cond_Zopp] in Ho; lia).
    assert (Z.pos mx * 2 ^ (ex - emin) = Z.pos my * 2 ^ (ey - emin)) as He
      by (destruct sy; cbn [cond_Zopp] in Ho; lia).
    rewrite He, Z.compare_refl in Hm. left.
    destruct (Z.compare_spec ex ey) as [->| |]; [|done..].
    by apply Pos.compare_eq in Hm as ->.
Qed.

Lemma Prim2SF_zero x s :
  Prim2SF x = S754_zero s → Float.is_zero x = true.
Proof.
  intros Hx. rewrite <-(SF2Prim_Prim2SF x), Hx. by destruct s.
Qed.

Lemma float_is_zero_ord x : Float.is_zero x = true → float_ord x = 0.
Proof. by intros [-> | ->]%float_is_zero. Qed.

(** Two numbers of one rank are one number, or [+0] and [-0]. *)
Lemma float_ord_inj a b :
  is_nan a = false → is_nan b = false →
  float_ord a = float_ord b ↔ Float.key a = Float.key b.
Proof.
  intros Ha Hb. unfold Float.key. split.
  - intros Ho. apply SFord_inj in Ho as [Ho|(s & s' & Hsa & Hsb)];
      auto using Prim2SF_valid, not_nan_Prim2SF.
    + by apply Prim2SF_inj in Ho as ->.
    + by rewrite (Prim2SF_zero a s), (Prim2SF_zero b s').
  - destruct (Float.is_zero a) eqn:Hza, (Float.is_zero b) eqn:Hzb.
    + intros _. by rewrite !float_is_zero_ord.
    + intros <-. done.
    + intros ->. done.
    + by intros ->.
Qed.

(** The comparator calls two numbers equal when they are one number. *)
Theorem float_compare_Eq a b :
  is_nan a = false → is_nan b = false →
  num_compare a b = Eq ↔ Float.key a = Float.key b.
Proof.
  intros Ha Hb. by rewrite float_compare_ord, Z.compare_eq_iff, float_ord_inj.
Qed.

(** A number may stay before another when it is less or equal. *)
Theorem float_cmp_le a b :
  is_nan a = false → is_nan b = false →
  cmp_le num_compare a b ↔ (a <=? b)%float = true.
Proof.
  intros Ha%not_nan_Prim2SF Hb%not_nan_Prim2SF. unfold cmp_le.
  rewrite float_compare_spec, FloatAxioms.leb_spec, FloatAxioms.compare_spec.
  unfold SFleb. rewrite SFcompare_ord by auto using Prim2SF_valid.
  by destruct (_ ?= _).
Qed.

(** "Less than" is the comparator's [Lt], and holds of no NaN. *)
Theorem float_ltb_compare a b : (a <? b)%float = true ↔ num_compare a b = Lt.
Proof.
  rewrite float_compare_spec, FloatAxioms.ltb_spec, FloatAxioms.compare_spec.
  unfold SFltb. by destruct (SFcompare _ _) as [[]|].
Qed.

Lemma float_ltb_not_nan a b :
  (a <? b)%float = true → is_nan a = false ∧ is_nan b = false.
Proof.
  intros Hlt%float_ltb_compare.
  destruct (is_nan a) eqn:Ha; [|destruct (is_nan b) eqn:Hb; [|done]].
  - destruct (float_compare_nan a b) as [? _]; [by left|congruence].
  - destruct (float_compare_nan a b) as [? _]; [by right|congruence].
Qed.

(** ** Zeros and NaN

    What the arithmetic makes of numbers without direction: sums,
    products and square roots of zeros and NaNs are zeros and NaNs, and
    a quotient of two of them is NaN. *)

Lemma float_void_zero x : Float.is_zero x = true → float_void x = true.
Proof. by intros [-> | ->]%float_is_zero. Qed.

Lemma float_void_nan x : is_nan x = true → float_void x = true.
Proof. unfold float_void. by intros ->%is_nan_Prim2SF. Qed.

Lemma float_void_mul x y :
  float_void x = true ∨ float_void y = true → float_void (x * y) = true.
Proof.
  unfold float_void. rewrite mul_spec.
  by destruct (Prim2SF x) as [[]|[]| |[] ? ?], (Prim2SF y) as [[]|[]| |[] ? ?];
    intros [?|?].
Qed.

Lemma float_void_add x y :
  float_void x = true → float_void y = true → float_void (x + y) = true.
Proof.
  unfold float_void. rewrite add_spec.
  by destruct (Prim2SF x) as [[]|[]| |[] ? ?], (Prim2SF y) as [[]|[]| |[] ? ?].
Qed.

Lemma float_void_sqrt x : float_void x = true → float_void (sqrt x) = true.
Proof.
  unfold float_void. rewrite sqrt_spec.
  by destruct (Prim2SF x) as [[]|[]| |[] ? ?].
Qed.

Lemma float_void_div x y :
  float_void x = true → float_void y = true → is_nan (x / y) = true.
Proof.
  unfold float_void. rewrite is_nan_Prim2SF, div_spec.
  by destruct (Prim2SF x) as [[]|[]| |[] ? ?], (Prim2SF y) as [[]|[]| |[] ? ?].
Qed.

(** NaN is contagious. *)
Lemma is_nan_add x y :
  is_nan x = true ∨ is_nan y = true → is_nan (x + y) = true.
Proof.
  rewrite !is_nan_Prim2SF, add_spec.
  intros [-> | ->]; [done|]. by destruct (Prim2SF x) as [[]|[]| |[] ? ?].
Qed.

Lemma is_nan_mul x y :
  is_nan x = true ∨ is_nan y = true → is_nan (x * y) = true.
Proof.
  rewrite !is_nan_Prim2SF, mul_spec.
  intros [-> | ->]; [done|]. by destruct (Prim2SF x) as [[]|[]| |[] ? ?].
Qed.

Lemma is_nan_div x y :
  is_nan x = true ∨ is_nan y = true → is_nan (x / y) = true.
Proof.
  rewrite !is_nan_Prim2SF, div_spec.
  intros [-> | ->]; [done|]. by destruct (Prim2SF x) as [[]|[]| |[] ? ?].
Qed.

(** ** Examples *)

Section examples.
Local Open Scope float_scope.

(** The least positive number and the greatest. *)
Definition tiny : float := Eval vm_compute in Z.ldexp 1 (-1074).
Definition huge : float := Eval vm_compute in next_down infinity.

(** The ranks of 0, of the least positive number, of 1 and of the
    infinities. *)
Example float_ord_samples :
  float_ord 0 = 0%Z ∧ float_ord (-0) = 0%Z ∧ float_ord tiny = 1%Z ∧
  float_ord 1 = (2 ^ 1074)%Z ∧ float_ord (-1) = (- 2 ^ 1074)%Z ∧
  float_ord infinity = (2 ^ 2098)%Z ∧ float_ord neg_infinity = (- 2 ^ 2098)%Z.
Proof. vm_compute. done. Qed.

(** Differences that are rounded, that underflow, that overflow, and
    that are NaN. *)
Example float_compare_samples :
  num_compare 0.25 0.75 = Lt ∧
  num_compare tiny 0 = Gt ∧ num_compare (1 + tiny) 1 = Eq ∧
  num_compare huge (- huge) = Gt ∧ huge - (- huge) = infinity ∧
  num_compare infinity infinity = Eq ∧ is_nan (infinity - infinity) = true ∧
  num_compare 0 (-0) = Eq ∧ num_compare nan 1 = Eq.
Proof. vm_compute. done. Qed.
End examples.
