(* ===== verification/JsString.v ===== *)
(** * Strings: [trim], [slice] and template literals

    An ECMAScript string is a sequence of UTF-16 code units. The program
    only trims, concatenates and truncates strings, operations that act on
    code units one by one; Rocq's [string] (a sequence of 8-bit
    characters) stands for the sequence, with the white space of
    [String.prototype.trim] restricted to the code units below 256. *)

From Stdlib Require Import Ascii.
From S2P Require Import Prelude.

Local Open Scope string_scope.

(** ** White space *)

(** WhiteSpace and LineTerminator code units: TAB, LF, VT, FF, CR, SP and
    NBSP. *)
Definition is_white_space (c : ascii) : bool :=
  bool_decide (nat_of_ascii c ∈ [9; 10; 11; 12; 13; 32; 160]%nat).

Fixpoint all_white (s : string) : bool :=
  match s with
  | "" => true
  | String c s' => is_white_space c && all_white s'
  end.

(** ** [String.prototype.trim] *)

Fixpoint trim_start (s : string) : string :=
  match s with
  | "" => ""
  | String c s' => if is_white_space c then trim_start s' else s
  end.

Fixpoint trim_end (s : string) : string :=
  match s with
  | "" => ""
  | String c s' =>
      if is_white_space c && all_white s' then "" else String c (trim_end s')
  end.

Definition trim (s : string) : string := trim_end (trim_start s).

(** The truth value of a string: [!text] holds of the empty string only. *)
Definition str_truthy (s : string) : bool := negb (bool_decide (s = "")).

(** ** [String.prototype.slice(0, n)] *)

Fixpoint slice_to (n : nat) (s : string) : string :=
  match n, s with
  | S n', String c s' => String c (slice_to n' s')
  | _, _ => ""
  end.

(** ** [Array.prototype.join(" ")]

    The texts of merged runs are the texts of the runs with single spaces
    between them. *)
Definition join_space (l : list string) : string := String.concat " " l.

(** ** Template literals *)

(** [`${page}`] for a page that is a whole number or [null]. *)
Definition page_to_string (page : option Z) : string :=
  match page with
  | Some z => pretty z
  | None => "null"
  end.

(** ** Facts about white space and [trim] *)

Definition first_char (s : string) : option ascii :=
  match s with "" => None | String c _ => Some c end.

Fixpoint last_char (s : string) : option ascii :=
  match s with
  | "" => None
  | String c "" => Some c
  | String _ s' => last_char s'
  end.

Lemma app_String c s t : String c s +:+ t = String c (s +:+ t).
Proof. done. Qed.

Lemma str_app_nil_r s : s +:+ "" = s.
Proof. induction s as [|c s IH]; [done|]. by rewrite app_String, IH. Qed.

Lemma str_app_assoc s t u : (s +:+ t) +:+ u = s +:+ t +:+ u.
Proof. induction s as [|c s IH]; [done|]. by rewrite !app_String, IH. Qed.

Lemma str_app_length s t :
  String.length (s +:+ t) = (String.length s + String.length t)%nat.
Proof. induction s as [|c s IH]; [done|]. rewrite app_String. simpl. by rewrite IH. Qed.

(** [Array.prototype.join] with a separator. *)
Lemma str_concat_cons sep x l :
  l ≠ [] → String.concat sep (x :: l) = x +:+ sep +:+ String.concat sep l.
Proof. by destruct l. Qed.

Lemma str_concat_snoc sep l x :
  l ≠ [] → String.concat sep (l ++ [x]) = String.concat sep l +:+ sep +:+ x.
Proof.
  induction l as [|y l IH]; [done|]. intros _. destruct l as [|z l]; [done|].
  change ((y :: z :: l) ++ [x])%list with (y :: ((z :: l) ++ [x]))%list.
  rewrite !str_concat_cons, IH, !str_app_assoc by done. done.
Qed.

Lemma join_space_cons x l :
  l ≠ [] → join_space (x :: l) = x +:+ " " +:+ join_space l.
Proof. apply str_concat_cons. Qed.

Lemma join_space_snoc l x :
  l ≠ [] → join_space (l ++ [x]) = join_space l +:+ " " +:+ x.
Proof. apply str_concat_snoc. Qed.

Lemma str_app_nil_inv s t : s +:+ t = "" → s = "" ∧ t = "".
Proof. by destruct s. Qed.

Lemma last_char_app s t : t ≠ "" → last_char (s +:+ t) = last_char t.
Proof.
  intros Ht. induction s as [|c s IH]; [done|]. rewrite app_String. simpl.
  rewrite IH. destruct (s +:+ t) eqn:Hst; [|done].
  by apply str_app_nil_inv in Hst as [_ ?].
Qed.

Lemma all_white_app s t : all_white (s +:+ t) = all_white s && all_white t.
Proof.
  induction s as [|c s IH]; simpl; [done|]. by rewrite IH, andb_assoc.
Qed.

Lemma trim_start_all_white s : all_white s = true → trim_start s = "".
Proof.
  induction s as [|c s IH]; simpl; [done|].
  intros [-> ?]%andb_true_iff. auto.
Qed.

Lemma trim_end_all_white s : all_white s = true → trim_end s = "".
Proof.
  destruct s as [|c s]; simpl; [done|]. by intros ->.
Qed.

Lemma trim_end_empty s : trim_end s = "" → all_white s = true.
Proof.
  destruct s as [|c s]; simpl; [done|].
  by destruct (is_white_space c && all_white s).
Qed.

Lemma trim_start_empty s : trim_start s = "" → all_white s = true.
Proof.
  induction s as [|c s IH]; simpl; [done|].
  destruct (is_white_space c); [auto|done].
Qed.

Lemma all_white_trim_start s :
  all_white (trim_start s) = true → all_white s = true.
Proof.
  induction s as [|c s IH]; simpl; [done|].
  destruct (is_white_space c) eqn:E; simpl; [auto|by rewrite E].
Qed.

(** [trim] yields the empty string exactly on strings of white space:
    these are the fragments the scan of a page skips. *)
Lemma trim_empty s : trim s = "" ↔ all_white s = true.
Proof.
  unfold trim. split.
  - intros H%trim_end_empty. by apply all_white_trim_start.
  - intros H. by rewrite trim_start_all_white.
Qed.

Lemma str_truthy_trim s : str_truthy (trim s) = negb (all_white s).
Proof.
  unfold str_truthy. destruct (all_white s) eqn:E.
  - by rewrite bool_decide_eq_true_2 by by apply trim_empty.
  - rewrite bool_decide_eq_false_2; [done|]. rewrite trim_empty. congruence.
Qed.

Lemma trim_start_first s c :
  first_char (trim_start s) = Some c → is_white_space c = false.
Proof.
  induction s as [|c' s IH]; simpl; [done|].
  destruct (is_white_space c') eqn:E; [done|]. by intros [= <-].
Qed.

Lemma trim_end_first s : first_char (trim_end s) = None ∨
  first_char (trim_end s) = first_char s.
Proof.
  destruct s as [|c s]; simpl; [by left|].
  destruct (is_white_space c && all_white s); auto.
Qed.

Lemma trim_end_last s c :
  last_char (trim_end s) = Some c → is_white_space c = false.
Proof.
  induction s as [|c' s IH]; simpl; [done|].
  destruct (is_white_space c' && all_white s) eqn:E; [done|]. simpl.
  destruct (trim_end s) as [|c'' t] eqn:Et; [|done].
  intros [= <-]. apply trim_end_empty in Et. rewrite Et, andb_true_r in E. done.
Qed.

(** The result of [trim] neither starts nor ends with white space. *)
Lemma trim_first s c : first_char (trim s) = Some c → is_white_space c = false.
Proof.
  unfold trim. destruct (trim_end_first (trim_start s)) as [->| ->]; [done|].
  apply trim_start_first.
Qed.

Lemma trim_last s c : last_char (trim s) = Some c → is_white_space c = false.
Proof. apply trim_end_last. Qed.

Lemma trim_start_id s :
  (∀ c, first_char s = Some c → is_white_space c = false) → trim_start s = s.
Proof.
  destruct s as [|c s]; simpl; [done|]. intros H. by rewrite (H c).
Qed.

Lemma trim_end_id s :
  (∀ c, last_char s = Some c → is_white_space c = false) → trim_end s = s.
Proof.
  induction s as [|c s IH]; simpl; [done|]. intros H.
  destruct s as [|c' s'].
  - simpl. by rewrite (H c).
  - rewrite IH by done.
    destruct (is_white_space c && all_white (String c' s')) eqn:E; [|done].
    apply andb_true_iff in E as [_ E]. apply trim_end_all_white in E.
    rewrite IH in E; done.
Qed.

(** Trimming twice is trimming once. *)
Lemma trim_idemp s : trim (trim s) = trim s.
Proof.
  unfold trim at 1. rewrite trim_start_id by apply trim_first.
  apply trim_end_id, trim_last.
Qed.

(** [trim] removes a prefix and a suffix of white space and nothing
    else. *)
Lemma trim_start_decompose s :
  ∃ pre, s = pre +:+ trim_start s ∧ all_white pre = true.
Proof.
  induction s as [|c s (pre & IH & Hpre)]; simpl; [by exists ""|].
  destruct (is_white_space c) eqn:E; [|by exists ""].
  exists (String c pre). split; [|simpl; by rewrite E].
  by rewrite app_String, <-IH.
Qed.

Lemma trim_end_decompose s :
  ∃ post, s = trim_end s +:+ post ∧ all_white post = true.
Proof.
  induction s as [|c s (post & IH & Hpost)]; simpl; [by exists ""|].
  destruct (is_white_space c && all_white s) eqn:E; [by exists (String c s)|].
  exists post. split; [|done]. by rewrite app_String, <-IH.
Qed.

Lemma trim_decompose s :
  ∃ pre post, s = pre +:+ trim s +:+ post ∧
    all_white pre = true ∧ all_white post = true.
Proof.
  destruct (trim_start_decompose s) as (pre & Hs & Hpre).
  destruct (trim_end_decompose (trim_start s)) as (post & Ht & Hpost).
  exists pre, post. unfold trim. by rewrite <-Ht, <-Hs.
Qed.

(** ** Facts about [slice_to] *)

Lemma slice_to_length n s :
  String.length (slice_to n s) = n `min` String.length s.
Proof.
  revert s. induction n as [|n IH]; intros [|c s]; simpl; [done..|].
  by rewrite IH.
Qed.

Lemma slice_to_short n s : (String.length s ≤ n)%nat → slice_to n s = s.
Proof.
  revert s. induction n as [|n IH]; intros [|c s]; simpl; [done|lia|done|].
  intros ?. rewrite IH; [done|lia].
Qed.

Lemma slice_to_prefix n s : ∃ t, s = slice_to n s +:+ t.
Proof.
  revert s. induction n as [|n IH]; intros [|c s]; simpl; eauto.
  destruct (IH s) as [t Ht]. exists t. by rewrite app_String, <-Ht.
Qed.

Lemma slice_to_substring n s : slice_to n s = String.substring 0 n s.
Proof.
  revert s. induction n as [|n IH]; intros [|c s]; simpl; [done..|].
  by rewrite IH.
Qed.

Lemma slice_to_idemp n s : slice_to n (slice_to n s) = slice_to n s.
Proof. apply slice_to_short. rewrite slice_to_length. lia. Qed.

(** Sample evaluations. *)
Example trim_sample : trim "  1. Introduction   " = "1. Introduction".
Proof. vm_compute. reflexivity. Qed.

Example trim_inner_space : trim (String "009" "a b" +:+ String "010" "") = "a b".
Proof. vm_compute. reflexivity. Qed.

Example slice_to_sample : slice_to 3 "Heading" = "Hea".
Proof. vm_compute. reflexivity. Qed.

Example page_to_string_sample :
  page_to_string (Some 7%Z) = "7" ∧ page_to_string None = "null".
Proof. split; vm_compute; reflexivity. Qed.
