(* ===== verification/JsPath.v ===== *)
(** * Paths: [path.join] and [path.basename]

    [src/extract.js] builds the path of a document with
    [path.join(PDF_DIR, doc.filename)] and [src/helper.js] takes
    [path.basename] of it for the [fileName] of its sections. Both are
    functions of Node's [path] module, here in its POSIX form: a path is
    split at ["/"], [join] normalises the segments (dropping empty and
    ["."] segments and resolving [".."]) and [basename] is the last
    segment that is not empty.

    The theorems of the file: a plain file name survives the two, so
    the [document] of a section is the [filename] of the request
    ([basename_path_join]); and [join] of paths without a [".."] segment
    has the segments of its arguments, in order ([segments_path_join]),
    its base name is the last of them ([basename_path_join_last]), and
    it is relative when its first argument is
    ([is_absolute_normalize]). *)

From Stdlib Require Import Ascii.
From S2P Require Import Prelude JsString.

Local Open Scope string_scope.

(** ** Segments *)

Definition is_slash (c : ascii) : bool := bool_decide (c = "/"%char).

(** [s.split("/")]. *)
Fixpoint split_path (s : string) : list string :=
  match s with
  | "" => [""]
  | String c s' =>
      if is_slash c then "" :: split_path s'
      else match split_path s' with
           | seg :: segs => String c seg :: segs
           | [] => [String c ""]
           end
  end.

Fixpoint no_slash (s : string) : bool :=
  match s with
  | "" => true
  | String c s' => negb (is_slash c) && no_slash s'
  end.

(** [segs.join("/")]. *)
Definition join_slash (segs : list string) : string := String.concat "/" segs.

(** ** [path.normalize] *)

(** One segment of the scan of [normalizeString]: empty and ["."] segments
    are dropped, [".."] removes the segment before it, or is kept when
    there is none to remove and the path is relative. *)
Definition norm_step (allowAboveRoot : bool) (res : list string)
    (seg : string) : list string :=
  if decide (seg = "" ∨ seg = ".") then res
  else if decide (seg = "..") then
    match last res with
    | Some top =>
        if decide (top = "..")
        then (if allowAboveRoot then res ++ [".."] else res)
        else removelast res
    | None => if allowAboveRoot then [".."] else []
    end
  else res ++ [seg].

Definition normalize_segments (allowAboveRoot : bool) (segs : list string)
  : list string :=
  foldl (norm_step allowAboveRoot) [] segs.

Definition is_absolute (p : string) : bool :=
  match first_char p with Some c => is_slash c | None => false end.

Definition has_trailing_slash (p : string) : bool :=
  match last_char p with Some c => is_slash c | None => false end.

Definition normalize (p : string) : string :=
  if decide (p = "") then "."
  else
    let res :=
      join_slash (normalize_segments (negb (is_absolute p)) (split_path p)) in
    if decide (res = "") then
      if is_absolute p then "/"
      else if has_trailing_slash p then "./" else "."
    else
      (if is_absolute p then "/" else "") +:+ res +:+
      (if has_trailing_slash p then "/" else "").

(** ** [path.join] *)

Definition path_join (args : list string) : string :=
  let joined := join_slash (filter (λ a, a ≠ "") args) in
  if decide (joined = "") then "." else normalize joined.

(** ** [path.basename] *)

Definition basename (p : string) : string :=
  default "" (last (filter (λ seg, seg ≠ "") (split_path p))).

(** A file name with no directory part that names a file. *)
Definition plain_name (f : string) : Prop :=
  no_slash f = true ∧ f ≠ "" ∧ f ≠ "." ∧ f ≠ "..".

#[export] Instance plain_name_dec f : Decision (plain_name f).
Proof. unfold plain_name. apply _. Defined.

(** ** Paths without [".."] *)

(** The segments of a path that name something: not empty and not
    ["."]. *)
Definition names (seg : string) : Prop := ¬ (seg = "" ∨ seg = ".").

Definition segments (p : string) : list string := filter names (split_path p).

(** No segment of the path is [".."]. *)
Definition no_parent (p : string) : Prop := ".." ∉ split_path p.

#[export] Instance no_parent_dec p : Decision (no_parent p).
Proof. unfold no_parent. apply _. Defined.

(** ** Examples *)

Example path_join_pdf_dir : path_join ["./input"; "PDF"] = "input/PDF".
Proof. reflexivity. Qed.

Example path_join_file : path_join ["input/PDF"; "report.pdf"] = "input/PDF/report.pdf".
Proof. reflexivity. Qed.

Example path_join_parent : path_join ["input/PDF"; "../../etc/x.pdf"] = "etc/x.pdf".
Proof. reflexivity. Qed.

Example path_join_above : path_join ["a"; "../../b/"] = "../b/".
Proof. reflexivity. Qed.

Example normalize_root : normalize "/../" = "/".
Proof. reflexivity. Qed.

Example basename_file : basename "input/PDF/report.pdf" = "report.pdf".
Proof. reflexivity. Qed.

Example basename_trailing : basename "input/PDF//" = "PDF".
Proof. reflexivity. Qed.

Example basename_root : basename "/" = "".
Proof. reflexivity. Qed.

(** ** Splitting and joining *)

Lemma split_path_nonempty s : split_path s ≠ [].
Proof.
  destruct s as [|c s]; [done|]. simpl.
  destruct (is_slash c); [done|]. by destruct (split_path s).
Qed.

Lemma split_path_slash s t :
  split_path (s +:+ "/" +:+ t) = (split_path s ++ split_path t)%list.
Proof.
  induction s as [|c s IH]; [done|]. rewrite app_String. simpl.
  destruct (is_slash c); [by rewrite IH|]. rewrite IH.
  pose proof (split_path_nonempty s). by destruct (split_path s).
Qed.

Lemma split_path_no_slash f : no_slash f = true → split_path f = [f].
Proof.
  induction f as [|c f IH]; [done|]. simpl.
  intros [Hc ->%IH]%andb_prop. by destruct (is_slash c).
Qed.

Lemma no_slash_split_path s : Forall (λ seg, no_slash seg = true) (split_path s).
Proof.
  induction s as [|c s IH]; simpl; [by repeat constructor|].
  destruct (is_slash c) eqn:Hc; [by constructor|].
  destruct IH as [|seg segs Hseg Hsegs]; repeat constructor; simpl;
    by rewrite ?Hc.
Qed.

Lemma split_path_join segs :
  segs ≠ [] → Forall (λ seg, no_slash seg = true) segs →
  split_path (join_slash segs) = segs.
Proof.
  intros Hne Hs. induction Hs as [|seg segs Hseg Hsegs IH]; [done|].
  destruct segs as [|seg' segs]; [by apply split_path_no_slash|].
  unfold join_slash in *. rewrite str_concat_cons, split_path_slash by done.
  by rewrite split_path_no_slash, IH.
Qed.

Lemma split_path_join_snoc args f :
  no_slash f = true →
  ∃ pre, split_path (join_slash (args ++ [f])) = (pre ++ [f])%list.
Proof.
  intros Hf. destruct args as [|a args].
  - exists []. by apply split_path_no_slash.
  - exists (split_path (join_slash (a :: args))). unfold join_slash.
    by rewrite str_concat_snoc, split_path_slash, (split_path_no_slash f).
Qed.

Lemma join_slash_snoc_nonempty segs f : f ≠ "" → join_slash (segs ++ [f]) ≠ "".
Proof.
  intros Hf. destruct segs as [|a segs]; [done|]. unfold join_slash.
  rewrite str_concat_snoc by done. intros [_ [_ ?]%str_app_nil_inv]%str_app_nil_inv.
  done.
Qed.

Lemma last_char_join_snoc segs f :
  f ≠ "" → last_char (join_slash (segs ++ [f])) = last_char f.
Proof.
  intros Hf. destruct segs as [|a segs]; [done|]. unfold join_slash.
  rewrite str_concat_snoc, <-str_app_assoc by done. by apply last_char_app.
Qed.

Lemma no_slash_last_char f c :
  no_slash f = true → last_char f = Some c → is_slash c = false.
Proof.
  induction f as [|c' f IH]; [done|]. simpl. intros [Hc Hf]%andb_prop.
  destruct f; [intros [= <-]; by apply negb_true_iff|by apply IH].
Qed.

(** ** Normalisation *)

Definition proper_segment (seg : string) : Prop :=
  no_slash seg = true ∧ seg ≠ "".

Lemma norm_step_plain a res f :
  plain_name f → norm_step a res f = (res ++ [f])%list.
Proof.
  intros (_ & ? & ? & ?). unfold norm_step.
  rewrite decide_False by (by intros [?|?]). by rewrite decide_False.
Qed.

Lemma Forall_removelast {A} (Q : A → Prop) (l : list A) :
  Forall Q l → Forall Q (removelast l).
Proof.
  induction 1 as [|x l Hx Hl IH]; [done|]. simpl.
  destruct l; [done|by constructor].
Qed.

Lemma norm_step_proper a res seg :
  no_slash seg = true → Forall proper_segment res →
  Forall proper_segment (norm_step a res seg).
Proof.
  intros Hseg Hres. unfold norm_step.
  assert (Forall proper_segment [".."]) by (by repeat constructor).
  repeat (case_decide || case_match); subst;
    rewrite ?Forall_app; auto using Forall_removelast.
  split; [done|]. repeat constructor; [done|]. tauto.
Qed.

Lemma normalize_segments_proper a segs :
  Forall (λ seg, no_slash seg = true) segs →
  Forall proper_segment (normalize_segments a segs).
Proof.
  unfold normalize_segments. generalize (Forall_nil_2 proper_segment).
  generalize (@nil string). intros res Hres Hsegs. revert res Hres.
  induction Hsegs as [|seg segs Hseg _ IH]; intros res Hres; [done|].
  simpl. by apply IH, norm_step_proper.
Qed.

Lemma normalize_segments_snoc a segs f :
  plain_name f →
  normalize_segments a (segs ++ [f]) = (normalize_segments a segs ++ [f])%list.
Proof.
  intros Hf. unfold normalize_segments. rewrite foldl_app. simpl.
  by apply norm_step_plain.
Qed.

(** ** The base name of a joined path *)

Lemma basename_join_slash pfx st f :
  pfx = "" ∨ pfx = "/" → Forall proper_segment st → plain_name f →
  basename (pfx +:+ join_slash (st ++ [f])) = f.
Proof.
  intros Hpfx Hst (Hf & Hne & _). unfold basename.
  assert (split_path (join_slash (st ++ [f])) = (st ++ [f])%list) as Hsplit.
  { apply split_path_join; [by destruct st|]. apply Forall_app. split.
    - eapply Forall_impl; [done|]. by intros ? [? _].
    - by constructor. }
  destruct Hpfx as [-> | ->].
  - change ("" +:+ ?s) with s. rewrite Hsplit.
    by rewrite filter_app, filter_cons_True, filter_nil, last_snoc.
  - change ("/" +:+ ?s) with ("" +:+ "/" +:+ s).
    rewrite split_path_slash, Hsplit. simpl.
    rewrite filter_cons_False by (by intros ?).
    by rewrite filter_app, filter_cons_True, filter_nil, last_snoc.
Qed.

(** The base name of [path.join(..., f)] is [f] when [f] is a plain file
    name. *)
Theorem basename_path_join args f :
  plain_name f → basename (path_join (args ++ [f])) = f.
Proof.
  intros Hf. pose proof Hf as (Hns & Hne & _). unfold path_join.
  rewrite filter_app, filter_cons_True, filter_nil by done.
  set (dirs := filter _ args).
  rewrite decide_False by by apply join_slash_snoc_nonempty.
  unfold normalize. rewrite decide_False by by apply join_slash_snoc_nonempty.
  destruct (split_path_join_snoc dirs f Hns) as [pre Hpre].
  pose proof (no_slash_split_path (join_slash (dirs ++ [f]))) as Hall.
  rewrite Hpre in Hall |- *. apply Forall_app in Hall as [Hall _].
  rewrite normalize_segments_snoc by done.
  rewrite decide_False by by apply join_slash_snoc_nonempty.
  assert (has_trailing_slash (join_slash (dirs ++ [f])) = false) as ->.
  { unfold has_trailing_slash. rewrite last_char_join_snoc by done.
    destruct (last_char f) eqn:Hl; [|done]. by eapply no_slash_last_char. }
  rewrite str_app_nil_r. apply basename_join_slash; [|by apply normalize_segments_proper|done].
  destruct (is_absolute _); auto.
Qed.

(** The instance the program uses: the directory of the documents and the
    [filename] of a request. *)
Corollary basename_pdf_path dir filename :
  plain_name filename → basename (path_join [dir; filename]) = filename.
Proof. apply (basename_path_join [dir]). Qed.

(** ** Paths without [".."] *)

Lemma norm_step_no_parent a res seg :
  seg ≠ ".." → norm_step a res seg = (res ++ filter names [seg])%list.
Proof.
  intros Hseg. unfold norm_step, names.
  case_decide as Hn.
  - by rewrite filter_cons_False, filter_nil, app_nil_r by tauto.
  - by rewrite decide_False, filter_cons_True by done.
Qed.

Lemma foldl_norm_step_no_parent a res segs :
  ".." ∉ segs →
  foldl (norm_step a) res segs = (res ++ filter names segs)%list.
Proof.
  revert res. induction segs as [|seg segs IH]; intros res Hs; simpl.
  - by rewrite app_nil_r.
  - apply not_elem_of_cons in Hs as [Hseg Hs].
    rewrite IH, norm_step_no_parent by done.
    by rewrite <-app_assoc, <-filter_app.
Qed.

(** Without [".."] normalisation only drops the segments that name
    nothing. *)
Lemma normalize_segments_no_parent a segs :
  ".." ∉ segs → normalize_segments a segs = filter names segs.
Proof.
  intros Hs. unfold normalize_segments. by rewrite foldl_norm_step_no_parent.
Qed.

Lemma segments_slash s t :
  segments (s +:+ "/" +:+ t) = (segments s ++ segments t)%list.
Proof. unfold segments. by rewrite split_path_slash, filter_app. Qed.

Lemma segments_slash_l s : segments ("/" +:+ s) = segments s.
Proof. apply (segments_slash "" s). Qed.

Lemma segments_slash_r s : segments (s +:+ "/") = segments s.
Proof.
  change (s +:+ "/") with (s +:+ "/" +:+ "").
  rewrite segments_slash. apply app_nil_r.
Qed.

(** The segments of a path are segments that name something. *)
Lemma segments_named p :
  Forall (λ seg, no_slash seg = true ∧ names seg) (segments p).
Proof.
  apply Forall_forall. intros seg [Hseg Hin]%list_elem_of_filter.
  split; [|done].
  by eapply (Forall_forall (λ seg, no_slash seg = true)), Hin;
    apply no_slash_split_path.
Qed.

(** The segments of a path written from its segments. *)
Lemma segments_join_slash segs :
  Forall (λ seg, no_slash seg = true ∧ names seg) segs →
  segments (join_slash segs) = segs.
Proof.
  intros Hsegs. destruct (decide (segs = [])) as [->|Hne]; [done|].
  unfold segments. rewrite split_path_join.
  - apply filter_Forall_id. eapply Forall_impl; [done|]. by intros ? [].
  - done.
  - eapply Forall_impl; [done|]. by intros ? [].
Qed.

Lemma segments_written (abs trail : bool) segs :
  Forall (λ seg, no_slash seg = true ∧ names seg) segs →
  segments ((if abs then "/" else "") +:+ join_slash segs +:+
            (if trail then "/" else "")) = segs.
Proof.
  intros Hsegs. destruct abs; rewrite ?segments_slash_l;
    change ("" +:+ ?s) with s;
    destruct trail; rewrite ?segments_slash_r, ?str_app_nil_r;
    by apply segments_join_slash.
Qed.

(** [path.normalize] keeps the segments of a path without [".."]. *)
Theorem segments_normalize p : no_parent p → segments (normalize p) = segments p.
Proof.
  intros Hp. unfold normalize. case_decide as Hn; [by subst|].
  rewrite normalize_segments_no_parent by done. fold (segments p).
  pose proof (segments_named p) as Hsegs.
  case_decide as Hres; [|by apply segments_written].
  rewrite <-(segments_join_slash (segments p) Hsegs), Hres.
  by repeat case_match.
Qed.

(** The segments of the arguments of [path.join], joined. *)
Lemma segments_join_args args :
  segments (join_slash (filter (λ a, a ≠ "") args)) =
    concat (segments <$> args).
Proof.
  induction args as [|a args IH]; [done|]. rewrite fmap_cons. cbn [concat].
  destruct (decide (a = "")) as [->|Ha].
  - by rewrite filter_cons_False by (by intros ?).
  - rewrite filter_cons_True by done.
    destruct (filter (λ a, a ≠ "") args) as [|b l] eqn:Hl.
    + rewrite <-IH. unfold join_slash. simpl. by rewrite app_nil_r.
    + unfold join_slash in *. rewrite str_concat_cons by done.
      by rewrite segments_slash, IH.
Qed.

Lemma split_path_join_args args :
  Forall no_parent args → no_parent (join_slash (filter (λ a, a ≠ "") args)).
Proof.
  unfold no_parent.
  induction 1 as [|a args Ha _ IH]; [by intros ?%list_elem_of_singleton|].
  destruct (decide (a = "")) as [->|Hne].
  - by rewrite filter_cons_False by (by intros ?).
  - rewrite filter_cons_True by done.
    destruct (filter (λ a, a ≠ "") args) as [|b l] eqn:Hl; [done|].
    unfold join_slash in *. rewrite str_concat_cons by done.
    rewrite split_path_slash. by intros [?|?]%elem_of_app.
Qed.

(** [path.join] of paths without [".."] has the segments of its
    arguments, in order: it moves nothing out of the directories it is
    given. *)
Theorem segments_path_join args :
  Forall no_parent args →
  segments (path_join args) = concat (segments <$> args).
Proof.
  intros Hargs. unfold path_join. rewrite <-segments_join_args.
  case_decide as Hj; [by rewrite Hj|].
  by apply segments_normalize, split_path_join_args.
Qed.

(** [path.normalize] keeps a relative path relative. *)
Lemma is_absolute_normalize p : is_absolute (normalize p) = is_absolute p.
Proof.
  unfold normalize. case_decide as Hn; [by subst|].
  destruct (is_absolute p) eqn:Habs; [by case_decide|]. simpl.
  set (segs := normalize_segments true (split_path p)).
  pose proof (normalize_segments_proper true (split_path p)
                (no_slash_split_path p)) as Hsegs. fold segs in Hsegs.
  case_decide as Hres; [by case_match|].
  destruct Hsegs as [|seg segs' [Hns Hne] _]; [done|].
  destruct seg as [|c seg]; [done|]. apply andb_prop in Hns as [Hc%negb_true_iff _].
  unfold join_slash. by destruct segs'.
Qed.

Example segments_samples :
  segments "./input//PDF/" = ["input"; "PDF"] ∧
  segments (path_join ["input/PDF"; "sub/a.pdf"]) =
    ["input"; "PDF"; "sub"; "a.pdf"] ∧
  segments (path_join ["input/PDF"; "/etc/a.pdf"]) =
    ["input"; "PDF"; "etc"; "a.pdf"] ∧
  segments (path_join ["input/PDF"; "../../etc/a.pdf"]) = ["etc"; "a.pdf"].
Proof. by vm_compute. Qed.

(** ** The base name of a path without [".."] *)

Lemma split_path_slash_l s : split_path ("/" +:+ s) = "" :: split_path s.
Proof. apply (split_path_slash "" s). Qed.

Lemma split_path_slash_r s :
  split_path (s +:+ "/") = (split_path s ++ [""])%list.
Proof.
  change (s +:+ "/") with (s +:+ "/" +:+ ""). apply split_path_slash.
Qed.

(** The base name of a path written from its segments is the last of
    them. *)
Lemma basename_written (abs trail : bool) segs :
  segs ≠ [] → Forall (λ seg, no_slash seg = true ∧ names seg) segs →
  basename ((if abs then "/" else "") +:+ join_slash segs +:+
            (if trail then "/" else "")) = default "" (last segs).
Proof.
  intros Hne Hsegs. unfold basename.
  assert (split_path (join_slash segs) = segs) as Hsplit.
  { apply split_path_join; [done|].
    eapply Forall_impl; [done|]. by intros ? []. }
  assert (filter (λ seg, seg ≠ "") segs = segs) as Hall.
  { apply filter_Forall_id. eapply Forall_impl; [done|].
    intros seg [_ Hn] ->. apply Hn. by left. }
  destruct abs; rewrite ?split_path_slash_l; change ("" +:+ ?s) with s;
    destruct trail; rewrite ?split_path_slash_r, ?str_app_nil_r, Hsplit;
    rewrite ?filter_cons_False, ?filter_app, ?Hall by (by intros ?);
    by rewrite ?filter_cons_False, ?filter_nil, ?app_nil_r by (by intros ?).
Qed.

Lemma join_slash_nonempty segs :
  segs ≠ [] → Forall (λ seg, no_slash seg = true ∧ names seg) segs →
  join_slash segs ≠ "".
Proof.
  intros Hne Hsegs. destruct Hsegs as [|seg segs [_ Hn] _]; [done|].
  assert (seg ≠ "") as Hseg by (intros ->; apply Hn; by left).
  unfold join_slash. destruct segs as [|seg' segs]; [done|].
  rewrite str_concat_cons by done. by intros [? _]%str_app_nil_inv.
Qed.

(** The base name of a normalised path without [".."] is its last
    segment that names something. *)
Theorem basename_normalize p :
  no_parent p → segments p ≠ [] →
  basename (normalize p) = default "" (last (segments p)).
Proof.
  intros Hp Hne. unfold normalize. rewrite decide_False by by intros ->.
  rewrite normalize_segments_no_parent by done. fold (segments p).
  pose proof (segments_named p) as Hsegs.
  rewrite decide_False by by apply join_slash_nonempty.
  by apply basename_written.
Qed.

(** The base name of [path.join] of paths without [".."] is the last
    segment of its arguments that names something. *)
Theorem basename_path_join_last args :
  Forall no_parent args → concat (segments <$> args) ≠ [] →
  basename (path_join args) = default "" (last (concat (segments <$> args))).
Proof.
  intros Hargs Hne. unfold path_join. rewrite <-segments_join_args in *.
  rewrite decide_False by (intros Hj; by rewrite Hj in Hne).
  by apply basename_normalize; [apply split_path_join_args|].
Qed.

Example basename_join_samples :
  basename (path_join ["input/PDF"; "sub/a.pdf"]) = "a.pdf" ∧
  basename (path_join ["input/PDF"; "a.pdf/"]) = "a.pdf" ∧
  basename (path_join ["input/PDF"; "."]) = "PDF" ∧
  basename (path_join ["input/PDF"; "../.."]) = ".".
Proof. by vm_compute. Qed.
