(* ===== verification/JsObject.v ===== *)
(** * Plain objects keyed by numbers

    [extractByFontMetrics] uses two objects as maps from font sizes: it
    writes [m[size] = v], reads [m[size]] and enumerates
    [Object.keys(m)]. A property key is a string, so a number is
    converted on every access; [num_key] of [JsNumber] stands for the
    conversion.

    An object is the list of its properties in creation order. Writing an
    existing property keeps its place; a new property goes last.
    [Object.keys] lists the keys that are array indices first, in
    ascending numeric order, then the others in creation order. *)

From S2P Require Import Prelude JsNumber JsArray.

Section obj.
Context `{JsKey F} {V : Type}.
Implicit Types (k x : F) (v : V) (m : list (F * V)).

(** ** Operations *)

(** The property with the canonical key [k]. *)
Fixpoint obj_lookup k m : option V :=
  match m with
  | [] => None
  | (k', v) :: m' => if decide (k = k') then Some v else obj_lookup k m'
  end.

Fixpoint obj_store k v m : list (F * V) :=
  match m with
  | [] => [(k, v)]
  | (k', v') :: m' =>
      if decide (k = k') then (k, v) :: m' else (k', v') :: obj_store k v m'
  end.

(** [m[x]], [undefined] being [None]. *)
Definition obj_get x m : option V := obj_lookup (num_key x) m.

(** [m[x] = v]. *)
Definition obj_set x v m : list (F * V) := obj_store (num_key x) v m.

Definition is_index k : Prop := is_Some (num_index k).

(** The order of two array indices. *)
Definition index_cmp (a b : F) : comparison :=
  match num_index a, num_index b with
  | Some i, Some j => (i ?= j)%Z
  | _, _ => Eq
  end.

(** [Object.keys(m).map(Number)]. *)
Definition obj_keys m : list F :=
  js_sort index_cmp (filter is_index m.*1) ++ filter (λ k, ¬ is_index k) m.*1.

(** An object's keys are canonical and distinct. *)
Definition obj_wf m : Prop :=
  NoDup m.*1 ∧ Forall (λ k, num_key k = k) m.*1.

(** ** Reading and writing *)

Lemma obj_lookup_store k k' v m :
  obj_lookup k' (obj_store k v m) =
    if decide (k' = k) then Some v else obj_lookup k' m.
Proof.
  induction m as [|[k0 v0] m IH]; simpl.
  - by repeat case_decide.
  - repeat (case_decide || simpl); simplify_eq; done.
Qed.

Lemma obj_lookup_store_eq k v m : obj_lookup k (obj_store k v m) = Some v.
Proof. by rewrite obj_lookup_store, decide_True. Qed.

Lemma obj_lookup_store_ne k k' v m :
  k' ≠ k → obj_lookup k' (obj_store k v m) = obj_lookup k' m.
Proof. intros. by rewrite obj_lookup_store, decide_False. Qed.

Lemma obj_lookup_Some k m : is_Some (obj_lookup k m) ↔ k ∈ m.*1.
Proof.
  induction m as [|[k0 v0] m IH]; simpl.
  - rewrite elem_of_nil. split; [by intros [? ?]|done].
  - rewrite elem_of_cons. case_decide as Hk.
    + split; [by left|by eexists].
    + rewrite IH. split; [by right|]. by intros [?|?].
Qed.

Lemma obj_lookup_None k m : obj_lookup k m = None ↔ k ∉ m.*1.
Proof. by rewrite <-obj_lookup_Some, eq_None_not_Some. Qed.

Lemma obj_lookup_elem_of k v m : obj_lookup k m = Some v → (k, v) ∈ m.
Proof.
  induction m as [|[k0 v0] m IH]; simpl; [done|].
  case_decide; [intros [= ->]; subst; left|right; auto].
Qed.

(** Writing keeps the creation order: an existing key stays where it is,
    a new key goes last. *)
Lemma obj_store_keys k v m :
  (obj_store k v m).*1 = if decide (k ∈ m.*1) then m.*1 else m.*1 ++ [k].
Proof.
  induction m as [|[k0 v0] m IH]; [done|]. csimpl.
  destruct (decide (k = k0)) as [->|Hne]; csimpl.
  - by rewrite decide_True by left.
  - rewrite IH. destruct (decide (k ∈ m.*1)).
    + by rewrite decide_True by by right.
    + rewrite decide_False; [done|]. by intros [?|?]%elem_of_cons.
Qed.

Lemma obj_store_wf k v m : num_key k = k → obj_wf m → obj_wf (obj_store k v m).
Proof.
  intros Hk [Hnd Hc]. unfold obj_wf. rewrite obj_store_keys.
  case_decide; [done|]. split.
  - apply NoDup_app. split_and!; [done| |apply NoDup_singleton].
    intros k' Hk' ->%list_elem_of_singleton. done.
  - apply Forall_app. split; [done|]. by constructor.
Qed.

Lemma obj_set_wf `{!JsKeyLaws F} x v m : obj_wf m → obj_wf (obj_set x v m).
Proof. apply obj_store_wf, num_key_idemp. Qed.

Lemma obj_empty_wf : obj_wf [].
Proof. split; constructor. Qed.

Lemma obj_get_set x y v m :
  obj_get y (obj_set x v m) =
    if decide (num_key y = num_key x) then Some v else obj_get y m.
Proof. apply obj_lookup_store. Qed.

(** ** Enumeration *)

Lemma obj_keys_perm m : obj_keys m ≡ₚ m.*1.
Proof.
  unfold obj_keys. rewrite js_sort_perm.
  induction m.*1 as [|k l IH]; [done|].
  rewrite !filter_cons. destruct (decide (is_index k)).
  - rewrite decide_False by (by intros ?). simpl. by rewrite IH.
  - rewrite decide_True by done. by rewrite <-Permutation_middle, IH.
Qed.

Lemma elem_of_obj_keys k m : k ∈ obj_keys m ↔ is_Some (obj_lookup k m).
Proof. by rewrite obj_keys_perm, obj_lookup_Some. Qed.

Lemma obj_keys_NoDup m : obj_wf m → NoDup (obj_keys m).
Proof. intros [Hnd _]. by rewrite obj_keys_perm. Qed.

Lemma obj_keys_length m : length (obj_keys m) = length m.
Proof. by rewrite obj_keys_perm, length_fmap. Qed.

(** With no key an array index, enumeration is creation order. *)
Lemma obj_keys_no_index m :
  Forall (λ k, ¬ is_index k) m.*1 → obj_keys m = m.*1.
Proof.
  intros Hn. unfold obj_keys.
  assert (filter is_index m.*1 = []) as ->.
  { induction Hn as [|k l Hk Hl IH]; [done|]. by rewrite filter_cons_False. }
  simpl. induction Hn as [|k l Hk Hl IH]; [done|].
  by rewrite filter_cons_True, IH.
Qed.

(** The comparator of indices is consistent on array indices. *)
Lemma index_cmp_consistent : ConsistentOn index_cmp is_index.
Proof.
  split; unfold index_cmp, cmp_le.
  - intros x y [i ->] [j ->]. apply Z.compare_antisym.
  - intros x y z [i ->] [j ->] [k ->]. rewrite !Z.compare_le_iff. lia.
Qed.

(** The array indices come first, in ascending order. *)
Lemma obj_keys_index_sorted m :
  StronglySorted (cmp_le index_cmp) (js_sort index_cmp (filter is_index m.*1)).
Proof.
  apply (js_sort_sorted _ is_index); [apply index_cmp_consistent|].
  apply Forall_forall. by intros k [? _]%list_elem_of_filter.
Qed.

Lemma obj_keys_index_first m k1 k2 i1 i2 :
  obj_keys m !! i1 = Some k1 → obj_keys m !! i2 = Some k2 →
  is_index k2 → ¬ is_index k1 → i2 < i1.
Proof.
  unfold obj_keys. intros H1 H2 Hk2 Hk1.
  set (a := js_sort index_cmp (filter is_index m.*1)) in *.
  assert (Forall is_index a) as Ha.
  { apply Forall_js_sort, Forall_forall. by intros k [? _]%list_elem_of_filter. }
  apply lookup_app_Some in H1 as [H1|[Hge H1]].
  { rewrite Forall_forall in Ha. apply list_elem_of_lookup_2, Ha in H1. done. }
  apply lookup_app_Some in H2 as [H2|[? H2]].
  { apply lookup_lt_Some in H2. lia. }
  apply list_elem_of_lookup_2, list_elem_of_filter in H2 as [? _]. done.
Qed.
End obj.
