(* ===== verification/Json.v ===== *)
(** * JSON: values, [JSON.stringify] and [JSON.parse]

    [src/extract.js] reads its request with [fs.readJson] and writes its
    report with [fs.writeJson(file, data, { spaces: 2 })]. Both come from
    the package jsonfile: reading is [JSON.parse] of the text of the
    file, writing is [JSON.stringify(data, null, 2)] followed by a line
    feed.

    The file holds the values of JavaScript that JSON can carry, the text
    [JSON.stringify] gives a value with an indentation of two spaces, and
    a parser of JSON texts, from ECMA-262 (24.5) and ECMA-404.

    The fragment: numbers are integers no larger in magnitude than 2^53,
    strings are sequences of 8-bit code units, and no key of an object is
    an array index. The parser says so when a text leaves the fragment
    ([Unsupported]) and does not guess.

    The theorems are in the files [JsonText] (parsing the text of a
    value gives the value back) and [JsonParser] (what the parser
    returns, and its fuel). *)

From Stdlib Require Import Ascii.
From S2P Require Import Prelude JsString.

Local Open Scope string_scope.

(** ** Values *)

(** The induction principle that fits the type is [JsValue_forall_ind]
    below. *)
Local Unset Elimination Schemes.
Inductive JsValue : Type :=
  | VUndefined
  | VNull
  | VBool (b : bool)
  | VNum (n : Z)
  | VStr (s : string)
  | VArr (elems : list JsValue)
  (** the properties in the order of their creation *)
  | VObj (props : list (string * JsValue)).
Local Set Elimination Schemes.

Definition is_undefined (v : JsValue) : bool :=
  match v with VUndefined => true | _ => false end.

Section JsValue_ind.
Context (P : JsValue → Prop).
Context (Hundefined : P VUndefined) (Hnull : P VNull).
Context (Hbool : ∀ b, P (VBool b)) (Hnum : ∀ n, P (VNum n)).
Context (Hstr : ∀ s, P (VStr s)).
Context (Harr : ∀ elems, Forall P elems → P (VArr elems)).
Context (Hobj : ∀ props, Forall (λ p, P p.2) props → P (VObj props)).

Fixpoint JsValue_forall_ind (v : JsValue) : P v :=
  match v with
  | VUndefined => Hundefined
  | VNull => Hnull
  | VBool b => Hbool b
  | VNum n => Hnum n
  | VStr s => Hstr s
  | VArr elems =>
      Harr elems
        ((fix go (l : list JsValue) : Forall P l :=
            match l with
            | [] => Forall_nil_2 P
            | x :: l' => Forall_cons_2 P x l' (JsValue_forall_ind x) (go l')
            end) elems)
  | VObj props =>
      Hobj props
        ((fix go (l : list (string * JsValue)) : Forall (λ p, P p.2) l :=
            match l with
            | [] => Forall_nil_2 _
            | p :: l' =>
                Forall_cons_2 (λ p, P p.2) p l' (JsValue_forall_ind p.2) (go l')
            end) props)
  end.
End JsValue_ind.

#[export] Instance JsValue_eq_dec : EqDecision JsValue.
Proof.
  refine (fix go (x y : JsValue) {struct x} : Decision (x = y) :=
    match x, y with
    | VUndefined, VUndefined | VNull, VNull => left _
    | VBool a, VBool b => cast_if (decide (a = b))
    | VNum a, VNum b => cast_if (decide (a = b))
    | VStr a, VStr b => cast_if (decide (a = b))
    | VArr a, VArr b => cast_if (@list_eq_dec _ go a b)
    | VObj a, VObj b =>
        cast_if (@list_eq_dec _ (@prod_eq_dec _ _ _ go) a b)
    | _, _ => right _
    end); abstract congruence.
Defined.

(** ** Characters *)

Definition dquote : ascii := "034"%char.
Definition backslash : ascii := "092"%char.
Definition LF : ascii := "010"%char.

(** A line feed. *)
Definition newline : string := String LF "".

Definition char_code (c : ascii) : N := N_of_ascii c.

Definition is_digit (c : ascii) : bool :=
  (48 <=? char_code c)%N && (char_code c <=? 57)%N.

Definition hex_char (n : N) : ascii :=
  ascii_of_N (if (n <? 10)%N then 48 + n else 87 + n).

Definition hex_value (c : ascii) : option N :=
  let n := char_code c in
  if is_digit c then Some (n - 48)%N
  else if (97 <=? n)%N && (n <=? 102)%N then Some (n - 87)%N
  else if (65 <=? n)%N && (n <=? 70)%N then Some (n - 55)%N
  else None.

(** ** [JSON.stringify(value, null, 2)] *)

(** The two-character escapes of QuoteJSONString. *)
Definition short_escape (c : ascii) : option ascii :=
  match char_code c with
  | 8 => Some "b"%char | 9 => Some "t"%char | 10 => Some "n"%char
  | 12 => Some "f"%char | 13 => Some "r"%char
  | 34 => Some dquote | 92 => Some backslash
  | _ => None
  end%N.

Definition escape_char (c : ascii) : string :=
  match short_escape c with
  | Some e => String backslash (String e "")
  | None =>
      if (char_code c <? 32)%N then
        String backslash
          ("u00" +:+ String (hex_char (char_code c / 16))
                       (String (hex_char (char_code c mod 16)) ""))
      else String c ""
  end.

Fixpoint escape (s : string) : string :=
  match s with
  | "" => ""
  | String c s' => escape_char c +:+ escape s'
  end.

(** QuoteJSONString. *)
Definition quote (s : string) : string :=
  String dquote (escape s +:+ String dquote "").

(** The indentation at depth [d]: [d] times the gap of two spaces. *)
Fixpoint indent (d : nat) : string :=
  match d with 0 => "" | S d' => "  " +:+ indent d' end.

(** The separator of the parts of an array or object at depth [d]. *)
Definition separator (d : nat) : string := "," +:+ newline +:+ indent d.

(** SerializeJSONArray and SerializeJSONObject, from the texts of the
    parts: the empty pair of brackets, or a part on each line, one level
    deeper. *)
Definition bracket (opening closing : string) (d : nat) (parts : list string)
  : string :=
  match parts with
  | [] => opening +:+ closing
  | _ =>
      opening +:+ newline +:+ indent (S d) +:+
      String.concat (separator (S d)) parts +:+
      newline +:+ indent d +:+ closing
  end.

(** SerializeJSONProperty at depth [d]: no text for [undefined]. An
    element of an array that has no text is written [null]; a property
    that has none is left out. *)
Fixpoint stringify_at (d : nat) (v : JsValue) : option string :=
  match v with
  | VUndefined => None
  | VNull => Some "null"
  | VBool b => Some (if b then "true" else "false")
  | VNum n => Some (pretty n)
  | VStr s => Some (quote s)
  | VArr elems =>
      Some (bracket "[" "]" d
              ((λ x, default "null" (stringify_at (S d) x)) <$> elems))
  | VObj props =>
      Some (bracket "{" "}" d
              (omap (λ p, (λ t, quote p.1 +:+ ": " +:+ t) <$>
                            stringify_at (S d) p.2) props))
  end.

Definition JSON_stringify (v : JsValue) : option string := stringify_at 0 v.

(** What is left of a value in its text: [JSON.parse(JSON.stringify(v))]. *)
Fixpoint to_json (v : JsValue) : JsValue :=
  match v with
  | VArr elems =>
      VArr ((λ x, if is_undefined x then VNull else to_json x) <$> elems)
  | VObj props =>
      VObj (omap (λ p, if is_undefined p.2 then None
                       else Some (p.1, to_json p.2)) props)
  | _ => v
  end.

(** ** [JSON.parse] *)

(** The outcome of parsing: a value and the rest of the text, a
    [SyntaxError], or a text outside the fragment. *)
Inductive presult (A : Type) : Type :=
  | Parsed (a : A) (rest : string)
  | SyntaxError
  | Unsupported.
Arguments Parsed {_} _ _.
Arguments SyntaxError {_}.
Arguments Unsupported {_}.

Definition pbind {A B} (m : presult A) (f : A → string → presult B)
  : presult B :=
  match m with
  | Parsed a rest => f a rest
  | SyntaxError => SyntaxError
  | Unsupported => Unsupported
  end.

Definition is_ws (c : ascii) : bool :=
  match char_code c with 32 | 9 | 10 | 13 => true | _ => false end%N.

Fixpoint skip_ws (s : string) : string :=
  match s with
  | String c s' => if is_ws c then skip_ws s' else s
  | "" => ""
  end.

(** The rest of [s] after the word [w], if [s] starts with it. *)
Fixpoint strip_prefix (w s : string) : option string :=
  match w, s with
  | "", _ => Some s
  | String a w', String b s' =>
      if decide (a = b) then strip_prefix w' s' else None
  | _, _ => None
  end.

(** The rest of [s] after the character [c], if [s] starts with it. *)
Definition strip_char (c : ascii) (s : string) : option string :=
  match s with
  | String c' s' => if decide (c = c') then Some s' else None
  | "" => None
  end.

(** The character a two-character escape stands for. *)
Definition unescape (e : ascii) : option ascii :=
  if decide (e = dquote ∨ e = backslash ∨ e = "/"%char) then Some e
  else if decide (e = "b"%char) then Some "008"%char
  else if decide (e = "t"%char) then Some "009"%char
  else if decide (e = "n"%char) then Some "010"%char
  else if decide (e = "f"%char) then Some "012"%char
  else if decide (e = "r"%char) then Some "013"%char
  else None.

(** The code unit of the four hexadecimal digits of [\uXXXX], when it is
    below 256. *)
Definition hex_unit (h1 h2 h3 h4 : ascii) : presult ascii :=
  match hex_value h1, hex_value h2, hex_value h3, hex_value h4 with
  | Some a, Some b, Some c, Some d =>
      if decide (a = 0 ∧ b = 0)%N then Parsed (ascii_of_N (16 * c + d)) ""
      else Unsupported
  | _, _, _, _ => SyntaxError
  end.

(** The characters of a string, after the opening quote and up to the
    closing one. *)
Fixpoint parse_chars (s : string) : presult string :=
  match s with
  | "" => SyntaxError
  | String c s' =>
      if decide (c = dquote) then Parsed "" s'
      else if decide (c = backslash) then
        match s' with
        | String e s'' =>
            match unescape e with
            | Some c' => pbind (parse_chars s'') (λ t, Parsed (String c' t))
            | None =>
                match s'' with
                | String h1 (String h2 (String h3 (String h4 s3))) =>
                    if decide (e = "u"%char) then
                      pbind (hex_unit h1 h2 h3 h4) (λ c' _,
                        pbind (parse_chars s3) (λ t, Parsed (String c' t)))
                    else SyntaxError
                | _ => SyntaxError
                end
            end
        | "" => SyntaxError
        end
      else if (char_code c <? 32)%N then SyntaxError
      else pbind (parse_chars s') (λ t, Parsed (String c t))
  end.

(** A string: the opening quote and its characters. *)
Definition parse_string (s : string) : presult string :=
  match strip_char dquote s with
  | Some s' => parse_chars s'
  | None => SyntaxError
  end.

(** The digits at the start of [s], as a number after [acc]. *)
Fixpoint parse_digits (acc : N) (s : string) : N * string :=
  match s with
  | String c s' =>
      if is_digit c then parse_digits (10 * acc + (char_code c - 48)) s'
      else (acc, s)
  | "" => (acc, s)
  end.

(** The largest magnitude of an integer that a number holds exactly. *)
Definition max_safe : Z := 2 ^ 53.

(** A number may not go on with a fraction or an exponent. *)
Definition number_goes_on (s : string) : bool :=
  match s with
  | String c _ => bool_decide (c = "." ∨ c = "e" ∨ c = "E")%char
  | "" => false
  end.

(** The digits of a number, its sign read. *)
Definition parse_magnitude (s : string) : presult N :=
  match s with
  | String c s' =>
      if negb (is_digit c) then SyntaxError
      else
        let '(n, rest) := parse_digits 0 s in
        if bool_decide (c = "0"%char) && negb (bool_decide (rest = s'))
        then SyntaxError
        else if number_goes_on rest then Unsupported
        else if bool_decide (Z.of_N n ≤ max_safe)%Z then Parsed n rest
        else Unsupported
  | "" => SyntaxError
  end.

Definition parse_number (s : string) : presult Z :=
  match strip_char "-" s with
  | Some s' =>
      pbind (parse_magnitude s')
        (λ n rest, if decide (n = 0)%N then Unsupported
                   else Parsed (- Z.of_N n)%Z rest)
  | None => pbind (parse_magnitude s) (λ n, Parsed (Z.of_N n))
  end.

(** A key that is an array index: such properties come first when an
    object is enumerated, and are outside the fragment. *)
Definition is_array_index (k : string) : bool :=
  match k with
  | "" => false
  | String c k' =>
      is_digit c && bool_decide (snd (parse_digits 0 k) = "") &&
      (bool_decide (k' = "") || negb (bool_decide (c = "0"%char)))
  end.

(** Defining a property: a property of that name keeps its place and
    takes the new value. *)
Fixpoint props_put (k : string) (v : JsValue) (props : list (string * JsValue))
  : list (string * JsValue) :=
  match props with
  | [] => [(k, v)]
  | (k', v') :: props' =>
      if decide (k = k') then (k, v) :: props'
      else (k', v') :: props_put k v props'
  end.

(** Reading a property: [undefined] when there is none of that name. *)
Fixpoint props_get (k : string) (props : list (string * JsValue)) : JsValue :=
  match props with
  | [] => VUndefined
  | (k', v) :: props' => if decide (k = k') then v else props_get k props'
  end.

(** [v[k]] for a value that is not [undefined] or [null]: a value that is
    not an object has no property of its own. *)
Definition field (k : string) (v : JsValue) : JsValue :=
  match v with VObj props => props_get k props | _ => VUndefined end.

Section loops.
(** The parser of the values of an array or an object. *)
Context (value : string → presult JsValue).

(** The elements of an array after the first, up to the closing bracket;
    [k] bounds their number. *)
Fixpoint parse_elements (k : nat) (acc : list JsValue) (s : string)
  : presult JsValue :=
  match k with
  | 0 => Unsupported
  | S k' =>
      match strip_char "," (skip_ws s), strip_char "]" (skip_ws s) with
      | Some s', _ =>
          pbind (value (skip_ws s'))
            (λ v, parse_elements k' (acc ++ [v])%list)
      | None, Some s' => Parsed (VArr acc) s'
      | None, None => SyntaxError
      end
  end.

(** A member of an object: the key, the colon and the value. *)
Definition parse_member (acc : list (string * JsValue)) (s : string)
  : presult (list (string * JsValue)) :=
  pbind (parse_string s) (λ key s1,
    match strip_char ":" (skip_ws s1) with
    | Some s2 =>
        if is_array_index key then Unsupported
        else pbind (value (skip_ws s2)) (λ v, Parsed (props_put key v acc))
    | None => SyntaxError
    end).

(** The members of an object after the first, up to the closing brace. *)
Fixpoint parse_members (k : nat) (acc : list (string * JsValue)) (s : string)
  : presult JsValue :=
  match k with
  | 0 => Unsupported
  | S k' =>
      match strip_char "," (skip_ws s), strip_char "}" (skip_ws s) with
      | Some s', _ => pbind (parse_member acc (skip_ws s')) (parse_members k')
      | None, Some s' => Parsed (VObj acc) s'
      | None, None => SyntaxError
      end
  end.
End loops.

(** The value that is a word: [null], [true] or [false]. *)
Definition parse_word (s : string) : presult JsValue :=
  match strip_prefix "null" s, strip_prefix "true" s,
        strip_prefix "false" s with
  | Some rest, _, _ => Parsed VNull rest
  | _, Some rest, _ => Parsed (VBool true) rest
  | _, _, Some rest => Parsed (VBool false) rest
  | _, _, _ => SyntaxError
  end.

(** A value that is not an array or an object. *)
Definition parse_scalar (s : string) : presult JsValue :=
  match s with
  | String c _ =>
      if decide (c = dquote)
      then pbind (parse_string s) (λ t, Parsed (VStr t))
      else if is_digit c || bool_decide (c = "-"%char)
      then pbind (parse_number s) (λ z, Parsed (VNum z))
      else parse_word s
  | "" => SyntaxError
  end.

(** A value: [fuel] bounds the nesting of arrays and objects and the
    number of parts of each. *)
Fixpoint parse_value (fuel : nat) (s : string) : presult JsValue :=
  match fuel with
  | 0 => Unsupported
  | S n =>
      match strip_char "[" s, strip_char "{" s with
      | Some s', _ =>
          match strip_char "]" (skip_ws s') with
          | Some s'' => Parsed (VArr []) s''
          | None =>
              pbind (parse_value n (skip_ws s'))
                (λ v, parse_elements (parse_value n) n [v])
          end
      | None, Some s' =>
          match strip_char "}" (skip_ws s') with
          | Some s'' => Parsed (VObj []) s''
          | None =>
              pbind (parse_member (parse_value n) [] (skip_ws s'))
                (parse_members (parse_value n) n)
          end
      | None, None => parse_scalar s
      end
  end.

(** [JSON.parse(text)]: a value between white space, and nothing
    else. *)
Definition JSON_parse (text : string) : presult JsValue :=
  pbind (parse_value (S (String.length text)) (skip_ws text))
    (λ v rest, if decide (skip_ws rest = "") then Parsed v "" else SyntaxError).

(** ** Values in the fragment *)

(** The numbers are integers that a number holds exactly; the keys of an
    object are distinct and none is an array index. *)
Fixpoint json_wf (v : JsValue) : bool :=
  match v with
  | VNum n => bool_decide (- max_safe ≤ n ≤ max_safe)%Z
  | VArr elems => forallb json_wf elems
  | VObj props =>
      bool_decide (NoDup props.*1) &&
      forallb (λ p, negb (is_array_index p.1) && json_wf p.2) props
  | _ => true
  end.

(** The number of values in a value. *)
Fixpoint size (v : JsValue) : nat :=
  match v with
  | VArr elems => S (sum_list (size <$> elems))
  | VObj props => S (sum_list ((λ p, size p.2) <$> props))
  | _ => 1
  end.

(** The texts of the examples are written with an apostrophe where the
    text has a double quote. *)
Fixpoint dq (s : string) : string :=
  match s with
  | "" => ""
  | String c s' => String (if decide (c = "'"%char) then dquote else c) (dq s')
  end.

Definition sample_value : JsValue :=
  VObj [("name", VStr "a b"); ("skipped", VUndefined);
        ("list", VArr [VNum 1; VUndefined; VNum (-20); VBool true; VArr []]);
        ("nested", VObj [("none", VNull)])].

(** ** Properties of objects *)

Lemma props_get_here k v props : props_get k ((k, v) :: props) = v.
Proof. simpl. by rewrite decide_True. Qed.

Lemma props_get_next k k' v props :
  k ≠ k' → props_get k ((k', v) :: props) = props_get k props.
Proof. intros. simpl. by rewrite decide_False. Qed.

Lemma props_get_nil k : props_get k [] = VUndefined.
Proof. done. Qed.

Lemma props_get_put k v props : props_get k (props_put k v props) = v.
Proof.
  induction props as [|[k' v'] props IH]; simpl; [by rewrite decide_True|].
  destruct (decide (k = k')) as [->|Hne]; simpl.
  - by rewrite decide_True.
  - by rewrite decide_False.
Qed.

Lemma props_get_put_ne k k' v props :
  k ≠ k' → props_get k (props_put k' v props) = props_get k props.
Proof.
  intros Hne. induction props as [|[k'' v''] props IH]; simpl.
  - by rewrite decide_False.
  - destruct (decide (k' = k'')) as [->|]; simpl; [by rewrite !decide_False|].
    by rewrite IH.
Qed.

Lemma props_put_keys k v props :
  (props_put k v props).*1 =
  if decide (k ∈ props.*1) then props.*1 else (props.*1 ++ [k])%list.
Proof.
  induction props as [|[k' v'] props IH]; [done|]. simpl.
  destruct (decide (k = k')) as [->|Hne]; csimpl.
  - by rewrite decide_True by left.
  - rewrite IH. destruct (decide (k ∈ props.*1)).
    + by rewrite decide_True by by right.
    + by rewrite decide_False by by intros [?|?]%elem_of_cons.
Qed.

Lemma props_put_fresh k v acc :
  k ∉ acc.*1 → props_put k v acc = (acc ++ [(k, v)])%list.
Proof.
  induction acc as [|[k' v'] acc IH]; [done|]. simpl.
  rewrite not_elem_of_cons. intros [? ?]. by rewrite decide_False, IH.
Qed.

Lemma props_get_fresh k props : k ∉ props.*1 → props_get k props = VUndefined.
Proof.
  induction props as [|[k' v] props IH]; [done|]. csimpl.
  rewrite not_elem_of_cons. intros [? ?]. by rewrite decide_False, IH.
Qed.

(** Reading the properties of an object literal. *)
Create Rewrite HintDb json.
#[export] Hint Rewrite props_get_here props_get_nil : json.
#[export] Hint Rewrite props_get_next using done : json.

(** ** Examples *)

Example stringify_sample :
  JSON_stringify sample_value = Some (dq "{
  'name': 'a b',
  'list': [
    1,
    null,
    -20,
    true,
    []
  ],
  'nested': {
    'none': null
  }
}").
Proof. vm_compute. reflexivity. Qed.

Example parse_sample :
  JSON_parse (dq " {'name' : 'a b', 'list':[1,null, -20,true,[ ]],
    'nested':{'none':null}} ") =
  Parsed (to_json sample_value) "".
Proof. vm_compute. reflexivity. Qed.

(** Control characters, the double quote and the backslash are escaped,
    and read back. *)
Example quote_sample :
  quote (String "009" (dq "a'b") +:+ String backslash (String "001" "")) =
  dq "'\ta\'b\\\u0001'".
Proof. vm_compute. reflexivity. Qed.

Example parse_escapes :
  JSON_parse (dq "'\u0041\/\n'") =
  Parsed (VStr (String "A" (String "/" newline))) "".
Proof. vm_compute. reflexivity. Qed.

(** A later property of the same name takes the place of the earlier
    one. *)
Example parse_duplicate_keys :
  JSON_parse (dq "{'a': 1, 'b': 2, 'a': 3}") =
  Parsed (VObj [("a", VNum 3); ("b", VNum 2)]) "".
Proof. vm_compute. reflexivity. Qed.

Example parse_syntax_errors :
  Forall (λ text, JSON_parse text = SyntaxError)
    ["[1,]"; "[1 2]"; "01"; "-"; dq "{'a' 1}"; dq "{'a':1,}"; dq "'a";
     "nul"; "1 x"; ""; dq "{a:1}"; dq "'" +:+ String "009" (dq "'")].
Proof. repeat constructor. Qed.

(** Texts of JSON outside the fragment. *)
Example parse_unsupported :
  Forall (λ text, JSON_parse text = Unsupported)
    ["1.5"; "1e3"; "-0"; "9007199254740993"; dq "{'0': 1}";
     dq "'\u0100'"].
Proof. repeat constructor. Qed.

Example parse_max_safe :
  JSON_parse "-9007199254740992" = Parsed (VNum (- max_safe)) "".
Proof. vm_compute. reflexivity. Qed.
