(* ===== verification/JsonText.v ===== *)
(** * JSON: the round trip

    Parsing the text of a value gives the value back, without the
    properties that are [undefined] and with [null] for the elements
    that are: [parse_value_stringify] at any depth of nesting and whatever
    follows the text, [JSON_parse_text] and [JSON_parse_stringify] for a
    whole text.

    The proof follows the printer: strings ([parse_string_quote]),
    numbers ([parse_number_pretty]), the parts of an array
    ([parse_elements_parts]) and of an object ([parse_members_parts]),
    then values by induction. It shows on the way that the fuel
    [JSON_parse] gives its parser is enough for the texts
    [JSON.stringify] writes ([size_stringify]). *)

From Stdlib Require Import Ascii.
From S2P Require Import Prelude JsString Json.

Local Open Scope string_scope.

(** A character a value can start with. *)
Definition value_start (c : ascii) : bool :=
  is_digit c ||
  bool_decide (c ∈ ["n"; "t"; "f"; dquote; "["; "{"; "-"]%char).

(** The text does not go on with a digit, a fraction or an exponent. *)
Definition number_ends (s : string) : bool :=
  match s with
  | String c _ => negb (is_digit c) && negb (number_goes_on s)
  | "" => true
  end.

(** A text that starts as a value does. *)
Definition starts_value (t : string) : Prop :=
  ∃ c t', t = String c t' ∧ value_start c = true.

(** The parts after the first of an array or object, and what follows
    them. *)
Definition rest_parts (sep : string) (parts : list string) (tail : string)
  : string :=
  foldr (λ p t, sep +:+ p +:+ t) tail parts.

(** The text and the value of an element of an array. *)
Definition elem_text (d : nat) (x : JsValue) : string :=
  default "null" (stringify_at d x).

Definition elem_json (x : JsValue) : JsValue :=
  if is_undefined x then VNull else to_json x.

(** The properties that are written. *)
Definition kept (props : list (string * JsValue)) : list (string * JsValue) :=
  filter (λ p, is_undefined p.2 = false) props.

Definition member_text (d : nat) (p : string * JsValue) : string :=
  quote p.1 +:+ ": " +:+ elem_text d p.2.

Definition member_json (p : string * JsValue) : string * JsValue :=
  (p.1, to_json p.2).

(** [value] parses the text [p] to [v] whatever follows. *)
Definition parses (value : string → presult JsValue) (p : string)
    (v : JsValue) : Prop :=
  starts_value p ∧
  ∀ tail, number_ends tail = true → value (p +:+ tail) = Parsed v tail.

(** The text of a member parses to the property. *)
Definition parses_member (value : string → presult JsValue) (mp : string)
    (kv : string * JsValue) : Prop :=
  ∃ p, mp = quote kv.1 +:+ ": " +:+ p ∧ parses value p kv.2 ∧
       is_array_index kv.1 = false.

(** The round trip of a value at any depth, whatever follows. *)
Definition roundtrips (v : JsValue) : Prop :=
  json_wf v = true →
  ∀ d t fuel tail,
    stringify_at d v = Some t → size (to_json v) < fuel →
    number_ends tail = true →
    parse_value fuel (t +:+ tail) = Parsed (to_json v) tail.

(** The text of a value has at least as many characters as the value has
    values: the fuel of [JSON_parse] is enough for it. *)
Definition fits (v : JsValue) : Prop :=
  ∀ d t, stringify_at d v = Some t → (size (to_json v) ≤ String.length t)%nat.

(** ** Strings *)

Lemma parse_chars_escape_char c tail :
  parse_chars (escape_char c +:+ tail) =
  pbind (parse_chars tail) (λ t, Parsed (String c t)).
Proof.
  destruct c as [[] [] [] [] [] [] [] []]; reflexivity.
Qed.

Lemma parse_chars_escape s rest :
  parse_chars (escape s +:+ String dquote rest) = Parsed s rest.
Proof.
  induction s as [|c s IH]; [done|]. simpl.
  by rewrite str_app_assoc, parse_chars_escape_char, IH.
Qed.

Lemma parse_string_quote s rest :
  parse_string (quote s +:+ rest) = Parsed s rest.
Proof.
  unfold quote, parse_string. rewrite app_String. unfold strip_char.
  rewrite decide_True, str_app_assoc by done. apply parse_chars_escape.
Qed.

(** ** Numbers *)

Lemma pretty_N_char_digit x :
  (x < 10)%N →
  is_digit (pretty_N_char x) = true ∧ (char_code (pretty_N_char x) - 48)%N = x.
Proof.
  intros Hx. destruct x as [|p]; [done|].
  do 4 (destruct p as [p|p|]; try lia; try done).
Qed.

Lemma pretty_N_go_app x s t : pretty_N_go x s +:+ t = pretty_N_go x (s +:+ t).
Proof.
  revert s. induction (N.lt_wf_0 x) as [x _ IH]; intros s.
  destruct (decide (x = 0)%N) as [->|]; [by rewrite !pretty_N_go_0|].
  rewrite (pretty_N_go_step x s), (pretty_N_go_step x (s +:+ t)) by lia.
  apply (IH (x `div` 10)%N). apply N.div_lt; lia.
Qed.

Lemma parse_digits_pretty x :
  ∃ k, ∀ acc tail,
    parse_digits acc (pretty_N_go x tail) = parse_digits (acc * 10 ^ k + x) tail.
Proof.
  induction (N.lt_wf_0 x) as [x _ IH].
  destruct (decide (x = 0)%N) as [->|].
  { exists 0%N. intros acc tail. rewrite pretty_N_go_0. f_equal. lia. }
  destruct (IH (x `div` 10)%N) as [k Hk]; [apply N.div_lt; lia|].
  exists (N.succ k). intros acc tail.
  rewrite pretty_N_go_step, Hk by lia. simpl.
  destruct (pretty_N_char_digit (x `mod` 10)) as [-> ->];
    [by apply N.mod_lt|].
  f_equal. rewrite N.pow_succ_r'. pose proof (N.div_mod x 10). lia.
Qed.

Lemma parse_digits_end acc s :
  number_ends s = true → parse_digits acc s = (acc, s).
Proof. destruct s as [|c s]; [done|]. simpl. by destruct (is_digit c). Qed.

(** The text of a positive number starts with a digit that is not 0. *)
Lemma pretty_N_go_first x tail :
  (0 < x)%N →
  ∃ c s, pretty_N_go x tail = String c s ∧ is_digit c = true ∧ c ≠ "0"%char.
Proof.
  revert tail. induction (N.lt_wf_0 x) as [x _ IH]; intros tail Hx.
  rewrite pretty_N_go_step by done.
  destruct (decide (x `div` 10 = 0)%N) as [Hd|Hd].
  - rewrite Hd, pretty_N_go_0. eexists _, _. split; [done|].
    assert (x < 10)%N as Hlt by (apply N.div_small_iff in Hd; lia).
    rewrite N.mod_small by done.
    destruct (pretty_N_char_digit x Hlt) as [? Hc]. split; [done|].
    intros Hz. rewrite Hz in Hc. vm_compute in Hc. lia.
  - apply IH; [apply N.div_lt; lia|by apply N.neq_0_lt_0].
Qed.

Lemma number_ends_goes_on s : number_ends s = true → number_goes_on s = false.
Proof.
  destruct s as [|c s]; [done|]. unfold number_ends.
  intros [_ ?%negb_true_iff]%andb_prop. done.
Qed.

Lemma parse_magnitude_pretty (x : N) rest :
  number_ends rest = true → (Z.of_N x ≤ max_safe)%Z →
  parse_magnitude (pretty x +:+ rest) = Parsed x rest.
Proof.
  intros Hend Hx. unfold pretty, pretty_N.
  destruct (decide (x = 0)%N) as [->|Hne].
  - simpl. rewrite (parse_digits_end _ rest Hend).
    rewrite bool_decide_true by done. simpl.
    by rewrite (number_ends_goes_on rest).
  - rewrite pretty_N_go_app. change ("" +:+ rest) with rest.
    destruct (pretty_N_go_first x rest) as (c & s & Hcs & Hc & Hz); [lia|].
    destruct (parse_digits_pretty x) as [k Hk].
    pose proof (Hk 0%N rest) as Hd. rewrite Hcs in Hd |- *.
    unfold parse_magnitude. rewrite Hc, Hd. simpl.
    rewrite (parse_digits_end _ rest Hend), (bool_decide_false (c = _)) by done.
    simpl. rewrite (number_ends_goes_on rest), bool_decide_true by done. done.
Qed.

Lemma parse_number_digit c s :
  is_digit c = true →
  parse_number (String c s) =
  pbind (parse_magnitude (String c s)) (λ n, Parsed (Z.of_N n)).
Proof.
  intros Hc. unfold parse_number, strip_char.
  rewrite decide_False; [done|]. by intros <-.
Qed.

Lemma pretty_N_text (x : N) rest :
  ∃ c s, pretty x +:+ rest = String c s ∧ is_digit c = true.
Proof.
  unfold pretty, pretty_N. destruct (decide (x = 0)%N) as [->|Hne].
  - by exists "0"%char, rest.
  - rewrite pretty_N_go_app.
    destruct (pretty_N_go_first x ("" +:+ rest)) as (c & s & ? & ? & _); [lia|].
    eauto.
Qed.

Lemma parse_number_N (x : N) rest :
  number_ends rest = true → (Z.of_N x ≤ max_safe)%Z →
  parse_number (pretty x +:+ rest) = Parsed (Z.of_N x) rest.
Proof.
  intros Hend Hx. destruct (pretty_N_text x rest) as (c & s & Htext & Hc).
  rewrite Htext, parse_number_digit, <-Htext by done.
  by rewrite parse_magnitude_pretty.
Qed.

(** The text of an integer that a number holds exactly parses to it. *)
Lemma parse_number_pretty (n : Z) rest :
  number_ends rest = true → (- max_safe ≤ n ≤ max_safe)%Z →
  parse_number (pretty n +:+ rest) = Parsed n rest.
Proof.
  intros Hend Hn. destruct n as [|p|p].
  - by apply (parse_number_N 0).
  - apply (parse_number_N (Npos p)); [done|lia].
  - change (pretty (Z.neg p) +:+ rest)
      with (String "-" (pretty (N.pos p) +:+ rest)).
    unfold parse_number, strip_char. rewrite decide_True by done.
    rewrite parse_magnitude_pretty by (done || lia). done.
Qed.

(** ** White space and first characters *)

Lemma value_start_not_ws c : value_start c = true → is_ws c = false.
Proof. by destruct c as [[] [] [] [] [] [] [] []]. Qed.

Lemma skip_ws_value c t :
  value_start c = true → skip_ws (String c t) = String c t.
Proof. intros Hc. simpl. by rewrite value_start_not_ws. Qed.

Lemma skip_ws_indent d s : skip_ws (indent d +:+ s) = skip_ws s.
Proof. induction d as [|d IH]; [done|]. exact IH. Qed.

Lemma skip_ws_newline s : skip_ws (newline +:+ s) = skip_ws s.
Proof. done. Qed.

Lemma bracket_start o c d parts :
  value_start o = true → starts_value (bracket (String o "") c d parts).
Proof. intros Ho. unfold bracket. destruct parts; by eexists _, _. Qed.

Lemma pretty_Z_start (n : Z) : starts_value (pretty n).
Proof.
  destruct n as [|p|p]; [by eexists _, _| |by eexists _, _].
  destruct (pretty_N_text (N.pos p) "") as (c & s & Ht & Hc).
  rewrite str_app_nil_r in Ht. exists c, s. split; [done|].
  unfold value_start. by rewrite Hc.
Qed.

Lemma stringify_at_start d v t : stringify_at d v = Some t → starts_value t.
Proof.
  destruct v as [| |[]| | | |]; intros Ht; simplify_eq/=;
    try (by eexists _, _); auto using pretty_Z_start, bracket_start.
Qed.

Lemma stringify_at_Some d v :
  is_undefined v = false → is_Some (stringify_at d v).
Proof. by destruct v. Qed.

Lemma starts_value_skip_ws t tail :
  starts_value t → skip_ws (t +:+ tail) = t +:+ tail.
Proof. intros (c & t' & -> & Hc). by apply skip_ws_value. Qed.

Lemma starts_value_strip c t tail :
  starts_value t → value_start c = false → strip_char c (t +:+ tail) = None.
Proof.
  intros (c' & t' & -> & Hc') Hc. simpl. rewrite decide_False; [done|].
  intros <-. congruence.
Qed.

(** ** Arrays and objects *)

Lemma concat_rest_parts sep p parts tail :
  String.concat sep (p :: parts) +:+ tail = p +:+ rest_parts sep parts tail.
Proof.
  revert p. induction parts as [|q parts IH]; intros p; [done|].
  rewrite str_concat_cons, !str_app_assoc, IH by done. done.
Qed.

Lemma bracket_cons o c d p parts rest :
  bracket o c d (p :: parts) +:+ rest =
  o +:+ newline +:+ indent (S d) +:+ p +:+
  rest_parts (separator (S d)) parts (newline +:+ indent d +:+ c +:+ rest).
Proof.
  unfold bracket. rewrite !str_app_assoc. by rewrite concat_rest_parts.
Qed.

Lemma number_ends_separator d t : number_ends (separator d +:+ t) = true.
Proof. done. Qed.

Lemma number_ends_newline t : number_ends (newline +:+ t) = true.
Proof. done. Qed.

Lemma number_ends_rest_parts d parts t :
  number_ends (rest_parts (separator d) parts (newline +:+ t)) = true.
Proof. by destruct parts. Qed.

(** The closing bracket after the last part. *)
Lemma skip_ws_closing d c s :
  is_ws c = false →
  skip_ws (newline +:+ indent d +:+ String c s) = String c s.
Proof.
  intros Hc. rewrite skip_ws_newline, skip_ws_indent. simpl. by rewrite Hc.
Qed.

Section loops.
Context (value : string → presult JsValue).

Lemma separator_text d p t :
  separator d +:+ p +:+ t = String "," (newline +:+ indent d +:+ p +:+ t).
Proof. unfold separator. by rewrite !str_app_assoc. Qed.

Lemma skip_ws_part d p t :
  starts_value p → skip_ws (newline +:+ indent d +:+ p +:+ t) = p +:+ t.
Proof.
  intros Hp. by rewrite skip_ws_newline, skip_ws_indent, starts_value_skip_ws.
Qed.

Lemma parse_elements_close k acc d rest :
  parse_elements value (S k) acc (newline +:+ indent d +:+ "]" +:+ rest) =
  Parsed (VArr acc) rest.
Proof.
  change ("]" +:+ rest) with (String "]"%char rest). cbn [parse_elements].
  by rewrite skip_ws_closing.
Qed.

Lemma parse_elements_next k acc d p t :
  starts_value p →
  parse_elements value (S k) acc (separator d +:+ p +:+ t) =
  pbind (value (p +:+ t)) (λ v, parse_elements value k (acc ++ [v])).
Proof.
  intros Hp. cbn [parse_elements]. rewrite separator_text.
  change (skip_ws (String "," ?s)) with (String "," s).
  cbn [strip_char]. rewrite decide_True by done. by rewrite skip_ws_part.
Qed.

Lemma parse_elements_parts d parts vs k acc rest :
  Forall2 (parses value) parts vs → length parts < k →
  parse_elements value k acc
    (rest_parts (separator (S d)) parts
       (newline +:+ indent d +:+ "]" +:+ rest)) =
  Parsed (VArr (acc ++ vs)) rest.
Proof.
  intros Hall. revert k acc.
  induction Hall as [|p v parts vs [Hp Hv] _ IH]; intros [|k] acc Hk;
    simpl in Hk; try lia.
  - cbn [rest_parts foldr]. by rewrite parse_elements_close, app_nil_r.
  - cbn [rest_parts foldr]. rewrite parse_elements_next by done.
    rewrite Hv by apply number_ends_rest_parts. cbn [pbind].
    rewrite IH by lia. by rewrite <-app_assoc.
Qed.
End loops.

Section members.
Context (value : string → presult JsValue).

Lemma parses_member_start mp kv : parses_member value mp kv → starts_value mp.
Proof. intros (p & -> & _). by eexists _, _. Qed.

Lemma parse_member_text acc mp kv tail :
  parses_member value mp kv → number_ends tail = true →
  parse_member value acc (mp +:+ tail) = Parsed (props_put kv.1 kv.2 acc) tail.
Proof.
  intros (p & -> & [Hp Hv] & Hk) Htail. unfold parse_member.
  rewrite !str_app_assoc, parse_string_quote. cbn [pbind].
  change (skip_ws (": " +:+ ?s)) with (String ":" (String " " s)).
  cbn [strip_char]. rewrite decide_True, Hk by done.
  change (skip_ws (String " " ?s)) with (skip_ws s).
  by rewrite starts_value_skip_ws, Hv.
Qed.

Lemma parse_members_close k acc d rest :
  parse_members value (S k) acc (newline +:+ indent d +:+ "}" +:+ rest) =
  Parsed (VObj acc) rest.
Proof.
  change ("}" +:+ rest) with (String "}"%char rest). cbn [parse_members].
  by rewrite skip_ws_closing.
Qed.

Lemma parse_members_next k acc d mp t :
  starts_value mp →
  parse_members value (S k) acc (separator d +:+ mp +:+ t) =
  pbind (parse_member value acc (mp +:+ t)) (parse_members value k).
Proof.
  intros Hp. cbn [parse_members]. rewrite separator_text.
  change (skip_ws (String "," ?s)) with (String "," s).
  cbn [strip_char]. rewrite decide_True by done. by rewrite skip_ws_part.
Qed.

Lemma parse_members_parts d mparts kvs k acc rest :
  Forall2 (parses_member value) mparts kvs → NoDup (acc.*1 ++ kvs.*1) →
  length mparts < k →
  parse_members value k acc
    (rest_parts (separator (S d)) mparts
       (newline +:+ indent d +:+ "}" +:+ rest)) =
  Parsed (VObj (acc ++ kvs)) rest.
Proof.
  intros Hall. revert k acc.
  induction Hall as [|mp kv mparts kvs Hmp _ IH]; intros [|k] acc Hnd Hk;
    simpl in Hk; try lia.
  - cbn [rest_parts foldr]. by rewrite parse_members_close, app_nil_r.
  - cbn [rest_parts foldr].
    rewrite parse_members_next by by eapply parses_member_start.
    rewrite (parse_member_text _ _ kv) by
      (done || apply number_ends_rest_parts).
    cbn [pbind]. rewrite fmap_cons in Hnd.
    apply NoDup_app in Hnd as (Hacc & Hdis & Hkvs).
    rewrite props_put_fresh by (intros ?; eapply Hdis; [done|left]).
    rewrite IH, <-app_assoc; [by destruct kv| |lia].
    rewrite fmap_app. simpl. rewrite <-app_assoc. simpl.
    apply NoDup_app. split_and!; [done| |done].
    intros x Hx. by apply Hdis.
Qed.
End members.

(** ** Sizes and scalars *)

Lemma size_pos v : (0 < size v)%nat.
Proof. destruct v; simpl; lia. Qed.

Lemma length_le_sum_size (vs : list JsValue) :
  (length vs ≤ sum_list (size <$> vs))%nat.
Proof.
  induction vs as [|v vs IH]; [done|]. csimpl. pose proof (size_pos v). lia.
Qed.

Lemma size_elem_of v (vs : list JsValue) :
  v ∈ vs → (size v ≤ sum_list (size <$> vs))%nat.
Proof.
  intros Hv. apply (sum_list_with_in _ id). by apply list_elem_of_fmap_2.
Qed.

(** A value that is not an array or an object. *)
Lemma parse_value_scalar n c s :
  c ≠ "["%char → c ≠ "{"%char →
  parse_value (S n) (String c s) = parse_scalar (String c s).
Proof. intros ??. simpl. by rewrite !decide_False by done. Qed.

Lemma parse_value_null n tail :
  parse_value (S n) ("null" +:+ tail) = Parsed VNull tail.
Proof. done. Qed.

Lemma parse_value_bool n (b : bool) tail :
  parse_value (S n) ((if b then "true" else "false") +:+ tail) =
  Parsed (VBool b) tail.
Proof. by destruct b. Qed.

Lemma parse_value_string n s tail :
  parse_value (S n) (quote s +:+ tail) = Parsed (VStr s) tail.
Proof.
  unfold quote. rewrite app_String, parse_value_scalar by done.
  unfold parse_scalar. rewrite decide_True by done.
  change (String dquote ?t) with (quote s +:+ tail) at 1.
  by rewrite parse_string_quote.
Qed.

Lemma pretty_Z_first (n : Z) :
  ∃ c s, pretty n = String c s ∧
         is_digit c || bool_decide (c = "-"%char) = true.
Proof.
  destruct n as [|p|p]; [by eexists _, _| |by eexists _, _].
  destruct (pretty_N_text (N.pos p) "") as (c & s & Ht & Hc).
  rewrite str_app_nil_r in Ht. exists c, s. by rewrite Hc.
Qed.

Lemma parse_value_number k (n : Z) tail :
  (- max_safe ≤ n ≤ max_safe)%Z → number_ends tail = true →
  parse_value (S k) (pretty n +:+ tail) = Parsed (VNum n) tail.
Proof.
  intros Hn Htail. destruct (pretty_Z_first n) as (c & s & Hs & Hc).
  pose proof (parse_number_pretty n tail Htail Hn) as Hp.
  rewrite Hs, app_String in *.
  rewrite parse_value_scalar by (intros ->; done).
  unfold parse_scalar. rewrite decide_False by (intros ->; done).
  by rewrite Hc, Hp.
Qed.

(** ** The round trip *)

Lemma roundtrips_scalar v :
  (∀ elems, v ≠ VArr elems) → (∀ props, v ≠ VObj props) → roundtrips v.
Proof.
  intros Harr Hobj Hwf d t [|fuel] tail Ht Hfuel Htail; [lia|].
  destruct v; cbn [stringify_at to_json json_wf] in *; simplify_eq;
    auto using parse_value_null, parse_value_bool, parse_value_string.
  - apply parse_value_number; [by eapply bool_decide_eq_true_1|done].
  - by destruct (Harr elems).
  - by destruct (Hobj props).
Qed.

(** An element of an array. *)
Lemma roundtrips_elem x d n :
  roundtrips x → json_wf x = true → (size (elem_json x) < n)%nat →
  parses (parse_value n) (elem_text d x) (elem_json x).
Proof.
  intros Hx Hwf Hn. unfold elem_text, elem_json in *.
  destruct (is_undefined x) eqn:Hu.
  - destruct x; try done. split; [by eexists _, _|]. intros tail _.
    destruct n; [simpl in Hn; lia|done].
  - destruct (stringify_at_Some d x Hu) as [t Ht]. rewrite Ht. simpl.
    split; [by eapply stringify_at_start|]. intros tail Htail. by eapply Hx.
Qed.

(** The elements of an array. *)
Lemma roundtrips_elems elems d n :
  Forall roundtrips elems → forallb json_wf elems = true →
  (sum_list (size <$> (elem_json <$> elems)) < n)%nat →
  Forall2 (parses (parse_value n)) (elem_text d <$> elems)
    (elem_json <$> elems).
Proof.
  intros Hall Hwf Hn. apply Forall2_fmap, Forall_Forall2_diag.
  apply forallb_Forall in Hwf. rewrite Forall_forall in *.
  intros x Hx. apply roundtrips_elem; [by apply Hall|by apply Hwf|].
  eapply Nat.le_lt_trans; [|done].
  by apply size_elem_of, list_elem_of_fmap_2.
Qed.

Lemma parse_value_empty n o c tail :
  (o, c) = ("[", "]")%char ∨ (o, c) = ("{", "}")%char →
  parse_value (S n) (String o (String c tail)) =
  Parsed (if decide (o = "["%char) then VArr [] else VObj []) tail.
Proof. by intros [[= -> ->]|[= -> ->]]. Qed.

Lemma roundtrips_array elems :
  Forall roundtrips elems → roundtrips (VArr elems).
Proof.
  intros Hall Hwf d t [|n] tail Ht Hfuel Htail; [lia|].
  cbn [stringify_at to_json json_wf size] in *. simplify_eq.
  fold (elem_text (S d)). fold elem_json in Hfuel |- *.
  pose proof (roundtrips_elems elems (S d) n Hall Hwf ltac:(lia)) as Hps.
  destruct elems as [|x elems]; [done|]. rewrite !fmap_cons in *.
  apply Forall2_cons in Hps as [[Hp Hv] Hps]. rewrite bracket_cons.
  change ("[" +:+ ?s) with (String "[" s). cbn [parse_value strip_char].
  rewrite decide_True by done. rewrite skip_ws_part by done.
  rewrite starts_value_strip by done.
  rewrite Hv by apply number_ends_rest_parts. cbn [pbind].
  apply (parse_elements_parts _ _ _ _ _ [_]); [done|].
  pose proof (length_le_sum_size (elem_json <$> elems)).
  cbn [sum_list_with] in Hfuel. rewrite !length_fmap in *. lia.
Qed.

(** ** Objects *)

Lemma kept_cons p props :
  kept (p :: props) = if is_undefined p.2 then kept props else p :: kept props.
Proof.
  unfold kept. destruct (is_undefined p.2) eqn:Hu.
  - by rewrite filter_cons_False by (by rewrite Hu).
  - by rewrite filter_cons_True.
Qed.

(** The texts of the properties that are written. *)
Lemma stringify_members d props :
  omap (λ p, (λ t, quote p.1 +:+ ": " +:+ t) <$> stringify_at d p.2) props =
  member_text d <$> kept props.
Proof.
  induction props as [|p props IH]; [done|]. rewrite kept_cons. csimpl.
  rewrite IH. destruct (is_undefined p.2) eqn:Hu; [by destruct p as [? []]|].
  destruct (stringify_at_Some d p.2 Hu) as [t Ht].
  rewrite fmap_cons. unfold member_text, elem_text. by rewrite Ht.
Qed.

Lemma to_json_members props :
  omap (λ p, if is_undefined p.2 then None else Some (p.1, to_json p.2)) props =
  member_json <$> kept props.
Proof.
  induction props as [|p props IH]; [done|]. rewrite kept_cons. csimpl.
  rewrite IH. by destruct (is_undefined p.2).
Qed.

Lemma kept_keys props : NoDup props.*1 → NoDup (member_json <$> kept props).*1.
Proof.
  intros Hnd. rewrite <-list_fmap_compose.
  apply (sublist_NoDup _ props.*1); [done|].
  apply (fmap_sublist fst), sublist_filter.
Qed.

Lemma size_member_of p (props : list (string * JsValue)) :
  p ∈ props → (size p.2 ≤ sum_list ((λ p, size p.2) <$> props))%nat.
Proof.
  intros Hp. apply (sum_list_with_in _ id).
  by apply (list_elem_of_fmap_2 (λ p, size p.2)).
Qed.

Lemma length_le_sum_members (props : list (string * JsValue)) :
  (length props ≤ sum_list ((λ p, size p.2) <$> props))%nat.
Proof.
  induction props as [|p props IH]; [done|]. csimpl.
  pose proof (size_pos p.2). lia.
Qed.

(** A property that is written. *)
Lemma roundtrips_member p d n :
  roundtrips p.2 → is_undefined p.2 = false →
  negb (is_array_index p.1) && json_wf p.2 = true →
  (size (to_json p.2) < n)%nat →
  parses_member (parse_value n) (member_text d p) (member_json p).
Proof.
  intros Hp Hu [Hk Hwf]%andb_prop Hn. exists (elem_text d p.2).
  split_and!; [done| |by apply negb_true_iff]. simpl.
  replace (to_json p.2) with (elem_json p.2) in *
    by (by unfold elem_json; rewrite Hu).
  by apply roundtrips_elem.
Qed.

(** The properties that are written. *)
Lemma roundtrips_members props d n :
  Forall (λ p, roundtrips p.2) props →
  forallb (λ p, negb (is_array_index p.1) && json_wf p.2) props = true →
  (sum_list ((λ p, size p.2) <$> (member_json <$> kept props)) < n)%nat →
  Forall2 (parses_member (parse_value n)) (member_text d <$> kept props)
    (member_json <$> kept props).
Proof.
  intros Hall Hwf Hn. apply Forall2_fmap, Forall_Forall2_diag.
  apply forallb_Forall in Hwf. rewrite Forall_forall in *.
  intros p Hin. pose proof Hin as [Hu Hp]%list_elem_of_filter.
  apply roundtrips_member; [by apply Hall|done|by apply Hwf|].
  eapply Nat.le_lt_trans; [|done].
  by apply (size_member_of (member_json p)), list_elem_of_fmap_2.
Qed.

Lemma roundtrips_object props :
  Forall (λ p, roundtrips p.2) props → roundtrips (VObj props).
Proof.
  intros Hall [Hnd Hwf]%andb_prop d t [|n] tail Ht Hfuel Htail; [lia|].
  apply bool_decide_eq_true_1, kept_keys in Hnd.
  cbn [stringify_at to_json size] in *.
  rewrite stringify_members in Ht. rewrite to_json_members in *.
  simplify_eq.
  pose proof (roundtrips_members props (S d) n Hall Hwf ltac:(lia)) as Hps.
  pose proof (length_le_sum_members (member_json <$> kept props)) as Hlen.
  destruct (kept props) as [|p ps]; [done|]. rewrite !fmap_cons in *.
  apply Forall2_cons in Hps as [Hp Hps]. rewrite bracket_cons.
  change ("{" +:+ ?s) with (String "{" s). cbn [parse_value strip_char].
  rewrite decide_False, decide_True by done.
  rewrite skip_ws_part by by eapply parses_member_start.
  rewrite starts_value_strip by (done || by eapply parses_member_start).
  rewrite (parse_member_text _ _ _ (member_json p)) by
    (done || apply number_ends_rest_parts).
  cbn [pbind props_put].
  apply (parse_members_parts _ _ _ _ _ [_]); [done..|].
  cbn [sum_list_with length] in *. rewrite !length_fmap in *. lia.
Qed.

(** Parsing the text of a value gives what is left of the value. *)
Lemma parse_value_stringify v : roundtrips v.
Proof.
  induction v using JsValue_forall_ind;
    auto using roundtrips_array, roundtrips_object;
    by apply roundtrips_scalar.
Qed.

(** ** The length of a text *)

Lemma str_concat_length sep (parts : list string) :
  (sum_list (String.length <$> parts)
   ≤ String.length (String.concat sep parts))%nat.
Proof.
  induction parts as [|p [|q parts] IH]; [done|simpl; lia|].
  rewrite str_concat_cons, !str_app_length by done. csimpl in *. lia.
Qed.

Lemma bracket_length o c d parts :
  (String.length o + sum_list (String.length <$> parts)
   ≤ String.length (bracket o c d parts))%nat.
Proof.
  unfold bracket. pose proof (str_concat_length (separator (S d)) parts).
  destruct parts; rewrite !str_app_length; [simpl|]; lia.
Qed.

Lemma sum_list_fmap_le {A} (f g : A → nat) (l : list A) :
  Forall (λ x, f x ≤ g x)%nat l → (sum_list (f <$> l) ≤ sum_list (g <$> l))%nat.
Proof. induction 1; csimpl; lia. Qed.

Lemma fits_elem d x :
  fits x → (size (elem_json x) ≤ String.length (elem_text d x))%nat.
Proof.
  intros Hx. unfold elem_json, elem_text.
  destruct (is_undefined x) eqn:Hu; [destruct x; try done; simpl; lia|].
  destruct (stringify_at_Some d x Hu) as [t Ht]. rewrite Ht. by eapply Hx.
Qed.

Lemma fits_member d p :
  fits p.2 → is_undefined p.2 = false →
  (size (member_json p).2 ≤ String.length (member_text d p))%nat.
Proof.
  intros Hp Hu. unfold member_text. rewrite !str_app_length.
  pose proof (fits_elem d _ Hp) as Hle. unfold elem_json in Hle.
  rewrite Hu in Hle. simpl. lia.
Qed.

(** The text of a value has at least as many characters as the value has
    values. *)
Lemma size_stringify v : fits v.
Proof.
  induction v as [| |b|n|s|elems IH|props IH] using JsValue_forall_ind;
    intros d t Ht; cbn [stringify_at to_json size] in *; simplify_eq.
  - simpl. lia.
  - destruct b; simpl; lia.
  - destruct (pretty_Z_first n) as (c & s & -> & _). simpl. lia.
  - simpl. lia.
  - etrans; [|apply (bracket_length "[")]. simpl.
    rewrite <-!list_fmap_compose. apply le_n_S, sum_list_fmap_le.
    eapply Forall_impl; [done|]. intros x Hx. by apply fits_elem.
  - rewrite stringify_members, to_json_members.
    etrans; [|apply (bracket_length "{")]. simpl.
    rewrite <-!list_fmap_compose. apply le_n_S, sum_list_fmap_le.
    apply Forall_forall. intros p [Hu Hp]%list_elem_of_filter.
    rewrite Forall_forall in IH. by apply fits_member; [apply IH|].
Qed.

Lemma skip_ws_number_ends ws : skip_ws ws = "" → number_ends ws = true.
Proof.
  destruct ws as [|c ws]; [done|]. simpl.
  destruct (is_ws c) eqn:Hc; [|done]. intros _.
  by destruct c as [[] [] [] [] [] [] [] []].
Qed.

(** The text of a value, followed by white space or not. *)
Lemma JSON_parse_text v t ws :
  json_wf v = true → JSON_stringify v = Some t → skip_ws ws = "" →
  JSON_parse (t +:+ ws) = Parsed (to_json v) "".
Proof.
  intros Hwf Ht Hws. unfold JSON_parse.
  rewrite starts_value_skip_ws by by eapply stringify_at_start.
  rewrite (parse_value_stringify v Hwf 0 t) by
    (done || (by apply skip_ws_number_ends) ||
     (pose proof (size_stringify v 0 t Ht); rewrite str_app_length; lia)).
  cbn [pbind]. by rewrite decide_True.
Qed.

(** For a value [v] of the fragment, [JSON.parse] of the text
    [JSON.stringify(v, null, 2)] gives what is left of the value: [v]
    without the properties that are [undefined] and with [null] for the
    elements that are. The fuel of [JSON_parse] is enough for it. *)
Theorem JSON_parse_stringify v t :
  json_wf v = true → JSON_stringify v = Some t →
  JSON_parse t = Parsed (to_json v) "".
Proof.
  intros Hwf Ht. rewrite <-(str_app_nil_r t). by apply JSON_parse_text.
Qed.

(** ** What is left of an object *)

(** A property of what is left of an object is what is left of the
    property. *)
Lemma field_to_json k props :
  NoDup props.*1 →
  field k (to_json (VObj props)) = to_json (props_get k props).
Proof.
  cbn [to_json field]. induction props as [|[k' v] props IH]; [done|].
  rewrite fmap_cons, NoDup_cons. intros [Hk' Hnd]. csimpl.
  destruct (decide (k = k')) as [->|Hne].
  - destruct (is_undefined v) eqn:Hv; [|by rewrite props_get_here].
    destruct v; try done. by rewrite IH, props_get_fresh.
  - destruct (is_undefined v); [auto|]. rewrite props_get_next by done. auto.
Qed.

(** ** Examples *)

Lemma JSON_parse_stringify_witness :
  JSON_parse (default "" (JSON_stringify sample_value)) =
  Parsed (to_json sample_value) "".
Proof.
  apply (JSON_parse_stringify sample_value); vm_compute; reflexivity.
Defined.
