(* ===== verification/JsonParser.v ===== *)
(** * JSON: what the parser returns

    Three facts about [Json.parse_value] on any text. What it leaves is
    no longer than the text ([parse_value_shrinks]). Fuel above the
    length of the text makes no difference ([parse_value_fuel]), so the
    answer of [JSON_parse], which gives the length plus one, is the
    answer with any fuel above it ([JSON_parse_fuel]): [Unsupported] is
    never for want of fuel. And a value it returns is a value of JSON in
    the fragment ([parse_value_parsed]): no [undefined] in it, integers
    up to 2^53 in magnitude, distinct keys none of which is an array
    index; printing such a value and parsing the text gives it back
    ([JSON_parse_canonical]). *)

From Stdlib Require Import Ascii.
From S2P Require Import Prelude JsString Json JsonText.

Local Open Scope string_scope.

#[warnings="-notation-for-abbreviation"]
Local Notation len := String.length.

(** A value of JSON: no [undefined] in it. *)
Fixpoint plain (v : JsValue) : bool :=
  match v with
  | VUndefined => false
  | VArr elems => forallb plain elems
  | VObj props => forallb (λ p, plain p.2) props
  | _ => true
  end.

(** What [JSON.parse] returns: a value of JSON in the fragment. *)
Definition parsed (v : JsValue) : Prop := plain v = true ∧ json_wf v = true.

(** The properties the parser has read. *)
Definition parsed_props (props : list (string * JsValue)) : Prop :=
  NoDup props.*1 ∧
  Forall (λ p, is_array_index p.1 = false ∧ parsed p.2) props.

(** A parser of values leaves no more than it was given. *)
Definition shrinks (value : string → presult JsValue) : Prop :=
  ∀ s v r, value s = Parsed v r → (len r ≤ len s)%nat.

(** ** What a parser leaves *)

Lemma pbind_Parsed {A B} (m : presult A) (f : A → string → presult B) b r :
  pbind m f = Parsed b r ↔ ∃ a r', m = Parsed a r' ∧ f a r' = Parsed b r.
Proof.
  destruct m as [a r'| |]; simpl; [|split; [done|by intros (? & ? & ? & _)]..].
  split; [by exists a, r'|]. by intros (? & ? & [= <- <-] & ?).
Qed.

Lemma skip_ws_length s : (len (skip_ws s) ≤ len s)%nat.
Proof.
  induction s as [|c s IH]; simpl; [done|]. destruct (is_ws c); simpl; lia.
Qed.

Lemma strip_char_length c s s' :
  strip_char c s = Some s' → len s = S (len s').
Proof. destruct s; simpl; [done|]. case_decide; naive_solver. Qed.

Lemma strip_prefix_length w s s' :
  strip_prefix w s = Some s' → (len s' ≤ len s)%nat.
Proof.
  revert s. induction w as [|a w IH]; intros [|b s]; simpl; try naive_solver.
  case_decide; [|done]. intros ?%IH. lia.
Qed.

Lemma str_length_ind (P : string → Prop) :
  (∀ s, (∀ s', (len s' < len s)%nat → P s') → P s) → ∀ s, P s.
Proof.
  intros HP s. remember (len s) as n eqn:Hn. revert s Hn.
  induction (lt_wf n) as [n _ IH]. intros s ->. apply HP. eauto.
Qed.

(** The characters of a string and the closing quote are read. *)
Lemma parse_chars_length s t r :
  parse_chars s = Parsed t r → (len r < len s)%nat.
Proof.
  revert t r. induction s as [s IH] using str_length_ind. intros t r.
  assert (∀ s' c', (len s' < len s)%nat →
    pbind (parse_chars s') (λ t, Parsed (String c' t)) = Parsed t r →
    (len r < len s)%nat) as Hrec.
  { intros s' c' Hs' (t' & r' & Hp%IH & [= <- <-])%pbind_Parsed; [lia|done]. }
  destruct s as [|c s]; simpl; [done|].
  repeat case_match; try done; try (intros [= <- <-]; simpl; lia);
    first [apply Hrec
          |intros (? & ? & _ & Hp)%pbind_Parsed; revert Hp; apply Hrec];
    simpl; lia.
Qed.

Lemma parse_string_length s t r :
  parse_string s = Parsed t r → (len r < len s)%nat.
Proof.
  unfold parse_string. destruct (strip_char dquote s) as [s'|] eqn:Hs; [|done].
  intros ?%parse_chars_length. apply strip_char_length in Hs. lia.
Qed.

Lemma parse_digits_length acc s :
  (len (parse_digits acc s).2 ≤ len s)%nat.
Proof.
  revert acc. induction s as [|c s IH]; intros acc; simpl; [done|].
  destruct (is_digit c); simpl; [|lia].
  specialize (IH (10 * acc + (char_code c - 48))%N). lia.
Qed.

Lemma parse_magnitude_length s n r :
  parse_magnitude s = Parsed n r → (len r ≤ len s)%nat.
Proof.
  unfold parse_magnitude. destruct s as [|c s]; [done|].
  pose proof (parse_digits_length 0 (String c s)) as Hlen.
  destruct (parse_digits 0 (String c s)) as [n' r'].
  repeat case_match; try done. by intros [= <- <-].
Qed.

Lemma parse_number_length s n r :
  parse_number s = Parsed n r → (len r ≤ len s)%nat.
Proof.
  unfold parse_number. destruct (strip_char "-" s) as [s'|] eqn:Hs.
  - intros (m & r' & Hm%parse_magnitude_length & Hr)%pbind_Parsed.
    apply strip_char_length in Hs. case_decide; simplify_eq. lia.
  - by intros (m & r' & Hm%parse_magnitude_length & [= <- <-])%pbind_Parsed.
Qed.

Lemma parse_word_length s v r :
  parse_word s = Parsed v r → (len r ≤ len s)%nat.
Proof.
  unfold parse_word. repeat case_match; try done; intros [= <- <-];
    by eapply strip_prefix_length.
Qed.

Lemma parse_scalar_shrinks : shrinks parse_scalar.
Proof.
  intros [|c s] v r; [done|]. unfold parse_scalar. repeat case_match.
  - intros (t & r' & ?%parse_string_length & [= <- <-])%pbind_Parsed. lia.
  - by intros (t & r' & ?%parse_number_length & [= <- <-])%pbind_Parsed.
  - apply parse_word_length.
Qed.

Section loops.
Context (value : string → presult JsValue) (Hvalue : shrinks value).

Lemma parse_elements_length k acc s v r :
  parse_elements value k acc s = Parsed v r → (len r < len s)%nat.
Proof.
  revert acc s. induction k as [|k IH]; intros acc s; simpl; [done|].
  pose proof (skip_ws_length s).
  destruct (strip_char "," (skip_ws s)) as [s1|] eqn:H1.
  - apply strip_char_length in H1. pose proof (skip_ws_length s1).
    intros (x & r' & ?%Hvalue & ?%IH)%pbind_Parsed. lia.
  - destruct (strip_char "]" (skip_ws s)) as [s2|] eqn:H2; [|done].
    apply strip_char_length in H2. intros [= <- <-]. lia.
Qed.

Lemma parse_member_length acc s props r :
  parse_member value acc s = Parsed props r → (len r < len s)%nat.
Proof.
  unfold parse_member.
  intros (key & s1 & ?%parse_string_length & Hrest)%pbind_Parsed.
  pose proof (skip_ws_length s1).
  destruct (strip_char ":" (skip_ws s1)) as [s2|] eqn:H2; [|done].
  apply strip_char_length in H2. pose proof (skip_ws_length s2).
  destruct (is_array_index key); [done|].
  apply pbind_Parsed in Hrest as (x & r' & ?%Hvalue & [= <- <-]). lia.
Qed.

Lemma parse_members_length k acc s v r :
  parse_members value k acc s = Parsed v r → (len r < len s)%nat.
Proof.
  revert acc s. induction k as [|k IH]; intros acc s; simpl; [done|].
  pose proof (skip_ws_length s).
  destruct (strip_char "," (skip_ws s)) as [s1|] eqn:H1.
  - apply strip_char_length in H1. pose proof (skip_ws_length s1).
    intros (x & r' & ?%parse_member_length & ?%IH)%pbind_Parsed. lia.
  - destruct (strip_char "}" (skip_ws s)) as [s2|] eqn:H2; [|done].
    apply strip_char_length in H2. intros [= <- <-]. lia.
Qed.
End loops.

Lemma parse_value_shrinks fuel : shrinks (parse_value fuel).
Proof.
  induction fuel as [|n IH]; intros s v r; simpl; [done|].
  destruct (strip_char "[" s) as [s1|] eqn:H1;
    [|destruct (strip_char "{" s) as [s2|] eqn:H2];
    [| |apply parse_scalar_shrinks].
  - apply strip_char_length in H1. pose proof (skip_ws_length s1).
    destruct (strip_char "]" (skip_ws s1)) as [s3|] eqn:H3.
    + apply strip_char_length in H3. intros [= <- <-]. lia.
    + intros (x & r' & ?%IH & ?%parse_elements_length)%pbind_Parsed;
        [lia|done].
  - apply strip_char_length in H2. pose proof (skip_ws_length s2).
    destruct (strip_char "}" (skip_ws s2)) as [s3|] eqn:H3.
    + apply strip_char_length in H3. intros [= <- <-]. lia.
    + intros (x & r' & ?%parse_member_length & ?%parse_members_length)
        %pbind_Parsed; [lia|done..].
Qed.

(** ** Fuel *)

Section fuel.
Context (value value' : string → presult JsValue) (L : nat).
Context (Hshrinks : shrinks value).
Context (Hagree : ∀ s, (len s < L)%nat → value s = value' s).

Lemma parse_elements_fuel k k' acc s :
  (len s ≤ L)%nat → (len s < k)%nat → (len s < k')%nat →
  parse_elements value k acc s = parse_elements value' k' acc s.
Proof.
  revert k' acc s. induction k as [|k IH]; intros [|k'] acc s HL Hk Hk';
    try lia. simpl. pose proof (skip_ws_length s).
  destruct (strip_char "," (skip_ws s)) as [s1|] eqn:H1; [|done].
  apply strip_char_length in H1. pose proof (skip_ws_length s1).
  rewrite <-Hagree by lia.
  destruct (value (skip_ws s1)) as [x r| |] eqn:Hx; simpl; [|done..].
  apply Hshrinks in Hx. apply IH; lia.
Qed.

Lemma parse_member_fuel acc s :
  (len s ≤ L)%nat → parse_member value acc s = parse_member value' acc s.
Proof.
  intros HL. unfold parse_member.
  destruct (parse_string s) as [key s1| |] eqn:Hkey; simpl; [|done..].
  apply parse_string_length in Hkey. pose proof (skip_ws_length s1).
  destruct (strip_char ":" (skip_ws s1)) as [s2|] eqn:H2; [|done].
  apply strip_char_length in H2. pose proof (skip_ws_length s2).
  by rewrite Hagree by lia.
Qed.

Lemma parse_members_fuel k k' acc s :
  (len s ≤ L)%nat → (len s < k)%nat → (len s < k')%nat →
  parse_members value k acc s = parse_members value' k' acc s.
Proof.
  revert k' acc s. induction k as [|k IH]; intros [|k'] acc s HL Hk Hk';
    try lia. simpl. pose proof (skip_ws_length s).
  destruct (strip_char "," (skip_ws s)) as [s1|] eqn:H1; [|done].
  apply strip_char_length in H1. pose proof (skip_ws_length s1).
  rewrite <-parse_member_fuel by lia.
  destruct (parse_member value acc (skip_ws s1)) as [x r| |] eqn:Hx; simpl;
    [|done..].
  apply (parse_member_length _ Hshrinks) in Hx. apply IH; lia.
Qed.
End fuel.

(** Fuel above the length of the text makes no difference. *)
Lemma parse_value_fuel n m s :
  (len s < n)%nat → (len s < m)%nat → parse_value n s = parse_value m s.
Proof.
  revert m s. induction n as [|n IH]; intros [|m] s Hn Hm; try lia. simpl.
  destruct (strip_char "[" s) as [s1|] eqn:H1;
    [|destruct (strip_char "{" s) as [s2|] eqn:H2]; [| |done].
  - apply strip_char_length in H1. pose proof (skip_ws_length s1).
    destruct (strip_char "]" (skip_ws s1)); [done|].
    rewrite (IH m) by lia.
    destruct (parse_value m (skip_ws s1)) as [x r| |] eqn:Hx; simpl; [|done..].
    apply parse_value_shrinks in Hx.
    apply (parse_elements_fuel (parse_value n) (parse_value m) (len s1));
      try lia.
    + apply parse_value_shrinks.
    + intros s' Hs'. apply IH; lia.
  - apply strip_char_length in H2. pose proof (skip_ws_length s2).
    destruct (strip_char "}" (skip_ws s2)); [done|].
    rewrite <-(parse_member_fuel (parse_value n) (parse_value m) (len s2)) by
      (lia || (intros s' Hs'; apply IH; lia)).
    destruct (parse_member (parse_value n) [] (skip_ws s2)) as [x r| |] eqn:Hx;
      simpl; [|done..].
    apply (parse_member_length _ (parse_value_shrinks n)) in Hx.
    apply (parse_members_fuel (parse_value n) (parse_value m) (len s2));
      try lia.
    + apply parse_value_shrinks.
    + intros s' Hs'. apply IH; lia.
Qed.

(** [JSON.parse] with more fuel than it takes gives what it gives. *)
Theorem JSON_parse_fuel fuel text :
  (len text < fuel)%nat →
  pbind (parse_value fuel (skip_ws text))
    (λ v rest, if decide (skip_ws rest = "") then Parsed v "" else SyntaxError) =
  JSON_parse text.
Proof.
  intros Hfuel. unfold JSON_parse. pose proof (skip_ws_length text).
  by rewrite (parse_value_fuel fuel (S (len text))) by lia.
Qed.

(** ** Values of JSON *)

(** Nothing is left out of the text of a value of JSON. *)
Lemma to_json_plain v : plain v = true → to_json v = v.
Proof.
  induction v as [| | | | |elems IH|props IH] using JsValue_forall_ind;
    try done; simpl; intros Hp%forallb_Forall; f_equal.
  - induction elems as [|x elems IHe]; [done|].
    apply Forall_cons in IH as [Hx IH], Hp as [Hpx Hp]. csimpl.
    rewrite IHe, Hx by done. by destruct x.
  - induction props as [|p props IHp]; [done|].
    apply Forall_cons in IH as [Hp1 IH], Hp as [Hp2 Hp]. csimpl.
    rewrite IHp, Hp1 by done. by destruct p as [k []].
Qed.

Lemma parsed_arr elems : parsed (VArr elems) ↔ Forall parsed elems.
Proof.
  unfold parsed. simpl. rewrite !forallb_Forall, <-Forall_and. done.
Qed.

Lemma parsed_obj props : parsed_props props → parsed (VObj props).
Proof.
  intros [Hnd Hall]. unfold parsed. simpl. rewrite bool_decide_true by done.
  simpl. rewrite !forallb_Forall. split.
  - eapply Forall_impl; [done|]. by intros p [_ [? _]].
  - eapply Forall_impl; [done|]. intros p [-> [_ ->]]. done.
Qed.

Lemma props_put_Forall (P : string * JsValue → Prop) k v props :
  P (k, v) → Forall P props → Forall P (props_put k v props).
Proof.
  intros Hkv Hall. induction Hall as [|[k' v'] props Hp Hall IH]; simpl.
  - by constructor.
  - case_decide; constructor; auto.
Qed.

Lemma props_put_parsed k v props :
  is_array_index k = false → parsed v → parsed_props props →
  parsed_props (props_put k v props).
Proof.
  intros Hk Hv [Hnd Hall]. split; [|by apply props_put_Forall].
  rewrite props_put_keys. case_decide; [done|].
  apply NoDup_app. split_and!; [done| |apply NoDup_singleton].
  by intros x Hx ->%list_elem_of_singleton.
Qed.

Lemma parse_magnitude_max s n r :
  parse_magnitude s = Parsed n r → (Z.of_N n ≤ max_safe)%Z.
Proof.
  unfold parse_magnitude. destruct s as [|c s]; [done|].
  destruct (parse_digits 0 (String c s)) as [n' r'].
  repeat case_match; try done. intros [= <- <-].
  by eapply bool_decide_eq_true_1.
Qed.

Lemma parse_number_range s n r :
  parse_number s = Parsed n r → (- max_safe ≤ n ≤ max_safe)%Z.
Proof.
  unfold parse_number, max_safe. destruct (strip_char "-" s) as [s'|].
  - intros (m & r' & Hm%parse_magnitude_max & Hr)%pbind_Parsed.
    case_decide; simplify_eq. unfold max_safe in *. lia.
  - intros (m & r' & Hm%parse_magnitude_max & [= <- <-])%pbind_Parsed.
    unfold max_safe in *. lia.
Qed.

Lemma parse_scalar_parsed s v r : parse_scalar s = Parsed v r → parsed v.
Proof.
  destruct s as [|c s]; [done|]. unfold parse_scalar, parse_word.
  repeat case_match; try done; try by intros [= <- <-].
  - by intros (t & r' & _ & [= <- <-])%pbind_Parsed.
  - intros (z & r' & Hz%parse_number_range & [= <- <-])%pbind_Parsed.
    split; [done|]. by apply bool_decide_eq_true_2.
Qed.

Section loops.
Context (value : string → presult JsValue).
Context (Hvalue : ∀ s v r, value s = Parsed v r → parsed v).

Lemma parse_elements_parsed k acc s v r :
  Forall parsed acc → parse_elements value k acc s = Parsed v r → parsed v.
Proof.
  revert acc s. induction k as [|k IH]; intros acc s Hacc; simpl; [done|].
  repeat case_match; try done.
  - intros (x & r' & Hx%Hvalue & Hrest)%pbind_Parsed.
    eapply IH; [|done]. apply Forall_app. split; [done|].
    by apply Forall_singleton.
  - intros [= <- <-]. by apply parsed_arr.
Qed.

Lemma parse_member_parsed acc s props r :
  parsed_props acc → parse_member value acc s = Parsed props r →
  parsed_props props.
Proof.
  intros Hacc (key & s1 & _ & Hrest)%pbind_Parsed.
  destruct (strip_char ":" (skip_ws s1)); [|done].
  destruct (is_array_index key) eqn:Hkey; [done|].
  apply pbind_Parsed in Hrest as (x & r' & Hx%Hvalue & [= <- <-]).
  by apply props_put_parsed.
Qed.

Lemma parse_members_parsed k acc s v r :
  parsed_props acc → parse_members value k acc s = Parsed v r → parsed v.
Proof.
  revert acc s. induction k as [|k IH]; intros acc s Hacc; simpl; [done|].
  repeat case_match; try done.
  - intros (x & r' & Hx%parse_member_parsed & Hrest)%pbind_Parsed; [|done].
    by eapply IH.
  - intros [= <- <-]. by apply parsed_obj.
Qed.
End loops.

(** What the parser returns is a value of JSON in the fragment. *)
Lemma parse_value_parsed fuel s v r :
  parse_value fuel s = Parsed v r → parsed v.
Proof.
  revert s v r. induction fuel as [|n IH]; intros s v r; simpl; [done|].
  repeat case_match; try by intros [= <- <-].
  - intros (x & r' & Hx%IH & Hrest)%pbind_Parsed.
    eapply parse_elements_parsed; [done| |done]. by apply Forall_singleton.
  - intros (x & r' & Hx & Hrest)%pbind_Parsed.
    eapply parse_members_parsed; [done| |done].
    eapply parse_member_parsed; [done| |done]. by split; constructor.
  - apply parse_scalar_parsed.
Qed.

Lemma JSON_parse_parsed text v r :
  JSON_parse text = Parsed v r → r = "" ∧ parsed v.
Proof.
  intros (v' & r' & Hv%parse_value_parsed & Hr)%pbind_Parsed.
  case_decide; by simplify_eq.
Qed.

Lemma plain_stringify d v : plain v = true → is_Some (stringify_at d v).
Proof. by destruct v. Qed.

(** Parsing, printing and parsing again gives the same value: the text
    [JSON.stringify] writes for a parsed value is a text of that value. *)
Theorem JSON_parse_canonical text v :
  JSON_parse text = Parsed v "" →
  ∃ t, JSON_stringify v = Some t ∧ JSON_parse t = Parsed v "".
Proof.
  intros [_ [Hplain Hwf]]%JSON_parse_parsed.
  destruct (plain_stringify 0 v Hplain) as [t Ht]. exists t. split; [done|].
  rewrite <-(to_json_plain v Hplain) at 1. by apply JSON_parse_stringify.
Qed.
