(* ===== verification/PdfDoc.v ===== *)
(** * The PDF document handle

    [src/helper.js] reads a document through pdf.js: [getOutline],
    [getDestination], [getPageIndex], [numPages], [getPage(i)] and the
    page's [getTextContent]. The library is not part of the program; a
    document is the record of what these calls answer, each asynchronous
    call a [result] (a rejected promise is [Throw]). The types carry the
    fields the program reads and no others. *)

From S2P Require Import Prelude JsNumber JsString.

(** ** Levels and sections *)

(** The level of a section: the string ["H" + n] or ["P"]. *)
Inductive Level : Type :=
  | H (n : nat)
  | P.

#[export] Instance Level_eq_dec : EqDecision Level.
Proof. solve_decision. Defined.

(** The levels of headings. *)
Definition heading_levels : list Level := [H 1; H 2; H 3].

Lemma heading_levels_not_P l : l ∈ heading_levels → l ≠ P.
Proof.
  unfold heading_levels. rewrite !elem_of_cons, elem_of_nil.
  intuition congruence.
Qed.

Lemma heading_levels_weaken l : l ∈ heading_levels → l ∈ [H 1; H 2; H 3; P].
Proof. unfold heading_levels. rewrite !elem_of_cons. tauto. Qed.

(** The objects both extractors return: [{ level, text, page }], the page
    being a number or [null]. *)
Record Run : Type := mkRun {
  level : Level;
  text : string;
  page : option Z;
}.

#[export] Instance Run_eq_dec : EqDecision Run.
Proof. solve_decision. Defined.

(** ** Outlines *)

(** The first element of an explicit destination, as far as its truth
    value and the answer of [getPageIndex] depend on it: a page reference
    object, a number, or [null]. *)
Inductive DestTarget : Type :=
  | TargetRef (num gen : Z)
  | TargetNum (n : Z)
  | TargetNull.

#[export] Instance DestTarget_eq_dec : EqDecision DestTarget.
Proof. solve_decision. Defined.

(** [item.dest]: an explicit destination (an array), the name of one, or
    [null]. *)
Inductive Dest : Type :=
  | DestArray (d : list DestTarget)
  | DestName (name : string)
  | DestNull.

#[export] Instance Dest_eq_dec : EqDecision Dest.
Proof. solve_decision. Defined.

(** An entry of the outline tree: [{ title, dest, items }]. The induction
    principle that fits it is [OutlineItem_forall_ind] below. *)
Local Unset Elimination Schemes.
Inductive OutlineItem : Type :=
  | mkItem (title : string) (dest : Dest) (items : list OutlineItem).
Local Set Elimination Schemes.

Definition title (item : OutlineItem) : string :=
  let 'mkItem t _ _ := item in t.
Definition dest (item : OutlineItem) : Dest :=
  let 'mkItem _ d _ := item in d.
Definition items (item : OutlineItem) : list OutlineItem :=
  let 'mkItem _ _ l := item in l.

(** The truth value of [dest[0]]: an object is true, a number is true
    unless it is zero, [null] is false. *)
Definition target_truthy (t : DestTarget) : bool :=
  match t with
  | TargetRef _ _ => true
  | TargetNum n => negb (n =? 0)%Z
  | TargetNull => false
  end.

(** ** Text content *)

Section text.
Context {F : Type}.

(** An item of a page's text content: [{ str, transform }], the
    transform an array of numbers. *)
Record TextItem : Type := mkTextItem {
  str : string;
  transform : list F;
}.

(** ** The document *)

Record PdfDoc : Type := mkPdfDoc {
  (** [await pdfDoc.getOutline()]: an array of entries or [null] *)
  getOutline : result (option (list OutlineItem));
  (** [await pdfDoc.getDestination(dest)]: an explicit destination or
      [null] *)
  getDestination : Dest → result (option (list DestTarget));
  (** [await pdfDoc.getPageIndex(ref)]: the zero-based page index *)
  getPageIndex : DestTarget → result Z;
  (** [pdfDoc.numPages] *)
  numPages : Z;
  (** [(await (await pdfDoc.getPage(i)).getTextContent()).items] *)
  getTextContent : Z → result (list TextItem);
}.
End text.

Arguments TextItem F : clear implicits.
Arguments PdfDoc F : clear implicits.

(** ** Induction on outline trees

    An entry holds the list of its children, so the induction hypothesis
    for an entry is that the property holds of every child. *)

Section outline_ind.
Context (Q : OutlineItem → Prop).
Context (Hitem : ∀ t d l, Forall Q l → Q (mkItem t d l)).

Fixpoint OutlineItem_forall_ind (item : OutlineItem) : Q item :=
  match item with
  | mkItem t d l =>
      Hitem t d l
        ((fix go (l : list OutlineItem) : Forall Q l :=
            match l with
            | [] => Forall_nil_2 Q
            | x :: l' => Forall_cons_2 Q x l' (OutlineItem_forall_ind x) (go l')
            end) l)
  end.
End outline_ind.

#[export] Instance OutlineItem_eq_dec : EqDecision OutlineItem.
Proof.
  refine (fix go (x y : OutlineItem) {struct x} : Decision (x = y) :=
    match x, y with
    | mkItem t1 d1 l1, mkItem t2 d2 l2 =>
        cast_if_and3 (decide (t1 = t2)) (decide (d1 = d2))
          (@list_eq_dec _ go l1 l2)
    end); abstract congruence.
Defined.

(** The number of entries of a forest. *)
Fixpoint item_size (item : OutlineItem) : nat :=
  match item with
  | mkItem _ _ l => S (sum_list (item_size <$> l))
  end.

Definition forest_size (l : list OutlineItem) : nat :=
  sum_list (item_size <$> l).

(** The depth of the deepest entry of a forest, zero for the empty
    forest. *)
Fixpoint item_depth (item : OutlineItem) : nat :=
  match item with
  | mkItem _ _ l => S (foldr Nat.max 0 (item_depth <$> l))
  end.

Definition forest_depth (l : list OutlineItem) : nat :=
  foldr Nat.max 0 (item_depth <$> l).
