(* ===== verification/FontMetrics.v ===== *)
(** * The font-metrics section detector

    [extractByFontMetrics] of [src/helper.js], statement by statement:

    - [scanItem], [scanPage], [collectRuns]: the loop over the pages that
      fills [allRuns], skipping fragments that trim to the empty string;
    - [countSize], [sizeCounts]: the histogram of font sizes, an object
      keyed by size;
    - [count_cmp], [headingSizes]: the keys sorted by descending count,
      cut to three;
    - [assignLevels], [sizeToLevel], [levelOf], [levelRun]: the level of
      each run;
    - [run_cmp], [sortRuns]: the sort by page, then by descending [y];
    - [mergeStep], [mergeRuns]: the merge of adjacent runs of one level
      and page;
    - [extractByFontMetrics]: their composition.

    Numbers are any type with [JsArith] and [JsKey]; the examples run on
    binary64. Counts are natural numbers: a count is at most the number
    of runs, far below 2^53 where Number stops being exact. *)

From Stdlib Require Import Floats.
From S2P Require Import Prelude JsNumber JsArray Binary64 JsString JsObject PdfDoc.

Section font_metrics.
Context `{JsArith F, JsKey F}.

(** ** Data *)

(** An element of [allRuns]: [{ page, text, size, y }]. *)
Record RawRun : Type := mkRawRun {
  raw_page : Z;
  raw_text : string;
  raw_size : F;
  raw_y : F;
}.

(** An element of [runs]: [{ level, text, page, y }]. *)
Record LevelRun : Type := mkLevelRun {
  lr_level : Level;
  lr_text : string;
  lr_page : Z;
  lr_y : F;
}.

#[export] Instance RawRun_eq_dec : EqDecision RawRun.
Proof. solve_decision. Defined.

#[export] Instance LevelRun_eq_dec : EqDecision LevelRun.
Proof. solve_decision. Defined.

(** ** Scanning the pages *)

(** [t[i]] of a destructuring pattern, in arithmetic. *)
Definition component (t : list F) (i : nat) : F :=
  default num_undefined (t !! i).

(** The callback of [tc.items.forEach]: [None] is the early [return]. *)
Definition scanItem (i : Z) (item : TextItem F) : option RawRun :=
  let text := trim (str item) in
  if str_truthy text then
    let a := component (transform item) 0 in
    let d := component (transform item) 3 in
    let y := component (transform item) 5 in
    let size := num_hypot a d in
    Some (mkRawRun i text size y)
  else None.

Definition scanPage (i : Z) (l : list (TextItem F)) : list RawRun :=
  omap (scanItem i) l.

(** The loop [for (let i = 1; i <= numPages; i++)]. *)
Definition collectRuns (pdfDoc : PdfDoc F) : result (list RawRun) :=
  pages ← mapM_result
    (λ i, l ← getTextContent pdfDoc i; Ok (scanPage i l))
    (seqZ 1 (numPages pdfDoc));
  Ok (concat pages).

(** ** The histogram *)

(** The reducer [(m, r) => { m[r.size] = (m[r.size] || 0) + 1; return m }]. *)
Definition countSize (m : list (F * nat)) (r : RawRun) : list (F * nat) :=
  obj_set (raw_size r) (default 0 (obj_get (raw_size r) m) + 1) m.

Definition sizeCounts (allRuns : list RawRun) : list (F * nat) :=
  foldl countSize [] allRuns.

(** The number of runs whose size has the key [k]: what the histogram
    is meant to hold. *)
Definition size_count (k : F) (allRuns : list RawRun) : nat :=
  length (filter (λ r, num_key (raw_size r) = k) allRuns).

(** [m[k] || 0] for a canonical key. *)
Definition count_of (m : list (F * nat)) (k : F) : nat :=
  default 0 (obj_lookup k m).

(** ** The heading sizes *)

(** The comparator [(a, b) => sizeCounts[b] - sizeCounts[a]]; a missing
    count makes the difference NaN. *)
Definition count_cmp (m : list (F * nat)) (a b : F) : comparison :=
  match obj_get b m, obj_get a m with
  | Some cb, Some ca => Nat.compare cb ca
  | _, _ => Eq
  end.

Definition headingSizes (m : list (F * nat)) : list F :=
  take 3 (js_sort (count_cmp m) (obj_keys m)).

(** ** Levels *)

(** [headingSizes.forEach((s, idx) => { sizeToLevel[s] = `H${idx + 1}` })],
    from index [idx] on. *)
Fixpoint assignLevels (idx : nat) (hs : list F) (m : list (F * Level))
    : list (F * Level) :=
  match hs with
  | [] => m
  | s :: hs' => assignLevels (S idx) hs' (obj_set s (H (idx + 1)) m)
  end.

Definition sizeToLevel (hs : list F) : list (F * Level) :=
  assignLevels 0 hs [].

(** [sizeToLevel[size] || "P"]. *)
Definition levelOf (stl : list (F * Level)) (size : F) : Level :=
  default P (obj_get size stl).

Definition levelRun (stl : list (F * Level)) (r : RawRun) : LevelRun :=
  mkLevelRun (levelOf stl (raw_size r)) (raw_text r) (raw_page r) (raw_y r).

(** ** The sort *)

(** The comparator [(a, b) => a.page - b.page || b.y - a.y]. *)
Definition run_cmp (a b : LevelRun) : comparison :=
  match (lr_page a ?= lr_page b)%Z with
  | Eq => num_compare (lr_y b) (lr_y a)
  | c => c
  end.

Definition sortRuns (runs : list LevelRun) : list LevelRun :=
  js_sort run_cmp runs.

(** ** The merge *)

Definition toRun (item : LevelRun) : Run :=
  mkRun (lr_level item) (lr_text item) (Some (lr_page item)).

(** [prev.text += " " + item.text]. *)
Definition appendText (prev : Run) (item : LevelRun) : Run :=
  mkRun (level prev) (text prev +:+ " " +:+ lr_text item) (page prev).

(** The test [prev.level === item.level && prev.page === item.page]. *)
Definition sameGroup (prev : Run) (item : LevelRun) : Prop :=
  level prev = lr_level item ∧ page prev = Some (lr_page item).

#[export] Instance sameGroup_dec prev item : Decision (sameGroup prev item).
Proof. unfold sameGroup. apply _. Defined.

(** The callback of [runs.forEach]: [prev] is the last element of
    [merged], changed in place or followed by a new element. *)
Definition mergeStep (merged : list Run) (item : LevelRun) : list Run :=
  match last merged with
  | Some prev =>
      if decide (sameGroup prev item)
      then <[pred (length merged) := appendText prev item]> merged
      else merged ++ [toRun item]
  | None => merged ++ [toRun item]
  end.

Definition mergeRuns (runs : list LevelRun) : list Run :=
  foldl mergeStep [] runs.

(** The level and page of a section and of a run, as the merge compares
    them. *)
Definition run_key (r : Run) : Level * option Z := (level r, page r).
Definition lr_key (item : LevelRun) : Level * option Z :=
  (lr_level item, Some (lr_page item)).

(** ** The detector *)

(** Everything after the scan. *)
Definition sectionsOfRuns (allRuns : list RawRun) : list Run :=
  let stl := sizeToLevel (headingSizes (sizeCounts allRuns)) in
  mergeRuns (sortRuns (levelRun stl <$> allRuns)).

Definition extractByFontMetrics (pdfDoc : PdfDoc F) : result (list Run) :=
  allRuns ← collectRuns pdfDoc;
  Ok (sectionsOfRuns allRuns).

End font_metrics.

Arguments RawRun F : clear implicits.
Arguments LevelRun F : clear implicits.

(** * Properties of the histogram *)

Section histogram_facts.
Context `{JsArith F, JsKey F}.
Implicit Types (r : RawRun F) (runs : list (RawRun F)).
Implicit Types (m : list (F * nat)) (k : F).

Lemma size_count_cons k r runs :
  size_count k (r :: runs) =
    (if decide (num_key (raw_size r) = k) then 1 else 0) + size_count k runs.
Proof. unfold size_count. rewrite filter_cons. by case_decide. Qed.

Lemma size_count_pos k runs :
  0 < size_count k runs ↔ ∃ r, r ∈ runs ∧ num_key (raw_size r) = k.
Proof.
  unfold size_count. rewrite <-Nat.neq_0_lt_0, length_zero_iff_nil. split.
  - intros Hne. destruct (filter _ runs) as [|r l] eqn:E; [done|].
    assert (r ∈ filter (λ r, num_key (raw_size r) = k) runs) as Hr
      by (rewrite E; left).
    apply list_elem_of_filter in Hr as [? ?]. eauto.
  - intros (r & Hr & Hk) E.
    by eapply (filter_nil_not_elem_of _ _ r E).
Qed.

Lemma countSize_lookup m r k :
  obj_lookup k (countSize m r) =
    if decide (k = num_key (raw_size r)) then Some (count_of m k + 1)
    else obj_lookup k m.
Proof.
  unfold countSize, obj_set, obj_get, count_of. rewrite obj_lookup_store.
  by case_decide; subst.
Qed.

Lemma foldl_countSize_lookup m runs k :
  obj_lookup k (foldl countSize m runs) =
    if decide (size_count k runs = 0) then obj_lookup k m
    else Some (count_of m k + size_count k runs).
Proof.
  revert m. induction runs as [|r runs IH]; intros m; [done|]. simpl.
  rewrite IH, size_count_cons. unfold count_of at 1.
  rewrite !countSize_lookup.
  repeat case_decide; simplify_eq/=; try done; try lia; f_equal; lia.
Qed.

(** C16: The histogram maps a size to the number of runs of that size, and
    has no entry for a size that no run has. *)
Theorem sizeCounts_get runs x :
  obj_get x (sizeCounts runs) =
    if decide (size_count (num_key x) runs = 0) then None
    else Some (size_count (num_key x) runs).
Proof. unfold obj_get, sizeCounts. by rewrite foldl_countSize_lookup. Qed.

Lemma sizeCounts_keys runs k :
  k ∈ (sizeCounts runs).*1 ↔ ∃ r, r ∈ runs ∧ num_key (raw_size r) = k.
Proof.
  rewrite <-obj_lookup_Some, <-size_count_pos. unfold sizeCounts.
  rewrite foldl_countSize_lookup. case_decide as E.
  - split; [by intros [? ?]|lia].
  - split; [lia|by eexists].
Qed.

Lemma countSize_wf `{!JsKeyLaws F} m r : obj_wf m → obj_wf (countSize m r).
Proof. apply obj_set_wf. Qed.

Lemma sizeCounts_wf `{!JsKeyLaws F} runs : obj_wf (sizeCounts runs).
Proof.
  unfold sizeCounts. generalize (obj_empty_wf (F:=F) (V:=nat)).
  generalize (@nil (F * nat)). induction runs as [|r runs IH]; intros m Hm; [done|].
  simpl. by apply IH, countSize_wf.
Qed.

Lemma sizeCounts_count_of runs k : count_of (sizeCounts runs) k = size_count k runs.
Proof.
  unfold count_of, sizeCounts. rewrite foldl_countSize_lookup.
  case_decide as E; simpl; [by rewrite E|done].
Qed.

(** The counts add up to the number of runs. *)
Lemma obj_store_sum m k v :
  sum_list (obj_store k v m).*2 + count_of m k = sum_list m.*2 + v.
Proof.
  unfold count_of. induction m as [|[k' v'] m IH]; csimpl; [lia|].
  case_decide; subst; csimpl; lia.
Qed.

Lemma sizeCounts_total runs : sum_list (sizeCounts runs).*2 = length runs.
Proof.
  unfold sizeCounts.
  enough (∀ m,
    sum_list (foldl countSize m runs).*2 = sum_list m.*2 + length runs) as Hm.
  { by rewrite Hm. }
  induction runs as [|r runs IH]; intros m; simpl; [lia|]. rewrite IH.
  pose proof (obj_store_sum m (num_key (raw_size r))
    (count_of m (num_key (raw_size r)) + 1)) as Hs.
  unfold countSize, obj_set, obj_get. unfold count_of in *. lia.
Qed.
End histogram_facts.

(** * Properties of the heading sizes *)

Section heading_facts.
Context `{JsArith F, JsKey F, !JsKeyLaws F}.
Implicit Types (m : list (F * nat)) (k h a b : F).

Lemma obj_get_key m k : obj_wf m → k ∈ m.*1 → obj_get k m = obj_lookup k m.
Proof.
  intros [_ Hc] Hk. unfold obj_get. rewrite Forall_forall in Hc. by rewrite Hc.
Qed.

Lemma count_cmp_keys m a b :
  obj_wf m → a ∈ m.*1 → b ∈ m.*1 →
  count_cmp m a b = Nat.compare (count_of m b) (count_of m a).
Proof.
  intros Hm Ha Hb. unfold count_cmp, count_of. rewrite !obj_get_key by done.
  apply obj_lookup_Some in Ha as [ca ->]. by apply obj_lookup_Some in Hb as [cb ->].
Qed.

(** Among the keys of the histogram, [a] may stay before [b] exactly when
    it has at least the count of [b]. *)
Lemma count_cmp_le m a b :
  obj_wf m → a ∈ m.*1 → b ∈ m.*1 →
  cmp_le (count_cmp m) a b ↔ count_of m b ≤ count_of m a.
Proof.
  intros Hm Ha Hb. unfold cmp_le. rewrite count_cmp_keys by done.
  apply Nat.compare_le_iff.
Qed.

Lemma count_cmp_consistent m :
  obj_wf m → ConsistentOn (count_cmp m) (.∈ m.*1).
Proof.
  intros Hm. split.
  - intros a b Ha Hb. rewrite !count_cmp_keys by done. apply Nat.compare_antisym.
  - intros a b c Ha Hb Hc. rewrite !count_cmp_le by done. lia.
Qed.

(** The keys of the histogram in the order the sort leaves them. *)
Lemma sorted_keys_perm m : js_sort (count_cmp m) (obj_keys m) ≡ₚ m.*1.
Proof. by rewrite js_sort_perm, obj_keys_perm. Qed.

Lemma sorted_keys_sorted m :
  obj_wf m →
  StronglySorted (λ a b, count_of m b ≤ count_of m a)
    (js_sort (count_cmp m) (obj_keys m)).
Proof.
  intros Hm. eapply StronglySorted_impl_elem; last first.
  - apply (js_sort_sorted _ (.∈ m.*1)); [by apply count_cmp_consistent|].
    apply Forall_forall. intros k. by rewrite obj_keys_perm.
  - intros a b Ha Hb. rewrite sorted_keys_perm in Ha, Hb.
    by rewrite count_cmp_le.
Qed.

Lemma elem_of_headingSizes m h : h ∈ headingSizes m → h ∈ m.*1.
Proof. intros Hh%elem_of_take_elem. by rewrite sorted_keys_perm in Hh. Qed.

Lemma headingSizes_length m : length (headingSizes m) = 3 `min` length m.
Proof.
  unfold headingSizes. by rewrite length_take, sorted_keys_perm, length_fmap.
Qed.

Lemma headingSizes_NoDup m : obj_wf m → NoDup (headingSizes m).
Proof.
  intros [Hnd _]. apply NoDup_take_prefix. by rewrite sorted_keys_perm.
Qed.

Lemma headingSizes_canonical m :
  obj_wf m → Forall (λ h, num_key h = h) (headingSizes m).
Proof.
  intros [_ Hc]. rewrite Forall_forall in Hc |- *.
  intros h Hh. by apply Hc, elem_of_headingSizes.
Qed.

(** The heading sizes are in descending order of count: a size listed
    earlier occurs at least as often as a size listed later. *)
Theorem headingSizes_descending m i j hi hj :
  obj_wf m → i < j →
  headingSizes m !! i = Some hi → headingSizes m !! j = Some hj →
  count_of m hj ≤ count_of m hi.
Proof.
  intros Hm Hij Hi Hj.
  eapply (StronglySorted_lookup (λ a b, count_of m b ≤ count_of m a));
    [|done..].
  by apply StronglySorted_take, sorted_keys_sorted.
Qed.

(** C17: The heading sizes are the most frequent sizes: no size left out
    occurs more often than a size chosen. *)
Theorem headingSizes_top m h k :
  obj_wf m → h ∈ headingSizes m → k ∈ m.*1 → k ∉ headingSizes m →
  count_of m k ≤ count_of m h.
Proof.
  intros Hm Hh Hk Hk'.
  eapply (StronglySorted_take_rest (λ a b, count_of m b ≤ count_of m a));
    [by apply sorted_keys_sorted|done| |done].
  by rewrite sorted_keys_perm.
Qed.

(** C38: Among sizes of one count the order of [Object.keys] decides: of two
    heading sizes that occur equally often, the one listed first is the
    one [Object.keys] enumerates first, which is the lesser when both are
    array indices, the array index when one is, and the one seen first
    in the document otherwise. *)
Theorem headingSizes_ties m a b :
  obj_wf m → [a; b] `sublist_of` headingSizes m →
  count_of m a = count_of m b →
  [a; b] `sublist_of` obj_keys m.
Proof.
  intros Hm Hs Hc.
  assert (a ∈ m.*1 ∧ b ∈ m.*1) as [Ha Hb].
  { split; apply elem_of_headingSizes; eapply sublist_subseteq; try done;
      set_solver. }
  assert (filter (cmp_eqv (count_cmp m) a) [a; b] = [a; b]) as <-.
  { rewrite !filter_cons, filter_nil.
    rewrite !decide_True; [done|..]; unfold cmp_eqv;
      rewrite count_cmp_keys by done; rewrite <-?Hc; apply Nat.compare_refl. }
  etrans; [|apply (sublist_filter (cmp_eqv (count_cmp m) a))].
  rewrite <-(js_sort_stable (count_cmp m) (.∈ m.*1) a (obj_keys m));
    [|by apply count_cmp_consistent|done|].
  - apply filter_sublist_mono. etrans; [done|apply sublist_take].
  - apply Forall_forall. intros k. by rewrite obj_keys_perm.
Qed.
End heading_facts.

(** * Properties of the levels *)

Section level_facts.
Context `{JsArith F, JsKey F}.
Implicit Types (hs : list F) (stl : list (F * Level)) (k s x : F).

Lemma assignLevels_lookup_notin idx hs stl k :
  k ∉ num_key <$> hs →
  obj_lookup k (assignLevels idx hs stl) = obj_lookup k stl.
Proof.
  revert idx stl. induction hs as [|s hs IH]; intros idx stl Hk; [done|].
  apply not_elem_of_cons in Hk as [Hs Hk]. simpl. rewrite IH by done.
  by apply obj_lookup_store_ne.
Qed.

Lemma assignLevels_lookup_in idx hs stl i s :
  NoDup (num_key <$> hs) → hs !! i = Some s →
  obj_lookup (num_key s) (assignLevels idx hs stl) = Some (H (idx + i + 1)).
Proof.
  revert idx stl i. induction hs as [|s' hs IH]; intros idx stl i Hnd Hi; [done|].
  apply NoDup_cons in Hnd as [Hs' Hnd]. destruct i as [|i]; simplify_eq/=.
  - rewrite assignLevels_lookup_notin by done.
    unfold obj_set. by rewrite obj_lookup_store_eq, Nat.add_0_r.
  - rewrite (IH (S idx) _ i) by done. do 2 f_equal. lia.
Qed.

Lemma assignLevels_lookup_range idx hs stl k v :
  obj_lookup k (assignLevels idx hs stl) = Some v →
  obj_lookup k stl = Some v ∨ ∃ i, i < length hs ∧ v = H (idx + i + 1).
Proof.
  revert idx stl. induction hs as [|s hs IH]; intros idx stl Hv; [by left|].
  apply IH in Hv as [Hv|(i & Hi & ->)].
  - unfold obj_set in Hv. rewrite obj_lookup_store in Hv.
    case_decide; [|by left]. simplify_eq. right. exists 0. simpl. split; [lia|].
    f_equal. lia.
  - right. exists (S i). simpl. split; [lia|]. f_equal. lia.
Qed.

Lemma levelOf_at_index hs i s x :
  NoDup (num_key <$> hs) → hs !! i = Some s → num_key x = num_key s →
  levelOf (sizeToLevel hs) x = H (i + 1).
Proof.
  intros Hnd Hi Hx. unfold levelOf, sizeToLevel, obj_get.
  by rewrite Hx, (assignLevels_lookup_in 0 hs [] i).
Qed.

Lemma fmap_key_canonical (hs : list F) :
  Forall (λ h, num_key h = h) hs → num_key <$> hs = hs.
Proof. induction 1 as [|h hs Hh _ IH]; [done|]. csimpl. by rewrite Hh, IH. Qed.

(** C18: The heading size at index [i] gets level H[i + 1]: the most
    frequent size of the document is H1, the second H2, the third H3. *)
Theorem levelOf_heading `{!JsKeyLaws F} runs i s :
  headingSizes (sizeCounts runs) !! i = Some s →
  levelOf (sizeToLevel (headingSizes (sizeCounts runs))) s = H (i + 1).
Proof.
  intros Hi. apply (levelOf_at_index _ i s); [|done..].
  pose proof (sizeCounts_wf runs) as Hwf.
  rewrite fmap_key_canonical by by apply headingSizes_canonical.
  by apply headingSizes_NoDup.
Qed.

(** A size that is not a heading size gets level P. *)
Theorem levelOf_body hs x :
  num_key x ∉ num_key <$> hs → levelOf (sizeToLevel hs) x = P.
Proof.
  intros Hx. unfold levelOf, sizeToLevel, obj_get.
  by rewrite assignLevels_lookup_notin.
Qed.

Lemma levelOf_range hs x :
  levelOf (sizeToLevel hs) x = P ∨
  ∃ i, i < length hs ∧ levelOf (sizeToLevel hs) x = H (i + 1).
Proof.
  unfold levelOf, sizeToLevel, obj_get.
  destruct (obj_lookup _ _) as [v|] eqn:E; [|by left].
  apply assignLevels_lookup_range in E as [?|(i & Hi & ->)]; [done|].
  right. by exists i.
Qed.
End level_facts.

(** * Properties of the merge *)

Section merge_facts.
Context {F : Type}.
Implicit Types (item : LevelRun F) (runs : list (LevelRun F)).
Implicit Types (merged : list Run) (prev : Run).

Lemma sameGroup_key prev item : sameGroup prev item ↔ run_key prev = lr_key item.
Proof.
  unfold sameGroup, run_key, lr_key. split; [by intros [-> ->]|by intros [= -> ->]].
Qed.

Lemma run_key_toRun item : run_key (toRun item) = lr_key item.
Proof. done. Qed.

Lemma run_key_appendText prev item :
  run_key (appendText prev item) = run_key prev.
Proof. done. Qed.

(** ** One step *)

Lemma mergeStep_nil item : mergeStep [] item = [toRun item].
Proof. done. Qed.

Lemma mergeStep_snoc merged prev item :
  mergeStep (merged ++ [prev]) item =
    if decide (sameGroup prev item)
    then merged ++ [appendText prev item]
    else merged ++ [prev; toRun item].
Proof.
  unfold mergeStep. rewrite last_snoc, length_app, Nat.add_1_r. simpl.
  case_decide; [|by rewrite <-app_assoc].
  by rewrite <-(Nat.add_0_r (length merged)), insert_app_r.
Qed.

(** The cases of a step, as a rule of inference. *)
Lemma mergeStep_case (Q : list Run → Prop) merged item :
  (merged = [] → Q [toRun item]) →
  (∀ l prev, merged = l ++ [prev] → sameGroup prev item →
     Q (l ++ [appendText prev item])) →
  (∀ l prev, merged = l ++ [prev] → ¬ sameGroup prev item →
     Q (merged ++ [toRun item])) →
  Q (mergeStep merged item).
Proof.
  intros Hnil Hsame Hnew. destruct merged as [|prev l _] using rev_ind.
  - by apply Hnil.
  - rewrite mergeStep_snoc. case_decide; [by eapply Hsame|].
    replace (l ++ [prev; toRun item]) with ((l ++ [prev]) ++ [toRun item])
      by by rewrite <-app_assoc.
    by eapply Hnew.
Qed.

Lemma mergeStep_last merged item :
  ∃ l prev, mergeStep merged item = l ++ [prev] ∧ run_key prev = lr_key item.
Proof.
  apply mergeStep_case.
  - intros _. by exists [], (toRun item).
  - intros l prev _ Hs%sameGroup_key. by exists l, (appendText prev item).
  - intros l prev _ _. by exists merged, (toRun item).
Qed.

Lemma mergeStep_length merged item :
  length merged ≤ length (mergeStep merged item) ≤ S (length merged).
Proof.
  apply mergeStep_case.
  - intros ->. simpl. lia.
  - intros l prev -> _. rewrite !length_app. simpl. lia.
  - intros l prev _ _. rewrite !length_app. simpl. lia.
Qed.

Lemma mergeStep_adjacent merged item :
  adjacent (λ a b, run_key a ≠ run_key b) merged →
  adjacent (λ a b, run_key a ≠ run_key b) (mergeStep merged item).
Proof.
  intros Ha. apply mergeStep_case.
  - done.
  - intros l prev -> Hs. apply adjacent_snoc in Ha as [Hl Hp].
    apply adjacent_snoc. split; [done|].
    intros z Hz. rewrite run_key_appendText. by apply Hp.
  - intros l prev -> Hs. apply adjacent_snoc. split; [done|].
    intros z. rewrite last_snoc. intros [= <-].
    by rewrite run_key_toRun, <-sameGroup_key.
Qed.

Lemma mergeStep_text merged item :
  merged ≠ [] →
  join_space (text <$> mergeStep merged item) =
    join_space (text <$> merged) +:+ " " +:+ lr_text item.
Proof.
  intros Hne. apply mergeStep_case; [done| |].
  - intros l prev -> _. rewrite !fmap_app. simpl.
    destruct (decide (l = [])) as [->|Hl]; [done|].
    rewrite !join_space_snoc by by destruct l.
    by rewrite !str_app_assoc.
  - intros l prev _ _. rewrite fmap_app. simpl.
    apply join_space_snoc. by destruct merged.
Qed.

Lemma mergeStep_keys merged item r :
  r ∈ mergeStep merged item →
  run_key r = lr_key item ∨ ∃ r', r' ∈ merged ∧ run_key r = run_key r'.
Proof.
  apply mergeStep_case.
  - intros _ ->%list_elem_of_singleton. by left.
  - intros l prev -> Hs%sameGroup_key [Hr| ->%list_elem_of_singleton]%elem_of_app.
    + right. exists r. split; [|done]. apply elem_of_app. by left.
    + by left.
  - intros l prev _ _ [Hr| ->%list_elem_of_singleton]%elem_of_app.
    + right. by exists r.
    + by left.
Qed.

(** ** The whole merge *)

Lemma mergeRuns_nil : mergeRuns (F:=F) [] = [].
Proof. done. Qed.

Lemma mergeRuns_snoc runs item :
  mergeRuns (runs ++ [item]) = mergeStep (mergeRuns runs) item.
Proof. apply foldl_snoc. Qed.

Lemma mergeRuns_length runs : length (mergeRuns runs) ≤ length runs.
Proof.
  induction runs as [|item runs IH] using rev_ind; [done|].
  rewrite mergeRuns_snoc, length_app. simpl.
  pose proof (mergeStep_length (mergeRuns runs) item). lia.
Qed.

Lemma mergeRuns_nonempty runs : runs ≠ [] → mergeRuns runs ≠ [].
Proof.
  destruct runs as [|item runs _] using rev_ind; [done|]. intros _.
  rewrite mergeRuns_snoc.
  destruct (mergeStep_last (mergeRuns runs) item) as (l & prev & -> & _).
  by destruct l.
Qed.

Lemma mergeRuns_keys runs r :
  r ∈ mergeRuns runs → ∃ item, item ∈ runs ∧ run_key r = lr_key item.
Proof.
  revert r. induction runs as [|item runs IH] using rev_ind; intros r.
  { by intros ?%elem_of_nil. }
  rewrite mergeRuns_snoc. intros [Hr|(r' & Hr' & Hk)]%mergeStep_keys.
  - exists item. split; [|done]. apply elem_of_app. right. by left.
  - destruct (IH r' Hr') as (item' & ? & ?). exists item'.
    split; [apply elem_of_app; by left|congruence].
Qed.

Lemma mergeRuns_no_equal_neighbours runs :
  adjacent (λ a b, run_key a ≠ run_key b) (mergeRuns runs).
Proof.
  induction runs as [|item runs IH] using rev_ind; [done|].
  rewrite mergeRuns_snoc. by apply mergeStep_adjacent.
Qed.

(** In the merged list no section has the level and page of the
    section after it: a new section starts only where the level or the
    page changes. *)
Theorem mergeRuns_adjacent runs i a b :
  mergeRuns runs !! i = Some a → mergeRuns runs !! S i = Some b →
  ¬ (level a = level b ∧ page a = page b).
Proof.
  intros Ha Hb [Hl Hp].
  apply (proj1 (adjacent_lookup _ _) (mergeRuns_no_equal_neighbours runs) i a b);
    [done..|].
  unfold run_key. by rewrite Hl, Hp.
Qed.

(** Merging loses no text and keeps its order. *)
Lemma mergeRuns_join_space runs :
  join_space (text <$> mergeRuns runs) = join_space (lr_text <$> runs).
Proof.
  induction runs as [|item runs IH] using rev_ind; [done|].
  rewrite mergeRuns_snoc, fmap_app. simpl.
  destruct (decide (runs = [])) as [->|Hne]; [done|].
  rewrite mergeStep_text by by apply mergeRuns_nonempty.
  rewrite join_space_snoc by by destruct runs. by rewrite IH.
Qed.

Lemma mergeRuns_one_key runs k :
  Forall (λ item, lr_key item = k) runs → length (mergeRuns runs) ≤ 1.
Proof.
  intros Hk. pose proof (mergeRuns_no_equal_neighbours runs) as Ha.
  destruct (mergeRuns runs) as [|a [|b l]] eqn:E; simpl; [lia..|].
  destruct Ha as [Hab _]. destruct Hab.
  rewrite Forall_forall in Hk.
  destruct (mergeRuns_keys runs a) as (ia & ?%Hk & ->); [rewrite E; left|].
  destruct (mergeRuns_keys runs b) as (ib & ?%Hk & ->);
    [rewrite E; right; left|]. congruence.
Qed.

(** Runs that all have one level and one page merge into a single
    section with that level and page, whose text is the texts of the runs
    joined by single spaces. *)
Theorem mergeRuns_single_group runs k :
  runs ≠ [] →
  Forall (λ item, lr_key item = k) runs →
  mergeRuns runs = [mkRun k.1 (join_space (lr_text <$> runs)) k.2].
Proof.
  intros Hne Hk. pose proof (mergeRuns_one_key runs k Hk) as Hlen.
  pose proof (mergeRuns_nonempty runs Hne) as Hm.
  pose proof (mergeRuns_join_space runs) as Ht.
  destruct (mergeRuns runs) as [|[lv tx pg] [|??]] eqn:E; simpl in *; [done| |lia].
  destruct (mergeRuns_keys runs (mkRun lv tx pg)) as (item & Hi & Hkey).
  { rewrite E. left. }
  rewrite Forall_forall in Hk. rewrite (Hk _ Hi) in Hkey.
  unfold run_key in Hkey. simpl in Hkey. rewrite <-Hkey, <-Ht. done.
Qed.

(** Where no run has the level and page of the run after it, nothing
    is merged: every run becomes a section of its own. *)
Theorem mergeRuns_no_merge runs :
  adjacent (λ a b, lr_key a ≠ lr_key b) runs → mergeRuns runs = toRun <$> runs.
Proof.
  induction runs as [|item runs IH] using rev_ind; [done|].
  intros [Ha Hl]%adjacent_snoc. rewrite mergeRuns_snoc, IH, fmap_app by done.
  destruct runs as [|prev runs _] using rev_ind; [done|].
  rewrite fmap_app. simpl. rewrite mergeStep_snoc, decide_False.
  - by rewrite <-app_assoc.
  - rewrite sameGroup_key, run_key_toRun. apply Hl, last_snoc.
Qed.
End merge_facts.

(** * Properties of the sort *)

Section sort_facts.
Context `{JsArith F}.
Implicit Types (a b : LevelRun F) (runs : list (LevelRun F)) (Q : F → Prop).

(** Page ascending, then [y] descending: [a] may stay before [b]. *)
Definition run_le a b : Prop :=
  (lr_page a < lr_page b)%Z ∨
  (lr_page a = lr_page b ∧ num_compare (lr_y b) (lr_y a) ≠ Gt).

Lemma run_cmp_lex a b :
  run_cmp a b =
    cmp_lex (cmp_on lr_page Z.compare) (cmp_flip (cmp_on lr_y num_compare)) a b.
Proof. done. Qed.

Lemma Z_compare_consistent (R : Z → Prop) : ConsistentOn Z.compare R.
Proof.
  split; unfold cmp_le.
  - intros x y _ _. apply Z.compare_antisym.
  - intros x y z _ _ _. rewrite !Z.compare_le_iff. lia.
Qed.

Lemma run_cmp_consistent Q :
  ConsistentOn num_compare Q → ConsistentOn run_cmp (λ r, Q (lr_y r)).
Proof.
  intros HQ.
  change (ConsistentOn
    (cmp_lex (cmp_on lr_page Z.compare) (cmp_flip (cmp_on lr_y num_compare)))
    (λ r, Q (lr_y r))).
  apply cmp_lex_consistent.
  - apply (cmp_on_consistent lr_page Z.compare _ (λ _, True));
      [done|apply Z_compare_consistent].
  - by apply cmp_flip_consistent, (cmp_on_consistent lr_y num_compare _ Q).
Qed.

Lemma run_cmp_le a b : cmp_le run_cmp a b ↔ run_le a b.
Proof.
  unfold cmp_le, run_cmp, run_le.
  destruct (Z.compare_spec (lr_page a) (lr_page b)) as [Heq|Hlt|Hgt].
  - split; [by right|]. intros [?|[_ ?]]; [lia|done].
  - split; [by left|done].
  - split; [done|]. intros [?|[? _]]; lia.
Qed.

(** Sorting keeps every run, each as often as before. *)
Theorem sortRuns_perm runs : sortRuns runs ≡ₚ runs.
Proof. apply js_sort_perm. Qed.

(** With a consistent order on the vertical positions, the sorted
    runs are in ascending order of page and, within a page, in descending
    order of [y]. *)
Theorem sortRuns_sorted Q runs :
  ConsistentOn num_compare Q → Forall (λ r, Q (lr_y r)) runs →
  StronglySorted run_le (sortRuns runs).
Proof.
  intros HQ Hr. eapply StronglySorted_impl_elem; last first.
  - by apply (js_sort_sorted run_cmp _ runs (run_cmp_consistent Q HQ)).
  - intros a b _ _. by rewrite run_cmp_le.
Qed.

(** With a consistent order on the vertical positions, runs of one
    page with the same [y] keep the order the scan found them in. *)
Theorem sortRuns_stable Q runs a :
  ConsistentOn num_compare Q → Forall (λ r, Q (lr_y r)) runs → Q (lr_y a) →
  filter (cmp_eqv run_cmp a) (sortRuns runs) = filter (cmp_eqv run_cmp a) runs.
Proof.
  intros HQ Hr Ha.
  by apply (js_sort_stable run_cmp _ a runs (run_cmp_consistent Q HQ)).
Qed.
End sort_facts.

(** ** The sort in binary64 *)

(** In binary64, when no vertical position is NaN the sorted runs are
    in reading order: pages ascending, and on a page from the top down,
    [y] descending. *)
Theorem sortRuns_reading_order (runs : list (LevelRun float)) :
  Forall (λ r, is_nan (lr_y r) = false) runs →
  StronglySorted
    (λ a b, (lr_page a < lr_page b)%Z ∨
            (lr_page a = lr_page b ∧ (lr_y b <=? lr_y a)%float = true))
    (sortRuns runs).
Proof.
  intros Hr. eapply StronglySorted_impl_elem; last first.
  - by apply (sortRuns_sorted _ runs float_compare_consistent).
  - intros a b Ha Hb [?|[? Hle]]; [by left|right]. split; [done|].
    rewrite sortRuns_perm in Ha, Hb. rewrite Forall_forall in Hr.
    apply float_cmp_le; auto.
Qed.

(** * Properties of the detector *)

Section detector_facts.
Context `{JsArith F, JsKey F}.
Implicit Types (r : RawRun F) (runs : list (RawRun F)) (doc : PdfDoc F).

(** ** The scan *)

Lemma scanItem_Some i item r :
  scanItem i item = Some r →
  raw_page r = i ∧ raw_text r = trim (str item) ∧ raw_text r ≠ ""%string.
Proof.
  unfold scanItem, str_truthy. case_bool_decide as Ht; simpl; [done|].
  by intros [= <-].
Qed.

Lemma scanItem_None i item :
  scanItem i item = None ↔ all_white (str item) = true.
Proof.
  unfold scanItem. rewrite str_truthy_trim.
  by destruct (all_white (str item)).
Qed.

(** A page keeps the fragments that are not all white space, in order. *)
Lemma scanPage_length i l :
  length (scanPage i l) = length (filter (λ it, all_white (str it) = false) l).
Proof.
  induction l as [|it l IH]; [done|]. unfold scanPage in *. csimpl.
  rewrite filter_cons. destruct (scanItem i it) eqn:E.
  - rewrite decide_True; [simpl; by rewrite IH|].
    destruct (all_white (str it)) eqn:Ew; [|done].
    apply (scanItem_None i) in Ew. congruence.
  - rewrite decide_False; [done|]. apply scanItem_None in E. congruence.
Qed.

Lemma elem_of_scanPage i l r :
  r ∈ scanPage i l →
  raw_page r = i ∧ raw_text r ≠ ""%string ∧ trim (raw_text r) = raw_text r.
Proof.
  unfold scanPage. intros (item & _ & Hr)%list_elem_of_omap.
  apply scanItem_Some in Hr as (? & Ht & ?). split_and!; [done..|].
  rewrite Ht. apply trim_idemp.
Qed.

Lemma mapM_scan_Ok doc js pages :
  Forall2 (λ i l, getTextContent doc i = Ok l) js pages →
  mapM_result (λ i, l ← getTextContent doc i; Ok (scanPage i l)) js =
    Ok (zip_with scanPage js pages).
Proof.
  intros Hp. apply mapM_result_Ok.
  induction Hp as [|i l js ls Hi _ IH]; simpl; constructor; [by rewrite Hi|done].
Qed.

(** When every page can be read, the runs are those of page 1, then
    those of page 2, and so on. *)
Lemma collectRuns_Ok doc pages :
  Forall2 (λ i l, getTextContent doc i = Ok l) (seqZ 1 (numPages doc)) pages →
  collectRuns doc =
    Ok (concat (zip_with scanPage (seqZ 1 (numPages doc)) pages)).
Proof.
  intros Hp%mapM_scan_Ok. unfold collectRuns. by run_result.
Qed.

(** The scan succeeds exactly when the text content of every page
    from 1 to [numPages] can be read; the detector itself never fails. *)
Theorem extractByFontMetrics_is_Ok doc :
  is_Ok (extractByFontMetrics doc) ↔
  ∀ i, (1 ≤ i ≤ numPages doc)%Z → is_Ok (getTextContent doc i).
Proof.
  unfold extractByFontMetrics, collectRuns.
  set (f := λ i, l ← getTextContent doc i; Ok (scanPage i l)).
  assert (∀ i, is_Ok (f i) ↔ is_Ok (getTextContent doc i)) as Hf.
  { intros i. unfold f. destruct (getTextContent doc i); simpl.
    - split; by eexists.
    - split; by intros [? ?]. }
  trans (is_Ok (mapM_result f (seqZ 1 (numPages doc)))).
  { destruct (mapM_result f _); simpl; split; (by eexists) || by intros [? ?]. }
  rewrite <-mapM_result_is_Ok, Forall_forall.
  setoid_rewrite elem_of_seqZ. setoid_rewrite Hf.
  split; intros Hi i ?; apply Hi; lia.
Qed.

(** C37: When a page cannot be read, the detector rejects with the error
    of the first such page. *)
Theorem extractByFontMetrics_Throw doc i e :
  (1 ≤ i ≤ numPages doc)%Z →
  (∀ j, (1 ≤ j < i)%Z → is_Ok (getTextContent doc j)) →
  getTextContent doc i = Throw e →
  extractByFontMetrics doc = Throw e.
Proof.
  intros Hi Hj He. unfold extractByFontMetrics, collectRuns.
  replace (seqZ 1 (numPages doc))
    with (seqZ 1 (i - 1) ++ i :: seqZ (i + 1) (numPages doc - i)).
  - rewrite (mapM_result_Throw _ _ _ _ e); [done| |by rewrite He].
    apply Forall_forall. intros j [? ?]%elem_of_seqZ.
    destruct (Hj j) as [l ->]; [lia|]. by eexists.
  - replace (numPages doc) with ((i - 1) + (1 + (numPages doc - i)))%Z at 2 by lia.
    rewrite seqZ_app by lia. f_equal.
    rewrite (seqZ_cons (1 + (i - 1))) by lia. f_equal; [lia|]. f_equal; lia.
Qed.

(** ** Sections *)

Lemma sectionsOfRuns_nil : sectionsOfRuns (F:=F) [] = [].
Proof. done. Qed.

Lemma elem_of_sectionsOfRuns runs s :
  s ∈ sectionsOfRuns runs →
  ∃ r, r ∈ runs ∧ page s = Some (raw_page r) ∧
    level s = levelOf (sizeToLevel (headingSizes (sizeCounts runs))) (raw_size r).
Proof.
  unfold sectionsOfRuns. intros (item & Hi & Hk)%mergeRuns_keys.
  rewrite sortRuns_perm in Hi. apply list_elem_of_fmap in Hi as (r & -> & Hr).
  injection Hk as Hl Hp. by exists r.
Qed.

(** Every section the detector returns has level H1, H2, H3 or P. *)
Theorem sectionsOfRuns_levels runs s :
  s ∈ sectionsOfRuns runs → level s ∈ [H 1; H 2; H 3; P].
Proof.
  intros (r & _ & _ & ->)%elem_of_sectionsOfRuns.
  destruct (levelOf_range (headingSizes (sizeCounts runs)) (raw_size r))
    as [->|(i & Hi & ->)]; [set_solver|].
  rewrite headingSizes_length in Hi.
  destruct i as [|[|[|i]]]; simpl; [set_solver..|lia].
Qed.

(** Every section the detector returns is on the page of one of the
    runs; its page is never [null]. *)
Theorem sectionsOfRuns_pages runs s :
  s ∈ sectionsOfRuns runs → ∃ r, r ∈ runs ∧ page s = Some (raw_page r).
Proof. intros (r & ? & ? & _)%elem_of_sectionsOfRuns. eauto. Qed.

Lemma sectionsOfRuns_length runs : length (sectionsOfRuns runs) ≤ length runs.
Proof.
  unfold sectionsOfRuns. etrans; [apply mergeRuns_length|].
  by rewrite sortRuns_perm, length_fmap.
Qed.

(** ** A document in one font size *)

Lemma sizeCounts_one_size `{!JsKeyLaws F} runs k :
  runs ≠ [] → Forall (λ r, num_key (raw_size r) = k) runs →
  (sizeCounts runs).*1 = [k].
Proof.
  intros Hne Hk. pose proof (sizeCounts_wf runs) as [Hnd _].
  assert (∀ k', k' ∈ (sizeCounts runs).*1 ↔ k' = k) as Hkeys.
  { intros k'. rewrite sizeCounts_keys. rewrite Forall_forall in Hk. split.
    - intros (r & Hr & <-). by apply Hk.
    - intros ->. destruct runs as [|r runs]; [done|]. exists r.
      split; [left|apply Hk; left]. }
  destruct (sizeCounts runs).*1 as [|k1 [|k2 l]].
  - pose proof (proj2 (Hkeys k) eq_refl) as Hin. by apply elem_of_nil in Hin.
  - f_equal. apply Hkeys. left.
  - apply NoDup_cons in Hnd as [Hk1 _]. destruct Hk1.
    rewrite (proj1 (Hkeys k1)), <-(proj1 (Hkeys k2)) by (by repeat constructor).
    left.
Qed.

Lemma headingSizes_one_size `{!JsKeyLaws F} runs k :
  runs ≠ [] → Forall (λ r, num_key (raw_size r) = k) runs →
  headingSizes (sizeCounts runs) = [k].
Proof.
  intros Hne Hk. unfold headingSizes.
  pose proof (sorted_keys_perm (sizeCounts runs)) as Hp.
  rewrite (sizeCounts_one_size runs k) in Hp by done.
  by apply Permutation_singleton_r in Hp as ->.
Qed.

Lemma single_size_all_H1 `{!JsKeyLaws F} runs k r :
  Forall (λ r, num_key (raw_size r) = k) runs → r ∈ runs →
  levelOf (sizeToLevel (headingSizes (sizeCounts runs))) (raw_size r) = H 1.
Proof.
  intros Hk Hr. rewrite (headingSizes_one_size runs k);
    [|intros ->; by apply elem_of_nil in Hr|done].
  apply (levelOf_at_index [k] 0 k).
  - apply NoDup_singleton.
  - done.
  - rewrite Forall_forall in Hk. by rewrite <-(Hk r Hr), num_key_idemp.
Qed.

(** In a document with a single font size every section has level
    H1: no run is classified as body text. *)
Theorem single_size_levels `{!JsKeyLaws F} runs k s :
  Forall (λ r, num_key (raw_size r) = k) runs →
  s ∈ sectionsOfRuns runs → level s = H 1.
Proof.
  intros Hk (r & Hr & _ & ->)%elem_of_sectionsOfRuns.
  by apply (single_size_all_H1 runs k).
Qed.

(** The detector loses no text and keeps its order: the texts of the
    sections, joined by single spaces, are the texts of the runs in sorted
    order joined by single spaces. *)
Theorem sectionsOfRuns_text runs :
  join_space (text <$> sectionsOfRuns runs) =
  join_space (lr_text <$> sortRuns
    (levelRun (sizeToLevel (headingSizes (sizeCounts runs))) <$> runs)).
Proof. unfold sectionsOfRuns. apply mergeRuns_join_space. Qed.

(** In a document with a single font size, the runs of a one-page
    document merge into a single H1 section whose text is the texts of
    the runs, in sorted order, joined by single spaces. *)
Theorem single_size_single_page `{!JsKeyLaws F} runs k p :
  runs ≠ [] →
  Forall (λ r, num_key (raw_size r) = k ∧ raw_page r = p) runs →
  sectionsOfRuns runs =
    [mkRun (H 1)
       (join_space (lr_text <$>
          sortRuns ((λ r, mkLevelRun (H 1) (raw_text r) p (raw_y r)) <$> runs)))
       (Some p)].
Proof.
  intros Hne Hk. unfold sectionsOfRuns.
  set (stl := sizeToLevel _).
  assert (levelRun stl <$> runs =
    (λ r, mkLevelRun (H 1) (raw_text r) p (raw_y r)) <$> runs) as ->.
  { apply list_fmap_ext. intros i r Hr%list_elem_of_lookup_2.
    unfold levelRun, stl. rewrite (single_size_all_H1 runs k r); [| |done].
    - rewrite Forall_forall in Hk. by destruct (Hk r Hr) as [_ ->].
    - eapply Forall_impl; [done|]. by intros ? [? _]. }
  apply (mergeRuns_single_group _ (H 1, Some p)).
  - intros Hs. apply (f_equal length) in Hs.
    rewrite sortRuns_perm, length_fmap in Hs. by destruct runs.
  - apply Forall_forall. intros item. rewrite sortRuns_perm.
    by intros (r & -> & _)%list_elem_of_fmap.
Qed.

(** C19: A document with a single font size has only H1 sections, no run is
    body text; and when its runs are on one page they merge into one
    section, whose text is the texts of the runs from the top of the page
    down, joined by single spaces. *)
Theorem single_size_document `{!JsKeyLaws F} runs k :
  Forall (λ r, num_key (raw_size r) = k) runs →
  Forall (λ s, level s = H 1) (sectionsOfRuns runs) ∧
  ∀ p, runs ≠ [] → Forall (λ r, raw_page r = p) runs →
    sectionsOfRuns runs =
      [mkRun (H 1)
         (join_space (lr_text <$>
            sortRuns ((λ r, mkLevelRun (H 1) (raw_text r) p (raw_y r)) <$> runs)))
         (Some p)].
Proof.
  intros Hk. split.
  - apply Forall_forall. intros s. by apply single_size_levels with k.
  - intros p Hne Hp. apply single_size_single_page with k; [done|].
    by apply Forall_and.
Qed.

(** The pages of the scanned runs are pages of the document. *)
Lemma collectRuns_pages doc runs r :
  collectRuns doc = Ok runs → r ∈ runs →
  (1 ≤ raw_page r ≤ numPages doc)%Z.
Proof.
  unfold collectRuns. intros (pages & Hp & [= <-])%result_bind_Ok_inv.
  intros (l & Hl & Hr)%elem_of_concat.
  apply mapM_result_Ok in Hp.
  apply list_elem_of_lookup in Hl as [k Hk].
  destruct (Forall2_lookup_r _ _ _ _ _ Hp Hk) as (i & Hi & Hf).
  apply result_bind_Ok_inv in Hf as (tc & _ & [= <-]).
  apply elem_of_scanPage in Hr as [-> _].
  apply list_elem_of_lookup_2, elem_of_seqZ in Hi. lia.
Qed.

(** A document whose pages hold no text, or white space only, has no
    runs. *)
Lemma collectRuns_empty doc :
  (∀ i, (1 ≤ i ≤ numPages doc)%Z →
     ∃ l, getTextContent doc i = Ok l ∧ scanPage i l = []) →
  collectRuns doc = Ok [].
Proof.
  intros Hp. unfold collectRuns.
  rewrite (mapM_result_ext _ (λ _, Ok [])), mapM_result_pure.
  - simpl. f_equal. apply concat_nil_Forall, Forall_fmap, Forall_true. done.
  - apply Forall_forall. intros i Hi%elem_of_seqZ.
    destruct (Hp i) as (l & Hl & Hs); [lia|]. rewrite Hl. simpl. by rewrite Hs.
Qed.

(** Every section of the detector lies on a page of the document: its
    page is a number between 1 and [numPages], never [null]. *)
Theorem extractByFontMetrics_pages doc rs s :
  extractByFontMetrics doc = Ok rs → s ∈ rs →
  ∃ i, page s = Some i ∧ (1 ≤ i ≤ numPages doc)%Z.
Proof.
  unfold extractByFontMetrics.
  intros (runs & Hruns & [= <-])%result_bind_Ok_inv.
  intros (r & Hr & ->)%sectionsOfRuns_pages.
  eauto using collectRuns_pages.
Qed.

End detector_facts.

(** * Examples on binary64 *)

Section examples.
Local Open Scope float_scope.

Definition sample_heading_runs : list (LevelRun float) :=
  [mkLevelRun (H 1) "Annual" 1 700; mkLevelRun (H 1) "Report" 1 680;
   mkLevelRun (H 1) "2024" 1 660].

Definition sample_mixed_runs : list (LevelRun float) :=
  [mkLevelRun (H 1) "Scope" 1 700; mkLevelRun P "This document" 1 680;
   mkLevelRun (H 1) "Method" 2 700].

(** Runs out of reading order: page 2 before page 1, lower before higher,
    and two of one height. *)
Definition sample_unsorted_runs : list (LevelRun float) :=
  [mkLevelRun P "last" 2 100; mkLevelRun P "second" 1 500;
   mkLevelRun P "first" 1 700; mkLevelRun P "left" 1 300;
   mkLevelRun P "right" 1 300].

(** A text item in font size [size] at height [y]: the transform
    [[size, 0, 0, size, 0, y]]. *)
Definition sample_item (s : string) (size y : float) : TextItem float :=
  mkTextItem s [size; 0; 0; size; 0; y].

(** A two-page document: a title in a size used once, body text in 10.5,
    section headings in 12, footers in 8 and 7; one fragment is white
    space only. *)
Definition sample_doc : PdfDoc float := {|
  getOutline := Ok None;
  getDestination := λ _, Throw "no destinations";
  getPageIndex := λ _, Throw "no pages";
  numPages := 2;
  getTextContent := λ i,
    if decide (i = 1)%Z then
      Ok [sample_item "Title" 24 700; sample_item "  " 12 690;
          sample_item "body one" 10.5 650; sample_item "body two" 10.5 640;
          sample_item "Sec" 12 600; sample_item "more" 10.5 590]
    else if decide (i = 2)%Z then
      Ok [sample_item "Sec2" 12 700; sample_item "tail" 10.5 100;
          sample_item "mid" 10.5 300; sample_item "foot" 8 20;
          sample_item "foot2" 7 10]
    else Throw "no such page"
|}.

(** The same document with an unreadable second page. *)
Definition sample_broken_doc : PdfDoc float := {|
  getOutline := Ok None;
  getDestination := λ _, Throw "no destinations";
  getPageIndex := λ _, Throw "no pages";
  numPages := 2;
  getTextContent := λ i,
    if decide (i = 1)%Z then Ok [sample_item "Title" 24 700]
    else Throw "page 2 is damaged"
|}.

Definition sample_runs : list (RawRun float) :=
  match collectRuns sample_doc with Ok l => l | Throw _ => [] end.

(** A one-page document in one font size. *)
Definition sample_plain_runs : list (RawRun float) :=
  [mkRawRun 1 "lower" 11 300; mkRawRun 1 "upper" 11 700;
   mkRawRun 1 "middle" 11 500].

(** The histogram of the sample document, in creation order: the sizes
    are those of the title, the body, the headings and the two footers
    (each [Math.hypot(s, s)]), with their counts. *)
Example sample_sizeCounts :
  sizeCounts sample_runs =
    [(num_hypot 24 24, 1%nat); (num_hypot 10.5 10.5, 5%nat);
     (num_hypot 12 12, 2%nat); (num_hypot 8 8, 1%nat); (num_hypot 7 7, 1%nat)].
Proof. vm_compute. reflexivity. Qed.

(** What the detector returns for the sample document: the body size is
    the most frequent and becomes H1, the headings H2, and the title,
    first created of the three sizes used once, H3; the footers are P and
    merge. *)
Example sample_doc_sections :
  extractByFontMetrics sample_doc = Ok
    [mkRun (H 3) "Title" (Some 1%Z);
     mkRun (H 1) "body one body two" (Some 1%Z);
     mkRun (H 2) "Sec" (Some 1%Z);
     mkRun (H 1) "more" (Some 1%Z);
     mkRun (H 2) "Sec2" (Some 2%Z);
     mkRun (H 1) "mid tail" (Some 2%Z);
     mkRun P "foot foot2" (Some 2%Z)].
Proof. vm_compute. reflexivity. Qed.

(** Two sizes used once each, the fractional one first. When the other
    size is a whole number its key is an array index and is enumerated
    first, so it becomes H1; when it is fractional too, creation order
    decides and the first size becomes H1. *)
Definition tie_whole : list (RawRun float) :=
  [mkRawRun 1 "a" 10.5 700; mkRawRun 1 "b" 12 600].
Definition tie_fraction : list (RawRun float) :=
  [mkRawRun 1 "a" 10.5 700; mkRawRun 1 "b" 12.5 600].

(** Among sizes of equal count the order of [Object.keys] decides
    the level: a whole-number size precedes a fractional size that was
    seen before it. *)
Example tie_break_by_key_order :
  headingSizes (sizeCounts tie_whole) = [12; 10.5] ∧
  headingSizes (sizeCounts tie_fraction) = [10.5; 12.5].
Proof. split; vm_compute; reflexivity. Qed.

Lemma headingSizes_ties_witness :
  [12; 10.5] `sublist_of` obj_keys (sizeCounts tie_whole).
Proof.
  apply (headingSizes_ties (sizeCounts tie_whole) 12 10.5).
  - apply sizeCounts_wf.
  - by rewrite (proj1 tie_break_by_key_order).
  - reflexivity.
Defined.

Lemma sortRuns_reading_order_witness :
  StronglySorted
    (λ a b, (lr_page a < lr_page b)%Z ∨
            (lr_page a = lr_page b ∧ (lr_y b <=? lr_y a)%float = true))
    (sortRuns sample_unsorted_runs).
Proof. apply (sortRuns_reading_order sample_unsorted_runs). by_compute. Defined.

(** The sizes of the sample document. *)
Definition size_title : float := num_hypot 24 24.
Definition size_body : float := num_hypot 10.5 10.5.
Definition size_heading : float := num_hypot 12 12.
Definition size_footer : float := num_hypot 8 8.

Lemma headingSizes_descending_witness :
  (count_of (sizeCounts sample_runs) size_heading
   ≤ count_of (sizeCounts sample_runs) size_body)%nat.
Proof.
  apply (headingSizes_descending (sizeCounts sample_runs) 0 1).
  - apply sizeCounts_wf.
  - lia.
  - vm_compute. reflexivity.
  - vm_compute. reflexivity.
Defined.

Lemma headingSizes_top_witness :
  (count_of (sizeCounts sample_runs) size_footer
   ≤ count_of (sizeCounts sample_runs) size_title)%nat.
Proof.
  apply (headingSizes_top (sizeCounts sample_runs)).
  - apply sizeCounts_wf.
  - by_compute.
  - by_compute.
  - by_compute.
Defined.

Lemma levelOf_heading_witness :
  levelOf (sizeToLevel (headingSizes (sizeCounts sample_runs))) size_heading
    = H (1 + 1).
Proof. apply (levelOf_heading sample_runs 1 size_heading). reflexivity. Defined.

Lemma levelOf_body_witness : levelOf (sizeToLevel [10.5; 12; 24]) 8 = P.
Proof. apply (levelOf_body [10.5; 12; 24] 8). by_compute. Defined.

Lemma sortRuns_sorted_witness :
  StronglySorted run_le (sortRuns sample_unsorted_runs).
Proof.
  apply (sortRuns_sorted (.∈ lr_y <$> sample_unsorted_runs)).
  - apply consistent_on_list. by_compute.
  - by_compute.
Defined.

Lemma sortRuns_stable_witness :
  filter (cmp_eqv run_cmp (mkLevelRun P "left" 1 300))
    (sortRuns sample_unsorted_runs)
  = filter (cmp_eqv run_cmp (mkLevelRun P "left" 1 300)) sample_unsorted_runs.
Proof.
  apply (sortRuns_stable (.∈ lr_y <$> sample_unsorted_runs)).
  - apply consistent_on_list. by_compute.
  - by_compute.
  - by_compute.
Defined.

Lemma extractByFontMetrics_Throw_witness :
  extractByFontMetrics sample_broken_doc = Throw "page 2 is damaged".
Proof.
  apply (extractByFontMetrics_Throw sample_broken_doc 2).
  - simpl. lia.
  - intros j Hj. assert (j = 1%Z) as -> by lia. by eexists.
  - reflexivity.
Defined.

Lemma sectionsOfRuns_levels_witness :
  H 3 ∈ [H 1; H 2; H 3; P].
Proof.
  apply (sectionsOfRuns_levels sample_runs (mkRun (H 3) "Title" (Some 1%Z))).
  by_compute.
Defined.

Lemma sectionsOfRuns_pages_witness :
  ∃ r, r ∈ sample_runs ∧ Some 2%Z = Some (raw_page r).
Proof.
  apply (sectionsOfRuns_pages sample_runs (mkRun P "foot foot2" (Some 2%Z))).
  by_compute.
Defined.

Lemma single_size_levels_witness :
  level (mkRun (H 1) "upper middle lower" (Some 1%Z)) = H 1.
Proof.
  apply (single_size_levels sample_plain_runs 11 _).
  - by_compute.
  - by_compute.
Defined.

Lemma single_size_single_page_witness :
  sectionsOfRuns sample_plain_runs =
    [mkRun (H 1) "upper middle lower" (Some 1%Z)].
Proof.
  etrans; [apply (single_size_single_page sample_plain_runs 11 1%Z)|].
  - done.
  - by_compute.
  - vm_compute. reflexivity.
Defined.

Lemma single_size_document_witness :
  Forall (λ s, level s = H 1) (sectionsOfRuns sample_plain_runs) ∧
  sectionsOfRuns sample_plain_runs =
    [mkRun (H 1) "upper middle lower" (Some 1%Z)].
Proof.
  destruct (single_size_document sample_plain_runs 11) as [Hl Hp];
    [by_compute|].
  split; [done|]. etrans; [apply (Hp 1%Z); [done|by_compute]|].
  vm_compute. reflexivity.
Defined.

Lemma mergeRuns_adjacent_witness :
  ¬ (level (mkRun (H 1) "Scope" (Some 1%Z)) =
       level (mkRun P "This document" (Some 1%Z)) ∧
     page (mkRun (H 1) "Scope" (Some 1%Z)) =
       page (mkRun P "This document" (Some 1%Z))).
Proof.
  apply (mergeRuns_adjacent sample_mixed_runs 0); reflexivity.
Defined.

Lemma mergeRuns_single_group_witness :
  mergeRuns sample_heading_runs = [mkRun (H 1) "Annual Report 2024" (Some 1%Z)].
Proof.
  apply (mergeRuns_single_group sample_heading_runs (H 1, Some 1%Z)).
  - done.
  - by repeat constructor.
Defined.

Lemma mergeRuns_no_merge_witness :
  mergeRuns sample_mixed_runs = toRun <$> sample_mixed_runs.
Proof.
  apply (mergeRuns_no_merge sample_mixed_runs). simpl.
  split_and!; by (done || intros [=]).
Defined.
End examples.
