(* ===== verification/Groups.v ===== *)
(** * The merge as a grouping

    The last loop of [extractByFontMetrics] in [src/helper.js] walks the
    sorted runs and either appends the text of a run to the last section
    or pushes a new section. What it computes is a grouping: the runs
    fall into blocks of neighbours of one level and page, as long as they
    can be, and each block becomes one section with the texts of its runs
    joined by single spaces.

    [groups] is that grouping, defined from the front of the list and
    without a list that is changed in place; [mergeRuns_groups] says that
    the loop computes it. *)

From Stdlib Require Import Floats.
From stdpp Require Import sorting.
From S2P Require Import Prelude JsNumber JsArray Binary64 JsString JsObject.
From S2P Require Import PdfDoc FontMetrics.

Section groups.
Context {F : Type}.
Implicit Types (item next : LevelRun F) (runs : list (LevelRun F)).
Implicit Types (g : LevelRun F * list (LevelRun F)).

(** A block is its first run and the runs after it. *)
Definition block g : list (LevelRun F) := g.1 :: g.2.

(** The blocks of a list of runs: a run joins the block of the run
    after it when the two have one level and page. *)
Fixpoint groups runs : list (LevelRun F * list (LevelRun F)) :=
  match runs with
  | [] => []
  | item :: runs' =>
      match groups runs' with
      | (next, rest) :: gs =>
          if decide (lr_key item = lr_key next)
          then (item, next :: rest) :: gs
          else (item, []) :: (next, rest) :: gs
      | [] => [(item, [])]
      end
  end.

(** The section of a block. *)
Definition sectionOf g : Run :=
  mkRun (lr_level g.1) (join_space (lr_text <$> block g)) (Some (lr_page g.1)).

(** A block has one key. *)
Definition one_key g : Prop := Forall (λ item, lr_key item = lr_key g.1) g.2.

(** ** The grouping *)

Lemma groups_cons item runs :
  groups (item :: runs) =
  match groups runs with
  | (next, rest) :: gs =>
      if decide (lr_key item = lr_key next)
      then (item, next :: rest) :: gs
      else (item, []) :: (next, rest) :: gs
  | [] => [(item, [])]
  end.
Proof. done. Qed.

(** The blocks are the list, cut. *)
Lemma groups_concat runs : concat (block <$> groups runs) = runs.
Proof.
  induction runs as [|item runs IH]; [done|]. rewrite groups_cons.
  destruct (groups runs) as [|[next rest] gs]; simpl in *; [by subst|].
  case_decide; simpl; by rewrite <-IH.
Qed.

Lemma groups_one_key runs : Forall one_key (groups runs).
Proof.
  induction runs as [|item runs IH]; [done|]. rewrite groups_cons.
  destruct IH as [|[next rest] gs Hg IH]; [by repeat constructor|].
  case_decide as Hk; repeat constructor; try done.
  unfold one_key in *. simpl in *. by rewrite Hk.
Qed.

(** The blocks are as long as they can be: a block and the next differ
    in level or page. *)
Lemma groups_maximal runs :
  adjacent (λ g g', lr_key g.1 ≠ lr_key g'.1) (groups runs).
Proof.
  induction runs as [|item runs IH]; [done|]. rewrite groups_cons.
  destruct (groups runs) as [|[next rest] gs]; [done|].
  case_decide as Hk; simpl in *; [|done].
  destruct gs as [|g' gs]; [done|]. destruct IH as [Hne Ha].
  split; [by rewrite Hk|done].
Qed.

(** ** The loop *)

(** The loop looks at the last section only. *)
Lemma mergeStep_app (acc merged : list Run) item :
  merged ≠ [] → mergeStep (acc ++ merged) item = acc ++ mergeStep merged item.
Proof.
  destruct merged as [|prev merged _] using rev_ind; [done|]. intros _.
  rewrite app_assoc, !mergeStep_snoc. case_decide; by rewrite <-app_assoc.
Qed.

Lemma foldl_mergeStep_nonempty (merged : list Run) runs :
  merged ≠ [] → foldl mergeStep merged runs ≠ [].
Proof.
  intros Hne. induction runs as [|item runs _] using rev_ind; [done|].
  rewrite foldl_app. simpl.
  by destruct (mergeStep_last (foldl mergeStep merged runs) item)
    as (l & prev & -> & _); destruct l.
Qed.

Lemma foldl_mergeStep_app (acc merged : list Run) runs :
  merged ≠ [] →
  foldl mergeStep (acc ++ merged) runs = acc ++ foldl mergeStep merged runs.
Proof.
  intros Hne. induction runs as [|item runs IH] using rev_ind; [done|].
  rewrite !foldl_app. simpl. rewrite IH.
  by apply mergeStep_app, foldl_mergeStep_nonempty.
Qed.

(** The last section has the level and page of the last run. *)
Lemma mergeRuns_last runs item :
  last runs = Some item →
  ∃ l prev, mergeRuns runs = l ++ [prev] ∧ run_key prev = lr_key item.
Proof.
  destruct runs as [|item' runs _] using rev_ind; [done|].
  rewrite last_snoc, mergeRuns_snoc. intros [= ->]. apply mergeStep_last.
Qed.

(** Where the level or the page changes the list can be cut: the
    sections of the whole are those of the two parts. *)
Lemma mergeRuns_cut runs1 runs2 :
  (∀ a b, last runs1 = Some a → head runs2 = Some b → lr_key a ≠ lr_key b) →
  mergeRuns (runs1 ++ runs2) = mergeRuns runs1 ++ mergeRuns runs2.
Proof.
  intros Hcut. destruct runs2 as [|b runs2]; [by rewrite !app_nil_r|].
  destruct (last runs1) as [a|] eqn:Ha; [|by apply last_None in Ha as ->].
  destruct (mergeRuns_last runs1 a Ha) as (l & prev & Hm & Hk).
  unfold mergeRuns in *. rewrite foldl_app, Hm. simpl.
  rewrite mergeStep_snoc, decide_False, mergeStep_nil.
  - change (l ++ [prev; toRun b]) with (l ++ [prev] ++ [toRun b]).
    by rewrite app_assoc, foldl_mergeStep_app.
  - rewrite sameGroup_key, Hk. by apply Hcut.
Qed.

(** A block becomes one section. *)
Lemma mergeRuns_block g : one_key g → mergeRuns (block g) = [sectionOf g].
Proof.
  intros Hg.
  by rewrite (mergeRuns_single_group (block g) (lr_key g.1))
    by (done || by constructor).
Qed.

Lemma mergeRuns_blocks (gs : list (LevelRun F * list (LevelRun F))) :
  Forall one_key gs → adjacent (λ g g', lr_key g.1 ≠ lr_key g'.1) gs →
  mergeRuns (concat (block <$> gs)) = sectionOf <$> gs.
Proof.
  induction 1 as [|g gs Hg _ IH]; [done|]. intros [Hnext Ha]%adjacent_cons.
  rewrite !fmap_cons. cbn [concat].
  rewrite mergeRuns_cut; [by rewrite mergeRuns_block, IH|].
  intros a b Hlast Hhead. destruct gs as [|g' gs]; [done|].
  injection Hhead as <-.
  assert (lr_key a = lr_key g.1) as ->; [|by apply Hnext].
  apply last_Some_elem_of in Hlast.
  apply elem_of_cons in Hlast as [->|Hin]; [done|].
  unfold one_key in Hg. rewrite Forall_forall in Hg. by apply Hg.
Qed.

(** The loop computes the grouping. *)
Lemma mergeRuns_groups runs : mergeRuns runs = sectionOf <$> groups runs.
Proof.
  rewrite <-(groups_concat runs) at 1.
  apply mergeRuns_blocks; [apply groups_one_key|apply groups_maximal].
Qed.

(** ** The order of the sections *)

(** The first runs of the blocks, in order, are runs of the list. *)
Lemma groups_heads runs : (fst <$> groups runs) `sublist_of` runs.
Proof.
  induction runs as [|item runs IH]; [done|]. rewrite groups_cons.
  destruct (groups runs) as [|[next rest] gs]; simpl in *.
  - by apply sublist_skip.
  - case_decide; [|by apply sublist_skip].
    apply sublist_skip. by etrans; [apply sublist_cons|].
Qed.

(** Section [r] is on a page no later than that of [r']. *)
Definition page_le (r r' : Run) : Prop :=
  ∃ p q, page r = Some p ∧ page r' = Some q ∧ (p ≤ q)%Z.

(** The merge keeps the order of the pages. *)
Lemma mergeRuns_page_order runs :
  StronglySorted (λ a b, (lr_page a ≤ lr_page b)%Z) runs →
  StronglySorted page_le (mergeRuns runs).
Proof.
  intros Hs%(StronglySorted_sublist _ _ _ (groups_heads runs)).
  rewrite mergeRuns_groups. apply StronglySorted_fmap_inv in Hs.
  eapply StronglySorted_fmap; [|done].
  intros g g' Hle. by exists (lr_page g.1), (lr_page g'.1).
Qed.

(** C20: The detector, after the scan, groups the sorted runs: the merge
    loop yields the sections of the blocks of neighbouring runs of one
    level and page, each block as long as it can be, in order; a section
    has the level and page of its block and the texts of its runs joined
    by single spaces. *)
Theorem sectionsOfRuns_groups `{JsArith F, JsKey F}
    (allRuns : list (RawRun F)) :
  let stl := sizeToLevel (headingSizes (sizeCounts allRuns)) in
  sectionsOfRuns allRuns =
  sectionOf <$> groups (sortRuns (levelRun stl <$> allRuns)).
Proof. apply mergeRuns_groups. Qed.
End groups.

(** In binary64, when no vertical position is NaN, the sections of the
    detector are in the order of their pages: the merge does not move a
    section before a section of an earlier page. *)
Theorem sectionsOfRuns_page_order (allRuns : list (RawRun float)) :
  Forall (λ r, is_nan (raw_y r) = false) allRuns →
  StronglySorted page_le (sectionsOfRuns allRuns).
Proof.
  intros Hy. apply mergeRuns_page_order.
  eapply StronglySorted_impl_elem; last first.
  - apply (sortRuns_sorted _ _ float_compare_consistent).
    by apply Forall_fmap.
  - intros a b _ _ [?|[? _]]; lia.
Qed.

(** ** Examples *)

Section examples.
Local Open Scope float_scope.

(** Two blocks on page 1, the second of two runs, and one on page 2:
    a heading that follows body text of its page starts a block, and so
    does the same level on the next page. *)
Example groups_sample :
  block <$> groups
    [mkLevelRun (H 1) "Scope" 1 700; mkLevelRun P "This" 1 680;
     mkLevelRun P "document" 1 660; mkLevelRun P "goes on" 2 700] =
  [[mkLevelRun (H 1) "Scope" 1 700];
   [mkLevelRun P "This" 1 680; mkLevelRun P "document" 1 660];
   [mkLevelRun P "goes on" 2 700]].
Proof. vm_compute. reflexivity. Qed.

Example mergeRuns_sample :
  mergeRuns
    [mkLevelRun (H 1) "Scope" 1 700; mkLevelRun P "This" 1 680;
     mkLevelRun P "document" 1 660; mkLevelRun P "goes on" 2 700] =
  [mkRun (H 1) "Scope" (Some 1%Z); mkRun P "This document" (Some 1%Z);
   mkRun P "goes on" (Some 2%Z)].
Proof. vm_compute. reflexivity. Qed.

Lemma sectionsOfRuns_page_order_witness :
  StronglySorted page_le (sectionsOfRuns sample_runs).
Proof.
  apply (sectionsOfRuns_page_order sample_runs).
  repeat constructor.
Defined.
End examples.
