(* ===== verification/Outline.v ===== *)
(** * The outline resolver

    [extractOutline] of [src/helper.js] and its inner function [walk]:

    - [resolveDest], [tryPage], [resolvePage]: the [try] block that turns
      an entry's destination into a page number, and the empty [catch]
      that leaves the page [null];
    - [entry]: the object pushed for an entry at a nesting level;
    - [walkItem], [walk]: the recursion, with [results] threaded through;
    - [extractOutline]: the guard on a missing or empty outline and the
      walk from level 1.

    The specification [preorder] lists the entries of a forest with their
    depths, parents before children and siblings in order; the walk is
    shown to push exactly [entry] of each. *)

From Stdlib Require Import Floats.
From S2P Require Import Prelude JsString PdfDoc.

Section outline.
Context {F : Type} (pdfDoc : PdfDoc F).
Implicit Types (item : OutlineItem) (l : list OutlineItem).
Implicit Types (results : list Run) (lvl : nat).

(** ** Resolving a destination *)

(** [Array.isArray(item.dest) ? item.dest : await
    pdfDoc.getDestination(item.dest)]. *)
Definition resolveDest (d : Dest) : result (option (list DestTarget)) :=
  match d with
  | DestArray a => Ok (Some a)
  | _ => getDestination pdfDoc d
  end.

(** The body of the [try] block: the value [page] has when the block
    completes, or the exception it throws. *)
Definition tryPage item : result (option Z) :=
  d ← resolveDest (dest item);
  match d with
  | Some (t :: _) =>
      if target_truthy t then
        idx ← getPageIndex pdfDoc t;
        Ok (Some (idx + 1)%Z)
      else Ok None
  | _ => Ok None
  end.

(** [let page = null; try { ... } catch {}]. *)
Definition resolvePage item : option Z :=
  match tryPage item with
  | Ok p => p
  | Throw _ => None
  end.

(** ** The walk *)

(** [{ level: `H${Math.min(level, 3)}`, text: item.title.trim(), page }]. *)
Definition entry lvl item : Run :=
  mkRun (H (lvl `min` 3)) (trim (title item)) (resolvePage item).

(** One iteration of the loop of [walk]: push the entry, then walk its
    children one level deeper. *)
Fixpoint walkItem lvl item results : list Run :=
  match item with
  | mkItem _ _ children =>
      (fix walkList l results : list Run :=
         match l with
         | [] => results
         | c :: l' => walkList l' (walkItem (lvl + 1) c results)
         end) children (results ++ [entry lvl item])
  end.

(** [walk(items, level)] on the array [results]. *)
Definition walk l lvl results : list Run :=
  foldl (λ res item, walkItem lvl item res) results l.

(** ** The resolver *)

Definition extractOutline : result (option (list Run)) :=
  outline ← getOutline pdfDoc;
  match outline with
  | None | Some [] => Ok None
  | Some l => Ok (Some (walk l 1 []))
  end.

(** ** Specification *)

(** The entries of a tree with their depths, the root first. *)
Fixpoint preorderItem lvl item : list (nat * OutlineItem) :=
  match item with
  | mkItem _ _ children =>
      (lvl, item) ::
      (fix preorderList l : list (nat * OutlineItem) :=
         match l with
         | [] => []
         | c :: l' => preorderItem (lvl + 1) c ++ preorderList l'
         end) children
  end.

Definition preorder lvl l : list (nat * OutlineItem) :=
  l ≫= preorderItem lvl.

(** ** The walk implements the specification *)

Lemma walkItem_unfold lvl item results :
  walkItem lvl item results =
    walk (items item) (lvl + 1) (results ++ [entry lvl item]).
Proof.
  destruct item as [t d children]. simpl. unfold walk.
  generalize (results ++ [entry lvl (mkItem t d children)]).
  induction children as [|c l IH]; intros res; [done|]. apply IH.
Qed.

Lemma preorderItem_unfold lvl item :
  preorderItem lvl item = (lvl, item) :: preorder (lvl + 1) (items item).
Proof.
  by destruct item.
Qed.

Lemma walk_nil lvl results : walk [] lvl results = results.
Proof. done. Qed.

Lemma walk_cons item l lvl results :
  walk (item :: l) lvl results = walk l lvl (walkItem lvl item results).
Proof. done. Qed.

Lemma preorder_cons lvl item l :
  preorder lvl (item :: l) = preorderItem lvl item ++ preorder lvl l.
Proof. done. Qed.

Lemma walk_preorder_Forall l :
  Forall (λ item, ∀ lvl results,
    walkItem lvl item results =
      results ++ (uncurry entry <$> preorderItem lvl item)) l →
  ∀ lvl results,
    walk l lvl results = results ++ (uncurry entry <$> preorder lvl l).
Proof.
  induction 1 as [|c l Hc _ IHl]; intros lvl results.
  - by rewrite walk_nil, app_nil_r.
  - by rewrite walk_cons, Hc, IHl, preorder_cons, fmap_app, app_assoc.
Qed.

Lemma walkItem_preorder item lvl results :
  walkItem lvl item results =
    results ++ (uncurry entry <$> preorderItem lvl item).
Proof.
  revert lvl results.
  induction item as [t d children IH] using OutlineItem_forall_ind.
  intros lvl results.
  rewrite walkItem_unfold, preorderItem_unfold, (walk_preorder_Forall _ IH).
  by rewrite fmap_cons, <-app_assoc.
Qed.

(** The walk appends to [results] one section for every entry of the
    forest, parents before their children and siblings in their order. *)
Lemma walk_entries l lvl results :
  walk l lvl results = results ++ (uncurry entry <$> preorder lvl l).
Proof.
  apply walk_preorder_Forall, Forall_forall. intros item _ ??.
  apply walkItem_preorder.
Qed.

(** ** Depths and levels *)

Lemma preorder_depth_Forall l :
  Forall (λ item, ∀ lvl d it,
    (d, it) ∈ preorderItem lvl item → lvl ≤ d < lvl + item_depth item) l →
  ∀ lvl d it, (d, it) ∈ preorder lvl l → lvl ≤ d < lvl + forest_depth l.
Proof.
  unfold forest_depth. induction 1 as [|c l Hc _ IHl]; intros lvl d it.
  { by intros ?%elem_of_nil. }
  rewrite preorder_cons, fmap_cons. simpl.
  intros [Hin%Hc|Hin%IHl]%elem_of_app; lia.
Qed.

Lemma preorderItem_depth item lvl d it :
  (d, it) ∈ preorderItem lvl item → lvl ≤ d < lvl + item_depth item.
Proof.
  revert lvl d it.
  induction item as [t ds children IH] using OutlineItem_forall_ind.
  intros lvl d it. rewrite preorderItem_unfold.
  intros [[= -> ->]|Hin%(preorder_depth_Forall _ IH)]%elem_of_cons;
    unfold forest_depth in *; simpl in *; lia.
Qed.

Lemma preorder_depth l lvl d it :
  (d, it) ∈ preorder lvl l → lvl ≤ d < lvl + forest_depth l.
Proof.
  apply preorder_depth_Forall, Forall_forall. intros item _ ???.
  apply preorderItem_depth.
Qed.

Lemma preorder_length_Forall l :
  Forall (λ item, ∀ lvl, length (preorderItem lvl item) = item_size item) l →
  ∀ lvl, length (preorder lvl l) = forest_size l.
Proof.
  unfold forest_size. induction 1 as [|c l Hc _ IHl]; intros lvl; [done|].
  by rewrite preorder_cons, length_app, Hc, IHl.
Qed.

Lemma preorderItem_length item lvl :
  length (preorderItem lvl item) = item_size item.
Proof.
  revert lvl. induction item as [t d children IH] using OutlineItem_forall_ind.
  intros lvl. rewrite preorderItem_unfold. simpl.
  by rewrite (preorder_length_Forall _ IH).
Qed.

Lemma preorder_length l lvl : length (preorder lvl l) = forest_size l.
Proof.
  apply preorder_length_Forall, Forall_forall. intros item _ ?.
  apply preorderItem_length.
Qed.

(** The walk adds exactly one section per entry of the outline: an
    entry whose destination cannot be resolved is kept. *)
Theorem walk_length l lvl results :
  length (walk l lvl results) = length results + forest_size l.
Proof. by rewrite walk_entries, length_app, length_fmap, preorder_length. Qed.

(** Every section of the walk from level 1 has level H1, H2 or H3. *)
Lemma walk_heading_levels l r :
  r ∈ walk l 1 [] → level r ∈ [H 1; H 2; H 3].
Proof.
  rewrite walk_entries. simpl.
  intros ([d it] & -> & Hin)%list_elem_of_fmap.
  apply preorder_depth in Hin as [Hd _]. simpl.
  assert (d `min` 3 = 1 ∨ d `min` 3 = 2 ∨ d `min` 3 = 3) as Hmin by lia.
  rewrite !elem_of_cons. destruct Hmin as [->|[->| ->]]; auto.
Qed.

(** An entry at depth [d] gets level H[d] up to depth 3 and H3 below
    it. *)
Theorem walk_level_of_depth l d it :
  (d, it) ∈ preorder 1 l →
  entry d it ∈ walk l 1 [] ∧
  level (entry d it) = if decide (d ≤ 3) then H d else H 3.
Proof.
  intros Hin. split.
  - rewrite walk_entries. simpl. apply list_elem_of_fmap.
    by exists (d, it).
  - simpl. case_decide; f_equal; lia.
Qed.

(** The text of every section is trimmed. *)
Lemma walk_text_trimmed l lvl r :
  r ∈ walk l lvl [] → trim (text r) = text r.
Proof.
  rewrite walk_entries.
  intros ([d it] & -> & _)%list_elem_of_fmap. apply trim_idemp.
Qed.

(** ** Page resolution *)

(** A failure inside the [try] block leaves the page [null]. *)
Lemma resolvePage_failure item e :
  tryPage item = Throw e → resolvePage item = None.
Proof. unfold resolvePage. by intros ->. Qed.

(** An explicit destination whose first element is a page reference
    resolves to the page index plus one. *)
Theorem resolvePage_explicit t d l num gen ds idx :
  getPageIndex pdfDoc (TargetRef num gen) = Ok idx →
  d = DestArray (TargetRef num gen :: ds) →
  resolvePage (mkItem t d l) = Some (idx + 1)%Z.
Proof. intros Hidx ->. unfold resolvePage, tryPage. simpl. by run_result. Qed.

(** A named destination is looked up first. *)
Lemma resolvePage_named t name l tg ds idx :
  getDestination pdfDoc (DestName name) = Ok (Some (tg :: ds)) →
  target_truthy tg = true →
  getPageIndex pdfDoc tg = Ok idx →
  resolvePage (mkItem t (DestName name) l) = Some (idx + 1)%Z.
Proof.
  intros Hd Ht Hidx. unfold resolvePage, tryPage. simpl.
  by rewrite Hd; simpl; rewrite Ht, Hidx.
Qed.

(** A destination that is [null], empty or starts with a false value
    leaves the page [null] without asking for a page index. *)
Lemma resolvePage_falsy item :
  match resolveDest (dest item) with
  | Ok None | Ok (Some []) => True
  | Ok (Some (tg :: _)) => target_truthy tg = false
  | Throw _ => True
  end →
  resolvePage item = None.
Proof.
  unfold resolvePage, tryPage. destruct (resolveDest _) as [[[|tg ds]|]|e]; simpl;
    [done| |done..]. by intros ->.
Qed.

(** An entry whose destination cannot be looked up, or whose page
    index cannot be found, is kept: the walk returns its section with the
    page [null], and nothing is thrown. *)
Theorem walk_keeps_unresolved l d item e :
  (d, item) ∈ preorder 1 l → tryPage item = Throw e →
  mkRun (H (d `min` 3)) (trim (title item)) None ∈ walk l 1 [].
Proof.
  intros Hin He. rewrite walk_entries. simpl. apply list_elem_of_fmap.
  exists (d, item). split; [|done]. simpl. unfold entry.
  by rewrite (resolvePage_failure item e).
Qed.

(** ** The resolver *)

(** [extractOutline] reports "no outline" exactly when the document
    has none or an empty one, and then the caller falls back. *)
Lemma extractOutline_None :
  extractOutline = Ok None ↔
  getOutline pdfDoc = Ok None ∨ getOutline pdfDoc = Ok (Some []).
Proof.
  unfold extractOutline. destruct (getOutline pdfDoc) as [[[|item l]|]|e]; simpl.
  - split; [by right|done].
  - split; [done|by intros [?|?]].
  - split; [by left|done].
  - split; [done|by intros [?|?]].
Qed.

(** C21: For a non-empty outline [extractOutline] returns one section for
    every entry, parents before their children and siblings in their
    order, each built by [entry] at the depth of the entry. *)
Theorem extractOutline_Some l :
  l ≠ [] → getOutline pdfDoc = Ok (Some l) →
  extractOutline = Ok (Some (uncurry entry <$> preorder 1 l)).
Proof.
  intros Hne Ho. unfold extractOutline. run_result.
  destruct l; [done|]. by rewrite walk_entries.
Qed.

(** C22: Every section [extractOutline] returns has level H1, H2 or H3,
    whatever the depth of the outline: no H4 and no P. *)
Theorem extractOutline_levels rs r :
  extractOutline = Ok (Some rs) → r ∈ rs → level r ∈ [H 1; H 2; H 3].
Proof.
  unfold extractOutline. destruct (getOutline pdfDoc) as [[[|item l]|]|e];
    try done.
  intros [= <-]. apply (walk_heading_levels (item :: l)).
Qed.

(** [extractOutline] rejects only when [getOutline] does. *)
Lemma extractOutline_Throw e :
  extractOutline = Throw e ↔ getOutline pdfDoc = Throw e.
Proof.
  unfold extractOutline. destruct (getOutline pdfDoc) as [[[|item l]|]|e'];
    simpl; split; congruence.
Qed.

(** What [extractOutline] returns is never an empty list. *)
Lemma extractOutline_nonempty rs : extractOutline = Ok (Some rs) → rs ≠ [].
Proof.
  unfold extractOutline. destruct (getOutline pdfDoc) as [[[|item l]|]|e];
    try done.
  intros [= <-] Hnil. apply (f_equal length) in Hnil.
  change (length (walk (item :: l) 1 []) = 0) in Hnil.
  rewrite walk_cons, walk_length, walkItem_preorder, preorderItem_unfold in Hnil.
  simpl in Hnil. lia.
Qed.
End outline.

(** ** A sample outline

    A chapter with an explicit destination, a section in it with a named
    destination, a subsection and a paragraph entry below it (depth 4),
    and a second chapter whose destination names nothing the document
    knows, so that looking it up is rejected. The text content of the
    document cannot be read. *)

Section examples.
Local Open Scope Z_scope.

Definition sample_paragraph : OutlineItem :=
  mkItem "Details " (DestArray [TargetNull]) [].
Definition sample_subsection : OutlineItem :=
  mkItem "1.1.1 Scope" DestNull [sample_paragraph].
Definition sample_section : OutlineItem :=
  mkItem " 1.1 Background" (DestName "bg") [sample_subsection].
Definition sample_chapter : OutlineItem :=
  mkItem "1 Introduction" (DestArray [TargetRef 12 0; TargetNum 0])
    [sample_section].
Definition sample_appendix : OutlineItem :=
  mkItem "Appendix" (DestName "missing") [].
Definition sample_outline : list OutlineItem :=
  [sample_chapter; sample_appendix].

Definition sample_outline_doc : PdfDoc float := {|
  getOutline := Ok (Some sample_outline);
  getDestination d :=
    match d with
    | DestName "bg" => Ok (Some [TargetRef 15 0])
    | DestName _ => Throw "unknown destination"
    | _ => Ok None
    end;
  getPageIndex t :=
    match t with
    | TargetRef 12 _ => Ok 0
    | TargetRef 15 _ => Ok 2
    | _ => Throw "not a page reference"
    end;
  numPages := 3;
  getTextContent _ := Throw "text content is not read";
|}.

Example sample_outline_sections :
  extractOutline sample_outline_doc = Ok (Some [
    mkRun (H 1) "1 Introduction" (Some 1);
    mkRun (H 2) "1.1 Background" (Some 3);
    mkRun (H 3) "1.1.1 Scope" None;
    mkRun (H 3) "Details" None;
    mkRun (H 1) "Appendix" None ]).
Proof. vm_compute. reflexivity. Qed.

Definition sample_outline_runs : list Run :=
  uncurry (entry sample_outline_doc) <$> preorder 1 sample_outline.

Lemma extractOutline_levels_witness :
  level (mkRun (H 3) "Details" None) ∈ [H 1; H 2; H 3].
Proof.
  apply (extractOutline_levels sample_outline_doc sample_outline_runs).
  - reflexivity.
  - by_compute.
Defined.

Lemma walk_level_of_depth_witness :
  entry sample_outline_doc 4 sample_paragraph
    ∈ walk sample_outline_doc sample_outline 1 [] ∧
  level (entry sample_outline_doc 4 sample_paragraph) = H 3.
Proof.
  apply (walk_level_of_depth sample_outline_doc sample_outline 4
           sample_paragraph).
  by_compute.
Defined.

Lemma walk_keeps_unresolved_witness :
  mkRun (H (1 `min` 3)) (trim (title sample_appendix)) None
    ∈ walk sample_outline_doc sample_outline 1 [].
Proof.
  apply (walk_keeps_unresolved sample_outline_doc sample_outline 1
           sample_appendix "unknown destination").
  - by_compute.
  - reflexivity.
Defined.

Lemma resolvePage_explicit_witness :
  resolvePage sample_outline_doc sample_chapter = Some 1.
Proof.
  apply (resolvePage_explicit sample_outline_doc "1 Introduction" _
           [sample_section] 12 0 [TargetNum 0] 0); reflexivity.
Defined.

Lemma extractOutline_Some_witness :
  extractOutline sample_outline_doc =
    Ok (Some (uncurry (entry sample_outline_doc) <$> preorder 1 sample_outline)).
Proof.
  apply (extractOutline_Some sample_outline_doc sample_outline);
    [discriminate|reflexivity].
Defined.
End examples.
