(* ===== verification/Process.v ===== *)
(** * Processing one document

    [processFileAndGetRuns] of [src/helper.js]: open the document, try its
    outline, fall back to the font-metrics detector when there is none,
    and stamp every section with the base name of the file.

    Opening a document is a call into pdf.js and the file system; the
    section variable [getDocument] is what the call answers for a path. *)

From Stdlib Require Import Floats.
From S2P Require Import Prelude JsNumber JsString JsPath PdfDoc.
From S2P Require Import FontMetrics Outline.

(** A section with its source: the object [{ level, text, page }] after
    [run.fileName = fileName]. *)
Record ContentRun : Type := mkContentRun {
  run : Run;
  fileName : string;
}.

#[export] Instance ContentRun_eq_dec : EqDecision ContentRun.
Proof. solve_decision. Defined.

Section process.
Context `{JsArith F, JsKey F}.
Context (getDocument : string → result (PdfDoc F)).

(** The sections of an open document: the outline when there is one, the
    detector otherwise. *)
Definition contentRunsOf (pdfDoc : PdfDoc F) : result (list Run) :=
  contentRuns ← extractOutline pdfDoc;
  match contentRuns with
  | Some rs => Ok rs
  | None => extractByFontMetrics pdfDoc
  end.

(** [contentRuns.forEach((run) => { run.fileName = fileName; })]. *)
Definition stamp (fileName : string) (contentRuns : list Run)
  : list ContentRun :=
  (λ run, mkContentRun run fileName) <$> contentRuns.

Definition processFileAndGetRuns (inPath : string) : result (list ContentRun) :=
  let fileName := basename inPath in
  pdfDoc ← getDocument inPath;
  contentRuns ← contentRunsOf pdfDoc;
  Ok (stamp fileName contentRuns).

(** ** Outline first, detector second *)

(** A document with a non-empty outline yields the sections of its
    outline; its text content is not read, so a page that cannot be read
    does no harm. *)
Theorem contentRunsOf_outline pdfDoc l :
  l ≠ [] → getOutline pdfDoc = Ok (Some l) →
  contentRunsOf pdfDoc = Ok (uncurry (entry pdfDoc) <$> preorder 1 l).
Proof.
  intros Hne Ho. unfold contentRunsOf, extractOutline. rewrite Ho.
  destruct l as [|item l]; [done|]. simpl. f_equal.
  apply (walk_entries pdfDoc (item :: l) 1 []).
Qed.

(** A document without an outline, or with an empty one, yields what
    the font-metrics detector finds. *)
Theorem contentRunsOf_fallback pdfDoc :
  getOutline pdfDoc = Ok None ∨ getOutline pdfDoc = Ok (Some []) →
  contentRunsOf pdfDoc = extractByFontMetrics pdfDoc.
Proof.
  intros Ho%extractOutline_None. unfold contentRunsOf. by run_result.
Qed.

Lemma contentRunsOf_Throw pdfDoc e :
  getOutline pdfDoc = Throw e → contentRunsOf pdfDoc = Throw e.
Proof.
  intros Ho%extractOutline_Throw. unfold contentRunsOf. by run_result.
Qed.

(** The two sources of a section. *)
Lemma contentRunsOf_inv pdfDoc rs :
  contentRunsOf pdfDoc = Ok rs →
  (∃ l, l ≠ [] ∧ rs = walk pdfDoc l 1 []) ∨ extractByFontMetrics pdfDoc = Ok rs.
Proof.
  unfold contentRunsOf, extractOutline.
  destruct (getOutline pdfDoc) as [[[|item l]|]|e]; simpl; auto; [|done].
  intros [= <-]. left. by exists (item :: l).
Qed.

(** ** Levels and pages *)

(** Whichever extractor produced it, the level of a section is H1, H2,
    H3 or P. *)
Theorem contentRunsOf_levels pdfDoc rs s :
  contentRunsOf pdfDoc = Ok rs → s ∈ rs → level s ∈ [H 1; H 2; H 3; P].
Proof.
  intros [(l & _ & ->)|Hf]%contentRunsOf_inv Hs.
  - by apply heading_levels_weaken, (walk_heading_levels pdfDoc l).
  - unfold extractByFontMetrics in Hf.
    apply result_bind_Ok_inv in Hf as (runs & _ & [= <-]).
    by eapply sectionsOfRuns_levels.
Qed.

(** A section of level P has a page number, between 1 and the number
    of pages: only the outline leaves a page [null], and the outline
    produces no P. *)
Lemma contentRunsOf_P_page pdfDoc rs s :
  contentRunsOf pdfDoc = Ok rs → s ∈ rs → level s = P →
  ∃ i, page s = Some i ∧ (1 ≤ i ≤ numPages pdfDoc)%Z.
Proof.
  intros [(l & _ & ->)|Hf]%contentRunsOf_inv Hs HP.
  - by apply walk_heading_levels, heading_levels_not_P in Hs.
  - by eapply extractByFontMetrics_pages.
Qed.

(** ** The whole function *)

Lemma processFileAndGetRuns_Ok inPath pdfDoc rs :
  getDocument inPath = Ok pdfDoc → contentRunsOf pdfDoc = Ok rs →
  processFileAndGetRuns inPath = Ok (stamp (basename inPath) rs).
Proof. intros Hd Hr. unfold processFileAndGetRuns. by run_result. Qed.

Lemma processFileAndGetRuns_inv inPath crs :
  processFileAndGetRuns inPath = Ok crs →
  ∃ pdfDoc rs, getDocument inPath = Ok pdfDoc ∧ contentRunsOf pdfDoc = Ok rs ∧
    crs = stamp (basename inPath) rs.
Proof.
  unfold processFileAndGetRuns.
  intros (pdfDoc & ? & (rs & ? & [= <-])%result_bind_Ok_inv)%result_bind_Ok_inv.
  eauto.
Qed.

(** Every section of a document carries the base name of the path the
    document was opened from. *)
Theorem processFileAndGetRuns_fileName inPath crs cr :
  processFileAndGetRuns inPath = Ok crs → cr ∈ crs →
  fileName cr = basename inPath.
Proof.
  intros (pdfDoc & rs & _ & _ & ->)%processFileAndGetRuns_inv.
  by intros (r & -> & _)%list_elem_of_fmap.
Qed.

(** A document that cannot be opened makes the call fail with the
    error of pdf.js. *)
Theorem processFileAndGetRuns_open_Throw inPath e :
  getDocument inPath = Throw e → processFileAndGetRuns inPath = Throw e.
Proof. intros He. unfold processFileAndGetRuns. by run_result. Qed.

(** A document with no outline and no text on any page yields the
    empty list of sections, not an error. *)
Theorem processFileAndGetRuns_empty inPath pdfDoc :
  getDocument inPath = Ok pdfDoc →
  getOutline pdfDoc = Ok None →
  (∀ i, (1 ≤ i ≤ numPages pdfDoc)%Z →
     ∃ l, getTextContent pdfDoc i = Ok l ∧ scanPage i l = []) →
  processFileAndGetRuns inPath = Ok [].
Proof.
  intros Hd Ho Hp.
  rewrite (processFileAndGetRuns_Ok inPath pdfDoc []); [done..|].
  unfold contentRunsOf. rewrite (proj2 (extractOutline_None pdfDoc)) by auto.
  simpl.
  unfold extractByFontMetrics. by rewrite collectRuns_empty.
Qed.
End process.

(** ** Sample documents

    A directory with a document that has an outline, one that has none and
    one that has neither outline nor text. *)

Section examples.
Local Open Scope Z_scope.

Definition sample_blank_doc : PdfDoc float := {|
  getOutline := Ok None;
  getDestination _ := Ok None;
  getPageIndex _ := Throw "no pages";
  numPages := 2;
  getTextContent i :=
    if decide (i = 1) then Ok [mkTextItem "   " [12; 0; 0; 12; 0; 700]%float]
    else Ok [];
|}.

Definition sample_getDocument (inPath : string) : result (PdfDoc float) :=
  match inPath with
  | "input/PDF/guide.pdf" => Ok sample_outline_doc
  | "input/PDF/notes.pdf" => Ok sample_doc
  | "input/PDF/blank.pdf" => Ok sample_blank_doc
  | _ => Throw "Missing PDF"
  end.

Example sample_process_outline :
  processFileAndGetRuns sample_getDocument "input/PDF/guide.pdf" =
    Ok (stamp "guide.pdf" [
      mkRun (H 1) "1 Introduction" (Some 1);
      mkRun (H 2) "1.1 Background" (Some 3);
      mkRun (H 3) "1.1.1 Scope" None;
      mkRun (H 3) "Details" None;
      mkRun (H 1) "Appendix" None ]).
Proof. vm_compute. reflexivity. Qed.

Lemma contentRunsOf_outline_witness :
  contentRunsOf sample_outline_doc =
    Ok (uncurry (entry sample_outline_doc) <$> preorder 1 sample_outline).
Proof.
  apply (contentRunsOf_outline sample_outline_doc sample_outline);
    [discriminate|reflexivity].
Defined.

Lemma contentRunsOf_fallback_witness :
  contentRunsOf sample_doc = extractByFontMetrics sample_doc.
Proof. apply (contentRunsOf_fallback sample_doc). left. reflexivity. Defined.

Definition sample_doc_runs : list Run :=
  match contentRunsOf sample_doc with Ok rs => rs | Throw _ => [] end.

Lemma contentRunsOf_levels_witness :
  level (mkRun P "foot foot2" (Some 2)) ∈ [H 1; H 2; H 3; P].
Proof.
  apply (contentRunsOf_levels sample_doc sample_doc_runs);
    [vm_compute; reflexivity|by_compute].
Defined.

Lemma contentRunsOf_P_page_witness :
  ∃ i, page (mkRun P "foot foot2" (Some 2)) = Some i ∧
       1 ≤ i ≤ numPages sample_doc.
Proof.
  apply (contentRunsOf_P_page sample_doc sample_doc_runs);
    [vm_compute; reflexivity|by_compute|reflexivity].
Defined.

Lemma processFileAndGetRuns_fileName_witness :
  fileName (mkContentRun (mkRun (H 1) "Appendix" None) "guide.pdf") =
    basename "input/PDF/guide.pdf".
Proof.
  eapply (processFileAndGetRuns_fileName sample_getDocument);
    [vm_compute; reflexivity|by_compute].
Defined.

Lemma processFileAndGetRuns_open_Throw_witness :
  processFileAndGetRuns sample_getDocument "input/PDF/absent.pdf" =
    Throw "Missing PDF".
Proof.
  apply (processFileAndGetRuns_open_Throw sample_getDocument). reflexivity.
Defined.

Lemma processFileAndGetRuns_empty_witness :
  processFileAndGetRuns sample_getDocument "input/PDF/blank.pdf" = Ok [].
Proof.
  apply (processFileAndGetRuns_empty sample_getDocument _ sample_blank_doc);
    [reflexivity..|].
  intros i Hi. destruct (decide (i = 1)) as [->|Hne].
  - eexists. split; reflexivity.
  - exists []. split; [|reflexivity]. simpl. by rewrite decide_False.
Defined.
End examples.
