(* ===== verification/Cosine.v ===== *)
(** * Cosine similarity

    [cosineSimilarity] of [src/extract.js]: one loop over the indices of
    [vecA] with three accumulators, then a quotient.

    - Over any arithmetic ([JsArith]): the loop computes three sums from
      left to right, of the products of [vecA] with [vecB] filled up with
      [undefined] or cut to the length of [vecA].
    - Over binary64: the score is NaN when a vector has no direction
      (zeros and NaNs only) or the second is shorter than the first; the
      values the function returns for sample vectors, rounding
      included.
    - Over the reals (file [CosineReal]): the quotient is the cosine of
      the angle of the two vectors. *)

From Stdlib Require Import Floats.
From S2P Require Import Prelude JsNumber Binary64.

Section cosine.
Context `{JsArith F}.
Implicit Types (vecA vecB a b : list F) (x y s : F).
Local Open Scope num_scope.

(** ** The function *)

(** [vec[i]] in arithmetic: [undefined] out of range. *)
Definition vec_at (v : list F) (i : nat) : F := default num_undefined (v !! i).

(** The body of the loop on the accumulators [(dot, normA, normB)]. *)
Definition cosStep vecA vecB (acc : F * F * F) (i : nat) : F * F * F :=
  let '(dot, normA, normB) := acc in
  (dot + vec_at vecA i * vec_at vecB i,
   normA + vec_at vecA i * vec_at vecA i,
   normB + vec_at vecB i * vec_at vecB i).

(** [for (let i = 0; i < vecA.length; i++)]. *)
Definition cosLoop vecA vecB : F * F * F :=
  foldl (cosStep vecA vecB) (num_zero, num_zero, num_zero)
    (seq 0 (length vecA)).

Definition cosineSimilarity vecA vecB : F :=
  let '(dot, normA, normB) := cosLoop vecA vecB in
  dot / (num_sqrt normA * num_sqrt normB).

(** ** Reference definitions *)

(** The sum of a list from the left, starting at zero. *)
Definition sum_left (l : list F) : F := foldl num_add num_zero l.

(** The dot product, summed from the left. *)
Definition dot a b : F := sum_left (zip_with num_mul a b).

(** [vecB] as the loop reads it: cut to the length of [vecA], or filled up
    with [undefined]. *)
Definition read_as vecA vecB : list F :=
  resize (length vecA) num_undefined vecB.

Definition cosine_ref a b : F :=
  dot a b / (num_sqrt (dot a a) * num_sqrt (dot b b)).

(** ** The loop computes the three sums *)

Lemma dot_snoc a b x y :
  length a = length b → dot (a ++ [x]) (b ++ [y]) = dot a b + x * y.
Proof.
  intros Hl. unfold dot, sum_left.
  by rewrite zip_with_app, foldl_app by done.
Qed.

Lemma vec_at_lookup v i x : v !! i = Some x → vec_at v i = x.
Proof. unfold vec_at. by intros ->. Qed.

Lemma vec_at_read_as vecA vecB i :
  i < length vecA → vec_at (read_as vecA vecB) i = vec_at vecB i.
Proof.
  intros Hi. unfold vec_at, read_as.
  destruct (decide (i < length vecB)) as [Hlt|Hge].
  - by rewrite lookup_resize.
  - rewrite lookup_resize_new, lookup_ge_None_2 by lia. done.
Qed.

Lemma length_read_as vecA vecB : length (read_as vecA vecB) = length vecA.
Proof. apply length_resize. Qed.

Lemma read_as_same_length vecA vecB :
  length vecA = length vecB → read_as vecA vecB = vecB.
Proof. intros Hl. unfold read_as. by rewrite Hl, resize_all. Qed.

(** After [n] iterations the accumulators hold the sums over the first
    [n] components. *)
Lemma cosLoop_prefix a b n :
  length a = length b → n ≤ length a →
  foldl (cosStep a b) (num_zero, num_zero, num_zero) (seq 0 n) =
    (dot (take n a) (take n b), dot (take n a) (take n a),
     dot (take n b) (take n b)).
Proof.
  intros Hl. induction n as [|n IH]; intros Hn; [done|].
  rewrite seq_S, foldl_snoc, IH by lia. simpl.
  destruct (lookup_lt_is_Some_2 a n) as [x Hx]; [lia|].
  destruct (lookup_lt_is_Some_2 b n) as [y Hy]; [lia|].
  rewrite (vec_at_lookup _ _ _ Hx), (vec_at_lookup _ _ _ Hy).
  rewrite (take_S_r a n x), (take_S_r b n y) by done.
  by rewrite !dot_snoc by (rewrite !length_take; lia).
Qed.

Lemma cosStep_ext a b b' acc i :
  vec_at b i = vec_at b' i → cosStep a b acc i = cosStep a b' acc i.
Proof. intros Hb. destruct acc as [[d na] nb]. simpl. by rewrite Hb. Qed.

Lemma foldl_cosStep_ext a b b' acc l :
  Forall (λ i, vec_at b i = vec_at b' i) l →
  foldl (cosStep a b) acc l = foldl (cosStep a b') acc l.
Proof.
  intros Hl. revert acc. induction Hl as [|i l Hi _ IH]; intros acc; [done|].
  simpl. by rewrite (cosStep_ext a b b'), IH.
Qed.

Lemma cosLoop_read_as a b : cosLoop a b = cosLoop a (read_as a b).
Proof.
  unfold cosLoop. apply foldl_cosStep_ext, Forall_forall.
  intros i [_ Hi]%elem_of_seq. symmetry. apply vec_at_read_as. lia.
Qed.

Lemma cosLoop_same_length a b :
  length a = length b → cosLoop a b = (dot a b, dot a a, dot b b).
Proof.
  intros Hl. unfold cosLoop. rewrite cosLoop_prefix by done.
  by rewrite firstn_all, Hl, firstn_all.
Qed.

(** The accumulators after the loop. *)
Lemma cosLoop_sums a b :
  cosLoop a b =
    (dot a (read_as a b), dot a a, dot (read_as a b) (read_as a b)).
Proof.
  rewrite cosLoop_read_as, cosLoop_same_length; [done|].
  by rewrite length_read_as.
Qed.

(** C24: [cosineSimilarity] is the quotient of the dot product by the
    product of the norms, the three sums taken from left to right, with
    [vecB] read at the indices of [vecA]: cut when it is longer, filled up
    with [undefined] when it is shorter. *)
Theorem cosineSimilarity_ref a b :
  cosineSimilarity a b = cosine_ref a (read_as a b).
Proof. unfold cosineSimilarity, cosine_ref. by rewrite cosLoop_sums. Qed.

(** On vectors of one length the function is the textbook formula. *)
Lemma cosineSimilarity_same_length a b :
  length a = length b → cosineSimilarity a b = cosine_ref a b.
Proof.
  intros Hl. unfold cosineSimilarity, cosine_ref.
  by rewrite cosLoop_same_length.
Qed.

(** Components of [vecB] beyond the length of [vecA] are not read. *)
Lemma cosineSimilarity_take a b :
  cosineSimilarity a b = cosineSimilarity a (take (length a) b).
Proof.
  unfold cosineSimilarity. rewrite !cosLoop_sums.
  replace (read_as a (take (length a) b)) with (read_as a b); [done|].
  unfold read_as. destruct (decide (length a ≤ length b)).
  - by rewrite !resize_le, take_take, Nat.min_id by (rewrite ?length_take; lia).
  - by rewrite take_ge by lia.
Qed.
End cosine.

(** ** Binary64: scores that are NaN *)

Section nan.
Implicit Types (a b l : list float) (x y acc : float).
Local Open Scope float_scope.

(** A vector has no direction when its components are zeros and NaNs. *)
Definition void (a : list float) : Prop :=
  Forall (λ x, float_void x = true) a.

Lemma foldl_add_void acc l :
  float_void acc = true → void l → float_void (foldl num_add acc l) = true.
Proof.
  intros Hacc Hl. revert acc Hacc.
  induction Hl as [|x l Hx _ IH]; intros acc Hacc; [done|].
  by apply IH, float_void_add.
Qed.

Lemma foldl_add_nan acc l :
  is_nan acc = true ∨ Exists (λ x, is_nan x = true) l →
  is_nan (foldl num_add acc l) = true.
Proof.
  revert acc. induction l as [|x l IH]; intros acc.
  - by intros [?|?%Exists_nil].
  - intros [Hacc|[Hx|Hl]%Exists_cons]; apply IH; auto using is_nan_add.
Qed.

Lemma dot_void a b : void a ∨ void b → float_void (dot a b) = true.
Proof.
  intros Hab. apply foldl_add_void; [done|]. unfold void.
  revert b Hab. induction a as [|x a IH]; intros [|y b] Hab; try done.
  apply Forall_cons. split.
  - apply float_void_mul.
    destruct Hab as [[? _]%Forall_cons|[? _]%Forall_cons]; auto.
  - apply IH. destruct Hab as [[_ ?]%Forall_cons|[_ ?]%Forall_cons]; auto.
Qed.

Lemma void_read_as a b : void b → void (read_as a b).
Proof.
  intros Hb. unfold read_as, void. rewrite resize_spec.
  apply Forall_app. split; [by apply Forall_take|by apply Forall_replicate].
Qed.

(** C25: A vector without direction has no score: a zero vector, for one,
    makes the score NaN whatever the other vector is. *)
Theorem cosineSimilarity_void a b :
  void a ∨ void b → is_nan (cosineSimilarity a b) = true.
Proof.
  intros Hab. unfold cosineSimilarity. rewrite cosLoop_sums.
  apply float_void_div; [|apply float_void_mul].
  - apply dot_void. destruct Hab; auto using void_read_as.
  - destruct Hab; [left|right]; apply float_void_sqrt, dot_void;
      auto using void_read_as.
Qed.

(** A content vector that is shorter than the context vector is read as
    [undefined] beyond its end, and the score is NaN. *)
Theorem cosineSimilarity_short a b :
  length b < length a → is_nan (cosineSimilarity a b) = true.
Proof.
  intros Hl. unfold cosineSimilarity. rewrite cosLoop_sums.
  apply is_nan_div. left. apply foldl_add_nan. right.
  apply Exists_exists.
  destruct (lookup_lt_is_Some_2 a (length b) Hl) as [x Hx].
  exists (x * nan). split; [|by apply is_nan_mul; right].
  apply (list_elem_of_lookup_2 _ (length b)).
  rewrite lookup_zip_with, Hx. simpl. unfold read_as.
  by rewrite lookup_resize_new by lia.
Qed.
End nan.

(** ** Binary64 samples *)

Section examples.
Local Open Scope float_scope.

Example cosine_orthogonal : cosineSimilarity [1; 0] [0; 1] = 0.
Proof. vm_compute. reflexivity. Qed.

Example cosine_opposite : cosineSimilarity [3; 4] [-3; -4] = -1.
Proof. vm_compute. reflexivity. Qed.

Example cosine_self_exact : cosineSimilarity [3; 4] [3; 4] = 1.
Proof. vm_compute. reflexivity. Qed.

(** The square of the rounded root of 3 is below 3, so the cosine of
    [[1, 1, 1]] with itself is the double above 1. *)
Example cosine_self_above_one :
  cosineSimilarity [1; 1; 1] [1; 1; 1] = 0x1.0000000000001p+0.
Proof. vm_compute. reflexivity. Qed.

(** In binary64 a score can exceed 1: the cosine of a vector with
    itself is 1 only up to rounding. *)
Theorem cosine_float_exceeds_one :
  ∃ v : list float, (1 <? cosineSimilarity v v) = true.
Proof. exists [1; 1; 1]. vm_compute. reflexivity. Qed.

(** The zero vector has no direction: its score is NaN, which every
    comparison treats as equal to anything. *)
Example cosine_zero_vector_nan :
  is_nan (cosineSimilarity [0; 0] [0.5; 0.5]) = true ∧
  num_compare (cosineSimilarity [0; 0] [0.5; 0.5]) 1 = Eq ∧
  num_compare 1 (cosineSimilarity [0; 0] [0.5; 0.5]) = Eq.
Proof. vm_compute. auto. Qed.

(** A second vector that is too short is read as [undefined] beyond its
    end, and the score is NaN. *)
Example cosine_short_vecB : is_nan (cosineSimilarity [1; 2] [1]) = true.
Proof. vm_compute. reflexivity. Qed.

Lemma cosineSimilarity_void_witness :
  is_nan (cosineSimilarity [0; -0; 0] [0.5; 0.25; 1]) = true.
Proof.
  apply (cosineSimilarity_void [0; -0; 0] [0.5; 0.25; 1]). left.
  by repeat constructor.
Defined.

Lemma cosineSimilarity_short_witness :
  is_nan (cosineSimilarity [1; 2; 3] [1; 2]) = true.
Proof. apply (cosineSimilarity_short [1; 2; 3] [1; 2]). simpl. lia. Defined.

Lemma cosineSimilarity_same_length_witness :
  cosineSimilarity [3; 4] [4; 3] = cosine_ref [3; 4] [4; 3].
Proof. apply (cosineSimilarity_same_length [3; 4] [4; 3]). reflexivity. Defined.
End examples.
