(* ===== verification/CosineReal.v ===== *)
(** * Cosine similarity over the reals

    What the formula of [cosineSimilarity] means, not what the program
    computes: [JsArith] on [R], with no rounding and no NaN. Over the
    reals the function is the cosine of the angle of two vectors: it
    lies between -1 and 1 (Cauchy-Schwarz), it is 1 for a vector and
    itself, it is symmetric, and on unit vectors it is the dot product.

    The program computes in binary64, where none of this holds as it
    stands: the score of [[1; 1; 1]] with itself is 1.0000000000000002
    ([Cosine.cosine_float_exceeds_one]) and the score of a vector of
    zeros is NaN ([Cosine.cosineSimilarity_void]). What is proved of the
    program's scores is in [Cosine] and [Ranker], on binary64. This
    file serves [Embedding], which states the contract of the embedding
    provider over the reals. *)

From Stdlib Require Import Reals Lra.
From S2P Require Import Prelude JsNumber JsArray Cosine.

(** ** The instance *)

Definition Rsign (x : R) : comparison :=
  match total_order_T x 0 with
  | inleft (left _) => Lt
  | inleft (right _) => Eq
  | inright _ => Gt
  end.

(** [undefined] has no real value; the theorems below speak of vectors of
    one length, where it is not read. *)
#[export] Instance real_arith : JsArith R := {|
  num_zero := 0%R;
  num_undefined := 0%R;
  num_add := Rplus;
  num_sub := Rminus;
  num_mul := Rmult;
  num_div := Rdiv;
  num_sqrt := sqrt;
  num_hypot a d := sqrt (a * a + d * d);
  num_sign := Rsign;
|}.

Section real.
Implicit Types (a b : list R) (x y s : R).
Local Open Scope R_scope.

(** A vector with a component that is not zero. *)
Definition nonzero a : Prop := Exists (λ x, x ≠ 0) a.

(** ** Sums *)

Lemma Rsign_spec x :
  (Rsign x = Lt ↔ x < 0) ∧ (Rsign x = Eq ↔ x = 0) ∧ (Rsign x = Gt ↔ 0 < x).
Proof.
  unfold Rsign. destruct (total_order_T x 0) as [[?|?]|?];
    split_and!; split; (done || lra).
Qed.

Lemma foldl_Rplus s (l : list R) : foldl Rplus s l = s + foldl Rplus 0 l.
Proof.
  revert s. induction l as [|x l IH]; intros s; simpl; [lra|].
  rewrite (IH (s + x)), (IH (0 + x)). lra.
Qed.

Lemma dot_nil_l b : dot [] b = 0.
Proof. done. Qed.

Lemma dot_nil_r a : dot a [] = 0.
Proof. by destruct a. Qed.

Lemma dot_cons x a y b : dot (x :: a) (y :: b) = x * y + dot a b.
Proof.
  unfold dot, sum_left. simpl. rewrite foldl_Rplus.
  change num_zero with 0. lra.
Qed.

Lemma dot_comm a b : dot a b = dot b a.
Proof.
  revert b. induction a as [|x a IH]; intros [|y b];
    rewrite ?dot_nil_l, ?dot_nil_r, ?dot_cons; [done..|].
  rewrite IH. lra.
Qed.

Lemma dot_self_nonneg a : 0 <= dot a a.
Proof.
  induction a as [|x a IH]; [rewrite dot_nil_l; lra|].
  rewrite dot_cons. nra.
Qed.

Lemma dot_self_pos a : nonzero a ↔ 0 < dot a a.
Proof.
  unfold nonzero. induction a as [|x a IH].
  - rewrite Exists_nil, dot_nil_l. split; [done|lra].
  - rewrite Exists_cons, dot_cons, IH. pose proof (dot_self_nonneg a).
    split.
    + intros [?|?]; nra.
    + intros Hpos. destruct (Req_dec x 0) as [->|?]; [right; lra|by left].
Qed.

(** ** Cauchy-Schwarz *)

Lemma cauchy_schwarz_step x y s A B :
  0 <= A → 0 <= B → s * s <= A * B →
  (x * y + s) * (x * y + s) <= (x * x + A) * (y * y + B).
Proof.
  intros HA HB Hs.
  assert (2 * (x * y * s) <= A * (y * y) + B * (x * x)) as Hmid; [|nra].
  assert (0 <= A * (y * y) + B * (x * x)) as Hpos by nra.
  apply Rnot_lt_le. intros Hlt.
  assert ((A * (y * y) + B * (x * x)) * (A * (y * y) + B * (x * x))
          < 2 * (x * y * s) * (2 * (x * y * s))) as Hsq by nra.
  assert (4 * (x * x) * (y * y) * (s * s) <= 4 * (x * x) * (y * y) * (A * B))
    as Hb by (apply Rmult_le_compat_l; nra).
  pose proof (Rle_0_sqr (A * (y * y) - B * (x * x))) as Hd. unfold Rsqr in Hd.
  nra.
Qed.

Lemma cauchy_schwarz a b : dot a b * dot a b <= dot a a * dot b b.
Proof.
  revert b. induction a as [|x a IH]; intros [|y b];
    rewrite ?dot_nil_l, ?dot_nil_r; [lra..|].
  rewrite !dot_cons. apply cauchy_schwarz_step; auto using dot_self_nonneg.
Qed.

(** ** The cosine *)

Lemma cosine_ref_real a b :
  cosine_ref a b = dot a b / (sqrt (dot a a) * sqrt (dot b b)).
Proof. done. Qed.

Lemma norms_pos a b :
  nonzero a → nonzero b → 0 < sqrt (dot a a) * sqrt (dot b b).
Proof.
  intros Ha%dot_self_pos Hb%dot_self_pos.
  apply Rmult_lt_0_compat; by apply sqrt_lt_R0.
Qed.

Lemma dot_le_norms a b : Rabs (dot a b) <= sqrt (dot a a) * sqrt (dot b b).
Proof.
  rewrite <-sqrt_mult by apply dot_self_nonneg.
  rewrite <-sqrt_Rsqr_abs. apply sqrt_le_1_alt, cauchy_schwarz.
Qed.

Lemma Rdiv_bounds d N : 0 < N → Rabs d <= N → -1 <= d / N <= 1.
Proof.
  intros HN Hd.
  assert (- N <= d <= N) as [? ?]
    by (unfold Rabs in Hd; destruct (Rcase_abs d); lra).
  split; apply (Rmult_le_reg_r N); try done;
    unfold Rdiv; rewrite Rmult_assoc, Rinv_l by lra; lra.
Qed.

(** Over the reals the score of two non-zero vectors of one length
    lies between -1 and 1. In binary64 it can exceed 1. *)
Lemma cosineSimilarity_range a b :
  length a = length b → nonzero a → nonzero b →
  -1 <= cosineSimilarity a b <= 1.
Proof.
  intros Hl Ha Hb. rewrite cosineSimilarity_same_length, cosine_ref_real by done.
  apply Rdiv_bounds; [by apply norms_pos|apply dot_le_norms].
Qed.

(** Over the reals the score of a non-zero vector with itself is 1. In
    binary64 it is 1 up to rounding only. *)
Lemma cosineSimilarity_self a : nonzero a → cosineSimilarity a a = 1.
Proof.
  intros Ha. rewrite cosineSimilarity_same_length, cosine_ref_real by done.
  apply dot_self_pos in Ha. rewrite sqrt_sqrt by lra. by apply Rdiv_diag, Rgt_not_eq.
Qed.

(** Over the reals the score is symmetric in its arguments. *)
Theorem cosineSimilarity_sym a b :
  length a = length b → cosineSimilarity a b = cosineSimilarity b a.
Proof.
  intros Hl. rewrite !cosineSimilarity_same_length, !cosine_ref_real by done.
  rewrite (dot_comm a b). f_equal. apply Rmult_comm.
Qed.

(** On vectors of norm 1, which the embedding promises, the score is
    the dot product. *)
Theorem cosineSimilarity_unit a b :
  length a = length b → dot a a = 1 → dot b b = 1 →
  cosineSimilarity a b = dot a b.
Proof.
  intros Hl Ha Hb. rewrite cosineSimilarity_same_length, cosine_ref_real by done.
  rewrite Ha, Hb, sqrt_1. lra.
Qed.

(** ** Samples *)

Lemma nonzero_3_4 : nonzero [3; 4].
Proof. left. lra. Qed.

Lemma nonzero_4_3 : nonzero [4; 3].
Proof. left. lra. Qed.

Lemma cosineSimilarity_range_witness :
  -1 <= cosineSimilarity [3; 4] [4; 3] <= 1.
Proof.
  apply (cosineSimilarity_range [3; 4] [4; 3]);
    [reflexivity|apply nonzero_3_4|apply nonzero_4_3].
Defined.

Lemma cosineSimilarity_self_witness : cosineSimilarity [3; 4] [3; 4] = 1.
Proof. apply (cosineSimilarity_self [3; 4]), nonzero_3_4. Defined.

Lemma cosineSimilarity_sym_witness :
  cosineSimilarity [3; 4] [4; 3] = cosineSimilarity [4; 3] [3; 4].
Proof. apply (cosineSimilarity_sym [3; 4] [4; 3]). reflexivity. Defined.

Lemma cosineSimilarity_unit_witness :
  cosineSimilarity [1; 0] [0; 1] = dot [1; 0] [0; 1].
Proof.
  apply (cosineSimilarity_unit [1; 0] [0; 1]); [reflexivity|..];
    rewrite !dot_cons, dot_nil_l; lra.
Defined.
End real.

(** ** The order of the reals

    The comparator [(a, b) => a - b] is consistent on all reals. *)

Lemma real_compare_spec (x y : R) :
  (num_compare x y = Lt ↔ x < y)%R ∧ (num_compare x y = Eq ↔ x = y) ∧
  (num_compare x y = Gt ↔ y < x)%R.
Proof.
  unfold num_compare. simpl. destruct (Rsign_spec (x - y)) as (HL & HE & HG).
  rewrite HL, HE, HG. split_and!; split; lra.
Qed.

Lemma real_compare_consistent :
  ConsistentOn (num_compare (F:=R)) (λ _, True).
Proof.
  split.
  - intros x y _ _. destruct (real_compare_spec x y) as (HL & HE & HG).
    destruct (real_compare_spec y x) as (HL' & HE' & HG').
    destruct (total_order_T x y) as [[Hlt|Heq]|Hgt].
    + by rewrite (proj2 HL), (proj2 HG').
    + by rewrite (proj2 HE), (proj2 HE').
    + by rewrite (proj2 HG), (proj2 HL').
  - intros x y z _ _ _. unfold cmp_le.
    destruct (real_compare_spec x y) as (_ & _ & Hxy).
    destruct (real_compare_spec y z) as (_ & _ & Hyz).
    destruct (real_compare_spec x z) as (_ & _ & Hxz).
    rewrite Hxy, Hyz, Hxz. lra.
Qed.

Lemma real_compare_le (x y : R) : cmp_le num_compare x y ↔ (x <= y)%R.
Proof.
  unfold cmp_le. destruct (real_compare_spec x y) as (_ & _ & ->). lra.
Qed.
