(* ===== verification/Ranker.v ===== *)
(** * Scoring and ranking

    Step 5 of [main] in [src/extract.js]: every pooled section gets the
    cosine of its embedding with the embedding of the context, and the
    sections are sorted by descending score.

    The sort is [Array.prototype.sort] with [(a, b) => b.relevance -
    a.relevance]. Its result is a permutation of the scored sections in
    any case; it is in descending order, with ties in pooled order, when
    the comparator is consistent on the scores, which it is over the reals
    and, in binary64, on the scores that are not NaN ([Binary64]). *)

From Stdlib Require Import Floats Reals Lra.
From S2P Require Import Prelude JsNumber JsArray Binary64 PdfDoc Process.
From S2P Require Import Cosine CosineReal.

Section ranker.
Context `{JsArith F}.

(** [{ ...run, relevance }]. *)
Record RankedRun : Type := mkRankedRun {
  content : ContentRun;
  relevance : F;
}.

Implicit Types (ctxEmbed : list F) (allContentRuns : list ContentRun).
Implicit Types (contentEmbeddings : list (list F)) (a b : RankedRun).

(** [allContentRuns.map((run, i) => ({ ...run, relevance:
    cosineSimilarity(ctxEmbed, contentEmbeddings[i]) }))], the embeddings
    being one for each run. *)
Definition scoreRuns ctxEmbed allContentRuns contentEmbeddings
  : list RankedRun :=
  zip_with (λ run e, mkRankedRun run (cosineSimilarity ctxEmbed e))
    allContentRuns contentEmbeddings.

(** [(a, b) => b.relevance - a.relevance]. *)
Definition relevance_cmp a b : comparison :=
  num_sign (relevance b - relevance a)%num.

Definition rankRuns ctxEmbed allContentRuns contentEmbeddings
  : list RankedRun :=
  js_sort relevance_cmp (scoreRuns ctxEmbed allContentRuns contentEmbeddings).

(** The score of [b] is not greater than the score of [a]. *)
Definition ranks_before a b : Prop :=
  cmp_le num_compare (relevance b) (relevance a).

(** ** Scoring *)

Lemma scoreRuns_length ctxEmbed allContentRuns contentEmbeddings :
  length contentEmbeddings = length allContentRuns →
  length (scoreRuns ctxEmbed allContentRuns contentEmbeddings) =
    length allContentRuns.
Proof. intros Hl. unfold scoreRuns. rewrite length_zip_with. lia. Qed.

Lemma scoreRuns_content ctxEmbed allContentRuns contentEmbeddings :
  length contentEmbeddings = length allContentRuns →
  content <$> scoreRuns ctxEmbed allContentRuns contentEmbeddings =
    allContentRuns.
Proof.
  unfold scoreRuns. revert contentEmbeddings.
  induction allContentRuns as [|run l IH]; intros [|e es]; try done.
  intros [= Hl]. csimpl. by rewrite IH.
Qed.

Lemma scoreRuns_lookup ctxEmbed allContentRuns contentEmbeddings i run e :
  allContentRuns !! i = Some run → contentEmbeddings !! i = Some e →
  scoreRuns ctxEmbed allContentRuns contentEmbeddings !! i =
    Some (mkRankedRun run (cosineSimilarity ctxEmbed e)).
Proof.
  intros Hr He. unfold scoreRuns. by rewrite lookup_zip_with, Hr, He.
Qed.

(** ** Ranking *)

Lemma relevance_cmp_on :
  relevance_cmp = cmp_on relevance (cmp_flip num_compare).
Proof. done. Qed.

Lemma relevance_cmp_consistent (Q : F → Prop) :
  ConsistentOn num_compare Q →
  ConsistentOn relevance_cmp (λ a, Q (relevance a)).
Proof.
  intros HQ. rewrite relevance_cmp_on.
  by apply (cmp_on_consistent _ _ _ Q), cmp_flip_consistent.
Qed.

(** Ranking neither loses nor invents a section: the ranked list is a
    rearrangement of the scored sections. *)
Theorem rankRuns_perm ctxEmbed allContentRuns contentEmbeddings :
  rankRuns ctxEmbed allContentRuns contentEmbeddings ≡ₚ
    scoreRuns ctxEmbed allContentRuns contentEmbeddings.
Proof. apply js_sort_perm. Qed.

Lemma rankRuns_length ctxEmbed allContentRuns contentEmbeddings :
  length contentEmbeddings = length allContentRuns →
  length (rankRuns ctxEmbed allContentRuns contentEmbeddings) =
    length allContentRuns.
Proof. intros Hl. by rewrite rankRuns_perm, scoreRuns_length. Qed.

(** Every pooled section is ranked exactly once. *)
Theorem rankRuns_content ctxEmbed allContentRuns contentEmbeddings :
  length contentEmbeddings = length allContentRuns →
  content <$> rankRuns ctxEmbed allContentRuns contentEmbeddings ≡ₚ
    allContentRuns.
Proof. intros Hl. by rewrite rankRuns_perm, scoreRuns_content. Qed.

Section consistent.
Context (Q : F → Prop) (HQ : ConsistentOn num_compare Q).
Context (ctxEmbed : list F) (allContentRuns : list ContentRun).
Context (contentEmbeddings : list (list F)).
Context (Hscores : Forall (λ a, Q (relevance a))
  (scoreRuns ctxEmbed allContentRuns contentEmbeddings)).

(** The ranked list is sorted by [ranks_before]. *)
Lemma rankRuns_StronglySorted :
  StronglySorted ranks_before
    (rankRuns ctxEmbed allContentRuns contentEmbeddings).
Proof.
  by apply (js_sort_sorted relevance_cmp _ _ (relevance_cmp_consistent Q HQ)).
Qed.

(** When the scores are comparable the ranked list is in descending
    order of score: a section has no higher score than any section before
    it. *)
Theorem rankRuns_sorted i j a b :
  i < j →
  rankRuns ctxEmbed allContentRuns contentEmbeddings !! i = Some a →
  rankRuns ctxEmbed allContentRuns contentEmbeddings !! j = Some b →
  ranks_before a b.
Proof.
  apply (StronglySorted_lookup ranks_before), rankRuns_StronglySorted.
Qed.

(** The first of the ranked sections has the highest score. *)
Theorem rankRuns_first_max top rest a :
  rankRuns ctxEmbed allContentRuns contentEmbeddings = top :: rest →
  a ∈ scoreRuns ctxEmbed allContentRuns contentEmbeddings →
  ranks_before top a.
Proof.
  intros Hr Ha. pose proof rankRuns_StronglySorted as Hs.
  assert (Q (relevance a)) as HQa by by eapply Forall_forall in Hscores.
  rewrite <-rankRuns_perm, Hr in Ha. rewrite Hr in Hs.
  apply StronglySorted_inv in Hs as [_ Hall].
  apply elem_of_cons in Ha as [->|Ha]; [|by eapply Forall_forall in Hall].
  change (relevance_cmp top top ≠ Gt).
  by rewrite (cmp_refl relevance_cmp _ (relevance_cmp_consistent Q HQ)).
Qed.

(** Sections with equal scores keep their pooled order: the sort is
    stable. *)
Theorem rankRuns_stable a :
  Q (relevance a) →
  filter (cmp_eqv relevance_cmp a)
    (rankRuns ctxEmbed allContentRuns contentEmbeddings) =
  filter (cmp_eqv relevance_cmp a)
    (scoreRuns ctxEmbed allContentRuns contentEmbeddings).
Proof.
  intros Ha.
  by apply (js_sort_stable relevance_cmp _ _ _ (relevance_cmp_consistent Q HQ)).
Qed.
End consistent.
End ranker.

Arguments RankedRun F : clear implicits.

#[export] Instance RankedRun_eq_dec `{EqDecision F} : EqDecision (RankedRun F).
Proof. solve_decision. Defined.

(** ** Over the reals *)

(** Over the reals the ranked list is in descending order of score,
    whatever the embeddings are. *)
Theorem rankRuns_real_descending (ctxEmbed : list R) allContentRuns
    contentEmbeddings :
  StronglySorted (λ a b, (relevance b <= relevance a)%R)
    (rankRuns ctxEmbed allContentRuns contentEmbeddings).
Proof.
  eapply StronglySorted_impl_elem; last first.
  - apply (rankRuns_StronglySorted (λ _, True) real_compare_consistent).
    by apply Forall_true.
  - intros a b _ _. apply real_compare_le.
Qed.

(** ** Over binary64 *)

(** In binary64 the comparator of the ranking reads two sections as
    their scores compare, and as equal when a score is NaN. *)
Theorem relevance_cmp_float (a b : RankedRun float) :
  relevance_cmp a b = cmp_of (relevance b ?= relevance a)%float.
Proof. apply float_compare_spec. Qed.

Section binary64.
Context (ctxEmbed : list float) (allContentRuns : list ContentRun).
Context (contentEmbeddings : list (list float)).
Context (Hscores : Forall (λ a, is_nan (relevance a) = false)
  (scoreRuns ctxEmbed allContentRuns contentEmbeddings)).

Lemma rankRuns_not_nan a :
  a ∈ rankRuns ctxEmbed allContentRuns contentEmbeddings →
  is_nan (relevance a) = false.
Proof.
  rewrite rankRuns_perm. intros Ha. by eapply Forall_forall in Hscores.
Qed.

(** C23: In binary64, when no score is NaN the ranked list is in descending
    order of score. *)
Theorem rankRuns_float_descending :
  StronglySorted (λ a b, (relevance b <=? relevance a)%float = true)
    (rankRuns ctxEmbed allContentRuns contentEmbeddings).
Proof.
  eapply StronglySorted_impl_elem; last first.
  - by apply (rankRuns_StronglySorted _ float_compare_consistent).
  - intros a b Ha%rankRuns_not_nan Hb%rankRuns_not_nan.
    by apply float_cmp_le.
Qed.

(** C39: In binary64, when no score is NaN the sections with one score are
    ranked in their pooled order. *)
Theorem rankRuns_float_stable a :
  is_nan (relevance a) = false →
  filter (λ b, Float.key (relevance b) = Float.key (relevance a))
    (rankRuns ctxEmbed allContentRuns contentEmbeddings) =
  filter (λ b, Float.key (relevance b) = Float.key (relevance a))
    (scoreRuns ctxEmbed allContentRuns contentEmbeddings).
Proof.
  intros Ha.
  rewrite <-(filter_ext_Forall (cmp_eqv relevance_cmp a) _ (rankRuns _ _ _)),
    <-(filter_ext_Forall (cmp_eqv relevance_cmp a) _ (scoreRuns _ _ _)).
  - by apply (rankRuns_stable _ float_compare_consistent).
  - eapply Forall_impl; [done|]. intros b Hb. by apply float_compare_Eq.
  - apply Forall_forall. intros b Hb%rankRuns_not_nan.
    by apply float_compare_Eq.
Qed.
End binary64.

(** C40: A score that is NaN among scores that differ makes the comparator
    inconsistent: it calls NaN equal to both of two scores of which it
    calls one less than the other, so the order [sort] returns is not
    determined by the scores. *)
Theorem nan_score_inconsistent (l : list (RankedRun float)) x a b :
  x ∈ l → a ∈ l → b ∈ l →
  is_nan (relevance x) = true →
  (relevance a <? relevance b)%float = true →
  ¬ ConsistentOn relevance_cmp (.∈ l).
Proof.
  intros Hx Ha Hb Hn Hlt HC.
  apply (consistent_trans _ _ HC a x b); [done..| | |].
  - change (num_compare (relevance x) (relevance a) ≠ Gt).
    by destruct (float_compare_nan (relevance x) (relevance a)) as [-> _];
      [left|].
  - change (num_compare (relevance b) (relevance x) ≠ Gt).
    by destruct (float_compare_nan (relevance b) (relevance x)) as [-> _];
      [right|].
  - destruct (float_ltb_not_nan _ _ Hlt) as [Hna Hnb].
    apply float_ltb_compare in Hlt. unfold relevance_cmp.
    change (num_compare (relevance b) (relevance a) = Gt).
    by rewrite (consistent_opp _ _ float_compare_consistent _ _ Hna Hnb), Hlt.
Qed.

(** ** Binary64 samples *)

Section examples.
Local Open Scope float_scope.

Definition sample_section (s : string) : ContentRun :=
  mkContentRun (mkRun (H 1) s (Some 1%Z)) "a.pdf".

Definition sample_pool : list ContentRun :=
  sample_section <$> ["north"; "east"; "again east"; "south"; "west"].

Definition sample_ctx : list float := [1; 0].

Definition sample_embeddings : list (list float) :=
  [[0; 1]; [1; 0]; [1; 0]; [0; -1]; [-1; 0]].

Definition sample_scored : list (RankedRun float) :=
  scoreRuns sample_ctx sample_pool sample_embeddings.

Example sample_ranked :
  rankRuns sample_ctx sample_pool sample_embeddings =
    [mkRankedRun (sample_section "east") 1;
     mkRankedRun (sample_section "again east") 1;
     mkRankedRun (sample_section "north") 0;
     mkRankedRun (sample_section "south") 0;
     mkRankedRun (sample_section "west") (-1)].
Proof. vm_compute. reflexivity. Qed.

Lemma sample_scores_consistent :
  ConsistentOn (num_compare (F:=float)) (.∈ relevance <$> sample_scored).
Proof. apply consistent_on_list. by_compute. Qed.

Lemma sample_scores_in :
  Forall (λ a, relevance a ∈ relevance <$> sample_scored) sample_scored.
Proof. by_compute. Qed.

Lemma rankRuns_content_witness :
  content <$> rankRuns sample_ctx sample_pool sample_embeddings ≡ₚ sample_pool.
Proof. apply (rankRuns_content sample_ctx sample_pool). reflexivity. Defined.

Lemma rankRuns_sorted_witness :
  ranks_before (mkRankedRun (sample_section "east") 1)
    (mkRankedRun (sample_section "west") (-1)).
Proof.
  eapply (rankRuns_sorted _ sample_scores_consistent sample_ctx sample_pool
            sample_embeddings sample_scores_in 0 4).
  - lia.
  - vm_compute. reflexivity.
  - vm_compute. reflexivity.
Defined.

Lemma rankRuns_first_max_witness :
  ranks_before (mkRankedRun (sample_section "east") 1)
    (mkRankedRun (sample_section "west") (-1)).
Proof.
  eapply (rankRuns_first_max _ sample_scores_consistent sample_ctx sample_pool
            sample_embeddings sample_scores_in).
  - vm_compute. reflexivity.
  - by_compute.
Defined.

Lemma rankRuns_stable_witness :
  filter (cmp_eqv relevance_cmp (mkRankedRun (sample_section "east") 1))
    (rankRuns sample_ctx sample_pool sample_embeddings) =
  filter (cmp_eqv relevance_cmp (mkRankedRun (sample_section "east") 1))
    sample_scored.
Proof.
  apply (rankRuns_stable _ sample_scores_consistent sample_ctx sample_pool
           sample_embeddings sample_scores_in).
  by_compute.
Defined.

Lemma rankRuns_float_descending_witness :
  StronglySorted (λ a b, (relevance b <=? relevance a)%float = true)
    (rankRuns sample_ctx sample_pool sample_embeddings).
Proof.
  apply (rankRuns_float_descending sample_ctx sample_pool sample_embeddings).
  by_compute.
Defined.

Lemma rankRuns_float_stable_witness :
  filter (λ b, Float.key (relevance b) =
               Float.key (relevance (mkRankedRun (sample_section "east") 1)))
    (rankRuns sample_ctx sample_pool sample_embeddings) =
  filter (λ b, Float.key (relevance b) =
               Float.key (relevance (mkRankedRun (sample_section "east") 1)))
    (scoreRuns sample_ctx sample_pool sample_embeddings).
Proof.
  apply (rankRuns_float_stable sample_ctx sample_pool sample_embeddings).
  - by_compute.
  - reflexivity.
Defined.

Definition sample_nan_scored : list (RankedRun float) :=
  [mkRankedRun (sample_section "low") 0.25;
   mkRankedRun (sample_section "void") nan;
   mkRankedRun (sample_section "high") 0.75].

Example sample_nan_ranked :
  js_sort relevance_cmp sample_nan_scored = sample_nan_scored.
Proof. vm_compute. reflexivity. Qed.

Lemma nan_score_inconsistent_witness :
  ¬ ConsistentOn relevance_cmp (.∈ sample_nan_scored).
Proof.
  apply (nan_score_inconsistent sample_nan_scored
           (mkRankedRun (sample_section "void") nan)
           (mkRankedRun (sample_section "low") 0.25)
           (mkRankedRun (sample_section "high") 0.75));
    first [by_compute|reflexivity].
Defined.
End examples.
