(* ===== verification/Report.v ===== *)
(** * The request and the report

    The JSON documents of [src/extract.js]: the request [main] reads
    ([challenge1b_input.json]) and the report it writes, with step 6 of
    [main], which builds the report from the ranked sections.

    A request is the fields the program reads. [persona],
    [job_to_be_done] and [documents] may be missing from the JSON object,
    and so may [role], [task] and [filename] from theirs: a missing
    property reads as [undefined], here [None]. *)

From S2P Require Import Prelude JsNumber JsString PdfDoc Process Ranker.

(** ** The request *)

Module Input.
Record Persona : Type := mkPersona { role : option string }.
Record Job : Type := mkJob { task : option string }.
Record DocRef : Type := mkDocRef { filename : option string }.
Record InputData : Type := mkInputData {
  persona : option Persona;
  job_to_be_done : option Job;
  documents : option (list DocRef);
}.
End Input.

(** ** The report *)

(** [metadata]. A property whose value is [undefined] is left out of the
    written JSON; an [undefined] element of an array is written [null]. *)
Record Metadata : Type := mkMetadata {
  input_documents : list (option string);
  persona : option string;
  job_to_be_done : option string;
  processing_timestamp : string;
}.

(** An element of [extracted_sections]. *)
Record ExtractedSection : Type := mkExtractedSection {
  document : string;
  section_title : string;
  importance_rank : nat;
  page_number : option Z;
}.

Record OutputJson : Type := mkOutputJson {
  metadata : Metadata;
  extracted_sections : list ExtractedSection;
  subsection_analysis : list unit;
}.

#[export] Instance Metadata_eq_dec : EqDecision Metadata.
Proof. solve_decision. Defined.
#[export] Instance ExtractedSection_eq_dec : EqDecision ExtractedSection.
Proof. solve_decision. Defined.
#[export] Instance OutputJson_eq_dec : EqDecision OutputJson.
Proof. solve_decision. Defined.

(** [`${x}`] for a property that is a string or missing. *)
Definition template (x : option string) : string := default "undefined" x.

Section report.
Context {F : Type}.
Implicit Types (r : Run) (run : RankedRun F) (ranked : list (RankedRun F)).

(** [run.level === "P" ? `Content from page ${run.page}` :
    run.text.slice(0, 80)]. *)
Definition sectionTitle r : string :=
  if decide (level r = P)
  then "Content from page " +:+ page_to_string (page r)
  else slice_to 80 (text r).

(** The callback of [ranked.map((run, i) => ...)]. *)
Definition extractedSection (i : nat) run : ExtractedSection := {|
  document := fileName (content run);
  section_title := sectionTitle (Process.run (content run));
  importance_rank := i + 1;
  page_number := page (Process.run (content run));
|}.

Definition buildMetadata (documents : list Input.DocRef)
    (persona : Input.Persona) (job_to_be_done : Input.Job) (now : string)
  : Metadata := {|
  input_documents := Input.filename <$> documents;
  persona := Input.role persona;
  job_to_be_done := Input.task job_to_be_done;
  processing_timestamp := now;
|}.

Definition buildOutput (documents : list Input.DocRef)
    (persona : Input.Persona) (job_to_be_done : Input.Job) (now : string)
    ranked : OutputJson := {|
  metadata := buildMetadata documents persona job_to_be_done now;
  extracted_sections := imap extractedSection ranked;
  subsection_analysis := [];
|}.

(** ** Titles *)

(** A section of level P on page [n] is titled "Content from page
    [n]". *)
Lemma sectionTitle_page r n :
  level r = P → page r = Some n →
  sectionTitle r = "Content from page " +:+ pretty n.
Proof. intros HP Hn. unfold sectionTitle. by rewrite decide_True, Hn. Qed.

(** The title of a heading is the first 80 characters of its text:
    the text itself when it has no more, a prefix of length 80 when it
    has. *)
Theorem sectionTitle_heading r :
  level r ≠ P →
  sectionTitle r = slice_to 80 (text r) ∧
  String.length (sectionTitle r) = String.length (text r) `min` 80 ∧
  ∃ rest, text r = sectionTitle r +:+ rest.
Proof.
  intros HP. unfold sectionTitle. rewrite decide_False by done.
  split_and!; [done| |apply slice_to_prefix].
  rewrite slice_to_length. lia.
Qed.

Lemma sectionTitle_short r :
  level r ≠ P → String.length (text r) ≤ 80 → sectionTitle r = text r.
Proof.
  intros HP Hl. unfold sectionTitle. rewrite decide_False by done.
  by apply slice_to_short.
Qed.

(** C26: The title rule: a section of level P on page [n] is titled
    "Content from page n"; a section of any other level is titled with
    the first 80 characters of its text, cut at the character, which is
    the text itself when it has no more. *)
Theorem sectionTitle_rule r :
  (level r = P → ∀ n, page r = Some n →
     sectionTitle r = "Content from page " +:+ pretty n) ∧
  (level r ≠ P →
     sectionTitle r = slice_to 80 (text r) ∧
     String.length (sectionTitle r) = String.length (text r) `min` 80 ∧
     ∃ rest, text r = sectionTitle r +:+ rest).
Proof. split; [intros; by apply sectionTitle_page|apply sectionTitle_heading]. Qed.

(** A P section without a page would be titled "Content from page
    null". *)
Theorem sectionTitle_P_null r :
  level r = P → page r = None → sectionTitle r = "Content from page null".
Proof. intros HP Hn. unfold sectionTitle. by rewrite decide_True, Hn. Qed.

(** ** Ranks *)

Lemma imap_extractedSection_rank ranked (k : nat) :
  importance_rank <$> imap (extractedSection ∘ Nat.add k) ranked =
    seq (k + 1) (length ranked).
Proof.
  revert k. induction ranked as [|run ranked IH]; intros k; [done|].
  csimpl. f_equal; [lia|].
  etrans; [|apply (IH (S k))]. f_equal. apply imap_ext. intros i x _. simpl.
  f_equal. lia.
Qed.

Lemma extractedSection_ranks ranked :
  importance_rank <$> imap extractedSection ranked = seq 1 (length ranked).
Proof. apply (imap_extractedSection_rank ranked 0). Qed.

(** The importance ranks of the report are 1, 2, ..., N in this
    order, N the number of ranked sections. *)
Theorem buildOutput_ranks documents persona job_to_be_done now ranked :
  importance_rank <$>
    extracted_sections (buildOutput documents persona job_to_be_done now ranked)
  = seq 1 (length ranked).
Proof. apply (imap_extractedSection_rank ranked 0). Qed.

(** The sections of the report are the ranked sections in their
    order: the [i]-th carries the document, the page and the title of the
    [i]-th ranked section, and rank [i + 1]. *)
Theorem buildOutput_lookup documents persona job_to_be_done now ranked i run :
  ranked !! i = Some run →
  extracted_sections (buildOutput documents persona job_to_be_done now ranked)
    !! i = Some (extractedSection i run).
Proof. intros Hi. simpl. by rewrite list_lookup_imap, Hi. Qed.

(** The document and the page of every section are those of the ranked
    section at its place. *)
Lemma extracted_sections_source ranked :
  (λ s, (document s, page_number s)) <$> imap extractedSection ranked =
  (λ cr, (fileName cr, page (Process.run cr))) ∘ content <$> ranked.
Proof. rewrite fmap_imap, <-imap_const. by apply imap_ext. Qed.

Lemma buildOutput_length documents persona job_to_be_done now ranked :
  length (extracted_sections
            (buildOutput documents persona job_to_be_done now ranked)) =
    length ranked.
Proof. simpl. apply length_imap. Qed.

(** The metadata repeats the request: the file names in request order,
    the role and the task. *)
Theorem buildOutput_metadata documents persona job_to_be_done now ranked :
  let m := metadata (buildOutput documents persona job_to_be_done now ranked) in
  input_documents m = Input.filename <$> documents ∧
  Report.persona m = Input.role persona ∧
  Report.job_to_be_done m = Input.task job_to_be_done ∧
  processing_timestamp m = now.
Proof. done. Qed.
End report.

(** ** Samples *)

Section examples.
Local Open Scope Z_scope.

Definition sample_long_text : string :=
  "A heading that runs on and on, well past the eighty characters that a title may have, and further".

Example sectionTitle_page_7 :
  sectionTitle (mkRun P "some body text" (Some 7)) = "Content from page 7".
Proof. reflexivity. Qed.

Example sectionTitle_long :
  sectionTitle (mkRun (H 1) sample_long_text (Some 1)) =
    "A heading that runs on and on, well past the eighty characters that a title may ".
Proof. reflexivity. Qed.

Lemma sectionTitle_heading_witness :
  sectionTitle (mkRun (H 1) sample_long_text (Some 1)) =
    slice_to 80 sample_long_text ∧
  String.length (sectionTitle (mkRun (H 1) sample_long_text (Some 1))) =
    (String.length sample_long_text `min` 80)%nat ∧
  ∃ rest, sample_long_text =
    sectionTitle (mkRun (H 1) sample_long_text (Some 1)) +:+ rest.
Proof.
  apply (sectionTitle_heading (mkRun (H 1) sample_long_text (Some 1))).
  discriminate.
Defined.

Lemma sectionTitle_P_null_witness :
  sectionTitle (mkRun P "loose text" None) = "Content from page null".
Proof. apply (sectionTitle_P_null (mkRun P "loose text" None)); reflexivity. Defined.

Definition sample_ranked_run : RankedRun Z :=
  mkRankedRun (mkContentRun (mkRun P "text" (Some 7)) "a.pdf") 1.

Lemma buildOutput_lookup_witness :
  extracted_sections
    (buildOutput [] (Input.mkPersona None) (Input.mkJob None) "now"
       [sample_ranked_run]) !! 0%nat =
  Some (extractedSection 0 sample_ranked_run).
Proof.
  apply (buildOutput_lookup [] (Input.mkPersona None) (Input.mkJob None)
           "now" [sample_ranked_run] 0 sample_ranked_run).
  reflexivity.
Defined.
End examples.
