(* ===== verification/ReportJson.v ===== *)
(** * The request and the report as JSON

    [main] in [src/extract.js] builds the report as an object literal
    (step 6) and hands it to [fs.writeJson(file, data, { spaces: 2 })];
    it reads the request as the object [fs.readJson] parses from
    [challenge1b_input.json].

    The file gives the records of file [Report] their values of
    JavaScript: the report with its properties in the order of the
    literal, a property that is [undefined] included ([persona.role] of a
    request without role), and the request as the JSON object the program
    expects. It gives the text that is written, and reads the records
    back from parsed values.

    The theorems are round trips: the text written for a report parses to
    a value from which the report is read back, so the file says all that
    the report holds; a request written as JSON is read as that
    request. *)

From S2P Require Import Prelude JsString Json JsonText PdfDoc Process.
From S2P Require Import Ranker Report.

Local Open Scope string_scope.

(** ** The report as a value *)

(** A property that is a string or [undefined]. *)
Definition optional (x : option string) : JsValue :=
  from_option VStr VUndefined x.

(** A page: a number or [null]. *)
Definition pageValue (page : option Z) : JsValue :=
  from_option VNum VNull page.

(** The object of the callback of [ranked.map((run, i) => ...)]. *)
Definition sectionValue (s : ExtractedSection) : JsValue :=
  VObj [("document", VStr (document s));
        ("section_title", VStr (section_title s));
        ("importance_rank", VNum (Z.of_nat (importance_rank s)));
        ("page_number", pageValue (page_number s))].

(** [metadata]. *)
Definition metadataValue (m : Metadata) : JsValue :=
  VObj [("input_documents", VArr (optional <$> input_documents m));
        ("persona", optional (persona m));
        ("job_to_be_done", optional (job_to_be_done m));
        ("processing_timestamp", VStr (processing_timestamp m))].

(** [outputJson]. The literal has [[]] for [subsection_analysis]. *)
Definition outputValue (out : OutputJson) : JsValue :=
  VObj [("metadata", metadataValue (metadata out));
        ("extracted_sections",
         VArr (sectionValue <$> extracted_sections out));
        ("subsection_analysis", VArr [])].

(** ** The text of a file *)

(** What [fs.writeJson(file, data, { spaces: 2 })] writes: the text of
    [JSON.stringify(data, null, 2)] and a line feed. There is no text for
    [undefined], and the call fails. *)
Definition writeJson_text (data : JsValue) : option string :=
  (λ t, t +:+ newline) <$> JSON_stringify data.

(** The text of the report file. *)
Definition report_text (out : OutputJson) : option string :=
  writeJson_text (outputValue out).

(** ** Reading a report back *)

Definition string_of (v : JsValue) : option string :=
  match v with VStr s => Some s | _ => None end.

(** A string, or nothing: the property was [undefined] and is not in the
    text, or the element was and is [null] there. *)
Definition optional_of (v : JsValue) : option (option string) :=
  match v with
  | VStr s => Some (Some s)
  | VUndefined | VNull => Some None
  | _ => None
  end.

Definition page_of (v : JsValue) : option (option Z) :=
  match v with
  | VNum n => Some (Some n)
  | VNull => Some None
  | _ => None
  end.

Definition rank_of (v : JsValue) : option nat :=
  match v with
  | VNum n => if decide (0 ≤ n)%Z then Some (Z.to_nat n) else None
  | _ => None
  end.

Definition elements_of (v : JsValue) : option (list JsValue) :=
  match v with VArr elems => Some elems | _ => None end.

Definition sectionOfValue (v : JsValue) : option ExtractedSection :=
  document ← string_of (field "document" v);
  section_title ← string_of (field "section_title" v);
  importance_rank ← rank_of (field "importance_rank" v);
  page_number ← page_of (field "page_number" v);
  Some (mkExtractedSection document section_title importance_rank page_number).

Definition metadataOfValue (v : JsValue) : option Metadata :=
  docs ← elements_of (field "input_documents" v);
  input_documents ← mapM optional_of docs;
  persona ← optional_of (field "persona" v);
  job_to_be_done ← optional_of (field "job_to_be_done" v);
  processing_timestamp ← string_of (field "processing_timestamp" v);
  Some (mkMetadata input_documents persona job_to_be_done processing_timestamp).

Definition reportOfValue (v : JsValue) : option OutputJson :=
  metadata ← metadataOfValue (field "metadata" v);
  sections ← elements_of (field "extracted_sections" v);
  extracted_sections ← mapM sectionOfValue sections;
  analysis ← elements_of (field "subsection_analysis" v);
  Some (mkOutputJson metadata extracted_sections ((λ _, ()) <$> analysis)).

(** A report whose numbers are exact in JavaScript, and whose
    [subsection_analysis] is the empty array of the literal. *)
Definition section_fits (s : ExtractedSection) : bool :=
  bool_decide (Z.of_nat (importance_rank s) ≤ max_safe)%Z &&
  json_wf (pageValue (page_number s)).

Definition report_fits (out : OutputJson) : bool :=
  forallb section_fits (extracted_sections out) &&
  bool_decide (subsection_analysis out = []).

(** ** The request as a value *)

Definition personaValue (p : Input.Persona) : JsValue :=
  VObj [("role", optional (Input.role p))].

Definition jobValue (j : Input.Job) : JsValue :=
  VObj [("task", optional (Input.task j))].

Definition docValue (d : Input.DocRef) : JsValue :=
  VObj [("filename", optional (Input.filename d))].

Definition requestValue (r : Input.InputData) : JsValue :=
  VObj [("persona", from_option personaValue VUndefined (Input.persona r));
        ("job_to_be_done",
         from_option jobValue VUndefined (Input.job_to_be_done r));
        ("documents",
         from_option (λ ds, VArr (docValue <$> ds)) VUndefined
           (Input.documents r))].

(** A property that is an object read as [read] reads it, or missing. *)
Definition missing_or {A} (read : JsValue → option A) (v : JsValue)
  : option (option A) :=
  match v with
  | VUndefined => Some None
  | VObj _ | VArr _ => Some <$> read v
  | _ => None
  end.

(** A string or missing: not [null], which [optional_of] takes. *)
Definition missing_or_string (v : JsValue) : option (option string) :=
  match v with
  | VUndefined => Some None
  | VStr s => Some (Some s)
  | _ => None
  end.

Definition personaOfValue (v : JsValue) : option Input.Persona :=
  Input.mkPersona <$> missing_or_string (field "role" v).

Definition jobOfValue (v : JsValue) : option Input.Job :=
  Input.mkJob <$> missing_or_string (field "task" v).

Definition docOfValue (v : JsValue) : option Input.DocRef :=
  match v with
  | VObj _ => Input.mkDocRef <$> missing_or_string (field "filename" v)
  | _ => None
  end.

Definition docsOfValue (v : JsValue) : option (list Input.DocRef) :=
  elems ← elements_of v; mapM docOfValue elems.

(** The request [main] reads of the parsed value [inputData], when the
    value is a request of file [Report]: an object whose [persona] and
    [job_to_be_done] are objects or missing, with a [role] and a [task]
    that are strings or missing, and whose [documents] is an array of
    objects with a [filename] that is a string or missing, or is
    missing. *)
Definition requestOfValue (v : JsValue) : option Input.InputData :=
  match v with
  | VObj _ =>
      persona ← missing_or personaOfValue (field "persona" v);
      job_to_be_done ← missing_or jobOfValue (field "job_to_be_done" v);
      documents ← missing_or docsOfValue (field "documents" v);
      Some (Input.mkInputData persona job_to_be_done documents)
  | _ => None
  end.

(** ** The report: well-formedness and the round trip *)

Lemma json_wf_optional x : json_wf (optional x) = true.
Proof. by destruct x. Qed.

Lemma json_wf_optionals (xs : list (option string)) :
  forallb json_wf (optional <$> xs) = true.
Proof.
  apply forallb_Forall, Forall_fmap, Forall_true, json_wf_optional.
Qed.

(** An object literal: its keys are distinct and none is an array
    index. *)
Lemma json_wf_literal props :
  bool_decide (NoDup props.*1) &&
    forallb (λ p, negb (is_array_index p.1)) props = true →
  Forall (λ p, json_wf p.2 = true) props → json_wf (VObj props) = true.
Proof.
  intros [Hnd Hkeys]%andb_prop Hall. cbn [json_wf]. rewrite Hnd. simpl.
  rewrite forallb_Forall, Forall_forall in Hkeys |- *.
  rewrite Forall_forall in Hall. intros p Hp.
  by rewrite Hkeys, Hall.
Qed.

Lemma json_wf_sectionValue s :
  section_fits s = true → json_wf (sectionValue s) = true.
Proof.
  intros [Hrank Hpage]%andb_prop. apply json_wf_literal; [done|].
  repeat constructor; [|done]. cbn [json_wf snd].
  apply bool_decide_eq_true_1 in Hrank. apply bool_decide_eq_true_2.
  unfold max_safe in *. lia.
Qed.

Lemma json_wf_sectionValues (sections : list ExtractedSection) :
  forallb section_fits sections = true →
  forallb json_wf (sectionValue <$> sections) = true.
Proof.
  rewrite !forallb_Forall, Forall_fmap. intros Hall.
  eapply Forall_impl; [done|]. apply json_wf_sectionValue.
Qed.

Lemma json_wf_metadataValue m : json_wf (metadataValue m) = true.
Proof.
  apply json_wf_literal; [done|]. repeat constructor; simpl;
    auto using json_wf_optional, json_wf_optionals.
Qed.

Lemma json_wf_outputValue out :
  report_fits out = true → json_wf (outputValue out) = true.
Proof.
  intros [Hfits _]%andb_prop. apply json_wf_literal; [done|].
  repeat constructor; cbn [snd];
    [apply json_wf_metadataValue|by apply json_wf_sectionValues].
Qed.

(** What is left of the values of the report. *)
Lemma optional_of_json x : optional_of (elem_json (optional x)) = Some x.
Proof. by destruct x. Qed.

Lemma rank_of_nat (n : nat) : rank_of (VNum (Z.of_nat n)) = Some n.
Proof. simpl. by rewrite decide_True, Nat2Z.id by lia. Qed.

Lemma sectionOfValue_json s :
  sectionOfValue (elem_json (sectionValue s)) = Some s.
Proof.
  destruct s as [document title rank [page|]]; cbn;
    unfold sectionOfValue, field; autorewrite with json;
    by rewrite rank_of_nat.
Qed.

Lemma metadataOfValue_json m :
  metadataOfValue (to_json (metadataValue m)) = Some m.
Proof.
  destruct m as [docs [persona|] [job|] stamp]; cbn;
    unfold metadataOfValue, field; autorewrite with json; cbn;
    rewrite <-list_fmap_compose;
    by rewrite (mapM_fmap_Some _ (elem_json ∘ optional) docs) by
      apply optional_of_json.
Qed.

Lemma to_json_outputValue out :
  to_json (outputValue out) =
  VObj [("metadata", to_json (metadataValue (metadata out)));
        ("extracted_sections",
         VArr (elem_json ∘ sectionValue <$> extracted_sections out));
        ("subsection_analysis", VArr [])].
Proof.
  by rewrite (list_fmap_compose sectionValue elem_json).
Qed.

Lemma reportOfValue_json out :
  subsection_analysis out = [] →
  reportOfValue (to_json (outputValue out)) = Some out.
Proof.
  destruct out as [m sections analysis]. intros Hempty.
  rewrite to_json_outputValue. simpl in Hempty. subst analysis.
  unfold reportOfValue, field. autorewrite with json.
  cbn [metadata extracted_sections]. rewrite metadataOfValue_json.
  cbn -[sectionOfValue sectionValue].
  by rewrite (mapM_fmap_Some _ (elem_json ∘ sectionValue) sections) by
    apply sectionOfValue_json.
Qed.

(** ** The request: the round trip *)

Lemma json_wf_missing {A} (f : A → JsValue) x :
  (∀ a, json_wf (f a) = true) → json_wf (from_option f VUndefined x) = true.
Proof. intros Hf. destruct x; simpl; auto. Qed.

(** An object with one property that is a string or missing. *)
Lemma json_wf_single k x :
  is_array_index k = false → json_wf (VObj [(k, optional x)]) = true.
Proof.
  intros Hk. apply json_wf_literal; [|by repeat constructor; destruct x].
  cbn [forallb fst]. rewrite Hk.
  by rewrite bool_decide_true by apply NoDup_singleton.
Qed.

Lemma json_wf_requestValue r : json_wf (requestValue r) = true.
Proof.
  apply json_wf_literal; [done|].
  repeat constructor; cbn [snd]; apply json_wf_missing; intros a;
    try by apply json_wf_single.
  apply forallb_Forall, Forall_fmap, Forall_true. intros d.
  by apply json_wf_single.
Qed.

Lemma missing_or_string_json x :
  missing_or_string (to_json (optional x)) = Some x.
Proof. by destruct x. Qed.

Lemma personaOfValue_json p :
  missing_or personaOfValue (to_json (from_option personaValue VUndefined p)) =
  Some p.
Proof. by destruct p as [[[role|]]|]. Qed.

Lemma jobOfValue_json j :
  missing_or jobOfValue (to_json (from_option jobValue VUndefined j)) = Some j.
Proof. by destruct j as [[[task|]]|]. Qed.

Lemma docOfValue_json d : docOfValue (elem_json (docValue d)) = Some d.
Proof. by destruct d as [[filename|]]. Qed.

Lemma docsOfValue_json ds :
  missing_or docsOfValue
    (to_json (from_option (λ ds, VArr (docValue <$> ds)) VUndefined ds)) =
  Some ds.
Proof.
  destruct ds as [ds|]; [|done]. cbn -[docOfValue docValue].
  fold elem_json. rewrite <-list_fmap_compose.
  by rewrite (mapM_fmap_Some _ (elem_json ∘ docValue) ds) by
    apply docOfValue_json.
Qed.

Lemma requestOfValue_json r : requestOfValue (to_json (requestValue r)) = Some r.
Proof.
  destruct r as [persona job docs]. unfold requestValue.
  change (requestOfValue (to_json (VObj ?props))) with
    (persona ← missing_or personaOfValue (field "persona" (to_json (VObj props)));
     job ← missing_or jobOfValue (field "job_to_be_done" (to_json (VObj props)));
     docs ← missing_or docsOfValue (field "documents" (to_json (VObj props)));
     Some (Input.mkInputData persona job docs)).
  rewrite !field_to_json by (by apply (bool_decide_unpack _)).
  autorewrite with json. cbn [Input.persona Input.job_to_be_done Input.documents].
  by rewrite personaOfValue_json, jobOfValue_json, docsOfValue_json.
Qed.

(** ** The files *)

(** Reading what [fs.writeJson] wrote. *)
Lemma writeJson_text_parse v t :
  json_wf v = true → writeJson_text v = Some t →
  JSON_parse t = Parsed (to_json v) "".
Proof.
  unfold writeJson_text. intros Hwf Ht.
  destruct (JSON_stringify v) as [t'|] eqn:Ht'; [|done].
  injection Ht as <-. by apply JSON_parse_text.
Qed.

Lemma report_text_Some out : is_Some (report_text out).
Proof. by eexists. Qed.

Lemma request_text_Some r : is_Some (writeJson_text (requestValue r)).
Proof. by eexists. Qed.

(** C10: The text written for a report parses to a value from which the
    report is read back: the file says all that the report holds, a
    missing [persona] or [job_to_be_done] and a page that is [null]
    included. *)
Theorem report_text_parse out t :
  report_fits out = true → report_text out = Some t →
  ∃ v, JSON_parse t = Parsed v "" ∧ reportOfValue v = Some out.
Proof.
  intros Hfits Ht. exists (to_json (outputValue out)).
  pose proof Hfits as [_ Hempty%bool_decide_eq_true_1]%andb_prop.
  split; [|by apply reportOfValue_json].
  by apply writeJson_text_parse; [apply json_wf_outputValue|].
Qed.

(** A request of file [Report] written as JSON is read as that
    request: whether [persona], [job_to_be_done], [documents], a [role],
    a [task] or a [filename] is missing is kept. *)
Theorem request_text_parse r t :
  writeJson_text (requestValue r) = Some t →
  ∃ v, JSON_parse t = Parsed v "" ∧ requestOfValue v = Some r.
Proof.
  intros Ht. exists (to_json (requestValue r)).
  split; [|by apply requestOfValue_json].
  by apply writeJson_text_parse; [apply json_wf_requestValue|].
Qed.

(** The reports that [buildOutput] builds are written as they are when
    the pages are numbers JavaScript holds exactly: there are fewer
    sections than 2^53. *)
Lemma buildOutput_fits {F} documents persona job_to_be_done now
    (ranked : list (RankedRun F)) :
  (Z.of_nat (length ranked) ≤ max_safe)%Z →
  Forall (λ run, json_wf (pageValue (page (Process.run (content run)))) = true)
    ranked →
  report_fits (buildOutput documents persona job_to_be_done now ranked) = true.
Proof.
  intros Hlen Hpages. unfold report_fits. rewrite andb_true_r. simpl.
  apply forallb_Forall, Forall_lookup. intros i s.
  rewrite list_lookup_imap. intros (run & Hrun & ->)%fmap_Some.
  unfold section_fits. simpl.
  rewrite (Forall_lookup_1 _ _ _ _ Hpages Hrun), andb_true_r.
  apply bool_decide_eq_true_2. apply lookup_lt_Some in Hrun. lia.
Qed.

(** ** Examples *)

Definition sample_output : OutputJson :=
  mkOutputJson
    (mkMetadata [Some "a.pdf"; None] None (Some "Plan")
       "2025-01-01T00:00:00.000Z")
    [mkExtractedSection "a.pdf" "Intro" 1 None;
     mkExtractedSection "a.pdf" "Content from page 2" 2 (Some 2%Z)]
    [].

(** The report file: no [persona] for a role that is missing, [null] for
    a file name and a page that are. *)
Example report_text_sample :
  report_text sample_output = Some (dq "{
  'metadata': {
    'input_documents': [
      'a.pdf',
      null
    ],
    'job_to_be_done': 'Plan',
    'processing_timestamp': '2025-01-01T00:00:00.000Z'
  },
  'extracted_sections': [
    {
      'document': 'a.pdf',
      'section_title': 'Intro',
      'importance_rank': 1,
      'page_number': null
    },
    {
      'document': 'a.pdf',
      'section_title': 'Content from page 2',
      'importance_rank': 2,
      'page_number': 2
    }
  ],
  'subsection_analysis': []
}
").
Proof. vm_compute. reflexivity. Qed.

Definition sample_partial_request : Input.InputData :=
  Input.mkInputData (Some (Input.mkPersona None))
    (Some (Input.mkJob (Some "Review")))
    (Some [Input.mkDocRef (Some "a.pdf"); Input.mkDocRef None]).

Example request_text_sample :
  writeJson_text (requestValue sample_partial_request) = Some (dq "{
  'persona': {},
  'job_to_be_done': {
    'task': 'Review'
  },
  'documents': [
    {
      'filename': 'a.pdf'
    },
    {}
  ]
}
").
Proof. vm_compute. reflexivity. Qed.

(** A request file as one writes it by hand, with a property the program
    does not read. *)
Example request_parse_sample :
  pbind (JSON_parse (dq "{ 'challenge': 1,
    'documents': [{'filename': 'a.pdf', 'title': 'A'}],
    'persona': {'role': 'Analyst'}, 'job_to_be_done': {'task': 'Review'} }"))
    (λ v _, Parsed (requestOfValue v) "") =
  Parsed (Some (Input.mkInputData (Some (Input.mkPersona (Some "Analyst")))
                  (Some (Input.mkJob (Some "Review")))
                  (Some [Input.mkDocRef (Some "a.pdf")]))) "".
Proof. vm_compute. reflexivity. Qed.

(** Requests that are not requests of file [Report]: a role that is a
    number, a [persona] that is [null]. *)
Example request_outside_samples :
  Forall (λ text, pbind (JSON_parse text)
                    (λ v _, Parsed (requestOfValue v) "") = Parsed None "")
    [dq "{'persona': {'role': 7}}"; dq "{'persona': null}";
     dq "{'documents': 'a.pdf'}"; "[]"].
Proof. repeat constructor. Qed.

Lemma report_text_parse_witness :
  ∃ v, JSON_parse (default "" (report_text sample_output)) = Parsed v "" ∧
       reportOfValue v = Some sample_output.
Proof.
  apply (report_text_parse sample_output); vm_compute; reflexivity.
Defined.

Lemma request_text_parse_witness :
  ∃ v, JSON_parse
         (default "" (writeJson_text (requestValue sample_partial_request))) =
       Parsed v "" ∧
       requestOfValue v = Some sample_partial_request.
Proof.
  apply (request_text_parse sample_partial_request); vm_compute; reflexivity.
Defined.
