(* ===== verification/Effects.v ===== *)
(** * Effects: the console, the output file and exceptions

    What the program does to the world is what it prints, what it writes
    and how it exits: [World]. A computation of [src/extract.js] is a
    function from the world to a result and the world after it: the monad
    [IO] of state and exceptions. The file holds the monad, the
    primitives ([console.log], [console.error], [process.exit], awaiting
    an answer of the environment, the [for ... of] loop) and three ways to
    reason about a computation without running it:

    - [m ≡ m']: the two computations do the same in every world, with
      the laws of the monad up to this equivalence;
    - [returns m r]: whatever the world, [m] ends with the result [r];
    - [quiet m]: [m] writes no file, prints no error and does not exit,
      and only appends to the console;
    - [prints m r l]: whatever the world, [m] ends with the result [r]
      and has appended the lines [l] to the console;
    - [logs m P]: every line [m] appends to the console satisfies
      [P], however [m] ends. *)

From S2P Require Import Prelude Report.

(** ** The world *)

Record World : Type := mkWorld {
  (** the lines of [console.log] *)
  stdout : list string;
  (** the lines of [console.error] *)
  stderr : list string;
  (** the writes that have completed: the files, with their contents *)
  written : list (string * OutputJson);
  (** the status of [process.exit], if it was called *)
  exitCode : option Z;
}.

Definition initial_world : World := mkWorld [] [] [] None.

(** ** State and exceptions *)

Definition IO (A : Type) : Type := World → result A * World.

#[export] Instance io_ret : MRet IO := λ A a w, (Ok a, w).

#[export] Instance io_bind : MBind IO := λ A B f m w,
  match m w with
  | (Ok a, w') => f a w'
  | (Throw e, w') => (Throw e, w')
  end.

(** [await] of a call answered by the environment. *)
Definition lift {A} (r : result A) : IO A := λ w, (r, w).

Definition console_log (line : string) : IO unit := λ w,
  (Ok (), mkWorld (stdout w ++ [line]) (stderr w) (written w) (exitCode w)).

Definition console_error (line : string) : IO unit := λ w,
  (Ok (), mkWorld (stdout w) (stderr w ++ [line]) (written w) (exitCode w)).

Definition process_exit (status : Z) : IO unit := λ w,
  (Ok (), mkWorld (stdout w) (stderr w) (written w) (Some status)).

(** [for (const x of l) { acc = await body(acc, x) }]. *)
Fixpoint for_of {A B} (body : A → B → IO A) (acc : A) (l : list B) : IO A :=
  match l with
  | [] => mret acc
  | x :: l' => acc' ← body acc x; for_of body acc' l'
  end.

(** A value that must not be [undefined]: reading a property of it, or
    passing it where a string is required, throws a [TypeError]. *)
Definition required {A} (x : option A) (e : string) : result A :=
  match x with Some a => Ok a | None => Throw e end.

(** The loop in the monad of results alone. *)
Fixpoint foldM_result {A B} (body : A → B → result A) (acc : A) (l : list B)
  : result A :=
  match l with
  | [] => Ok acc
  | x :: l' => acc' ← body acc x; foldM_result body acc' l'
  end.

(** ** What a computation returns *)

Definition returns {A} (m : IO A) (r : result A) : Prop := ∀ w, (m w).1 = r.

(** ** What a computation leaves alone *)

Record quiet_step (w w' : World) : Prop := {
  quiet_written : written w' = written w;
  quiet_stderr : stderr w' = stderr w;
  quiet_exitCode : exitCode w' = exitCode w;
  quiet_stdout : stdout w `prefix_of` stdout w';
}.

Definition quiet {A} (m : IO A) : Prop := ∀ w, quiet_step w (m w).2.

(** ** What a computation prints *)

Definition prints {A} (m : IO A) (r : result A) (l : list string) : Prop :=
  ∀ w, (m w).1 = r ∧ stdout (m w).2 = stdout w ++ l.

Definition logs {A} (m : IO A) (P : string → Prop) : Prop :=
  ∀ w, ∃ l, stdout (m w).2 = stdout w ++ l ∧ Forall P l.

(** ** Computations that do the same *)

(** Two computations are equivalent when they do the same in every
    world. *)
#[export] Instance io_equiv {A} : Equiv (IO A) := λ m m', ∀ w, m w = m' w.

Create HintDb io discriminated.

Section laws.
Context {A B : Type}.
Implicit Types (m : IO A) (f : A → IO B) (r : result A) (w : World).

Lemma io_bind_Ok m f w a w' : m w = (Ok a, w') → (m ≫= f) w = f a w'.
Proof. unfold mbind, io_bind. by intros ->. Qed.

Lemma io_bind_Throw m f w e w' :
  m w = (Throw e, w') → (m ≫= f) w = (Throw e, w').
Proof. unfold mbind, io_bind. by intros ->. Qed.

Lemma io_bind_inv m f w rb w'' :
  (m ≫= f) w = (rb, w'') →
  (∃ a w', m w = (Ok a, w') ∧ f a w' = (rb, w'')) ∨
  (∃ e, m w = (Throw e, w'') ∧ rb = Throw e).
Proof.
  unfold mbind, io_bind. destruct (m w) as [[a|e] w'] eqn:Hm.
  - intros Hf. left. eauto.
  - intros [= <- <-]. right. eauto.
Qed.

Lemma returns_ret a : returns (mret a : IO A) (Ok a).
Proof. done. Qed.

Lemma returns_lift r : returns (lift r) r.
Proof. done. Qed.

Lemma returns_bind m f r (g : A → result B) :
  returns m r → (∀ a, returns (f a) (g a)) → returns (m ≫= f) (r ≫= g).
Proof.
  intros Hm Hf w. specialize (Hm w). unfold mbind at 1, io_bind.
  destruct (m w) as [[a|e] w']; simpl in Hm; subst r; [apply Hf|done].
Qed.

Lemma quiet_step_refl w : quiet_step w w.
Proof. by split. Qed.

Lemma quiet_step_trans w1 w2 w3 :
  quiet_step w1 w2 → quiet_step w2 w3 → quiet_step w1 w3.
Proof.
  intros [? ? ? ?] [? ? ? ?]. split; try congruence. by etrans.
Qed.

Lemma quiet_ret a : quiet (mret a : IO A).
Proof. intros w. apply quiet_step_refl. Qed.

Lemma quiet_lift r : quiet (lift r).
Proof. intros w. apply quiet_step_refl. Qed.

Lemma quiet_bind m f : quiet m → (∀ a, quiet (f a)) → quiet (m ≫= f).
Proof.
  intros Hm Hf w. specialize (Hm w). unfold mbind, io_bind.
  destruct (m w) as [[a|e] w']; simpl in *; [|done].
  eapply quiet_step_trans; [done|apply Hf].
Qed.
End laws.

(** ** The laws of the monad, up to equivalence *)

#[export] Instance io_equiv_equivalence {A} : Equivalence (≡@{IO A}).
Proof.
  split; [by intros m w|by intros m m' Hm w|].
  intros m1 m2 m3 H12 H23 w. by rewrite H12.
Qed.

#[export] Instance io_bind_proper {A B} :
  Proper (pointwise_relation A (≡) ==> (≡) ==> (≡))
    (mbind (M:=IO) (A:=A) (B:=B)).
Proof.
  intros f g Hfg m m' Hm w. unfold mbind, io_bind. rewrite Hm.
  destruct (m' w) as [[a|e] w']; [apply Hfg|done].
Qed.

Lemma io_bind_assoc {A B C} (m : IO A) (f : A → IO B) (g : B → IO C) :
  (m ≫= f) ≫= g ≡ m ≫= λ a, f a ≫= g.
Proof. intros w. unfold mbind, io_bind. by destruct (m w) as [[a|e] w']. Qed.

Lemma io_ret_bind {A B} (a : A) (f : A → IO B) : mret a ≫= f ≡ f a.
Proof. done. Qed.

Lemma io_bind_ret {A} (m : IO A) : m ≫= mret ≡ m.
Proof. intros w. unfold mbind, io_bind. by destruct (m w) as [[a|e] w']. Qed.

Lemma io_lift_Throw_bind {A B} e (f : A → IO B) : lift (Throw e) ≫= f ≡ lift (Throw e).
Proof. done. Qed.

(** What follows a call depends on the value the call returned only. *)
Lemma io_lift_bind_ext {A B} (x : result A) (f g : A → IO B) :
  (∀ a, x = Ok a → f a ≡ g a) → lift x ≫= f ≡ lift x ≫= g.
Proof. intros Hfg. destruct x as [a|e]; [by apply Hfg|done]. Qed.

Lemma io_lift_Ok_bind {A B} (a : A) (f : A → IO B) : lift (Ok a) ≫= f = f a.
Proof. done. Qed.

(** A step both computations take, the second with something to do at
    the end. *)
Lemma io_bind_step {A B C} (m : IO A) (f : A → IO C) (f' : A → IO B)
    (h : B → IO C) :
  (∀ a, f a ≡ f' a ≫= h) → m ≫= f ≡ (m ≫= f') ≫= h.
Proof.
  intros Hf. rewrite io_bind_assoc. by apply io_bind_proper; [intros a|].
Qed.

Lemma returns_console_log line : returns (console_log line) (Ok ()).
Proof. done. Qed.

Lemma quiet_console_log line : quiet (console_log line).
Proof. intros w. split; simpl; try done. by apply prefix_app_r. Qed.

Lemma for_of_nil {A B} (body : A → B → IO A) acc :
  for_of body acc [] = mret acc.
Proof. done. Qed.

Lemma for_of_cons {A B} (body : A → B → IO A) acc x l :
  for_of body acc (x :: l) = (acc' ← body acc x; for_of body acc' l).
Proof. done. Qed.

(** Two loops whose bodies agree on the elements of the list agree. *)
Lemma for_of_ext {A B} (body body' : A → B → IO A) acc (l : list B) :
  Forall (λ x, ∀ a, body a x ≡ body' a x) l →
  for_of body acc l ≡ for_of body' acc l.
Proof.
  intros Hl. revert acc. induction Hl as [|x l Hx _ IH]; intros acc; [done|].
  rewrite !for_of_cons. apply io_bind_proper; [exact IH|apply Hx].
Qed.

(** Two loops over lists whose bodies agree element by element agree. *)
Lemma for_of_Forall2 {A B B'} (body : A → B → IO A) (body' : A → B' → IO A)
    acc (l : list B) (l' : list B') :
  Forall2 (λ x y, ∀ a, body a x ≡ body' a y) l l' →
  for_of body acc l ≡ for_of body' acc l'.
Proof.
  intros Hl. revert acc.
  induction Hl as [|x y l l' Hx _ IH]; intros acc; [done|].
  rewrite !for_of_cons. apply io_bind_proper; [exact IH|apply Hx].
Qed.

Lemma returns_for_of {A B} (body : A → B → IO A) g acc l :
  (∀ a x, returns (body a x) (g a x)) →
  returns (for_of body acc l) (foldM_result g acc l).
Proof.
  intros Hb. revert acc. induction l as [|x l IH]; intros acc; simpl.
  - apply returns_ret.
  - apply returns_bind; [apply Hb|apply IH].
Qed.

Lemma quiet_for_of {A B} (body : A → B → IO A) acc l :
  (∀ a x, quiet (body a x)) → quiet (for_of body acc l).
Proof.
  intros Hb. revert acc. induction l as [|x l IH]; intros acc; simpl.
  - apply quiet_ret.
  - apply quiet_bind; [apply Hb|apply IH].
Qed.

Lemma returns_bind_log {B} line (f : unit → IO B) r :
  returns (f ()) r → returns (console_log line ≫= f) r.
Proof. intros Hf w. apply Hf. Qed.

Lemma returns_eq {A} (m : IO A) r r' : returns m r → r = r' → returns m r'.
Proof. by intros ? <-. Qed.

#[export] Hint Resolve returns_ret returns_lift returns_console_log : io.
#[export] Hint Resolve quiet_ret quiet_lift quiet_console_log : io.

(** Decompose a computation into its steps. *)
Ltac io_steps :=
  repeat first
    [ apply quiet_bind; [|intros ?]
    | apply quiet_for_of; intros ? ?
    | progress eauto with io ].

Ltac returns_steps :=
  repeat first
    [ apply returns_bind_log
    | eapply returns_bind; [solve [eauto with io]|intros ?]
    | progress (lazy zeta)
    | solve [eauto with io] ].

(** ** The console of a computation *)

Section prints.
Context {A B : Type}.
Implicit Types (m : IO A) (f : A → IO B) (l : list string).

Lemma prints_ret (a : A) : prints (mret a : IO A) (Ok a) [].
Proof. intros w. by rewrite app_nil_r. Qed.

Lemma prints_lift (r : result A) : prints (lift r) r [].
Proof. intros w. by rewrite app_nil_r. Qed.

Lemma prints_bind_Ok m f a l r l' :
  prints m (Ok a) l → prints (f a) r l' → prints (m ≫= f) r (l ++ l').
Proof.
  intros Hm Hf w. destruct (Hm w) as [Hr Hl]. unfold mbind, io_bind.
  destruct (m w) as [[a'|e] w']; simplify_eq/=.
  destruct (Hf w') as [-> ->]. by rewrite Hl, app_assoc.
Qed.

Lemma prints_bind_Throw m f e l :
  prints m (Throw e) l → prints (m ≫= f) (Throw e) l.
Proof.
  intros Hm w. destruct (Hm w) as [Hr Hl]. unfold mbind, io_bind.
  by destruct (m w) as [[a'|e'] w']; simplify_eq/=.
Qed.

Lemma prints_returns m r l : prints m r l → returns m r.
Proof. intros Hm w. apply Hm. Qed.

Lemma prints_eq m r l l' : prints m r l → l = l' → prints m r l'.
Proof. by intros ? <-. Qed.
End prints.

Section logs.
Context {A B : Type} (P : string → Prop).
Implicit Types (m : IO A) (f : A → IO B).

Lemma logs_ret (a : A) : logs (mret a : IO A) P.
Proof. intros w. exists []. by rewrite app_nil_r. Qed.

Lemma logs_lift (r : result A) : logs (lift r) P.
Proof. intros w. exists []. by rewrite app_nil_r. Qed.

Lemma logs_bind m f : logs m P → (∀ a, logs (f a) P) → logs (m ≫= f) P.
Proof.
  intros Hm Hf w. destruct (Hm w) as (l & Hl & HP). unfold mbind, io_bind.
  destruct (m w) as [[a|e] w']; simpl in *; [|by exists l].
  destruct (Hf a w') as (l' & Hl' & HP'). exists (l ++ l').
  rewrite Hl', Hl, app_assoc. split; [done|]. by apply Forall_app.
Qed.
End logs.

Lemma logs_for_of {A B} P (body : A → B → IO A) acc (l : list B) :
  (∀ a x, logs (body a x) P) → logs (for_of body acc l) P.
Proof.
  intros Hb. revert acc. induction l as [|x l IH]; intros acc; simpl.
  - apply logs_ret.
  - apply logs_bind; [apply Hb|apply IH].
Qed.

Lemma logs_console_log (P : string → Prop) line :
  P line → logs (console_log line) P.
Proof. intros HP w. exists [line]. split; [done|]. by apply Forall_singleton. Qed.

(** Decompose a computation into its steps, leaving the lines. *)
Ltac logs_steps :=
  repeat first
    [ apply logs_bind; [|intros ?]
    | apply logs_for_of; intros ? ?
    | apply logs_ret
    | apply logs_lift
    | apply logs_console_log ].

Lemma prints_console_log line : prints (console_log line) (Ok ()) [line].
Proof. done. Qed.

(** A line, then the rest. *)
Lemma prints_log_bind {B} line (f : unit → IO B) r l :
  prints (f ()) r l → prints (console_log line ≫= f) r (line :: l).
Proof. apply (prints_bind_Ok _ _ () [line]), prints_console_log. Qed.

(** An answer of the environment, then the rest. *)
Lemma prints_lift_bind {A B} (x : result A) a (f : A → IO B) r l :
  x = Ok a → prints (f a) r l → prints (lift x ≫= f) r l.
Proof. intros ->. apply (prints_bind_Ok _ _ a []), prints_lift. Qed.

(** Print the lines and take the answers that are known to be there. *)
Ltac prints_steps :=
  repeat first
    [ apply prints_log_bind
    | eapply prints_lift_bind; [eassumption|]
    | apply prints_ret ].

Lemma required_Ok {A} (x : option A) e a : required x e = Ok a ↔ x = Some a.
Proof. destruct x; simpl; split; congruence. Qed.

(** The loop that appends what each element yields collects the yields in
    order. *)
Lemma foldM_result_app {A B} (f : B → result (list A)) acc l :
  foldM_result (λ acc x, ys ← f x; Ok (acc ++ ys)) acc l =
    yss ← mapM_result f l; Ok (acc ++ concat yss).
Proof.
  revert acc. induction l as [|x l IH]; intros acc; simpl.
  - by rewrite app_nil_r.
  - destruct (f x) as [ys|e]; simpl; [|done]. rewrite IH.
    destruct (mapM_result f l) as [yss|e]; simpl; [|done].
    by rewrite app_assoc.
Qed.
