(* ===== verification/Main.v ===== *)
(** * The pipeline

    [initializeModel] and [main] of [src/extract.js], and the handler
    [main().catch(...)] at the end of the file.

    What the world answers when the program loads the model, reads the
    request, opens a document, embeds a text or writes the report is an
    [Env]. [main] is a computation in the monad [IO] of file [Effects];
    [program] is [main] with the handler that reports a fatal error and
    exits with status 1. *)

From Stdlib Require Import Floats Uint63.
From S2P Require Import Prelude JsNumber JsString JsPath JsArray PdfDoc.
From S2P Require Import Process Cosine Ranker Report Effects.

(** The errors of reading [persona.role], [job_to_be_done.task],
    [documents] and [doc.filename] when the object or the string is
    missing. *)
Definition no_persona : string :=
  "TypeError: Cannot read properties of undefined (reading 'role')".
Definition no_job : string :=
  "TypeError: Cannot read properties of undefined (reading 'task')".
Definition no_documents : string := "TypeError: documents is not iterable".
Definition no_filename : string :=
  "TypeError [ERR_INVALID_ARG_TYPE]: The path argument must be of type string".

(** ** Paths *)

Definition INPUT_DIR : string := "./input".
Definition PDF_DIR : string := path_join [INPUT_DIR; "PDF"].
Definition INPUT_JSON : string := path_join [INPUT_DIR; "challenge1b_input.json"].
Definition OUTPUT_DIR : string := "./output".
Definition OUTPUT_JSON : string := path_join [OUTPUT_DIR; "challenge1b_output.json"].

Section main.
Context `{JsArith F, JsKey F}.

(** ** The environment *)

(** The feature extractor with pooling and normalisation, and [.data] of
    what it returns. *)
Definition Extractor : Type := string → result (list F).

Record Env : Type := mkEnv {
  (** [await import("@xenova/transformers")] *)
  importTransformers : result unit;
  (** [await pipeline("feature-extraction", ...)] *)
  pipeline : result Extractor;
  (** [await fs.ensureDir(dir)] *)
  ensureDir : string → result unit;
  (** [await fs.readJson(file)] *)
  readJson : string → result Input.InputData;
  (** [await pdfjsLib.getDocument(inPath).promise] *)
  getDocument : string → result (PdfDoc F);
  (** [new Date().toISOString()] *)
  now : string;
  (** [await fs.writeJson(file, data, { spaces: 2 })]: whether the write
      succeeds *)
  writeJson : string → OutputJson → result unit;
}.

Context (env : Env).

(** The write: on success the file holds the report. *)
Definition write_file (file : string) (data : OutputJson) : IO unit := λ w,
  match writeJson env file data with
  | Ok _ =>
      (Ok (), mkWorld (stdout w) (stderr w) (written w ++ [(file, data)])
                (exitCode w))
  | Throw e => (Throw e, w)
  end.

(** ** [initializeModel] *)

Definition initializeModel : IO Extractor :=
  _ ← lift (importTransformers env);
  _ ← console_log "Initializing AI Model (will download on first run)...";
  extractor ← lift (pipeline env);
  _ ← console_log "Model Initialized.";
  mret extractor.

(** ** [main] *)

(** [`Persona: ${persona.role}. Task: ${job_to_be_done.task}`]. *)
Definition contextTextOf (persona : option Input.Persona)
    (job_to_be_done : option Input.Job) : result string :=
  p ← required persona no_persona;
  j ← required job_to_be_done no_job;
  Ok ("Persona: " +:+ template (Input.role p) +:+ ". Task: " +:+
      template (Input.task j)).

(** The body of the loop over the documents. *)
Definition processDocument (allContentRuns : list ContentRun)
    (doc : Input.DocRef) : IO (list ContentRun) :=
  filename ← lift (required (Input.filename doc) no_filename);
  let pdfPath := path_join [PDF_DIR; filename] in
  _ ← console_log ("- Extracting from " +:+ filename);
  runs ← lift (processFileAndGetRuns (getDocument env) pdfPath);
  mret (allContentRuns ++ runs).

(** Step 3. *)
Definition extractAll (documents : option (list Input.DocRef))
  : IO (list ContentRun) :=
  _ ← console_log "Processing PDF documents...";
  docs ← lift (required documents no_documents);
  allContentRuns ← for_of processDocument [] docs;
  _ ← console_log ("Extracted " +:+ pretty (length allContentRuns) +:+
                   " total text chunks.");
  mret allContentRuns.

(** Steps 1 to 6: the report, before it is written. *)
Definition report : IO OutputJson :=
  extractor ← initializeModel;
  _ ← lift (ensureDir env INPUT_DIR);
  inputData ← lift (readJson env INPUT_JSON);
  contextText ← lift (contextTextOf (Input.persona inputData)
                        (Input.job_to_be_done inputData));
  allContentRuns ← extractAll (Input.documents inputData);
  _ ← console_log "Generating embeddings...";
  ctxEmbed ← lift (extractor contextText);
  contentEmbeddings ← lift
    (mapM_result (λ run, extractor (text (Process.run run))) allContentRuns);
  _ ← console_log "Calculating relevance scores...";
  let ranked := rankRuns ctxEmbed allContentRuns contentEmbeddings in
  _ ← console_log "Generating final output...";
  documents ← lift (required (Input.documents inputData) no_documents);
  persona ← lift (required (Input.persona inputData) no_persona);
  job_to_be_done ← lift (required (Input.job_to_be_done inputData) no_job);
  mret (buildOutput documents persona job_to_be_done (now env) ranked).

(** Step 7. *)
Definition main : IO unit :=
  outputJson ← report;
  _ ← lift (ensureDir env OUTPUT_DIR);
  _ ← write_file OUTPUT_JSON outputJson;
  console_log ("✅ Success! Output written to " +:+ OUTPUT_JSON).

(** [main().catch((err) => { console.error("Fatal error:", err);
    process.exit(1); })]. *)
Definition program : World → World := λ w,
  match main w with
  | (Ok _, w') => w'
  | (Throw err, w') =>
      snd ((_ ← console_error ("Fatal error: " +:+ err); process_exit 1) w')
  end.
(** ** The pipeline without the console

    What [report] returns, as a function of the answers of the
    environment alone. *)

Definition initializeModel_spec : result Extractor :=
  _ ← importTransformers env;
  extractor ← pipeline env;
  Ok extractor.

(** The sections of one document of the request. *)
Definition documentRuns (doc : Input.DocRef) : result (list ContentRun) :=
  filename ← required (Input.filename doc) no_filename;
  processFileAndGetRuns (getDocument env) (path_join [PDF_DIR; filename]).

(** The pool: the sections of the documents, one document after the
    other. *)
Definition pooledRuns (documents : option (list Input.DocRef))
  : result (list ContentRun) :=
  docs ← required documents no_documents;
  runss ← mapM_result documentRuns docs;
  Ok (concat runss).

Definition report_spec : result OutputJson :=
  extractor ← initializeModel_spec;
  _ ← ensureDir env INPUT_DIR;
  inputData ← readJson env INPUT_JSON;
  contextText ← contextTextOf (Input.persona inputData)
                  (Input.job_to_be_done inputData);
  allContentRuns ← pooledRuns (Input.documents inputData);
  ctxEmbed ← extractor contextText;
  contentEmbeddings ←
    mapM_result (λ run, extractor (text (Process.run run))) allContentRuns;
  documents ← required (Input.documents inputData) no_documents;
  persona ← required (Input.persona inputData) no_persona;
  job_to_be_done ← required (Input.job_to_be_done inputData) no_job;
  Ok (buildOutput documents persona job_to_be_done (now env)
        (rankRuns ctxEmbed allContentRuns contentEmbeddings)).

(** [main] as far as the file system sees it: the report that is
    written, or the error. *)
Definition main_spec : result OutputJson :=
  outputJson ← report_spec;
  _ ← ensureDir env OUTPUT_DIR;
  _ ← writeJson env OUTPUT_JSON outputJson;
  Ok outputJson.

(** What the loop over the documents prints: a line for each document
    up to the first that fails, none for a document without a file
    name. *)
Fixpoint loop_log (docs : list Input.DocRef) : list string :=
  match docs with
  | [] => []
  | doc :: docs' =>
      match Input.filename doc with
      | Some filename =>
          ("- Extracting from " +:+ filename) ::
          (if decide (is_Ok (documentRuns doc)) then loop_log docs' else [])
      | None => []
      end
  end.

(** ** The console does not change the result *)

Lemma returns_initializeModel : returns initializeModel initializeModel_spec.
Proof. unfold initializeModel, initializeModel_spec. returns_steps. Qed.

Lemma returns_processDocument acc doc :
  returns (processDocument acc doc)
    (runs ← documentRuns doc; Ok (acc ++ runs)).
Proof.
  unfold processDocument, documentRuns. rewrite result_bind_assoc.
  returns_steps.
Qed.

Lemma returns_extractAll documents :
  returns (extractAll documents) (pooledRuns documents).
Proof.
  unfold extractAll, pooledRuns. apply returns_bind_log.
  eapply returns_bind; [apply returns_lift|intros docs].
  eapply returns_eq.
  - eapply returns_bind; [apply returns_for_of, returns_processDocument|].
    intros all. apply returns_bind_log, returns_ret.
  - by rewrite foldM_result_app, result_bind_assoc.
Qed.

Local Hint Resolve returns_initializeModel returns_extractAll : io.

(** [report] returns what the pipeline without the console returns. *)
Lemma report_returns : returns report report_spec.
Proof. unfold report, report_spec. returns_steps. Qed.
(** ** Nothing is written before the end *)

Lemma quiet_initializeModel : quiet initializeModel.
Proof. unfold initializeModel. io_steps. Qed.

Lemma quiet_processDocument acc doc : quiet (processDocument acc doc).
Proof. unfold processDocument. io_steps. Qed.

Local Hint Resolve quiet_initializeModel quiet_processDocument : io.

Lemma quiet_extractAll documents : quiet (extractAll documents).
Proof. unfold extractAll. io_steps. Qed.

Local Hint Resolve quiet_extractAll : io.

Lemma quiet_report : quiet report.
Proof. unfold report. io_steps. Qed.

(** The run of [main]: it fails exactly when [main_spec] does, having
    written nothing, and otherwise appends the report to the files. *)
Lemma main_run w :
  match main_spec with
  | Ok out => ∃ w',
      main w = (Ok (), w') ∧ written w' = written w ++ [(OUTPUT_JSON, out)] ∧
      stderr w' = stderr w ∧ exitCode w' = exitCode w
  | Throw e => ∃ w', main w = (Throw e, w') ∧ quiet_step w w'
  end.
Proof.
  pose proof (report_returns w) as Hr. pose proof (quiet_report w) as Hq.
  unfold main, main_spec. rewrite <-Hr.
  destruct (report w) as [[out|e] w1] eqn:Hrep; simpl in *.
  - rewrite (io_bind_Ok _ _ _ _ _ Hrep).
    unfold mbind, io_bind, lift, write_file, console_log.
    destruct (ensureDir env OUTPUT_DIR) as [[]|e]; simpl; [|by eexists].
    destruct (writeJson env OUTPUT_JSON out) as [[]|e]; simpl; [|by eexists].
    destruct Hq as [Hw He Hx _]. eexists. split; [done|]. simpl.
    by rewrite Hw, He, Hx.
  - rewrite (io_bind_Throw _ _ _ _ _ Hrep). by eexists.
Qed.

(** The report [main] writes is the report of [report]. *)
Lemma main_spec_report out : main_spec = Ok out → report_spec = Ok out.
Proof.
  unfold main_spec. intros (out' & Hout & Hmain)%result_bind_Ok_inv.
  destruct (ensureDir env OUTPUT_DIR) as [[]|]; [|done].
  destruct (writeJson env OUTPUT_JSON out') as [[]|]; [|done].
  by simplify_eq/=.
Qed.

(** The files after a run that succeeds, and after one that fails. *)
Lemma program_success w out :
  main_spec = Ok out → written (program w) = written w ++ [(OUTPUT_JSON, out)].
Proof.
  intros Hout. pose proof (main_run w) as Hm. unfold program.
  rewrite Hout in Hm. by destruct Hm as (w' & -> & ? & _).
Qed.

Lemma program_fatal w e :
  main_spec = Throw e →
  written (program w) = written w ∧ exitCode (program w) = Some 1%Z.
Proof.
  intros He. pose proof (main_run w) as Hm. unfold program.
  rewrite He in Hm. by destruct Hm as (w' & -> & [? _ _ _]).
Qed.

(** A request that cannot be read is fatal. *)
Lemma main_spec_unreadable e :
  readJson env INPUT_JSON = Throw e → ∃ e', main_spec = Throw e'.
Proof.
  intros He. unfold main_spec, report_spec.
  destruct initializeModel_spec; simpl; [|by eexists].
  destruct (ensureDir env INPUT_DIR); simpl; [|by eexists].
  rewrite He. by eexists.
Qed.

(** C1: The program either writes the complete report as its last act
    and does not call [process.exit], or, on any failure, writes nothing,
    prints "Fatal error:" with the error and exits with status 1. What
    is written is a write that has completed: when it is the write that
    fails, what it leaves in the file is in file [Writing]. *)
Theorem program_outcome w :
  match main_spec with
  | Ok out =>
      written (program w) = written w ++ [(OUTPUT_JSON, out)] ∧
      stderr (program w) = stderr w ∧ exitCode (program w) = exitCode w
  | Throw e =>
      written (program w) = written w ∧
      stderr (program w) = stderr w ++ ["Fatal error: " +:+ e] ∧
      exitCode (program w) = Some 1%Z
  end.
Proof.
  pose proof (main_run w) as Hm. unfold program.
  destruct main_spec as [out|e]; destruct Hm as (w' & -> & Hm); [done|].
  destruct Hm as [Hw He _ _]. simpl. by rewrite Hw, He.
Qed.

(** C2: [main] ends as the pipeline without the console does, with its
    error or with success: printing changes nothing, and the loop over
    the documents pools the sections of each in request order. *)
Theorem returns_main : returns main (_ ← main_spec; Ok ()).
Proof.
  intros w. pose proof (main_run w) as Hm.
  by destruct main_spec as [out|e]; destruct Hm as (w' & -> & _).
Qed.
(** ** The pool *)

Lemma pooledRuns_Ok docs runss :
  mapM_result documentRuns docs = Ok runss →
  pooledRuns (Some docs) = Ok (concat runss).
Proof. intros Hr. unfold pooledRuns. simpl. by run_result. Qed.

Lemma pooledRuns_inv documents pooled :
  pooledRuns documents = Ok pooled →
  ∃ docs runss, documents = Some docs ∧
    Forall2 (λ doc runs, documentRuns doc = Ok runs) docs runss ∧
    pooled = concat runss.
Proof.
  unfold pooledRuns. intros Hp. inv_bind Hp. simplify_eq.
  apply required_Ok in Ha. apply mapM_result_Ok in Ha0. eauto.
Qed.

Lemma documentRuns_inv doc runs :
  documentRuns doc = Ok runs →
  ∃ filename pdfDoc rs,
    Input.filename doc = Some filename ∧
    getDocument env (path_join [PDF_DIR; filename]) = Ok pdfDoc ∧
    contentRunsOf pdfDoc = Ok rs ∧
    runs = stamp (basename (path_join [PDF_DIR; filename])) rs.
Proof.
  unfold documentRuns. intros (f & Hf%required_Ok & Hp)%result_bind_Ok_inv.
  apply processFileAndGetRuns_inv in Hp as (pdfDoc & rs & ? & ? & ->).
  eauto 10.
Qed.

(** Where a pooled section comes from. *)
Lemma elem_of_pooledRuns documents pooled cr :
  pooledRuns documents = Ok pooled → cr ∈ pooled →
  ∃ docs doc filename pdfDoc rs r,
    documents = Some docs ∧ doc ∈ docs ∧ Input.filename doc = Some filename ∧
    getDocument env (path_join [PDF_DIR; filename]) = Ok pdfDoc ∧
    contentRunsOf pdfDoc = Ok rs ∧ r ∈ rs ∧
    cr = mkContentRun r (basename (path_join [PDF_DIR; filename])).
Proof.
  intros (docs & runss & -> & Hall & ->)%pooledRuns_inv
         (runs & Hruns & Hcr)%elem_of_concat.
  apply list_elem_of_lookup in Hruns as [k Hk].
  destruct (Forall2_lookup_r _ _ _ _ _ Hall Hk) as (doc & Hdoc & Hd).
  apply documentRuns_inv in Hd as (f & pdfDoc & rs & ? & ? & ? & ->).
  apply list_elem_of_fmap in Hcr as (r & -> & ?).
  exists docs, doc, f, pdfDoc, rs, r.
  split_and!; try done. by eapply list_elem_of_lookup_2.
Qed.

(** A document that cannot be processed stops the loop: the pool
    fails with the error of the first such document. *)
Theorem pooledRuns_Throw docs1 doc docs2 e :
  Forall (λ d, is_Ok (documentRuns d)) docs1 →
  documentRuns doc = Throw e →
  pooledRuns (Some (docs1 ++ doc :: docs2)) = Throw e.
Proof.
  intros Hok Hd. unfold pooledRuns. simpl.
  by rewrite (mapM_result_Throw _ docs1 doc docs2 e).
Qed.

(** A pooled section carries the file name of its document in the
    request, when that is a plain file name. *)
Theorem pooledRuns_document documents pooled cr :
  pooledRuns documents = Ok pooled → cr ∈ pooled →
  ∃ docs doc filename,
    documents = Some docs ∧ doc ∈ docs ∧ Input.filename doc = Some filename ∧
    (plain_name filename → fileName cr = filename).
Proof.
  intros Hp (docs & doc & f & ? & ? & ? & ? & ? & ? & ? & ? & ? & ->)
    %(elem_of_pooledRuns _ _ _ Hp).
  exists docs, doc, f. split_and!; try done.
  intros Hf. simpl. by apply basename_pdf_path.
Qed.

(** A pooled section of level P has a page number, and its title in
    the report is "Content from page" with that number: no title reads
    "Content from page null". *)
Theorem pooledRuns_P_title documents pooled cr :
  pooledRuns documents = Ok pooled → cr ∈ pooled → level (run cr) = P →
  ∃ n, (1 ≤ n)%Z ∧ page (run cr) = Some n ∧
       sectionTitle (run cr) = "Content from page " +:+ pretty n.
Proof.
  intros Hp (? & ? & ? & pdfDoc & rs & r & ? & ? & ? & ? & Hrs & Hr & ->)
    %(elem_of_pooledRuns _ _ _ Hp) HP.
  destruct (contentRunsOf_P_page pdfDoc rs r Hrs Hr HP) as (n & Hn & ? & _).
  exists n. split_and!; [done..|]. by apply sectionTitle_page.
Qed.

(** ** The report *)

Lemma report_spec_inv out :
  report_spec = Ok out →
  ∃ extractor inputData contextText pooled ctxEmbed contentEmbeddings
    documents persona job_to_be_done,
    initializeModel_spec = Ok extractor ∧
    readJson env INPUT_JSON = Ok inputData ∧
    contextTextOf (Input.persona inputData) (Input.job_to_be_done inputData)
      = Ok contextText ∧
    pooledRuns (Input.documents inputData) = Ok pooled ∧
    extractor contextText = Ok ctxEmbed ∧
    mapM_result (λ run, extractor (text (Process.run run))) pooled
      = Ok contentEmbeddings ∧
    Input.documents inputData = Some documents ∧
    Input.persona inputData = Some persona ∧
    Input.job_to_be_done inputData = Some job_to_be_done ∧
    out = buildOutput documents persona job_to_be_done (now env)
            (rankRuns ctxEmbed pooled contentEmbeddings).
Proof.
  unfold report_spec. intros Hr. inv_bind Hr. simplify_eq.
  repeat match goal with H : required _ _ = Ok _ |- _ =>
    apply required_Ok in H end.
  do 9 eexists. split_and!; done.
Qed.

(** The report of a run that succeeds is built from the pool of the
    documents of the request, with as many embeddings as sections. *)
Lemma report_spec_built out :
  report_spec = Ok out →
  ∃ documents persona job_to_be_done pooled ctxEmbed contentEmbeddings,
    pooledRuns (Some documents) = Ok pooled ∧
    length contentEmbeddings = length pooled ∧
    out = buildOutput documents persona job_to_be_done (now env)
            (rankRuns ctxEmbed pooled contentEmbeddings).
Proof.
  intros (ex & inp & ctx & pooled & ce & embs & ds & p & j & _ & _ & _ &
          Hp & _ & Hl%mapM_result_length & Hds & _ & _ & ->)%report_spec_inv.
  rewrite Hds in Hp. by exists ds, p, j, pooled, ce, embs.
Qed.

(** Every document of a pool has a file name. *)
Lemma pooledRuns_named docs pooled :
  pooledRuns (Some docs) = Ok pooled → Forall is_Some (Input.filename <$> docs).
Proof.
  intros (? & runss & [= <-] & Hall & _)%pooledRuns_inv.
  apply Forall_fmap, Forall_forall. intros doc [i Hi]%list_elem_of_lookup.
  destruct (Forall2_lookup_l _ _ _ _ _ Hall Hi) as (runs & _ & Hruns).
  apply documentRuns_inv in Hruns as (f & ? & ? & Hf & _).
  simpl. rewrite Hf. by eexists.
Qed.

(** C27: The report has one section for every pooled section, no more and
    no fewer, and their ranks are 1 to N. *)
Theorem report_spec_sections out :
  report_spec = Ok out →
  ∃ pooled inputData,
    readJson env INPUT_JSON = Ok inputData ∧
    pooledRuns (Input.documents inputData) = Ok pooled ∧
    importance_rank <$> extracted_sections out = seq 1 (length pooled) ∧
    ((λ s, (document s, page_number s)) <$> extracted_sections out) ≡ₚ
    ((λ cr, (fileName cr, page (run cr))) <$> pooled).
Proof.
  intros (ex & inp & ctx & pooled & ce & embs & ds & p & j & _ & Hin & _ &
          Hp & _ & Hembs & _ & _ & _ & ->)%report_spec_inv.
  apply mapM_result_length in Hembs.
  exists pooled, inp. split_and!; [done..| |].
  - simpl. by rewrite extractedSection_ranks, rankRuns_length.
  - rewrite <-(scoreRuns_content ce pooled embs Hembs) at 2.
    rewrite <-rankRuns_perm.
    rewrite <-list_fmap_compose. simpl.
    by rewrite extracted_sections_source.
Qed.
(** C34: With no documents in the request the report is valid and has no
    sections. *)
Theorem report_spec_empty_documents extractor persona job_to_be_done ctxEmbed :
  initializeModel_spec = Ok extractor →
  ensureDir env INPUT_DIR = Ok () →
  readJson env INPUT_JSON =
    Ok (Input.mkInputData (Some persona) (Some job_to_be_done) (Some [])) →
  extractor ("Persona: " +:+ template (Input.role persona) +:+ ". Task: " +:+
             template (Input.task job_to_be_done)) = Ok ctxEmbed →
  report_spec = Ok (mkOutputJson
    (mkMetadata [] (Input.role persona) (Input.task job_to_be_done) (now env))
    [] []).
Proof.
  intros Hm Hd Hr He. unfold report_spec. run_result. simpl. by run_result.
Qed.

(** C35: A request without [persona], [job_to_be_done] or [documents], or
    with a document without [filename], is fatal. *)
Theorem report_spec_malformed extractor inputData :
  initializeModel_spec = Ok extractor →
  ensureDir env INPUT_DIR = Ok () →
  readJson env INPUT_JSON = Ok inputData →
  Input.persona inputData = None ∨ Input.job_to_be_done inputData = None ∨
  Input.documents inputData = None ∨
  (∃ docs, Input.documents inputData = Some docs ∧
           Input.mkDocRef None ∈ docs) →
  ¬ is_Ok report_spec.
Proof.
  intros Hm Hd Hr Hbad [out Hout].
  apply report_spec_inv in Hout
    as (? & inp & ? & pooled & ? & ? & ds & p & j & _ & Hin & _ & Hp & _ & _ &
        Hds & Hp' & Hj & _).
  rewrite Hr in Hin. injection Hin as <-.
  destruct Hbad as [?|[?|[?|(docs & Hdocs & Hdoc)]]]; try congruence.
  apply pooledRuns_inv in Hp as (docs' & runss & ? & Hall & _).
  assert (docs' = docs) as -> by congruence.
  apply list_elem_of_lookup in Hdoc as [k Hk].
  destruct (Forall2_lookup_l _ _ _ _ _ Hall Hk) as (runs & _ & Hruns).
  by apply documentRuns_inv in Hruns as (? & ? & ? & ? & _).
Qed.

(** A request whose [persona] has no [role] is not rejected: the
    context reads "Persona: undefined". *)
Theorem contextTextOf_missing_role job_to_be_done :
  contextTextOf (Some (Input.mkPersona None)) (Some job_to_be_done) =
    Ok ("Persona: undefined. Task: " +:+ template (Input.task job_to_be_done)).
Proof. done. Qed.

(** C36: A request whose [persona] has no [role] is not fatal: the context
    reads "Persona: undefined", the run goes on as with any request, and
    the report has no [persona] in its metadata. *)
Theorem report_spec_missing_role extractor inputData job_to_be_done pooled
    ctxEmbed contentEmbeddings :
  initializeModel_spec = Ok extractor →
  ensureDir env INPUT_DIR = Ok () →
  readJson env INPUT_JSON = Ok inputData →
  Input.persona inputData = Some (Input.mkPersona None) →
  Input.job_to_be_done inputData = Some job_to_be_done →
  pooledRuns (Input.documents inputData) = Ok pooled →
  extractor ("Persona: undefined. Task: " +:+
             template (Input.task job_to_be_done)) = Ok ctxEmbed →
  mapM_result (λ run, extractor (text (Process.run run))) pooled
    = Ok contentEmbeddings →
  ∃ out, report_spec = Ok out ∧ Report.persona (metadata out) = None ∧
    length (extracted_sections out) = length pooled.
Proof.
  intros Hm Hd Hr Hp Hj Hpool Hctx Hembs.
  pose proof Hpool as (docs & runss & Hdocs & _)%pooledRuns_inv.
  assert (contextTextOf (Input.persona inputData)
            (Input.job_to_be_done inputData) =
          Ok ("Persona: undefined. Task: " +:+
              template (Input.task job_to_be_done))) as Hc
    by by rewrite Hp, Hj.
  apply required_Ok with (e := no_documents) in Hdocs.
  apply required_Ok with (e := no_persona) in Hp.
  apply required_Ok with (e := no_job) in Hj.
  eexists. split_and!.
  - unfold report_spec. by run_result.
  - done.
  - simpl. rewrite length_imap, rankRuns_length; [done|].
    by apply mapM_result_length in Hembs.
Qed.

(** ** The console *)

(** One turn of the loop. *)
Lemma processDocument_step acc doc w :
  match Input.filename doc with
  | Some f =>
      let w' := (console_log ("- Extracting from " +:+ f) w).2 in
      match documentRuns doc with
      | Ok runs => processDocument acc doc w = (Ok (acc ++ runs), w')
      | Throw e => processDocument acc doc w = (Throw e, w')
      end
  | None => processDocument acc doc w = (Throw no_filename, w)
  end.
Proof.
  unfold processDocument, documentRuns, mbind, io_bind, lift.
  destruct (Input.filename doc) as [f|]; simpl; [|done].
  by destruct (processFileAndGetRuns _ _).
Qed.

(** The loop announces the documents in request order and stops at
    the first that fails: no later document is announced or opened. *)
Theorem for_of_processDocument_stdout acc docs w :
  stdout (for_of processDocument acc docs w).2 = stdout w ++ loop_log docs.
Proof.
  revert acc w. induction docs as [|doc docs IH]; intros acc w; simpl.
  { by rewrite app_nil_r. }
  pose proof (processDocument_step acc doc w) as Hstep.
  destruct (Input.filename doc) as [f|]; simpl in Hstep.
  - destruct (documentRuns doc) as [runs|e].
    + rewrite (io_bind_Ok _ _ _ _ _ Hstep), IH, decide_True by by eexists.
      simpl. by rewrite <-app_assoc.
    + rewrite (io_bind_Throw _ _ _ _ _ Hstep), decide_False; [done|].
      by intros [? ?].
  - by rewrite (io_bind_Throw _ _ _ _ _ Hstep), app_nil_r.
Qed.
End main.

(** ** Running again

    The only answer of the environment that differs between two runs on
    the same input is the time. *)

Section rerun.
Context `{JsArith F, JsKey F}.

(** The environment at another time. *)
Definition at_time (t : string) (env : Env (F:=F)) : Env := {|
  importTransformers := importTransformers env;
  pipeline := pipeline env;
  ensureDir := ensureDir env;
  readJson := readJson env;
  getDocument := getDocument env;
  now := t;
  writeJson := writeJson env;
|}.

(** The report with another [processing_timestamp]. *)
Definition stamped (t : string) (out : OutputJson) : OutputJson := {|
  metadata := {|
    input_documents := input_documents (metadata out);
    persona := persona (metadata out);
    job_to_be_done := job_to_be_done (metadata out);
    processing_timestamp := t;
  |};
  extracted_sections := extracted_sections out;
  subsection_analysis := subsection_analysis out;
|}.

Lemma report_spec_rerun (env : Env (F:=F)) t :
  report_spec (at_time t env) = (out ← report_spec env; Ok (stamped t out)).
Proof.
  unfold report_spec.
  change (initializeModel_spec (at_time t env)) with (initializeModel_spec env).
  change (pooledRuns (at_time t env)) with (pooledRuns env).
  cbn [at_time ensureDir readJson now]. rewrite !result_bind_assoc.
  repeat (apply result_bind_ext; intros ?; rewrite ?result_bind_assoc).
  done.
Qed.

(** The time is read once, for [processing_timestamp]. With the
    embeddings settling in any order, running again is
    [EndToEnd.rerun_fulfilled]. *)
Lemma report_rerun (env : Env (F:=F)) t :
  report (at_time t env) ≡ (out ← report env; mret (stamped t out)).
Proof.
  unfold report.
  change (initializeModel (at_time t env)) with (initializeModel env).
  change (extractAll (at_time t env)) with (extractAll env).
  cbn [at_time ensureDir readJson now]. rewrite !io_bind_assoc.
  repeat (apply io_bind_proper; [intros ?|done]; rewrite ?io_bind_assoc).
  by rewrite io_ret_bind.
Qed.
End rerun.

(** ** A sample run

    A request for three documents of [Process]: one with an outline, one
    without, one blank. The sample extractor embeds a text as the vector
    of 1 and its length, so that texts about as long as the context score
    highest. *)

Section examples.
Local Open Scope float_scope.

Definition sample_extractor : Extractor (F:=float) := λ s,
  Ok [1; PrimFloat.of_uint63 (Uint63.of_Z (Z.of_nat (String.length s)))].

Definition sample_documents (names : list string) : list Input.DocRef :=
  (λ f, Input.mkDocRef (Some f)) <$> names.

Definition sample_request (names : list string) : Input.InputData :=
  Input.mkInputData (Some (Input.mkPersona (Some "Analyst")))
    (Some (Input.mkJob (Some "Review"))) (Some (sample_documents names)).

Definition sample_env (request : Input.InputData) : Env := {|
  importTransformers := Ok ();
  pipeline := Ok sample_extractor;
  ensureDir _ := Ok ();
  readJson file :=
    if decide (file = INPUT_JSON) then Ok request else Throw "ENOENT";
  getDocument := sample_getDocument;
  now := "2025-01-01T00:00:00.000Z";
  writeJson _ _ := Ok ();
|}.

Definition sample_names : list string := ["guide.pdf"; "notes.pdf"; "blank.pdf"].
Definition sample_good_env : Env := sample_env (sample_request sample_names).
Definition sample_bad_env : Env :=
  sample_env (sample_request ["notes.pdf"; "absent.pdf"; "guide.pdf"]).
Definition sample_empty_env : Env := sample_env (sample_request []).

Definition sample_pooled : list ContentRun :=
  match pooledRuns sample_good_env (Some (sample_documents sample_names)) with
  | Ok l => l
  | Throw _ => []
  end.

Definition sample_report : OutputJson :=
  match report_spec sample_good_env with
  | Ok out => out
  | Throw _ => mkOutputJson (mkMetadata [] None None "") [] []
  end.

(** The run on the three documents: twelve sections, ranked. *)
Example sample_run :
  program sample_good_env initial_world = {|
    stdout :=
      ["Initializing AI Model (will download on first run)...";
       "Model Initialized."; "Processing PDF documents...";
       "- Extracting from guide.pdf"; "- Extracting from notes.pdf";
       "- Extracting from blank.pdf"; "Extracted 12 total text chunks.";
       "Generating embeddings..."; "Calculating relevance scores...";
       "Generating final output...";
       "✅ Success! Output written to output/challenge1b_output.json"];
    stderr := [];
    written := [("output/challenge1b_output.json", sample_report)];
    exitCode := None
  |}.
Proof. vm_compute. reflexivity. Qed.

Example sample_run_sections :
  (λ s, (importance_rank s, document s, section_title s, page_number s)) <$>
    extracted_sections sample_report =
  [(1, "notes.pdf", "body one body two", Some 1%Z);
   (2, "guide.pdf", "1 Introduction", Some 1%Z);
   (3, "guide.pdf", "1.1 Background", Some 3%Z);
   (4, "guide.pdf", "1.1.1 Scope", None);
   (5, "notes.pdf", "Content from page 2", Some 2%Z);
   (6, "guide.pdf", "Appendix", None);
   (7, "notes.pdf", "mid tail", Some 2%Z);
   (8, "guide.pdf", "Details", None);
   (9, "notes.pdf", "Title", Some 1%Z);
   (10, "notes.pdf", "more", Some 1%Z);
   (11, "notes.pdf", "Sec2", Some 2%Z);
   (12, "notes.pdf", "Sec", Some 1%Z)]%nat.
Proof. vm_compute. reflexivity. Qed.

(** The run with a document that is missing: the third document is never
    announced, nothing is written and the status is 1. *)
Example sample_run_fatal :
  program sample_bad_env initial_world = {|
    stdout :=
      ["Initializing AI Model (will download on first run)...";
       "Model Initialized."; "Processing PDF documents...";
       "- Extracting from notes.pdf"; "- Extracting from absent.pdf"];
    stderr := ["Fatal error: Missing PDF"];
    written := [];
    exitCode := Some 1%Z
  |}.
Proof. vm_compute. reflexivity. Qed.

Lemma pooledRuns_Throw_witness :
  pooledRuns sample_bad_env
    (Some (sample_documents ["notes.pdf"; "absent.pdf"; "guide.pdf"])) =
    Throw "Missing PDF".
Proof.
  apply (pooledRuns_Throw sample_bad_env (sample_documents ["notes.pdf"])
           (Input.mkDocRef (Some "absent.pdf"))
           (sample_documents ["guide.pdf"])).
  - by_compute.
  - reflexivity.
Defined.

Definition sample_footer : ContentRun :=
  mkContentRun (mkRun P "foot foot2" (Some 2%Z)) "notes.pdf".

Lemma pooledRuns_document_witness :
  ∃ docs doc filename,
    Some (sample_documents sample_names) = Some docs ∧ doc ∈ docs ∧
    Input.filename doc = Some filename ∧
    (plain_name filename → fileName sample_footer = filename).
Proof.
  apply (pooledRuns_document sample_good_env _ sample_pooled).
  - vm_compute. reflexivity.
  - by_compute.
Defined.

Lemma pooledRuns_P_title_witness :
  ∃ n, (1 ≤ n)%Z ∧ page (run sample_footer) = Some n ∧
       sectionTitle (run sample_footer) = "Content from page " +:+ pretty n.
Proof.
  apply (pooledRuns_P_title sample_good_env
           (Some (sample_documents sample_names)) sample_pooled).
  - vm_compute. reflexivity.
  - by_compute.
  - reflexivity.
Defined.

Lemma report_spec_sections_witness :
  ∃ pooled inputData,
    readJson sample_good_env INPUT_JSON = Ok inputData ∧
    pooledRuns sample_good_env (Input.documents inputData) = Ok pooled ∧
    importance_rank <$> extracted_sections sample_report =
      seq 1 (length pooled) ∧
    ((λ s, (document s, page_number s)) <$> extracted_sections sample_report)
    ≡ₚ ((λ cr, (fileName cr, page (run cr))) <$> pooled).
Proof.
  apply (report_spec_sections sample_good_env sample_report).
  vm_compute. reflexivity.
Defined.

Lemma report_spec_empty_documents_witness :
  report_spec sample_empty_env = Ok (mkOutputJson
    (mkMetadata [] (Some "Analyst") (Some "Review") "2025-01-01T00:00:00.000Z")
    [] []).
Proof.
  apply (report_spec_empty_documents sample_empty_env sample_extractor
           (Input.mkPersona (Some "Analyst")) (Input.mkJob (Some "Review"))
           [1; 30]); reflexivity.
Defined.

Definition sample_anonymous_request : Input.InputData :=
  Input.mkInputData (Some (Input.mkPersona None))
    (Some (Input.mkJob (Some "Summarise")))
    (Some (sample_documents ["notes.pdf"])).

Definition sample_anonymous_env : Env := sample_env sample_anonymous_request.

Definition sample_anonymous_pooled : list ContentRun :=
  match pooledRuns sample_anonymous_env
          (Input.documents sample_anonymous_request) with
  | Ok l => l
  | Throw _ => []
  end.

Definition sample_anonymous_embeddings : list (list float) :=
  match mapM_result (λ run, sample_extractor (text (Process.run run)))
          sample_anonymous_pooled with
  | Ok l => l
  | Throw _ => []
  end.

Lemma report_spec_missing_role_witness :
  ∃ out, report_spec sample_anonymous_env = Ok out ∧
    Report.persona (metadata out) = None ∧
    length (extracted_sections out) = length sample_anonymous_pooled.
Proof.
  apply (report_spec_missing_role sample_anonymous_env sample_extractor
           sample_anonymous_request (Input.mkJob (Some "Summarise"))
           sample_anonymous_pooled
           (match sample_extractor "Persona: undefined. Task: Summarise" with
            | Ok v => v
            | Throw _ => []
            end)
           sample_anonymous_embeddings);
    vm_compute; reflexivity.
Defined.

Lemma report_spec_malformed_witness :
  ¬ is_Ok (report_spec (sample_env
      (Input.mkInputData None (Some (Input.mkJob (Some "Review"))) (Some [])))).
Proof.
  eapply (report_spec_malformed _ sample_extractor); [reflexivity..|].
  left. reflexivity.
Defined.
End examples.
