(* ===== verification/Console.v ===== *)
(** * The console of a run

    What [main] of [src/extract.js] prints with [console.log]. A run
    that succeeds prints the two lines of [initializeModel], a line for
    each document of the request in request order, the number of
    sections found and a line for each later step, the last of them the
    success line with the path of the report: the console is a function
    of the report that is written ([success_log], [main_prints]), and
    the lines a run prints do not depend on what was printed before. A
    run that fails prints no success line: the line is on the console
    exactly when the report was written ([success_line_honest]). *)

From S2P Require Import Prelude JsNumber JsString PdfDoc Process Ranker Report.
From S2P Require Import Effects Main.

Section console.
Context `{JsArith F, JsKey F}.
Context (env : Env (F:=F)).
Implicit Types (docs : list Input.DocRef) (out : OutputJson).

(** The line that announces a document. *)
Definition announce (filename : string) : string :=
  "- Extracting from " +:+ filename.

(** The line that reports success. *)
Definition success_line : string :=
  "✅ Success! Output written to " +:+ OUTPUT_JSON.

(** The lines of the steps after the loop, for [n] sections found. *)
Definition closing_log (n : nat) : list string :=
  ["Extracted " +:+ pretty n +:+ " total text chunks.";
   "Generating embeddings...";
   "Calculating relevance scores...";
   "Generating final output...";
   success_line].

(** The console of the run that writes the report [out]. *)
Definition success_log out : list string :=
  ["Initializing AI Model (will download on first run)...";
   "Model Initialized.";
   "Processing PDF documents..."] ++
  (announce <$> omap id (input_documents (metadata out))) ++
  closing_log (length (extracted_sections out)).

(** ** The steps *)

Lemma prints_initializeModel extractor :
  initializeModel_spec env = Ok extractor →
  prints (initializeModel env) (Ok extractor)
    ["Initializing AI Model (will download on first run)...";
     "Model Initialized."].
Proof.
  unfold initializeModel_spec, initializeModel. intros Hi. inv_bind Hi.
  simplify_eq. destruct a. prints_steps.
Qed.

(** The loop announces every document when none fails. *)
Lemma prints_for_of acc docs runss :
  Forall2 (λ doc runs, documentRuns env doc = Ok runs) docs runss →
  prints (for_of (processDocument env) acc docs) (Ok (acc ++ concat runss))
    (announce <$> omap Input.filename docs).
Proof.
  intros Hall. revert acc.
  induction Hall as [|doc runs docs runss Hd _ IH]; intros acc.
  { simpl. rewrite app_nil_r. apply prints_ret. }
  rewrite for_of_cons. simpl concat. rewrite app_assoc.
  apply result_bind_Ok_inv in Hd as (f & Hf & Hruns).
  apply required_Ok in Hf as Hdoc. simpl. rewrite Hdoc. simpl.
  apply (prints_bind_Ok _ _ (acc ++ runs) [announce f]); [|apply IH].
  unfold processDocument. prints_steps.
Qed.

Lemma prints_extractAll docs pooled :
  pooledRuns env (Some docs) = Ok pooled →
  prints (extractAll env (Some docs)) (Ok pooled)
    ("Processing PDF documents..." ::
     (announce <$> omap Input.filename docs) ++
     ["Extracted " +:+ pretty (length pooled) +:+ " total text chunks."]).
Proof.
  intros (docs' & runss & [= <-] & Hall & ->)%pooledRuns_inv.
  unfold extractAll. apply prints_log_bind.
  eapply prints_lift_bind; [done|].
  eapply prints_bind_Ok; [by apply (prints_for_of [])|]. prints_steps.
Qed.

(** ** The run *)

Lemma omap_id_fmap {A B} (f : A → option B) (l : list A) :
  omap id (f <$> l) = omap f l.
Proof.
  induction l as [|x l IH]; csimpl; [done|]. by destruct (f x); rewrite IH.
Qed.

Lemma prints_report out :
  report_spec env = Ok out →
  prints (report env) (Ok out)
    (["Initializing AI Model (will download on first run)...";
      "Model Initialized."; "Processing PDF documents..."] ++
     (announce <$> omap id (input_documents (metadata out))) ++
     ["Extracted " +:+ pretty (length (extracted_sections out)) +:+
        " total text chunks.";
      "Generating embeddings..."; "Calculating relevance scores...";
      "Generating final output..."]).
Proof.
  intros Hout. pose proof Hout as Hinv.
  apply report_spec_inv in Hinv as
    (ex & inp & ctx & pooled & ce & embs & ds & p & j & Hi & Hin & Hctx &
     Hp & Hce & Hembs & Hds & Hper & Hjob & ->).
  apply mapM_result_length in Hembs as Hlen.
  assert (ensureDir env INPUT_DIR = Ok ()) as Hdir.
  { unfold report_spec in Hout. rewrite Hi in Hout. simpl in Hout.
    by destruct (ensureDir env INPUT_DIR) as [[]|]. }
  rewrite Hds in Hp.
  cbn [buildOutput buildMetadata metadata input_documents extracted_sections].
  rewrite omap_id_fmap, length_imap, rankRuns_length by done.
  unfold report.
  eapply (prints_bind_Ok _ _ ex [_; _]); [by apply prints_initializeModel|].
  eapply prints_lift_bind; [done|]. eapply prints_lift_bind; [done|].
  eapply prints_lift_bind; [done|]. rewrite Hds.
  eapply prints_eq.
  - eapply prints_bind_Ok; [by apply prints_extractAll|].
    apply prints_log_bind. eapply prints_lift_bind; [done|].
    eapply prints_lift_bind; [done|]. apply prints_log_bind, prints_log_bind.
    rewrite <-Hds.
    repeat (eapply prints_lift_bind; [by rewrite ?Hds, ?Hper, ?Hjob|]).
    apply prints_ret.
  - simpl. by rewrite <-app_assoc.
Qed.

Lemma prints_main out :
  main_spec env = Ok out → prints (main env) (Ok ()) (success_log out).
Proof.
  intros Hmain. unfold main_spec in Hmain.
  apply result_bind_Ok_inv in Hmain as (out' & Hout & Hmain).
  destruct (ensureDir env OUTPUT_DIR) as [[]|] eqn:Hdir; [|done].
  destruct (writeJson env OUTPUT_JSON out') as [[]|] eqn:Hw; [|done].
  simplify_eq/=. unfold main, success_log, closing_log. eapply prints_eq.
  - eapply prints_bind_Ok; [by apply prints_report|].
    eapply prints_lift_bind; [done|].
    eapply (prints_bind_Ok _ _ () []); [|apply prints_console_log].
    intros w. unfold write_file. rewrite Hw. simpl. by rewrite app_nil_r.
  - rewrite app_nil_l, <-!app_assoc. done.
Qed.

(** Every document of a report has a file name. *)
Lemma report_documents_named out :
  report_spec env = Ok out → Forall is_Some (input_documents (metadata out)).
Proof.
  intros (ds & p & j & pooled & ce & embs & Hp & _ & ->)%report_spec_built.
  by eapply pooledRuns_named.
Qed.

(** C11: A run that succeeds prints the two lines of [initializeModel],
    "Processing PDF documents...", a line for each document of the
    request in request order, the number of sections found, a line for
    each later step and the success line, and nothing else; and every
    document of the report has a file name. *)
Theorem main_prints out :
  main_spec env = Ok out →
  Forall is_Some (input_documents (metadata out)) ∧
  prints (main env) (Ok ()) (success_log out).
Proof.
  intros Hmain. split; [|by apply prints_main].
  by apply report_documents_named, main_spec_report.
Qed.

(** ** Success is reported only after the report is written *)

(** Before the write no line is the success line. *)
Lemma logs_report : logs (report env) (λ line, line ≠ success_line).
Proof.
  unfold report, initializeModel, extractAll, processDocument.
  logs_steps; done.
Qed.

(** A run that fails ends in the world the pipeline left. *)
Lemma main_fails w e :
  main_spec env = Throw e → (main env w).2 = (report env w).2.
Proof.
  intros He. pose proof (report_returns env w) as Hr.
  unfold main, main_spec in *. unfold mbind at 1, io_bind.
  destruct (report env w) as [[out|e'] w1]; simpl in *; [|done].
  rewrite <-Hr in He. simpl in He. unfold mbind, io_bind, lift, write_file.
  destruct (ensureDir env OUTPUT_DIR) as [[]|]; simpl in *; [|done].
  by destruct (writeJson env OUTPUT_JSON out) as [[]|].
Qed.

(** C12: The success line is on the console after a run exactly when the run
    has written the report. *)
Theorem success_line_honest w :
  success_line ∉ stdout w →
  success_line ∈ stdout (program env w) ↔ ∃ out, main_spec env = Ok out.
Proof.
  intros Hw. pose proof (main_run env w) as Hrun. unfold program. split.
  - destruct (main_spec env) as [out|e] eqn:Hm; [by eexists|].
    destruct Hrun as (w' & Hmain & _). rewrite Hmain. simpl.
    assert (w' = (report env w).2) as ->
      by by rewrite <-(main_fails w e), Hmain.
    destruct (logs_report w) as (l & -> & Hl).
    rewrite Forall_forall in Hl. intros [?|?%Hl]%elem_of_app; done.
  - intros [out Hout]. destruct (prints_main out Hout w) as [Hr Hl].
    destruct (main env w) as [[[]|e] w']; [|done]. simpl in *. rewrite Hl.
    apply elem_of_app. right. unfold success_log, closing_log.
    rewrite !elem_of_app, !elem_of_cons. auto 10.
Qed.
End console.

(** ** Examples *)

Section examples.
Local Open Scope float_scope.

Example success_log_sample :
  success_log sample_report =
    ["Initializing AI Model (will download on first run)...";
     "Model Initialized."; "Processing PDF documents...";
     "- Extracting from guide.pdf"; "- Extracting from notes.pdf";
     "- Extracting from blank.pdf"; "Extracted 12 total text chunks.";
     "Generating embeddings..."; "Calculating relevance scores...";
     "Generating final output...";
     "✅ Success! Output written to output/challenge1b_output.json"].
Proof. vm_compute. reflexivity. Qed.

Lemma main_prints_witness :
  Forall is_Some (input_documents (metadata sample_report)) ∧
  prints (main sample_good_env) (Ok ()) (success_log sample_report).
Proof. apply main_prints. vm_compute. reflexivity. Defined.

Lemma success_line_honest_witness :
  success_line ∈ stdout (program sample_bad_env initial_world) ↔
  ∃ out, main_spec sample_bad_env = Ok out.
Proof. apply (success_line_honest sample_bad_env). apply not_elem_of_nil. Defined.
End examples.
