(* ===== verification/Schema.v ===== *)
(** * The shape of the report

    What every report that [main] of [src/extract.js] writes looks
    like, whatever the request, the documents and the model are: the
    schema of [challenge1b_output.json] as a decidable predicate
    ([valid_report]) and the theorem that the report of a run that
    succeeds satisfies it ([report_spec_valid]). *)

From S2P Require Import Prelude JsNumber JsString JsPath PdfDoc Process Ranker.
From S2P Require Import Report Effects Main Console.

Section schema.
Context `{JsArith F, JsKey F}.
Context (env : Env (F:=F)).
Implicit Types (out : OutputJson) (s : ExtractedSection) (m : Metadata).
Implicit Types (run : RankedRun F).

(** A title has at most 80 characters, or names the page of the section,
    and then the page is a number from 1. *)
Definition title_ok s : Prop :=
  String.length (section_title s) ≤ 80 ∨
  match page_number s with
  | Some n => (1 ≤ n)%Z ∧ section_title s = "Content from page " +:+ pretty n
  | None => False
  end.

(** A section comes from a document the metadata lists: it carries
    [path.basename(path.join(PDF_DIR, filename))] for a [filename] of
    [input_documents]. *)
Definition document_ok m s : Prop :=
  document s ∈
    (λ filename, basename (path_join [PDF_DIR; filename])) <$>
      omap id (input_documents m).

(** The report: every document has a file name, the ranks count the
    sections from 1 in the order of the list, and [subsection_analysis]
    is empty. *)
Definition valid_report out : Prop :=
  Forall is_Some (input_documents (metadata out)) ∧
  importance_rank <$> extracted_sections out =
    seq 1 (length (extracted_sections out)) ∧
  Forall title_ok (extracted_sections out) ∧
  Forall (document_ok (metadata out)) (extracted_sections out) ∧
  subsection_analysis out = [].

#[global] Instance title_ok_dec s : Decision (title_ok s).
Proof. unfold title_ok. destruct (page_number s); apply _. Defined.

#[global] Instance document_ok_dec m s : Decision (document_ok m s).
Proof. unfold document_ok. apply _. Defined.

#[global] Instance valid_report_dec out : Decision (valid_report out).
Proof. unfold valid_report. apply _. Defined.

(** ** The sections of a pooled run *)

Lemma title_ok_section documents pooled i run :
  pooledRuns env documents = Ok pooled → content run ∈ pooled →
  title_ok (extractedSection i run).
Proof.
  intros Hp Hin. unfold title_ok. simpl.
  destruct (decide (level (Process.run (content run)) = P)) as [HP|HP].
  - right. destruct (pooledRuns_P_title env documents pooled _ Hp Hin HP)
      as (n & ? & -> & ?). done.
  - left. unfold sectionTitle. rewrite decide_False, slice_to_length by done.
    lia.
Qed.

Lemma document_ok_section docs pooled m i run :
  pooledRuns env (Some docs) = Ok pooled → content run ∈ pooled →
  input_documents m = Input.filename <$> docs →
  document_ok m (extractedSection i run).
Proof.
  intros Hp Hin Hm. unfold document_ok. simpl. rewrite Hm.
  destruct (elem_of_pooledRuns env _ _ _ Hp Hin)
    as (? & doc & f & ? & ? & r & [= <-] & Hdoc & Hf & _ & _ & _ & ->).
  apply list_elem_of_fmap. exists f. split; [done|].
  apply list_elem_of_omap. exists (Some f). split; [|done].
  apply list_elem_of_fmap. by exists doc.
Qed.

Lemma Forall_imap_elem {A B} (f : nat → A → B) (Q : B → Prop) (l : list A) :
  (∀ i x, x ∈ l → Q (f i x)) → Forall Q (imap f l).
Proof.
  intros Hf. apply Forall_forall. intros y (i & x & -> & Hx)%elem_of_lookup_imap.
  apply Hf. by eapply list_elem_of_lookup_2.
Qed.

Lemma rankRuns_content_elem ctxEmbed pooled embs run :
  length embs = length pooled →
  run ∈ rankRuns ctxEmbed pooled embs → content run ∈ pooled.
Proof.
  intros Hl Hin. rewrite <-(rankRuns_content ctxEmbed pooled embs Hl).
  by apply list_elem_of_fmap_2.
Qed.

(** The reports [buildOutput] builds from a pool are well formed. *)
Lemma buildOutput_valid docs persona job_to_be_done now pooled ctxEmbed embs :
  pooledRuns env (Some docs) = Ok pooled → length embs = length pooled →
  valid_report
    (buildOutput docs persona job_to_be_done now (rankRuns ctxEmbed pooled embs)).
Proof.
  intros Hp Hl. split_and!; simpl; [by eapply pooledRuns_named| |..|done].
  - by rewrite extractedSection_ranks, length_imap.
  - apply Forall_imap_elem. intros i run Hin%rankRuns_content_elem; [|done].
    by eapply title_ok_section.
  - apply Forall_imap_elem. intros i run Hin%rankRuns_content_elem; [|done].
    by eapply document_ok_section.
Qed.

(** C9: Every report of a run that succeeds is well formed: each
    document of the metadata has a file name; the ranks of the sections
    are 1, 2, ... in the order of the list; each title has at most 80
    characters or is "Content from page n" for the page n, from 1, the
    section gives; each section names a document of the metadata; and
    the subsection analysis is empty. *)
Theorem report_spec_valid out : report_spec env = Ok out → valid_report out.
Proof.
  intros (ds & p & j & pooled & ce & embs & Hp & Hl & ->)%report_spec_built.
  by apply buildOutput_valid.
Qed.

End schema.

(** ** Examples *)

(** The schema is decided by computation: the report of the sample is
    well formed; it is not when its sections are listed in another
    order, when a section names a document the request does not have, or
    when a title of 90 characters is not that of a page. *)
Example valid_report_samples :
  let sections := extracted_sections sample_report in
  let foreign := mkExtractedSection "other.pdf" "Scope" 1 (Some 1%Z) in
  let mistitled :=
    mkExtractedSection "guide.pdf"
      (String.concat "" (replicate 9 "Contents, ")) 1 (Some 2%Z) in
  valid_report sample_report ∧
  ¬ valid_report (mkOutputJson (metadata sample_report) (reverse sections) []) ∧
  ¬ valid_report (mkOutputJson (metadata sample_report) [foreign] []) ∧
  ¬ valid_report (mkOutputJson (metadata sample_report) [mistitled] []) ∧
  valid_report (mkOutputJson (metadata sample_report) [] []).
Proof. cbv zeta. by_compute. Qed.

Lemma report_spec_valid_witness : valid_report sample_report.
Proof. apply (report_spec_valid sample_good_env). vm_compute. reflexivity. Defined.
