(* ===== verification/Access.v ===== *)
(** * The documents a run reads

    [main] of [src/extract.js] opens [path.join(PDF_DIR, doc.filename)]
    for every document of the request and nothing else of pdf.js. When no
    file name of the request has a [".."] segment these paths are under
    [PDF_DIR] ([pdf_path_confined]), so the run is the same whatever lies
    elsewhere ([program_reads_pdf_dir]); a file name with [".."] names
    a document outside the directory ([escape_sample]). The [document]
    of a section is the last segment of the file name
    ([document_name]). *)

From Stdlib Require Import Floats.
From S2P Require Import Prelude JsNumber JsString JsPath PdfDoc FontMetrics.
From S2P Require Import Process Report.
From S2P Require Import Effects Main.

Local Open Scope string_scope.

(** A path under the directory of the documents: relative, with the
    segments of [PDF_DIR] first. *)
Definition under_pdf_dir (p : string) : Prop :=
  is_absolute p = false ∧ segments PDF_DIR `prefix_of` segments p.

#[export] Instance under_pdf_dir_dec p : Decision (under_pdf_dir p).
Proof. unfold under_pdf_dir. apply _. Defined.

(** The file name of a document, when it has one, has no [".."]. *)
Definition confined_doc (doc : Input.DocRef) : Prop :=
  match Input.filename doc with Some f => no_parent f | None => True end.

#[export] Instance confined_doc_dec doc : Decision (confined_doc doc).
Proof. unfold confined_doc. destruct (Input.filename doc); apply _. Defined.

(** No file name of the request has a [".."]. *)
Definition confined_request (r : Input.InputData) : Prop :=
  Forall confined_doc (default [] (Input.documents r)).

#[export] Instance confined_request_dec r : Decision (confined_request r).
Proof. unfold confined_request. apply _. Defined.

(** The path of a document whose name has no [".."] is under
    [PDF_DIR]. *)
Lemma pdf_path_confined filename :
  no_parent filename → under_pdf_dir (path_join [PDF_DIR; filename]).
Proof.
  intros Hf. split.
  - unfold path_join. change PDF_DIR with "input/PDF".
    rewrite filter_cons_True by done.
    destruct (decide (filename = "")) as [->|Hne]; [done|].
    rewrite filter_cons_True, filter_nil by done.
    rewrite decide_False by done. by rewrite is_absolute_normalize.
  - rewrite segments_path_join by (repeat constructor; [by_compute|done]).
    cbn [fmap list_fmap concat]. apply prefix_app_r. done.
Qed.

(** The [fileName] of the sections of a document whose name has no
    [".."]: the last segment of the name that names something. *)
Lemma document_name filename :
  no_parent filename → segments filename ≠ [] →
  basename (path_join [PDF_DIR; filename]) =
    default "" (last (segments filename)).
Proof.
  intros Hf Hne.
  rewrite basename_path_join_last; cbn [fmap list_fmap concat].
  - rewrite app_nil_r.
    destruct (segments filename) as [|seg segs _] using rev_ind; [done|].
    by rewrite app_assoc, !last_snoc.
  - repeat constructor; [by_compute|done].
  - by intros [_ [? _]%app_eq_nil]%app_eq_nil.
Qed.

Section access.
Context `{JsArith F, JsKey F}.
Implicit Types (env : Env (F:=F)) (g : string → result (PdfDoc F)).

(** The environment with other documents. *)
Definition with_documents g env : Env := {|
  importTransformers := importTransformers env;
  pipeline := pipeline env;
  ensureDir := ensureDir env;
  readJson := readJson env;
  getDocument := g;
  now := now env;
  writeJson := writeJson env;
|}.

Section agree.
Context (env : Env (F:=F)) (g : string → result (PdfDoc F)).
Context (Hg : ∀ p, under_pdf_dir p → g p = getDocument env p).

Lemma processDocument_with acc doc :
  confined_doc doc →
  processDocument (with_documents g env) acc doc ≡ processDocument env acc doc.
Proof.
  unfold confined_doc, processDocument. intros Hdoc.
  apply io_lift_bind_ext. intros f Hf.
  destruct (Input.filename doc) as [f'|]; simplify_eq/=.
  apply io_bind_proper; [intros _|done].
  unfold processFileAndGetRuns. cbn [with_documents getDocument].
  by rewrite Hg by by apply pdf_path_confined.
Qed.

Lemma extractAll_with documents :
  Forall confined_doc (default [] documents) →
  extractAll (with_documents g env) documents ≡ extractAll env documents.
Proof.
  intros Hdocs. unfold extractAll.
  apply io_bind_proper; [intros _|done].
  apply io_lift_bind_ext. intros docs Hd.
  destruct documents as [docs'|]; simplify_eq/=.
  apply io_bind_proper; [done|].
  apply for_of_ext. eapply Forall_impl; [done|].
  intros doc Hdoc acc. by apply processDocument_with.
Qed.

Lemma report_with :
  (∀ r, readJson env INPUT_JSON = Ok r → confined_request r) →
  report (with_documents g env) ≡ report env.
Proof.
  intros Hr. unfold report.
  change (initializeModel (with_documents g env)) with (initializeModel env).
  cbn [with_documents ensureDir readJson now].
  do 2 (apply io_bind_proper; [intros ?|done]).
  apply io_lift_bind_ext. intros r Hread.
  apply io_bind_proper; [intros ?|done].
  apply io_bind_proper; [done|]. by apply extractAll_with, Hr.
Qed.

Lemma main_with :
  (∀ r, readJson env INPUT_JSON = Ok r → confined_request r) →
  main (with_documents g env) ≡ main env.
Proof.
  intros Hr. unfold main. apply io_bind_proper; [done|by apply report_with].
Qed.

(** C13: A run reads no document outside [PDF_DIR] when no file name of
    the request has a [".."] segment: whatever the documents elsewhere
    are, the run prints the same lines, writes the same report and exits
    with the same status. *)
Theorem program_reads_pdf_dir w :
  (∀ r, readJson env INPUT_JSON = Ok r → confined_request r) →
  program (with_documents g env) w = program env w.
Proof. intros Hr. unfold program. by rewrite (main_with Hr w). Qed.
End agree.
End access.

(** ** Examples *)

Section examples.

(** Other documents outside [PDF_DIR]: every path that is not under the
    directory opens a document. *)
Definition sample_elsewhere (p : string) : result (PdfDoc float) :=
  if decide (under_pdf_dir p) then sample_getDocument p else Ok sample_doc.

Example document_name_samples :
  basename (path_join [PDF_DIR; "guide.pdf"]) = "guide.pdf" ∧
  basename (path_join [PDF_DIR; "sub/guide.pdf"]) = "guide.pdf" ∧
  basename (path_join [PDF_DIR; "."]) = "PDF".
Proof. by vm_compute. Qed.

Example under_pdf_dir_samples :
  under_pdf_dir "input/PDF/guide.pdf" ∧ under_pdf_dir "input/PDF/sub/a.pdf" ∧
  under_pdf_dir (path_join [PDF_DIR; "/etc/guide.pdf"]) ∧
  ¬ under_pdf_dir "/input/PDF/guide.pdf" ∧
  ¬ under_pdf_dir (path_join [PDF_DIR; "../guide.pdf"]).
Proof. by_compute. Qed.

(** A file name with [".."] names a document outside the directory, and
    the run depends on it: with no document there the run is fatal, with
    one it succeeds. *)
Definition sample_escape_env : Env :=
  sample_env (sample_request ["../guide.pdf"]).

Example escape_sample :
  ¬ confined_request (sample_request ["../guide.pdf"]) ∧
  path_join [PDF_DIR; "../guide.pdf"] = "input/guide.pdf" ∧
  exitCode (program sample_escape_env initial_world) = Some 1%Z ∧
  exitCode (program (with_documents sample_elsewhere sample_escape_env)
              initial_world) = None.
Proof. split; [by_compute|]. by vm_compute. Qed.

Lemma program_reads_pdf_dir_witness :
  program (with_documents sample_elsewhere sample_good_env) initial_world =
  program sample_good_env initial_world.
Proof.
  apply (program_reads_pdf_dir sample_good_env sample_elsewhere).
  - intros p Hp. unfold sample_elsewhere. by rewrite decide_True.
  - intros r Hr. vm_compute in Hr. injection Hr as <-. by_compute.
Defined.
End examples.
