(* ===== verification/Embedding.v ===== *)
(** * The contract of the embedding provider

    [main] of [src/extract.js] asks the model for vectors with
    [{ pooling: "mean", normalize: true }]: vectors of one dimension and
    of norm 1. [UnitExtractor] is that promise, over the reals; against
    it the score of a section is the dot product of its vector with
    that of the context, it lies between -1 and 1, and the report lists
    the sections in descending order of it ([report_spec_unit]). The
    program does not check the promise: [Cosine] and [Ranker] say what
    it computes without it. *)

From Stdlib Require Import Reals Lra.
From stdpp Require Import sorting.
From S2P Require Import Prelude JsNumber JsArray Cosine CosineReal PdfDoc.
From S2P Require Import Process Ranker Report Main.

Local Open Scope R_scope.

(** ** The interface *)

(** Every vector the model returns has dimension [d] and norm 1. *)
Class UnitExtractor (d : nat) (extractor : Extractor (F:=R)) : Prop := {
  extractor_dim text v : extractor text = Ok v → length v = d;
  extractor_unit text v : extractor text = Ok v → dot v v = 1;
}.

(** ** Scores of unit vectors *)

Section unit.
Implicit Types (a b ctxEmbed : list R) (contentEmbeddings : list (list R)).
Implicit Types (allContentRuns : list ContentRun) (run : RankedRun R).

(** The dot product of two unit vectors lies between -1 and 1. *)
Lemma dot_unit_range a b : dot a a = 1 → dot b b = 1 → -1 <= dot a b <= 1.
Proof.
  intros Ha Hb. pose proof (dot_le_norms a b) as Hab.
  rewrite Ha, Hb, sqrt_1, Rmult_1_r in Hab.
  unfold Rabs in Hab. destruct (Rcase_abs (dot a b)); lra.
Qed.

(** A score: the dot product of the context with a unit vector of its
    dimension. *)
Definition unit_score ctxEmbed contentEmbeddings run : Prop :=
  ∃ e, e ∈ contentEmbeddings ∧ relevance run = dot ctxEmbed e ∧
       -1 <= relevance run <= 1.

Lemma scoreRuns_unit ctxEmbed allContentRuns contentEmbeddings :
  dot ctxEmbed ctxEmbed = 1 →
  Forall (λ e, length e = length ctxEmbed ∧ dot e e = 1) contentEmbeddings →
  Forall (unit_score ctxEmbed contentEmbeddings)
    (scoreRuns ctxEmbed allContentRuns contentEmbeddings).
Proof.
  intros Hctx He. apply Forall_forall. intros run Hrun.
  apply list_elem_of_lookup in Hrun as [i Hi].
  unfold scoreRuns in Hi. apply lookup_zip_with_Some in Hi
    as (cr & e & -> & _ & Hemb).
  pose proof (Forall_lookup_1 _ _ _ _ He Hemb) as [Hl Hu]. simpl in *.
  exists e. rewrite cosineSimilarity_unit by done.
  split; [by eapply list_elem_of_lookup_2|]. split; [done|].
  by apply dot_unit_range.
Qed.

(** With unit vectors the ranking is by dot product, descending. *)
Theorem rankRuns_unit ctxEmbed allContentRuns contentEmbeddings :
  dot ctxEmbed ctxEmbed = 1 →
  Forall (λ e, length e = length ctxEmbed ∧ dot e e = 1) contentEmbeddings →
  let ranked := rankRuns ctxEmbed allContentRuns contentEmbeddings in
  Forall (unit_score ctxEmbed contentEmbeddings) ranked ∧
  StronglySorted (λ r r', relevance r' <= relevance r) ranked.
Proof.
  intros Hctx He. split; [|apply rankRuns_real_descending].
  unfold rankRuns. rewrite js_sort_perm. by apply scoreRuns_unit.
Qed.
End unit.

(** ** The pipeline with a provider that keeps the contract *)

Section pipeline.
Context `{!JsKey R}.
Context (env : Env (F:=R)) (d : nat) (extractor : Extractor (F:=R)).
Context (Hmodel : initializeModel_spec env = Ok extractor).
Context `{!UnitExtractor d extractor}.

(** The vectors of the sections, from a provider that keeps the
    contract. *)
Lemma embeddings_unit {A} (text_of : A → string) (l : list A) embs :
  mapM_result (λ x, extractor (text_of x)) l = Ok embs →
  Forall (λ e, length e = d ∧ dot e e = 1) embs.
Proof.
  intros Hall%mapM_result_Ok. apply Forall_forall. intros e He.
  apply list_elem_of_lookup in He as [i Hi].
  destruct (Forall2_lookup_r _ _ _ _ _ Hall Hi) as (t & _ & Ht).
  split; [by eapply extractor_dim|by eapply extractor_unit].
Qed.

(** The report of a provider that keeps the contract lists the sections
    in descending order of the dot product of their vectors with that of
    the context, each between -1 and 1. *)
Theorem report_spec_unit out :
  report_spec env = Ok out →
  ∃ ctxEmbed contentEmbeddings ranked,
    extracted_sections out = imap extractedSection ranked ∧
    Forall (unit_score ctxEmbed contentEmbeddings) ranked ∧
    StronglySorted (λ r r', relevance r' <= relevance r) ranked.
Proof.
  intros (ex & inp & ctx & pooled & ce & embs & ds & p & j & Hex & _ & _ &
          _ & Hce & Hembs & _ & _ & _ & ->)%report_spec_inv.
  assert (ex = extractor) as -> by congruence.
  exists ce, embs, (rankRuns ce pooled embs). split; [done|].
  apply rankRuns_unit; [by eapply extractor_unit|].
  rewrite (extractor_dim _ _ Hce).
  exact (embeddings_unit (λ run, text (Process.run run)) pooled embs Hembs).
Qed.
End pipeline.

(** ** Examples *)

Section examples.

(** Real numbers as keys, for documents that are read by their
    outline. *)
#[local] Instance real_key : JsKey R := {|
  num_eq_dec := Req_dec_T;
  num_key x := x;
  num_index _ := None;
|}.

(** A provider that places texts on one of two axes. *)
Definition axis_extractor : Extractor (F:=R) := λ text,
  if decide (text = "Scope") then Ok [0; 1] else Ok [1; 0].

#[export] Instance axis_extractor_unit : UnitExtractor 2 axis_extractor.
Proof.
  split; intros text v; unfold axis_extractor; case_decide; intros [= <-];
    try done; unfold dot, sum_left; simpl; lra.
Qed.

Definition axis_doc : PdfDoc R := {|
  getOutline := Ok (Some [mkItem "Scope" DestNull []]);
  getDestination _ := Ok None;
  getPageIndex _ := Ok 0%Z;
  numPages := 0;
  getTextContent _ := Ok [];
|}.

Definition axis_env : Env (F:=R) := {|
  importTransformers := Ok ();
  pipeline := Ok axis_extractor;
  ensureDir _ := Ok ();
  readJson _ := Ok (sample_request ["a.pdf"]);
  getDocument _ := Ok axis_doc;
  now := "2025-01-01T00:00:00.000Z";
  writeJson _ _ := Ok ();
|}.

Definition axis_report : OutputJson := {|
  metadata := {|
    input_documents := [Some "a.pdf"];
    persona := Some "Analyst";
    job_to_be_done := Some "Review";
    processing_timestamp := "2025-01-01T00:00:00.000Z";
  |};
  extracted_sections := [mkExtractedSection "a.pdf" "Scope" 1 None];
  subsection_analysis := [];
|}.

Lemma report_spec_unit_witness :
  ∃ ctxEmbed contentEmbeddings ranked,
    extracted_sections axis_report = imap extractedSection ranked ∧
    Forall (unit_score ctxEmbed contentEmbeddings) ranked ∧
    StronglySorted (λ r r', relevance r' <= relevance r) ranked.
Proof.
  apply (report_spec_unit axis_env 2 axis_extractor); [reflexivity|apply _|].
  reflexivity.
Defined.
End examples.
