(* ===== verification/Files.v ===== *)
(** * The files

    [main] in [src/extract.js] touches the file system three times, all
    through fs-extra: [fs.ensureDir], [fs.readJson] of the request and
    [fs.writeJson] of the report.

    File [Main] keeps the file system outside: its environment answers
    [readJson] with a request and its world records the reports that
    were written. This file puts texts under both. A disk maps the path
    of a file to its text; [readJson_disk] parses the text of a file,
    [writeJson_disk] stores the text of a value, and [disk_after] is the
    disk after the writes of a run. [ReadsDisk] says when an environment
    of [Main] answers for a disk.

    The theorems follow a run from file to file: with the request in
    the request file, the report file holds at the end a text that parses
    to the report, whose metadata are those of the request; with a
    request file that is missing or is not JSON, the run is fatal and
    the disk is as before. Directories are not modelled: [ensureDir] is
    an answer of the environment. *)

From stdpp Require Import gmap.
From S2P Require Import Prelude JsNumber JsString Json JsonText Process.
From S2P Require Import Ranker.
From S2P Require Import Report ReportJson Effects Main.

Local Open Scope string_scope.

(** The text of each file. *)
#[warnings="-notation-for-abbreviation"]
Notation Disk := (gmap string string).

(** [fs.readJson(file)]: nothing when there is no such file, or what
    [JSON.parse] makes of its text. *)
Definition readJson_disk (disk : Disk) (file : string)
  : option (presult JsValue) :=
  JSON_parse <$> disk !! file.

(** [fs.writeJson(file, data, { spaces: 2 })]: the file holds the text of
    the value, or the call fails. *)
Definition writeJson_disk (disk : Disk) (file : string) (data : JsValue)
  : option Disk :=
  (λ t, <[file := t]> disk) <$> writeJson_text data.

(** The disk after the writes of a run. *)
Definition disk_after (disk : Disk) (w : World) : Disk :=
  foldl (λ d '(file, out), default d (writeJson_disk d file (outputValue out)))
    disk (written w).

(** The request file holds the request [r]. *)
Definition holds_request (disk : Disk) (r : Input.InputData) : Prop :=
  ∃ v, readJson_disk disk INPUT_JSON = Some (Parsed v "") ∧
       requestOfValue v = Some r.

(** The request file cannot be read: there is none, or its text is not
    JSON. *)
Definition unreadable (disk : Disk) : Prop :=
  readJson_disk disk INPUT_JSON = None ∨
  readJson_disk disk INPUT_JSON = Some SyntaxError.

Section files.
Context `{JsArith F, JsKey F}.

(** An environment that answers [readJson] for a disk. *)
Class ReadsDisk (env : Env (F:=F)) (disk : Disk) : Prop := {
  reads_request r :
    holds_request disk r → readJson env INPUT_JSON = Ok r;
  reads_unreadable :
    unreadable disk → ∃ e, readJson env INPUT_JSON = Throw e;
}.

Context (env : Env (F:=F)) (disk : Disk) `{!ReadsDisk env disk}.

(** ** The disk after a run *)

Lemma disk_after_snoc w w' file out t :
  written w' = (written w ++ [(file, out)])%list → report_text out = Some t →
  disk_after disk w' = <[file := t]> (disk_after disk w).
Proof.
  unfold disk_after, writeJson_disk, report_text. intros -> Ht.
  rewrite foldl_app. cbn [foldl]. by rewrite Ht.
Qed.

Lemma disk_after_same w w' :
  written w' = written w → disk_after disk w' = disk_after disk w.
Proof. unfold disk_after. by intros ->. Qed.

(** A run that succeeds leaves the text of the report in the report
    file, and the other files as they were. *)
Lemma program_report_file w out :
  main_spec env = Ok out →
  ∃ t, report_text out = Some t ∧
       disk_after disk (program env w) =
       <[OUTPUT_JSON := t]> (disk_after disk w).
Proof.
  intros Hout. destruct (report_text_Some out) as [t Ht]. exists t.
  split; [done|]. by eapply disk_after_snoc; [apply program_success|].
Qed.

(** The request of a run that succeeds is the one in the request file,
    and the metadata of the report are built from it. *)
Lemma main_spec_request r out :
  holds_request disk r → main_spec env = Ok out →
  ∃ documents persona job_to_be_done,
    r = Input.mkInputData (Some persona) (Some job_to_be_done)
          (Some documents) ∧
    metadata out = buildMetadata documents persona job_to_be_done (now env).
Proof.
  intros Hr%reads_request Hout. unfold main_spec in Hout. inv_bind Hout.
  simplify_eq.
  match goal with Hrep : report_spec _ = Ok _ |- _ =>
    apply report_spec_inv in Hrep
      as (? & inp & ? & ? & ? & ? & ds & p & j & _ & Hin & _ & _ & _ & _ &
          Hds & Hp & Hj & ->) end.
  rewrite Hr in Hin. injection Hin as <-. exists ds, p, j.
  split; [|done]. destruct r; simpl in *. by subst.
Qed.

(** C7: From file to file. When the request file holds a request and
    the run succeeds, the report file holds at the end a text that
    [JSON.parse] accepts, from which the whole report is read back, and
    the metadata of the report are those of the request: the file names
    in the order of the request, the role and the task. *)
Theorem file_to_file w r out :
  holds_request disk r → main_spec env = Ok out → report_fits out = true →
  ∃ t v documents persona job_to_be_done,
    disk_after disk (program env w) !! OUTPUT_JSON = Some t ∧
    JSON_parse t = Parsed v "" ∧ reportOfValue v = Some out ∧
    r = Input.mkInputData (Some persona) (Some job_to_be_done)
          (Some documents) ∧
    metadata out = buildMetadata documents persona job_to_be_done (now env).
Proof.
  intros Hr Hout Hfits.
  destruct (program_report_file w out Hout) as (t & Ht & Hd).
  destruct (main_spec_request r out Hr Hout) as (ds & p & j & -> & Hm).
  exists t, (to_json (outputValue out)), ds, p, j.
  pose proof Hfits as [_ Hempty%bool_decide_eq_true_1]%andb_prop.
  split_and!;
    [by rewrite Hd, lookup_insert_eq| |by apply reportOfValue_json|done..].
  by apply writeJson_text_parse; [apply json_wf_outputValue|].
Qed.

(** C32: When the request file is missing or its text is not JSON, the
    run is fatal: the status is 1 and no file is written, the report
    file of an earlier run included. *)
Theorem unreadable_request_fatal w :
  unreadable disk →
  disk_after disk (program env w) = disk_after disk w ∧
  exitCode (program env w) = Some 1%Z.
Proof.
  intros [e He]%reads_unreadable.
  destruct (main_spec_unreadable env e He) as [e' He'].
  destruct (program_fatal env w e' He') as [Hw Hx].
  split; [by apply disk_after_same|done].
Qed.

End files.

(** ** Examples *)

Section examples.

(** The disk with the request [r] in the request file. *)
Definition request_disk (r : Input.InputData) : Disk :=
  {[ INPUT_JSON := default "" (writeJson_text (requestValue r)) ]}.

Lemma request_disk_holds r : holds_request (request_disk r) r.
Proof.
  destruct (request_text_Some r) as [t Ht].
  exists (to_json (requestValue r)). split; [|apply requestOfValue_json].
  unfold readJson_disk, request_disk. rewrite Ht, lookup_singleton_eq.
  cbn [fmap option_fmap option_map default]. f_equal.
  by apply writeJson_text_parse; [apply json_wf_requestValue|].
Qed.

(** The environment of the examples of file [Main] answers for the disk
    with its request. *)
#[export] Instance sample_env_reads r : ReadsDisk (sample_env r) (request_disk r).
Proof.
  pose proof (request_disk_holds r) as (v & Hv & Hr). split.
  - intros r' (v' & Hv' & Hr'). cbn [sample_env readJson].
    rewrite decide_True by done. congruence.
  - intros [Hnone|Herr]; congruence.
Qed.

(** The run of the examples, from the request file to the report
    file. *)
Example sample_disk_run :
  disk_after (request_disk (sample_request sample_names))
    (program sample_good_env initial_world) !! OUTPUT_JSON =
  report_text sample_report.
Proof. vm_compute. reflexivity. Qed.

(** A request file that is cut short, and an environment whose
    [readJson] fails. *)
Definition cut_disk : Disk :=
  {[ INPUT_JSON := dq "{'persona': {'role': 'Analyst'}, 'documents': [" ]}.

Definition failing_env : Env := {|
  importTransformers := Ok ();
  pipeline := Ok sample_extractor;
  ensureDir _ := Ok ();
  readJson file := Throw ("SyntaxError: " +:+ file +:+ ": Unexpected end");
  getDocument := sample_getDocument;
  now := "2025-01-01T00:00:00.000Z";
  writeJson _ _ := Ok ();
|}.

#[export] Instance failing_env_reads : ReadsDisk failing_env cut_disk.
Proof.
  split; [|by eexists]. intros r (v & Hv & _). by vm_compute in Hv.
Qed.

Example cut_disk_run :
  disk_after cut_disk (program failing_env initial_world) = cut_disk ∧
  stderr (program failing_env initial_world) =
    ["Fatal error: SyntaxError: input/challenge1b_input.json: Unexpected end"].
Proof. split; vm_compute; reflexivity. Qed.

Lemma file_to_file_witness :
  ∃ t v documents persona job_to_be_done,
    disk_after (request_disk (sample_request sample_names))
      (program sample_good_env initial_world) !! OUTPUT_JSON = Some t ∧
    JSON_parse t = Parsed v "" ∧ reportOfValue v = Some sample_report ∧
    sample_request sample_names =
      Input.mkInputData (Some persona) (Some job_to_be_done) (Some documents) ∧
    metadata sample_report =
      buildMetadata documents persona job_to_be_done (now sample_good_env).
Proof.
  apply (file_to_file sample_good_env
           (request_disk (sample_request sample_names)));
    [apply request_disk_holds|vm_compute; reflexivity..].
Defined.

Lemma unreadable_request_fatal_witness :
  disk_after cut_disk (program failing_env initial_world) =
    disk_after cut_disk initial_world ∧
  exitCode (program failing_env initial_world) = Some 1%Z.
Proof.
  apply (unreadable_request_fatal failing_env cut_disk). right.
  vm_compute. reflexivity.
Defined.

End examples.
