(* ===== verification/Request.v ===== *)
(** * The request as it is read

    [main] of [src/extract.js] takes the request from [fs.readJson], that
    is from [JSON.parse], and uses it without a look at its shape: it
    reads properties of whatever value it has, converts what it finds to
    strings in a template literal, loops over [documents] with
    [for ... of], gives [doc.filename] to [path.join] and calls
    [documents.map]. File [Report] has the requests of the expected
    shape and file [Main] the program on them; this file has lines 45 to
    106 of the program on every value [JSON.parse] can return.

    - [member], [destructure], [to_string], [iterate], [path_arg] and
      [array_map] are the operations of the language the program applies
      to the request, on the values of file [Json]; the numbers are those
      of that file, the integers up to 2^53 in magnitude, which are
      converted to their decimal digits.
    - [report_request] is the program from [initializeModel] to
      [outputJson], the request being the value [fs.readJson] returned;
      [report_value] is what it returns, without the console: the value
      that is handed to [fs.writeJson], or the error that is thrown.
    - [reads_as v r] relates a parsed request to a request of [Report]
      for which [Main] is exact: with it the program builds the report
      of [r], with the role and the task as they were read, and prints
      the lines of the run on [r] ([report_value_reads],
      [report_request_reads]).
    - Every request of the shape of [Report] reads as itself
      ([request_file_typed], [report_value_typed]). Every request on
      which the program does not fail for what the request is reads as
      the request [typed_request], which has its role and its task
      converted to strings; on every other request the program throws
      ([report_value_cases]).

    The write of the report of a request whose role or task is not a
    string is not modelled: the world of [Effects] records reports of
    [Report]. *)

From S2P Require Import Prelude JsNumber JsString JsPath Json PdfDoc.
From S2P Require Import Process Ranker Report ReportJson Effects Main Files.

Local Open Scope string_scope.

(** ** The operations of the language on the values of JSON *)

(** The [TypeError] of reading a property of [undefined] or [null]. *)
Definition cannot_read (what k : string) : string :=
  "TypeError: Cannot read properties of " +:+ what +:+ " (reading '" +:+ k
    +:+ "')".

(** The [TypeError] of [const { persona, ... } = inputData] when
    [inputData] is [undefined] or [null]. *)
Definition cannot_destructure (what : string) : string :=
  "TypeError: Cannot destructure property 'persona' of 'inputData' as it is "
    +:+ what +:+ ".".

Definition no_primitive : string :=
  "TypeError: Cannot convert object to primitive value".

Definition not_a_function : string :=
  "TypeError: documents.map is not a function".

(** [v.k], for the names the program reads ([persona], [job_to_be_done],
    [documents], [role], [task], [filename]), none of which is a property
    of a string, of an array or of a prototype: a [TypeError] for
    [undefined] and [null], the property of an object, and [undefined]
    for any other value. *)
Definition member (k : string) (v : JsValue) : result JsValue :=
  match v with
  | VUndefined => Throw (cannot_read "undefined" k)
  | VNull => Throw (cannot_read "null" k)
  | _ => Ok (field k v)
  end.

(** [const { persona, job_to_be_done, documents } = inputData]. *)
Definition destructure (inputData : JsValue)
  : result (JsValue * JsValue * JsValue) :=
  match inputData with
  | VUndefined => Throw (cannot_destructure "undefined")
  | VNull => Throw (cannot_destructure "null")
  | _ => Ok (field "persona" inputData, field "job_to_be_done" inputData,
             field "documents" inputData)
  end.

(** [`${v}`], the conversion ToString: an array is its elements joined by
    commas, [undefined] and [null] among them left empty; an object is
    "[object Object]", unless it has a property [toString] of its own,
    which no value of JSON can make a function: then there is no
    conversion. *)
Fixpoint to_string (v : JsValue) : result string :=
  match v with
  | VUndefined => Ok "undefined"
  | VNull => Ok "null"
  | VBool b => Ok (if b then "true" else "false")
  | VNum n => Ok (pretty n)
  | VStr s => Ok s
  | VArr elems =>
      parts ← (fix join (l : list JsValue) : result (list string) :=
                 match l with
                 | [] => Ok []
                 | x :: l' =>
                     part ← match x with
                            | VUndefined | VNull => Ok ""
                            | _ => to_string x
                            end;
                     parts ← join l';
                     Ok (part :: parts)
                 end) elems;
      Ok (String.concat "," parts)
  | VObj props =>
      if decide ("toString" ∈ props.*1) then Throw no_primitive
      else Ok "[object Object]"
  end.

(** An element of an array in [Array.prototype.join]. *)
Definition join_part (x : JsValue) : result string :=
  match x with
  | VUndefined | VNull => Ok ""
  | _ => to_string x
  end.

(** The characters of a string, each a string. *)
Fixpoint chars (s : string) : list JsValue :=
  match s with
  | "" => []
  | String c s' => VStr (String c "") :: chars s'
  end.

(** The values [for (const doc of v)] goes through: the elements of an
    array, the characters of a string; nothing else that JSON has is
    iterable. *)
Definition iterate (v : JsValue) : result (list JsValue) :=
  match v with
  | VArr elems => Ok elems
  | VStr s => Ok (chars s)
  | _ => Throw no_documents
  end.

(** An argument of [path.join]: a string, or a [TypeError]. *)
Definition path_arg (v : JsValue) : result string :=
  match v with
  | VStr s => Ok s
  | _ => Throw no_filename
  end.

(** [v.map(f)]: [Array.prototype.map] on an array; no other value of
    JSON has a method [map]. *)
Definition array_map (f : JsValue → result JsValue) (v : JsValue)
  : result (list JsValue) :=
  match v with
  | VArr elems => mapM_result f elems
  | VUndefined => Throw (cannot_read "undefined" "map")
  | VNull => Throw (cannot_read "null" "map")
  | _ => Throw not_a_function
  end.

(** ** [main] on a parsed request *)

Section dynamic.
Context `{JsArith F, JsKey F}.
Context (env : Env (F:=F)).
Implicit Types (v inputData persona documents doc : JsValue).

(** [`${v.k}`]: the property is read and converted; with the property
    as it was read. *)
Definition converted (k : string) (v : JsValue) : result (string * JsValue) :=
  x ← member k v;
  s ← to_string x;
  Ok (s, x).

(** [`Persona: ${persona.role}. Task: ${job_to_be_done.task}`], with the
    role and the task: each property is read and converted before the
    next is read. *)
Definition contextOfValue (persona job_to_be_done : JsValue)
  : result (string * JsValue * JsValue) :=
  '(r, role) ← converted "role" persona;
  '(t, task) ← converted "task" job_to_be_done;
  Ok ("Persona: " +:+ r +:+ ". Task: " +:+ t, role, task).

(** The body of the loop over the documents. *)
Definition documentRunsOfValue (doc : JsValue) : result (list ContentRun) :=
  filename ← member "filename" doc;
  name ← path_arg filename;
  processFileAndGetRuns (getDocument env) (path_join [PDF_DIR; name]).

(** The pool: the sections of the documents, one document after the
    other. *)
Definition pooledRunsOfValue (documents : JsValue) : result (list ContentRun) :=
  docs ← iterate documents;
  runss ← mapM_result documentRunsOfValue docs;
  Ok (concat runss).

(** [outputJson]. *)
Definition outputOfValue (input_documents : list JsValue)
    (role task : JsValue) (sections : list ExtractedSection) : JsValue :=
  VObj [("metadata",
         VObj [("input_documents", VArr input_documents);
               ("persona", role);
               ("job_to_be_done", task);
               ("processing_timestamp", VStr (now env))]);
        ("extracted_sections", VArr (sectionValue <$> sections));
        ("subsection_analysis", VArr [])].

(** Lines 50 to 106. *)
Definition reportOfRequest (extractor : Extractor) (inputData : JsValue)
  : result JsValue :=
  '(persona, job_to_be_done, documents) ← destructure inputData;
  '(contextText, role, task) ← contextOfValue persona job_to_be_done;
  allContentRuns ← pooledRunsOfValue documents;
  ctxEmbed ← extractor contextText;
  contentEmbeddings ←
    mapM_result (λ run, extractor (text (Process.run run))) allContentRuns;
  let ranked := rankRuns ctxEmbed allContentRuns contentEmbeddings in
  input_documents ← array_map (member "filename") documents;
  Ok (outputOfValue input_documents role task (imap extractedSection ranked)).

(** Lines 45 to 106, the request being [inputData]. *)
Definition report_value (inputData : JsValue) : result JsValue :=
  extractor ← initializeModel_spec env;
  _ ← ensureDir env INPUT_DIR;
  reportOfRequest extractor inputData.

(** ** With the console *)

(** The body of the loop over the documents: [path.join] has taken
    [doc.filename], so it is a string and the line shows it as it is. *)
Definition processDocumentOfValue (allContentRuns : list ContentRun)
    (doc : JsValue) : IO (list ContentRun) :=
  filename ← lift (member "filename" doc);
  name ← lift (path_arg filename);
  let pdfPath := path_join [PDF_DIR; name] in
  _ ← console_log ("- Extracting from " +:+ name);
  runs ← lift (processFileAndGetRuns (getDocument env) pdfPath);
  mret (allContentRuns ++ runs)%list.

(** Step 3. *)
Definition extractAllOfValue (documents : JsValue) : IO (list ContentRun) :=
  _ ← console_log "Processing PDF documents...";
  docs ← lift (iterate documents);
  allContentRuns ← for_of processDocumentOfValue [] docs;
  _ ← console_log ("Extracted " +:+ pretty (length allContentRuns) +:+
                   " total text chunks.");
  mret allContentRuns.

(** Steps 1 to 6, [fs.readJson] having returned [inputData]. *)
Definition report_request (inputData : JsValue) : IO JsValue :=
  extractor ← initializeModel env;
  _ ← lift (ensureDir env INPUT_DIR);
  request ← lift (destructure inputData);
  let '(persona, job_to_be_done, documents) := request in
  context ← lift (contextOfValue persona job_to_be_done);
  let '(contextText, role, task) := context in
  allContentRuns ← extractAllOfValue documents;
  _ ← console_log "Generating embeddings...";
  ctxEmbed ← lift (extractor contextText);
  contentEmbeddings ← lift
    (mapM_result (λ run, extractor (text (Process.run run))) allContentRuns);
  _ ← console_log "Calculating relevance scores...";
  let ranked := rankRuns ctxEmbed allContentRuns contentEmbeddings in
  _ ← console_log "Generating final output...";
  input_documents ← lift (array_map (member "filename") documents);
  mret (outputOfValue input_documents role task (imap extractedSection ranked)).

(** ** The requests [Main] speaks for

    A parsed request [v] reads as the request [r] of [Report] when the
    program finds in [v] what [Main] finds in [r]: a context that is
    that of [r], and documents whose file names are those of [r]. *)

Definition reads_doc (x : JsValue) (d : Input.DocRef) : Prop :=
  member "filename" x = Ok (optional (Input.filename d)).

Definition reads_documents (dv : JsValue)
    (ds : option (list Input.DocRef)) : Prop :=
  match ds with
  | None => dv = VUndefined
  | Some docs => ∃ elems, dv = VArr elems ∧ Forall2 reads_doc elems docs
  end.

Definition reads_as (v : JsValue) (r : Input.InputData) : Prop :=
  is_Ok (destructure v) ∧
  contextOfValue (field "persona" v) (field "job_to_be_done" v) =
    (contextText ← contextTextOf (Input.persona r) (Input.job_to_be_done r);
     Ok (contextText, field "role" (field "persona" v),
         field "task" (field "job_to_be_done" v))) ∧
  reads_documents (field "documents" v) (Input.documents r).

(** ** Every request

    The requests on which the program does not fail for what they are,
    and the request of [Report] the program takes each of them for: the
    role and the task converted to strings, the file names as they
    are. *)

(** A document that has a file name. *)
Definition coerced_doc (doc : JsValue) : option Input.DocRef :=
  match doc with
  | VUndefined | VNull => None
  | _ => (λ s, Input.mkDocRef (Some s)) <$> string_of (field "filename" doc)
  end.

Definition coerced_docs (elems : list JsValue) : option (list Input.DocRef) :=
  mapM coerced_doc elems.

Definition typed_request (v : JsValue) : option Input.InputData :=
  match destructure v with
  | Ok (persona, job_to_be_done, documents) =>
      match converted "role" persona, converted "task" job_to_be_done with
      | Ok (r, _), Ok (t, _) =>
          elems ← elements_of documents;
          docs ← coerced_docs elems;
          Some (Input.mkInputData (Some (Input.mkPersona (Some r)))
                  (Some (Input.mkJob (Some t))) (Some docs))
      | _, _ => None
      end
  | Throw _ => None
  end.

(** The report of a request, from the report of the request it is taken
    for: the role and the task as they were read. *)
Definition retyped (v : JsValue) (out : OutputJson) : JsValue :=
  outputOfValue (optional <$> input_documents (metadata out))
    (field "role" (field "persona" v)) (field "task" (field "job_to_be_done" v))
    (extracted_sections out).

(** ** The operations *)

Lemma member_Ok k v x : member k v = Ok x → x = field k v.
Proof. by destruct v; intros [= <-]. Qed.

Lemma destructure_Ok v :
  is_Ok (destructure v) →
  destructure v =
    Ok (field "persona" v, field "job_to_be_done" v, field "documents" v).
Proof. by destruct v; intros [? [=]]. Qed.

Lemma converted_Ok k v s x : converted k v = Ok (s, x) → x = field k v.
Proof.
  unfold converted. intros Hc. inv_bind Hc. injection Hc as _ <-.
  by eapply member_Ok.
Qed.

Lemma to_string_array elems :
  to_string (VArr elems) =
    (parts ← mapM_result join_part elems; Ok (String.concat "," parts)).
Proof.
  simpl. f_equal. induction elems as [|x elems IH]; [done|].
  simpl. by rewrite IH.
Qed.

Lemma path_arg_optional f : path_arg (optional f) = required f no_filename.
Proof. by destruct f. Qed.

Lemma returns_processDocumentOfValue acc doc :
  returns (processDocumentOfValue acc doc)
    (runs ← documentRunsOfValue doc; Ok (acc ++ runs)%list).
Proof.
  unfold processDocumentOfValue, documentRunsOfValue.
  rewrite result_bind_assoc.
  eapply returns_bind; [apply returns_lift|intros filename].
  rewrite result_bind_assoc. returns_steps.
Qed.

Lemma returns_extractAllOfValue documents :
  returns (extractAllOfValue documents) (pooledRunsOfValue documents).
Proof.
  unfold extractAllOfValue, pooledRunsOfValue. apply returns_bind_log.
  eapply returns_bind; [apply returns_lift|intros docs].
  eapply returns_eq.
  - eapply returns_bind;
      [apply returns_for_of, returns_processDocumentOfValue|].
    intros all. apply returns_bind_log, returns_ret.
  - by rewrite foldM_result_app, result_bind_assoc.
Qed.

(** The console does not change the report. *)
Lemma returns_report_request inputData :
  returns (report_request inputData) (report_value inputData).
Proof.
  unfold report_request, report_value, reportOfRequest.
  eapply returns_bind; [apply returns_initializeModel|intros ex].
  eapply returns_bind; [apply returns_lift|intros _].
  eapply returns_bind; [apply returns_lift|intros [[pv jv] dv]].
  eapply returns_bind; [apply returns_lift|intros [[ctx role] task]].
  eapply returns_bind; [apply returns_extractAllOfValue|intros all].
  returns_steps.
Qed.

Lemma quiet_report_request inputData : quiet (report_request inputData).
Proof.
  unfold report_request, extractAllOfValue, processDocumentOfValue.
  apply quiet_bind; [apply quiet_initializeModel|intros ex].
  apply quiet_bind; [apply quiet_lift|intros _].
  apply quiet_bind; [apply quiet_lift|intros [[pv jv] dv]].
  apply quiet_bind; [apply quiet_lift|intros [[ctx role] task]].
  io_steps.
Qed.

(** ** What reads as a request is processed as the request *)

Lemma documentRuns_reads x d :
  reads_doc x d → documentRunsOfValue x = documentRuns env d.
Proof.
  unfold reads_doc, documentRunsOfValue, documentRuns. intros ->. simpl.
  by rewrite path_arg_optional.
Qed.

Lemma processDocument_reads acc x d :
  reads_doc x d → processDocumentOfValue acc x ≡ processDocument env acc d.
Proof.
  unfold reads_doc, processDocumentOfValue, processDocument. intros ->.
  by rewrite io_lift_Ok_bind, path_arg_optional.
Qed.

Lemma pooledRuns_reads dv ds :
  reads_documents dv ds → pooledRunsOfValue dv = pooledRuns env ds.
Proof.
  unfold pooledRunsOfValue, pooledRuns.
  destruct ds as [docs|]; [intros (elems & -> & Hdocs)|by intros ->].
  simpl. f_equal. apply mapM_result_Forall2.
  eapply Forall2_impl; [done|]. apply documentRuns_reads.
Qed.

Lemma extractAll_reads dv ds :
  reads_documents dv ds → extractAllOfValue dv ≡ extractAll env ds.
Proof.
  unfold extractAllOfValue, extractAll.
  destruct ds as [docs|]; [intros (elems & -> & Hdocs)|by intros ->].
  apply io_bind_proper; [intros _|done]. cbn [iterate required].
  rewrite !io_lift_Ok_bind. apply io_bind_proper; [done|].
  apply for_of_Forall2. eapply Forall2_impl; [done|].
  intros x d Hx acc. by apply processDocument_reads.
Qed.

Lemma filenames_reads elems docs :
  Forall2 reads_doc elems docs →
  array_map (member "filename") (VArr elems) =
    Ok (optional <$> (Input.filename <$> docs)).
Proof.
  intros Hdocs. simpl. rewrite <-list_fmap_compose, <-mapM_result_pure.
  by apply mapM_result_Forall2.
Qed.

Section reads.
Context (v : JsValue) (r : Input.InputData).
Context (Hv : reads_as v r) (Hr : readJson env INPUT_JSON = Ok r).

(** The report of a request that reads as [r] is the report of [r],
    with the role and the task as they were read. *)
Lemma report_value_reads : report_value v = retyped v <$> report_spec env.
Proof.
  destruct Hv as (Hd%destructure_Ok & Hctx & Hdocs).
  unfold report_value, report_spec, reportOfRequest. rewrite Hr.
  destruct (initializeModel_spec env) as [ex|]; [|done].
  destruct (ensureDir env INPUT_DIR) as [[]|]; [|done]. simpl.
  rewrite Hd. simpl. rewrite Hctx, (pooledRuns_reads _ _ Hdocs).
  destruct (contextTextOf _ _) as [ctx|] eqn:Hc; [|done]. simpl.
  destruct (Input.documents r) as [docs|]; [|done].
  destruct Hdocs as (elems & -> & Hdocs).
  rewrite (filenames_reads _ _ Hdocs).
  destruct (pooledRuns env (Some docs)) as [pooled|]; [|done]. simpl.
  destruct (ex ctx) as [ce|]; [|done]. simpl.
  destruct (mapM_result _ pooled); [|done]. simpl.
  unfold contextTextOf in Hc.
  by destruct (Input.persona r), (Input.job_to_be_done r).
Qed.

(** And it prints what the run on [r] prints. *)
Lemma report_request_reads :
  report_request v ≡ (out ← report env; mret (retyped v out)).
Proof.
  destruct Hv as (Hd%destructure_Ok & Hctx & Hdocs).
  unfold report_request, report.
  apply io_bind_step; intros ex. apply io_bind_step; intros [].
  rewrite Hr, Hd, !io_lift_Ok_bind. cbv beta iota. rewrite Hctx.
  destruct (contextTextOf _ _) as [ctx|e] eqn:Hc; [|done].
  rewrite result_bind_Ok, !io_lift_Ok_bind.
  rewrite (extractAll_reads _ _ Hdocs).
  destruct (Input.documents r) as [docs|]; [|done].
  destruct Hdocs as (elems & -> & Hdocs).
  do 6 (apply io_bind_step; intros ?).
  rewrite (filenames_reads _ _ Hdocs).
  unfold contextTextOf in Hc.
  by destruct (Input.persona r), (Input.job_to_be_done r).
Qed.
End reads.

(** ** Requests of the shape of [Report] *)

(** A property that is a string or missing is read and converted as
    file [Report] has it. *)
Lemma missing_or_string_read fv x :
  missing_or_string fv = Some x →
  fv = optional x ∧ to_string fv = Ok (template x).
Proof. destruct fv; intros [= <-]; done. Qed.

(** [`${pv.k}`] for an object of [Report] or none. *)
Lemma converted_read {A} (mk : option string → A) (proj : A → option string)
    k pv p :
  (∀ x, proj (mk x) = x) →
  missing_or (λ v, mk <$> missing_or_string (field k v)) pv = Some p →
  converted k pv =
    (a ← required p (cannot_read "undefined" k);
     Ok (template (proj a), field k pv)).
Proof.
  intros Hproj Hp. unfold converted, member.
  destruct pv; simplify_eq/=; rewrite ?Hproj; try done.
  destruct (missing_or_string _) as [x|] eqn:Hs; simplify_eq/=.
  apply missing_or_string_read in Hs as [_ ->]. by rewrite Hproj.
Qed.

Lemma docOfValue_reads x d : docOfValue x = Some d → reads_doc x d.
Proof.
  unfold docOfValue, reads_doc. destruct x; try done. simpl.
  destruct (missing_or_string _) as [f|] eqn:Hf; intros [= <-].
  by apply missing_or_string_read in Hf as [-> _].
Qed.

Lemma docsOfValue_reads dv ds :
  missing_or docsOfValue dv = Some ds → reads_documents dv ds.
Proof.
  unfold docsOfValue.
  destruct dv as [| | | | |elems|props]; simpl; intros Hds; simplify_eq/=;
    try done.
  destruct (mapM docOfValue elems) as [docs|] eqn:Hdocs; simplify_eq/=.
  exists elems. split; [done|]. apply mapM_Forall2 in Hdocs.
  eapply Forall2_impl; [done|]. apply docOfValue_reads.
Qed.

(** A request of the shape of [Report] reads as the request it is. *)
Lemma requestOfValue_reads v r : requestOfValue v = Some r → reads_as v r.
Proof.
  destruct v as [| | | | | |props]; try done. simpl.
  destruct (missing_or personaOfValue _) as [p|] eqn:Hp; [|done].
  destruct (missing_or jobOfValue _) as [j|] eqn:Hj; [|done].
  destruct (missing_or docsOfValue _) as [ds|] eqn:Hds; [|done].
  intros [= <-]. split; [by eexists|]. split; [|by apply docsOfValue_reads].
  unfold contextOfValue, contextTextOf. simpl.
  rewrite (converted_read Input.mkPersona Input.role "role" _ p) by done.
  rewrite (converted_read Input.mkJob Input.task "task" _ j) by done.
  by destruct p, j.
Qed.

(** The role and the task of such a request are strings or missing. *)
Lemma requestOfValue_fields v r (p : Input.Persona) (j : Input.Job) :
  requestOfValue v = Some r →
  Input.persona r = Some p → Input.job_to_be_done r = Some j →
  field "role" (field "persona" v) = optional (Input.role p) ∧
  field "task" (field "job_to_be_done" v) = optional (Input.task j).
Proof.
  destruct v as [| | | | | |props]; try done. simpl.
  destruct (missing_or personaOfValue _) as [p'|] eqn:Hp; [|done].
  destruct (missing_or jobOfValue _) as [j'|] eqn:Hj; [|done].
  destruct (missing_or docsOfValue _) as [ds|] eqn:Hds; [|done].
  intros [= <-]. simpl. intros -> ->. clear Hds.
  unfold personaOfValue, jobOfValue in *.
  destruct (props_get "persona" props), (props_get "job_to_be_done" props);
    simplify_eq/=;
    repeat match goal with
    | H : context [missing_or_string ?x] |- _ =>
        destruct (missing_or_string x) eqn:?Hs; simplify_eq/=;
        apply missing_or_string_read in Hs as [? _]
    end; done.
Qed.

(** The report of such a request is a report of [Report]. *)
Lemma retyped_outputValue v r out :
  requestOfValue v = Some r → readJson env INPUT_JSON = Ok r →
  report_spec env = Ok out → retyped v out = outputValue out.
Proof.
  intros Hv Hr (ex & inp & ctx & pooled & ce & embs & ds & p & j & _ & Hin &
                _ & _ & _ & _ & Hds & Hp & Hj & ->)%report_spec_inv.
  assert (inp = r) as -> by congruence.
  destruct (requestOfValue_fields v r p j Hv Hp Hj) as [Hrole Htask].
  unfold retyped. by rewrite Hrole, Htask.
Qed.

(** The program on a request of the shape of [Report] is the pipeline
    of [Main] on it: the same report, or the same error. *)
Theorem report_value_typed v r :
  requestOfValue v = Some r → readJson env INPUT_JSON = Ok r →
  report_value v = outputValue <$> report_spec env.
Proof.
  intros Hv Hr. rewrite (report_value_reads v r) by
    (done || by apply requestOfValue_reads).
  destruct (report_spec env) as [out|] eqn:Hout; [|done]. simpl.
  by rewrite (retyped_outputValue v r out).
Qed.

(** And it prints the lines of [Main.report], in their order, up to the
    same error. *)
Theorem report_request_typed v r :
  requestOfValue v = Some r → readJson env INPUT_JSON = Ok r →
  report_request v ≡ (out ← report env; mret (outputValue out)).
Proof.
  intros Hv Hr w. rewrite (report_request_reads v r) by
    (done || by apply requestOfValue_reads).
  pose proof (report_returns env w) as Hout. unfold mbind, io_bind.
  destruct (report env w) as [[out|e] w']; [|done]. simpl in Hout.
  unfold mret, io_ret. by rewrite (retyped_outputValue v r out).
Qed.

(** ** Every other request *)

Lemma coerced_doc_reads x d : coerced_doc x = Some d → reads_doc x d.
Proof.
  unfold coerced_doc, reads_doc, member.
  destruct x; try done; destruct (field "filename" _); by intros [= <-].
Qed.

(** A document the loop gets past has a file name. *)
Lemma documentRunsOfValue_Ok x runs :
  documentRunsOfValue x = Ok runs → is_Some (coerced_doc x).
Proof.
  unfold documentRunsOfValue, coerced_doc, member.
  destruct x; try done; simpl; destruct (props_get _ _) || idtac; by eauto.
Qed.

Lemma documents_coerced elems runss :
  mapM_result documentRunsOfValue elems = Ok runss →
  is_Some (coerced_docs elems).
Proof.
  intros Hruns%mapM_result_Ok. apply mapM_is_Some.
  apply Forall2_Forall_l with (Q := λ x, is_Some (coerced_doc x)) in Hruns;
    [done|]. apply Forall_true. intros runs x. apply documentRunsOfValue_Ok.
Qed.

(** A request the program takes for one of [Report] reads as it. *)
Lemma typed_request_reads v r : typed_request v = Some r → reads_as v r.
Proof.
  unfold typed_request, reads_as, contextOfValue.
  destruct (destructure v) as [[[pv jv] dv]|] eqn:Hd; [|done].
  assert (is_Ok (destructure v)) as Hok by by eexists.
  rewrite (destructure_Ok v Hok) in Hd. injection Hd as <- <- <-.
  destruct (converted "role" _) as [[rs role]|] eqn:Hrole; [|done].
  destruct (converted "task" _) as [[ts task]|] eqn:Htask; [|done].
  apply converted_Ok in Hrole as ->, Htask as ->.
  destruct (field "documents" v) as [| | | | |elems|]; try done. simpl.
  destruct (coerced_docs elems) as [docs|] eqn:Hdocs; intros [= <-].
  split_and!; [by eexists|done|]. exists elems. split; [done|].
  apply mapM_Forall2 in Hdocs.
  eapply Forall2_impl; [done|]. apply coerced_doc_reads.
Qed.

(** A request the program does not fail on for what it is, is read as
    the request of [Report] that has its role and its task converted to
    strings: the report has the sections of that request, and the role
    and the task as they are in the file. *)
Lemma report_value_coerced v r :
  typed_request v = Some r → readJson env INPUT_JSON = Ok r →
  report_value v = retyped v <$> report_spec env.
Proof.
  intros Hv Hr. by apply (report_value_reads v r); [apply typed_request_reads|].
Qed.

(** A request on which the program builds a report is one it takes for
    a request of [Report]. *)
Lemma report_value_Ok v out :
  report_value v = Ok out → is_Some (typed_request v).
Proof.
  unfold report_value, reportOfRequest, typed_request, contextOfValue.
  intros Hv. do 2 (apply result_bind_Ok_inv in Hv as (? & _ & Hv)).
  destruct (destructure v) as [[[pv jv] dv]|]; [|done]. simpl in Hv.
  destruct (converted "role" pv) as [[rs role]|]; [|done].
  destruct (converted "task" jv) as [[ts task]|]; [|done]. simpl in Hv.
  apply result_bind_Ok_inv in Hv as (pooled & Hpool & Hv).
  unfold pooledRunsOfValue in Hpool.
  apply result_bind_Ok_inv in Hpool as (docs & Hdocs & Hpool).
  apply result_bind_Ok_inv in Hpool as (runss & Hruns%documents_coerced & _).
  do 2 (apply result_bind_Ok_inv in Hv as (? & _ & Hv)).
  destruct dv; simplify_eq/=. by destruct Hruns as [ds ->].
Qed.

(** On a request that is malformed the program throws: when the request
    is [undefined] or [null], when its [persona] or its [job_to_be_done]
    is, when the role or the task has no conversion to a string, when
    [documents] is not an array, or when a document is [undefined] or
    [null] or has a [filename] that is not a string, no report is
    built, whatever the documents and the model are. *)
Lemma report_value_shape v :
  typed_request v = None → ∃ e, report_value v = Throw e.
Proof.
  intros Hv. destruct (report_value v) as [out|e] eqn:Hout; [|by exists e].
  apply report_value_Ok in Hout as [r Hr]. congruence.
Qed.

End dynamic.

(** ** The program on every request *)

Section cases.
Context `{JsArith F, JsKey F}.
Context (env : Env (F:=F)).

(** The environment whose request file holds [r]. *)
Definition with_request (r : Input.InputData) : Env := {|
  importTransformers := importTransformers env;
  pipeline := pipeline env;
  ensureDir := ensureDir env;
  readJson _ := Ok r;
  getDocument := getDocument env;
  now := now env;
  writeJson := writeJson env;
|}.

(** C15: What the program makes of every value [JSON.parse] can return, in
    terms of the pipeline of [Main]. A request the program takes for a
    request of [Report] (its role and its task converted to strings, its
    documents an array of objects with a [filename] that is a string)
    gives what the pipeline gives on that request, the same error or
    the same report, but for the role and the task of the metadata,
    which are written as they were read, a number as a number. On every
    other request the program throws: when the request, its [persona]
    or its [job_to_be_done] is [undefined] or [null], when the role or
    the task has no conversion to a string, when [documents] is not an
    array, or when a document is [undefined], [null] or without a
    [filename] that is a string. *)
Theorem report_value_cases v :
  match typed_request v with
  | Some r => report_value env v = retyped env v <$> report_spec (with_request r)
  | None => ∃ e, report_value env v = Throw e
  end.
Proof.
  destruct (typed_request v) as [r|] eqn:Hv; [|by apply report_value_shape].
  by apply (report_value_coerced (with_request r) v r).
Qed.
End cases.

(** ** The request file *)

Section files.
Context `{JsArith F, JsKey F}.
Context (env : Env (F:=F)) (disk : Disk) `{!ReadsDisk env disk}.

(** C14: When the request file holds a request of the shape of [Report], the
    program, on the value [JSON.parse] makes of the text of the file,
    does what [Main.report] does on the request: it prints the same
    lines in the same order and returns the same report, as the value
    that is written, or throws the same error at the same point. *)
Theorem request_file_typed r :
  holds_request disk r →
  ∃ v, readJson_disk disk INPUT_JSON = Some (Parsed v "") ∧
       report_request env v ≡ (out ← report env; mret (outputValue out)).
Proof.
  intros Hr. pose proof Hr as (v & Hv & Hreq). exists v. split; [done|].
  by apply report_request_typed with r; [|apply reads_request].
Qed.
End files.

(** ** Examples *)

Section examples.

(** A request with a role and documents of any kind. *)
Definition sample_value (role documents : JsValue) : JsValue :=
  VObj [("persona", VObj [("role", role)]);
        ("job_to_be_done", VObj [("task", VStr "Review")]);
        ("documents", documents)].

Definition sample_notes : JsValue := VArr [VObj [("filename", VStr "notes.pdf")]].

(** The request whose role is the number 5, and the request of [Report]
    the program takes it for. *)
Definition sample_numbered : JsValue := sample_value (VNum 5) sample_notes.

Definition sample_numbered_request : Input.InputData :=
  Input.mkInputData (Some (Input.mkPersona (Some "5")))
    (Some (Input.mkJob (Some "Review"))) (Some (sample_documents ["notes.pdf"])).

Example to_string_samples :
  to_string (VArr [VNum 1; VNull; VArr [VStr "a"; VUndefined]; VObj []]) =
    Ok "1,,a,,[object Object]" ∧
  to_string (VNum (-12)) = Ok "-12" ∧ to_string (VArr []) = Ok "" ∧
  to_string (VObj [("toString", VNum 1)]) = Throw no_primitive ∧
  to_string (VArr [VBool true; VObj [("toString", VNull)]]) = Throw no_primitive.
Proof. by vm_compute. Qed.

Example typed_request_samples :
  typed_request sample_numbered = Some sample_numbered_request ∧
  typed_request (requestValue (sample_request sample_names)) =
    Some (sample_request sample_names) ∧
  typed_request (sample_value VUndefined sample_notes) =
    Some (Input.mkInputData (Some (Input.mkPersona (Some "undefined")))
            (Some (Input.mkJob (Some "Review")))
            (Some (sample_documents ["notes.pdf"]))) ∧
  typed_request (sample_value (VStr "Analyst") (VStr "")) = None ∧
  typed_request (sample_value (VStr "Analyst") (VArr [VObj []])) = None ∧
  typed_request (VNum 5) = None.
Proof. by vm_compute. Qed.

(** The errors of requests of other shapes, in the order of the
    program: the request itself, the role and the task, the loop, the
    file names, and at the end [documents.map]. *)
Example report_value_errors :
  let run := report_value sample_good_env in
  run VNull = Throw (cannot_destructure "null") ∧
  run (VNum 5) = Throw no_persona ∧
  run (VObj [("persona", VNull)]) = Throw (cannot_read "null" "role") ∧
  run (VObj [("persona", VStr "Analyst")]) = Throw no_job ∧
  run (sample_value (VObj [("toString", VNum 1)]) sample_notes) =
    Throw no_primitive ∧
  run (sample_value (VStr "Analyst") VNull) = Throw no_documents ∧
  run (sample_value (VStr "Analyst") (VObj [])) = Throw no_documents ∧
  run (sample_value (VStr "Analyst") (VStr "ab")) = Throw no_filename ∧
  run (sample_value (VStr "Analyst") (VArr [VNull])) =
    Throw (cannot_read "null" "filename") ∧
  run (sample_value (VStr "Analyst") (VArr [VObj [("filename", VNum 1)]])) =
    Throw no_filename ∧
  run (sample_value (VStr "Analyst") (VStr "")) = Throw not_a_function.
Proof. cbv zeta. by vm_compute. Qed.

(** A role that is a number is in the report as the number, and in the
    context as its digits. *)
Example numbered_role_sample :
  (λ out, field "persona" (field "metadata" out)) <$>
    report_value sample_good_env sample_numbered = Ok (VNum 5) ∧
  fst <$> converted "role" (field "persona" sample_numbered) = Ok "5".
Proof. by vm_compute. Qed.

(** With the empty string for [documents] the loop has nothing to do;
    the run goes on to the embedding of the context and fails when the
    report is built. *)
Example empty_string_documents :
  report_request sample_good_env (sample_value (VStr "Analyst") (VStr ""))
    initial_world =
  (Throw not_a_function,
   {| stdout :=
        ["Initializing AI Model (will download on first run)...";
         "Model Initialized."; "Processing PDF documents...";
         "Extracted 0 total text chunks."; "Generating embeddings...";
         "Calculating relevance scores..."; "Generating final output..."];
      stderr := []; written := []; exitCode := None |}).
Proof. by vm_compute. Qed.

(** The report of the request whose role is the number 5 is the report
    of the request whose role is the string "5", with the number for
    the role. *)
Example numbered_report :
  report_value sample_good_env sample_numbered =
  retyped sample_good_env sample_numbered <$>
    report_spec (sample_env sample_numbered_request).
Proof. by vm_compute. Qed.

Lemma request_file_typed_witness :
  ∃ v, readJson_disk (request_disk (sample_request sample_names)) INPUT_JSON =
         Some (Parsed v "") ∧
       report_request sample_good_env v ≡
       (out ← report sample_good_env; mret (outputValue out)).
Proof.
  apply (request_file_typed sample_good_env
           (request_disk (sample_request sample_names))
           (sample_request sample_names)).
  apply request_disk_holds.
Defined.
End examples.
