(* ===== verification/Transition.v ===== *)
(** * Transition systems

    What file [Machine] needs of a step relation [R] on states, beyond
    the closures of stdpp ([rtc], [red], [nf], [sn]):

    - [eventually R P s]: every run from [s] reaches a state where [P]
      holds, and none stops before;
    - invariants of the states reached from a state;
    - termination from a measure that decreases in the lexicographic
      order of pairs of numbers;
    - the step from termination and progress to [eventually]. *)

From stdpp Require Import relations.
From S2P Require Import Prelude.

Section transition.
Context {S : Type} (R : relation S).
Implicit Types (s t : S) (P Q I : S → Prop).

(** [P] holds at [s], or [s] can step and [P] is reached whatever the
    step. *)
Inductive eventually P s : Prop :=
  | eventually_now : P s → eventually P s
  | eventually_next :
      red R s → (∀ t, R s t → eventually P t) → eventually P s.

(** The lexicographic order of (phase, counter). *)
Definition lex_lt (a b : nat * nat) : Prop :=
  a.1 < b.1 ∨ (a.1 = b.1 ∧ a.2 < b.2).

Lemma eventually_mono P Q s :
  (∀ t, P t → Q t) → eventually P s → eventually Q s.
Proof. intros HPQ. induction 1; [left|right]; auto. Qed.

Lemma eventually_trans P Q s :
  eventually P s → (∀ t, P t → eventually Q t) → eventually Q s.
Proof. intros HP HPQ. induction HP; [|right]; auto. Qed.

(** A run that [eventually] promises exists. *)
Lemma eventually_rtc P s : eventually P s → ∃ t, rtc R s t ∧ P t.
Proof.
  induction 1 as [s HP|s [t Hst] _ IH].
  - by exists s.
  - destruct (IH t Hst) as (t' & ? & ?). exists t'. split; [|done].
    by eapply rtc_l.
Qed.

(** A run that cannot go on has passed a state where [P] holds. *)
Lemma eventually_nf P s t :
  eventually P s → rtc R s t → nf R t →
  ∃ t', rtc R s t' ∧ rtc R t' t ∧ P t'.
Proof.
  intros Hev Hrun Hnf. induction Hev as [s HP|s Hred _ IH].
  - by exists s.
  - destruct Hrun as [|s s' t Hstep Hrun]; [by destruct Hnf|].
    destruct (IH s' Hstep Hrun) as (t' & ? & ? & ?).
    exists t'. split_and!; [by eapply rtc_l|done..].
Qed.

(** What the first state has and every step keeps, every state of a run
    has. *)
Lemma rtc_invariant I s t :
  (∀ s t, I s → R s t → I t) → I s → rtc R s t → I t.
Proof. intros Hstep Hs Hrun. induction Hrun; eauto. Qed.

(** Runs reach [P] when the relation terminates and, as long as an
    invariant holds, a state either has [P] or can step, and the step
    leads to [P] or keeps the invariant. *)
Lemma sn_eventually P I s :
  sn R s → I s →
  (∀ t, I t → P t ∨ (red R t ∧ ∀ t', R t t' → P t' ∨ I t')) →
  eventually P s.
Proof.
  intros Hsn Hs Hprog. induction Hsn as [s _ IH].
  destruct (Hprog s Hs) as [HP|[Hred Hnext]]; [by left|]. right; [done|].
  intros t Hst. destruct (Hnext t Hst) as [HP|Ht]; [by left|by apply IH].
Qed.

Lemma lex_lt_wf : well_founded lex_lt.
Proof.
  intros [a b]. revert b. induction (lt_wf a) as [a _ IHa]. intros b.
  induction (lt_wf b) as [b _ IHb]. constructor.
  intros [a' b'] Hlt. unfold lex_lt in Hlt. simpl in Hlt.
  destruct Hlt as [Hlt|[-> Hlt]]; auto.
Qed.

(** The relation terminates when a measure decreases with every step. *)
Lemma measure_sn (m : S → nat * nat) :
  (∀ s t, R s t → lex_lt (m t) (m s)) → ∀ s, sn R s.
Proof.
  intros Hdec s. remember (m s) as x eqn:Hx. revert s Hx.
  induction (lex_lt_wf x) as [x _ IH]. intros s ->. constructor.
  intros t Hst. eapply IH; [by apply Hdec|done].
Qed.
End transition.

Arguments eventually_now {_ _ _ _}.
Arguments eventually_next {_ _ _ _}.
