(* ===== verification/Machine.v ===== *)
(** * [main] as a state machine

    An [async] function runs from one [await] to the next and is
    suspended in between, until the promise it waits for settles. [main]
    of [src/extract.js] is here the machine the function is: a control
    point for each [await] with the locals it resumes with, and a step for
    each settlement. The code between two [await]s is a computation of
    [Effects] that ends at the next control point.

    The machine adds to [Main.program] what a function from the world to
    the world cannot say:

    - a call that never settles: [hangs] tells which calls do not, and a
      machine that waits for one has no step;
    - [Promise.all]: the embeddings of the sections are all in flight at
      once and settle in any order, one step each; the first rejection
      rejects [main].

    The theorems: every run ends when no call hangs; where it ends is
    where [Main.main] ends, the console included, but for the error that
    is printed when several embeddings are rejected; the order in which
    the embeddings settle does not change the report; a machine that is
    stuck waits for a call that hangs, and has written nothing. The
    invariant behind them is [agrees]: the code that is left at a control
    point ([rest_at]), run in the monad of [Main], ends as [Main.main]
    does from the start. *)

From stdpp Require Import relations.
From Stdlib Require Import Floats.
From S2P Require Import Prelude JsNumber JsString JsPath JsArray PdfDoc.
From S2P Require Import Process Cosine Ranker Report Effects Main Transition.

(** The calls [main] waits for. *)
Inductive Call : Type :=
  | CallImport
  | CallPipeline
  | CallEnsureDir (dir : string)
  | CallReadJson (file : string)
  | CallProcess (pdfPath : string)
  | CallEmbed (text : string)
  | CallWriteJson (file : string).

#[export] Instance Call_eq_dec : EqDecision Call.
Proof. solve_decision. Defined.

Section machine.
Context `{JsArith F, JsKey F}.

(** ** Control points *)

(** Where [main] is suspended, with the locals that are live there; or
    how its promise has settled. *)
Inductive Ctl : Type :=
  (** [await import("@xenova/transformers")] *)
  | AwaitImport
  (** [await pipeline(...)] *)
  | AwaitPipeline
  (** [await fs.ensureDir(INPUT_DIR)] *)
  | AwaitEnsureInput (extractor : Extractor (F:=F))
  (** [await fs.readJson(INPUT_JSON)] *)
  | AwaitReadJson (extractor : Extractor (F:=F))
  (** [await processFileAndGetRuns(pdfPath)], with the documents that
      follow *)
  | AwaitProcess (extractor : Extractor (F:=F)) (inputData : Input.InputData)
      (contextText : string) (allContentRuns : list ContentRun)
      (pdfPath : string) (rest : list Input.DocRef)
  (** [await extractor(contextText, ...)] *)
  | AwaitCtxEmbed (extractor : Extractor (F:=F)) (inputData : Input.InputData)
      (contextText : string) (allContentRuns : list ContentRun)
  (** [await Promise.all(...)], with a slot for the embedding of each
      section: [None] until it is fulfilled *)
  | AwaitAll (extractor : Extractor (F:=F)) (inputData : Input.InputData)
      (allContentRuns : list ContentRun) (ctxEmbed : list F)
      (slots : list (option (list F)))
  (** [await fs.ensureDir(OUTPUT_DIR)] *)
  | AwaitEnsureOutput (outputJson : OutputJson)
  (** [await fs.writeJson(OUTPUT_JSON, ...)] *)
  | AwaitWriteJson (outputJson : OutputJson)
  (** the promise of [main] is fulfilled *)
  | Fulfilled
  (** the promise of [main] is rejected, the handler of [catch] is due *)
  | Rejected (err : string)
  (** after [process.exit(1)] *)
  | Exited.

Definition Config : Type := Ctl * World.

(** The promise of [main] has settled and its handler has run. *)
Definition is_final (k : Ctl) : bool :=
  match k with Fulfilled | Exited => true | _ => false end.

Definition final (c : Config) : Prop := is_final c.1 = true.

Context (env : Env (F:=F)) (hangs : Call → bool).

(** ** From one [await] to the next *)

(** A stretch of code that runs to the next [await] or to the end: a
    [throw] in it rejects the promise of [main]. *)
Definition segment (m : IO Ctl) (w : World) : Config :=
  match m w with
  | (Ok k, w') => (k, w')
  | (Throw err, w') => (Rejected err, w')
  end.

Definition afterImport : IO Ctl :=
  _ ← console_log "Initializing AI Model (will download on first run)...";
  mret AwaitPipeline.

Definition afterPipeline (extractor : Extractor) : IO Ctl :=
  _ ← console_log "Model Initialized.";
  mret (AwaitEnsureInput extractor).

(** The head of the loop [for (const doc of documents)]: the next
    document, or the code after the loop up to the embedding of the
    context. *)
Definition loopHead (extractor : Extractor) (inputData : Input.InputData)
    (contextText : string) (allContentRuns : list ContentRun)
    (docs : list Input.DocRef) : IO Ctl :=
  match docs with
  | doc :: rest =>
      filename ← lift (required (Input.filename doc) no_filename);
      let pdfPath := path_join [PDF_DIR; filename] in
      _ ← console_log ("- Extracting from " +:+ filename);
      mret (AwaitProcess extractor inputData contextText allContentRuns
              pdfPath rest)
  | [] =>
      _ ← console_log ("Extracted " +:+ pretty (length allContentRuns) +:+
                       " total text chunks.");
      _ ← console_log "Generating embeddings...";
      mret (AwaitCtxEmbed extractor inputData contextText allContentRuns)
  end.

Definition afterReadJson (extractor : Extractor)
    (inputData : Input.InputData) : IO Ctl :=
  contextText ← lift (contextTextOf (Input.persona inputData)
                        (Input.job_to_be_done inputData));
  _ ← console_log "Processing PDF documents...";
  docs ← lift (required (Input.documents inputData) no_documents);
  loopHead extractor inputData contextText [] docs.

(** [allContentRuns.map((run) => extractor(run.text, ...))]: a call in
    flight for each section. *)
Definition afterCtxEmbed (extractor : Extractor)
    (inputData : Input.InputData) (allContentRuns : list ContentRun)
    (ctxEmbed : list F) : IO Ctl :=
  mret (AwaitAll extractor inputData allContentRuns ctxEmbed
          (replicate (length allContentRuns) None)).

(** Steps 5 and 6. *)
Definition afterAll (inputData : Input.InputData)
    (allContentRuns : list ContentRun) (ctxEmbed : list F)
    (contentEmbeddings : list (list F)) : IO Ctl :=
  _ ← console_log "Calculating relevance scores...";
  let ranked := rankRuns ctxEmbed allContentRuns contentEmbeddings in
  _ ← console_log "Generating final output...";
  documents ← lift (required (Input.documents inputData) no_documents);
  persona ← lift (required (Input.persona inputData) no_persona);
  job_to_be_done ← lift (required (Input.job_to_be_done inputData) no_job);
  mret (AwaitEnsureOutput
          (buildOutput documents persona job_to_be_done (now env) ranked)).

Definition afterWriteJson : IO Ctl :=
  _ ← console_log ("✅ Success! Output written to " +:+ OUTPUT_JSON);
  mret Fulfilled.

(** The handler of [main().catch(...)]. *)
Definition onRejected (err : string) : IO Ctl :=
  _ ← console_error ("Fatal error: " +:+ err);
  _ ← process_exit 1;
  mret Exited.

(** ** Steps *)

(** The slots are all fulfilled. *)
Definition fulfilled (slots : list (option (list F))) (vs : list (list F)) : Prop :=
  slots = Some <$> vs.

Inductive step : Config → Config → Prop :=
  | step_import w :
      hangs CallImport = false →
      step (AwaitImport, w)
           (segment (_ ← lift (importTransformers env); afterImport) w)
  | step_pipeline w :
      hangs CallPipeline = false →
      step (AwaitPipeline, w)
           (segment (extractor ← lift (pipeline env);
                     afterPipeline extractor) w)
  | step_ensure_input extractor w :
      hangs (CallEnsureDir INPUT_DIR) = false →
      step (AwaitEnsureInput extractor, w)
           (segment (_ ← lift (ensureDir env INPUT_DIR);
                     mret (AwaitReadJson extractor)) w)
  | step_read extractor w :
      hangs (CallReadJson INPUT_JSON) = false →
      step (AwaitReadJson extractor, w)
           (segment (inputData ← lift (readJson env INPUT_JSON);
                     afterReadJson extractor inputData) w)
  | step_process extractor inputData contextText allContentRuns pdfPath rest w :
      hangs (CallProcess pdfPath) = false →
      step (AwaitProcess extractor inputData contextText allContentRuns
              pdfPath rest, w)
           (segment (runs ← lift (processFileAndGetRuns (getDocument env)
                                    pdfPath);
                     loopHead extractor inputData contextText
                       (allContentRuns ++ runs) rest) w)
  | step_ctx extractor inputData contextText allContentRuns w :
      hangs (CallEmbed contextText) = false →
      step (AwaitCtxEmbed extractor inputData contextText allContentRuns, w)
           (segment (ctxEmbed ← lift (extractor contextText);
                     afterCtxEmbed extractor inputData allContentRuns
                       ctxEmbed) w)
  (** an embedding in flight is fulfilled *)
  | step_settle extractor inputData allContentRuns ctxEmbed slots i cr v w :
      allContentRuns !! i = Some cr → slots !! i = Some None →
      hangs (CallEmbed (text (run cr))) = false →
      extractor (text (run cr)) = Ok v →
      step (AwaitAll extractor inputData allContentRuns ctxEmbed slots, w)
           (AwaitAll extractor inputData allContentRuns ctxEmbed
              (<[i := Some v]> slots), w)
  (** an embedding in flight is rejected: so is [Promise.all] *)
  | step_reject extractor inputData allContentRuns ctxEmbed slots i cr err w :
      allContentRuns !! i = Some cr → slots !! i = Some None →
      hangs (CallEmbed (text (run cr))) = false →
      extractor (text (run cr)) = Throw err →
      step (AwaitAll extractor inputData allContentRuns ctxEmbed slots, w)
           (Rejected err, w)
  (** all are fulfilled: [contentEmbeddings] holds the vectors in the
      order of the sections *)
  | step_all extractor inputData allContentRuns ctxEmbed slots vs w :
      fulfilled slots vs →
      step (AwaitAll extractor inputData allContentRuns ctxEmbed slots, w)
           (segment (afterAll inputData allContentRuns ctxEmbed vs) w)
  | step_ensure_output outputJson w :
      hangs (CallEnsureDir OUTPUT_DIR) = false →
      step (AwaitEnsureOutput outputJson, w)
           (segment (_ ← lift (ensureDir env OUTPUT_DIR);
                     mret (AwaitWriteJson outputJson)) w)
  | step_write outputJson w :
      hangs (CallWriteJson OUTPUT_JSON) = false →
      step (AwaitWriteJson outputJson, w)
           (segment (_ ← write_file env OUTPUT_JSON outputJson;
                     afterWriteJson) w)
  | step_catch err w :
      step (Rejected err, w) (segment (onRejected err) w).

(** The start of the program: [main()] is called and runs to its first
    [await]. *)
Definition start (w : World) : Config := (AwaitImport, w).

(** What can be reached from the start. *)
Definition reachable (w : World) (c : Config) : Prop := rtc step (start w) c.

(** ** A scheduler

    The machine as a function: of the embeddings in flight, the first in
    the order of the sections whose call settles is the next to
    settle. *)

(** The code that runs when the call awaited at [k] settles. *)
Definition resume (k : Ctl) : option (Call * IO Ctl) :=
  match k with
  | AwaitImport =>
      Some (CallImport, _ ← lift (importTransformers env); afterImport)
  | AwaitPipeline =>
      Some (CallPipeline,
            extractor ← lift (pipeline env); afterPipeline extractor)
  | AwaitEnsureInput extractor =>
      Some (CallEnsureDir INPUT_DIR,
            _ ← lift (ensureDir env INPUT_DIR); mret (AwaitReadJson extractor))
  | AwaitReadJson extractor =>
      Some (CallReadJson INPUT_JSON,
            inputData ← lift (readJson env INPUT_JSON);
            afterReadJson extractor inputData)
  | AwaitProcess extractor inputData contextText allContentRuns pdfPath rest =>
      Some (CallProcess pdfPath,
            runs ← lift (processFileAndGetRuns (getDocument env) pdfPath);
            loopHead extractor inputData contextText
              (allContentRuns ++ runs) rest)
  | AwaitCtxEmbed extractor inputData contextText allContentRuns =>
      Some (CallEmbed contextText,
            ctxEmbed ← lift (extractor contextText);
            afterCtxEmbed extractor inputData allContentRuns ctxEmbed)
  | AwaitEnsureOutput outputJson =>
      Some (CallEnsureDir OUTPUT_DIR,
            _ ← lift (ensureDir env OUTPUT_DIR);
            mret (AwaitWriteJson outputJson))
  | AwaitWriteJson outputJson =>
      Some (CallWriteJson OUTPUT_JSON,
            _ ← write_file env OUTPUT_JSON outputJson; afterWriteJson)
  | AwaitAll _ _ _ _ _ | Fulfilled | Rejected _ | Exited => None
  end.

(** The first slot that is empty and whose call settles. *)
Definition next_slot (allContentRuns : list ContentRun)
    (slots : list (option (list F))) : option (nat * ContentRun) :=
  p ← list_find (λ p, p.2 = None ∧
                      hangs (CallEmbed (text (run p.1))) = false)
                (zip allContentRuns slots);
  Some (p.1, p.2.1).

Definition step_fn (c : Config) : option Config :=
  match c.1 with
  | AwaitAll extractor inputData allContentRuns ctxEmbed slots =>
      match mapM id slots with
      | Some vs =>
          Some (segment (afterAll inputData allContentRuns ctxEmbed vs) c.2)
      | None =>
          '(i, cr) ← next_slot allContentRuns slots;
          match extractor (text (run cr)) with
          | Ok v =>
              Some (AwaitAll extractor inputData allContentRuns ctxEmbed
                      (<[i := Some v]> slots), c.2)
          | Throw err => Some (Rejected err, c.2)
          end
      end
  | Rejected err => Some (segment (onRejected err) c.2)
  | k =>
      '(call, m) ← resume k;
      if hangs call then None else Some (segment m c.2)
  end.

(** At most [fuel] steps under the scheduler. *)
Fixpoint exec (fuel : nat) (c : Config) : Config :=
  match fuel with
  | 0 => c
  | S n => match step_fn c with Some c' => exec n c' | None => c end
  end.

(** ** Measures *)

(** The embeddings still in flight. *)
Definition pending (slots : list (option (list F))) : nat :=
  length (filter (λ s, s = None) slots).

(** How far the control point is from the end of [main]. *)
Definition phase (k : Ctl) : nat :=
  match k with
  | AwaitImport => 10
  | AwaitPipeline => 9
  | AwaitEnsureInput _ => 8
  | AwaitReadJson _ => 7
  | AwaitProcess _ _ _ _ _ _ => 6
  | AwaitCtxEmbed _ _ _ _ => 5
  | AwaitAll _ _ _ _ _ => 4
  | AwaitEnsureOutput _ => 3
  | AwaitWriteJson _ => 2
  | Rejected _ => 1
  | Fulfilled | Exited => 0
  end.

(** What is left of the loop at the control point. *)
Definition counter (k : Ctl) : nat :=
  match k with
  | AwaitProcess _ _ _ _ _ rest => length rest
  | AwaitAll _ _ _ _ slots => pending slots
  | _ => 0
  end.

Definition measure (c : Config) : nat * nat := (phase c.1, counter c.1).

(** ** The calls a machine waits for *)

(** The embeddings in flight. *)
Definition in_flight (allContentRuns : list ContentRun)
    (slots : list (option (list F))) : list Call :=
  omap (λ p, match p.2 with
             | None => Some (CallEmbed (text (run p.1)))
             | Some _ => None
             end) (zip allContentRuns slots).

Definition awaited (k : Ctl) : list Call :=
  match k with
  | AwaitImport => [CallImport]
  | AwaitPipeline => [CallPipeline]
  | AwaitEnsureInput _ => [CallEnsureDir INPUT_DIR]
  | AwaitReadJson _ => [CallReadJson INPUT_JSON]
  | AwaitProcess _ _ _ _ pdfPath _ => [CallProcess pdfPath]
  | AwaitCtxEmbed _ _ contextText _ => [CallEmbed contextText]
  | AwaitAll _ _ allContentRuns _ slots => in_flight allContentRuns slots
  | AwaitEnsureOutput _ => [CallEnsureDir OUTPUT_DIR]
  | AwaitWriteJson _ => [CallWriteJson OUTPUT_JSON]
  | Fulfilled | Rejected _ | Exited => []
  end.

(** The machine waits, and for calls that hang only. *)
Definition stalled (c : Config) : Prop :=
  awaited c.1 ≠ [] ∧ Forall (λ call, hangs call = true) (awaited c.1).

(** ** Well-formed control points *)

(** The extractor is the one the pipeline gave, and there is a slot for
    each section. *)
Definition wf (k : Ctl) : Prop :=
  match k with
  | AwaitEnsureInput extractor | AwaitReadJson extractor
  | AwaitProcess extractor _ _ _ _ _ | AwaitCtxEmbed extractor _ _ _ =>
      pipeline env = Ok extractor
  | AwaitAll extractor _ allContentRuns _ slots =>
      pipeline env = Ok extractor ∧ length slots = length allContentRuns
  | _ => True
  end.

(** ** What is left of [main] at a control point *)

Definition rest_write (out : OutputJson) : IO unit :=
  _ ← write_file env OUTPUT_JSON out;
  console_log ("✅ Success! Output written to " +:+ OUTPUT_JSON).

Definition rest_output (out : OutputJson) : IO unit :=
  _ ← lift (ensureDir env OUTPUT_DIR);
  rest_write out.

Definition rest_build (inputData : Input.InputData)
    (allContentRuns : list ContentRun) (ctxEmbed : list F)
    (contentEmbeddings : list (list F)) : IO unit :=
  _ ← console_log "Calculating relevance scores...";
  _ ← console_log "Generating final output...";
  documents ← lift (required (Input.documents inputData) no_documents);
  persona ← lift (required (Input.persona inputData) no_persona);
  job_to_be_done ← lift (required (Input.job_to_be_done inputData) no_job);
  rest_output (buildOutput documents persona job_to_be_done (now env)
                 (rankRuns ctxEmbed allContentRuns contentEmbeddings)).

(** The vector of a slot: the one it holds, or the one its call will
    yield. *)
Definition slot_result (extractor : Extractor)
    (p : ContentRun * option (list F)) : result (list F) :=
  match p.2 with Some v => Ok v | None => extractor (text (run p.1)) end.

(** The embeddings that are still in flight settle in the order of the
    sections. *)
Definition rest_all (extractor : Extractor) (inputData : Input.InputData)
    (allContentRuns : list ContentRun) (ctxEmbed : list F)
    (slots : list (option (list F))) : IO unit :=
  vs ← lift (mapM_result (slot_result extractor) (zip allContentRuns slots));
  rest_build inputData allContentRuns ctxEmbed vs.

Definition rest_embed (extractor : Extractor) (inputData : Input.InputData)
    (contextText : string) (allContentRuns : list ContentRun) : IO unit :=
  ctxEmbed ← lift (extractor contextText);
  vs ← lift (mapM_result (λ cr, extractor (text (run cr))) allContentRuns);
  rest_build inputData allContentRuns ctxEmbed vs.

Fixpoint rest_loop (extractor : Extractor) (inputData : Input.InputData)
    (contextText : string) (allContentRuns : list ContentRun)
    (docs : list Input.DocRef) : IO unit :=
  match docs with
  | doc :: rest =>
      filename ← lift (required (Input.filename doc) no_filename);
      _ ← console_log ("- Extracting from " +:+ filename);
      runs ← lift (processFileAndGetRuns (getDocument env)
                     (path_join [PDF_DIR; filename]));
      rest_loop extractor inputData contextText (allContentRuns ++ runs) rest
  | [] =>
      _ ← console_log ("Extracted " +:+ pretty (length allContentRuns) +:+
                       " total text chunks.");
      _ ← console_log "Generating embeddings...";
      rest_embed extractor inputData contextText allContentRuns
  end.

Definition rest_read (extractor : Extractor) (inputData : Input.InputData)
  : IO unit :=
  contextText ← lift (contextTextOf (Input.persona inputData)
                        (Input.job_to_be_done inputData));
  _ ← console_log "Processing PDF documents...";
  docs ← lift (required (Input.documents inputData) no_documents);
  rest_loop extractor inputData contextText [] docs.

Definition rest_input (extractor : Extractor) : IO unit :=
  inputData ← lift (readJson env INPUT_JSON);
  rest_read extractor inputData.

Definition rest_model : IO unit :=
  extractor ← lift (pipeline env);
  _ ← console_log "Model Initialized.";
  _ ← lift (ensureDir env INPUT_DIR);
  rest_input extractor.

(** What [main] does from a control point on, the embeddings in flight
    taken in the order of the sections. *)
Definition rest_at (k : Ctl) : IO unit :=
  match k with
  | AwaitImport =>
      _ ← lift (importTransformers env);
      _ ← console_log "Initializing AI Model (will download on first run)...";
      rest_model
  | AwaitPipeline => rest_model
  | AwaitEnsureInput extractor =>
      _ ← lift (ensureDir env INPUT_DIR); rest_input extractor
  | AwaitReadJson extractor => rest_input extractor
  | AwaitProcess extractor inputData contextText allContentRuns pdfPath rest =>
      runs ← lift (processFileAndGetRuns (getDocument env) pdfPath);
      rest_loop extractor inputData contextText (allContentRuns ++ runs) rest
  | AwaitCtxEmbed extractor inputData contextText allContentRuns =>
      rest_embed extractor inputData contextText allContentRuns
  | AwaitAll extractor inputData allContentRuns ctxEmbed slots =>
      rest_all extractor inputData allContentRuns ctxEmbed slots
  | AwaitEnsureOutput out => rest_output out
  | AwaitWriteJson out => rest_write out
  | Rejected err => lift (Throw err)
  | Fulfilled | Exited => mret ()
  end.

(** ** Agreement with [main] *)

(** An error of the feature extractor. *)
Definition embed_error (e : string) : Prop :=
  ∃ extractor s, pipeline env = Ok extractor ∧ extractor s = Throw e.

(** Two runs end in the same world with the same result, or with two
    errors of which the first is a rejected embedding. *)
Definition run_agree (x y : result unit * World) : Prop :=
  x.2 = y.2 ∧
  (x.1 = y.1 ∨ ∃ e e', x.1 = Throw e ∧ y.1 = Throw e' ∧ embed_error e).

(** The world but for the console. *)
Definition untouched (w0 w : World) : Prop :=
  written w = written w0 ∧ stderr w = stderr w0 ∧ exitCode w = exitCode w0.

(** The world after a fatal error: the error on the error console and
    status 1. *)
Definition handled (err : string) (w : World) : World := {|
  stdout := stdout w;
  stderr := stderr w ++ ["Fatal error: " +:+ err];
  written := written w;
  exitCode := Some 1%Z;
|}.

(** The end [main] prescribes for a machine started in [w0]: fulfilled in
    the world [main] ends in, or exited in that world after the handler.
    The error the handler prints is that of [main], or that of an
    embedding that was rejected before it. *)
Definition ends_as (w0 : World) (c : Config) : Prop :=
  match main env w0 with
  | (Ok _, w') => c = (Fulfilled, w')
  | (Throw e0, w') =>
      ∃ e, c = (Exited, handled e w') ∧ (e = e0 ∨ embed_error e)
  end.

(** The step from [c] to [c'] is the rejection of an embedding that was
    in flight. *)
Definition rejected_slot (c c' : Config) : Prop :=
  ∃ extractor inputData allContentRuns ctxEmbed slots i cr err,
    c.1 = AwaitAll extractor inputData allContentRuns ctxEmbed slots ∧
    c'.1 = Rejected err ∧ c'.2 = c.2 ∧
    allContentRuns !! i = Some cr ∧ slots !! i = Some None ∧
    extractor (text (run cr)) = Throw err.

(** How a machine that started in [w0] stands to [main]: at the end it
    has done what [main] does, before the end it has written nothing and
    what it will do is what [main] does. *)
Definition agrees (w0 : World) (c : Config) : Prop :=
  if is_final c.1 then ends_as w0 c
  else wf c.1 ∧ run_agree (rest_at c.1 c.2) (main env w0) ∧ untouched w0 c.2.

(** The slots that are fulfilled hold the vectors [vs]. *)
Definition settled_in (vs : list (list F)) (slots : list (option (list F)))
  : Prop :=
  Forall2 (λ s v, s = None ∨ s = Some v) slots vs.

(** ** Tactics *)

Ltac seg_unfold :=
  unfold segment, afterImport, afterPipeline, afterReadJson, loopHead,
    afterCtxEmbed, afterAll, afterWriteJson, onRejected, write_file,
    mbind, mret, io_bind, io_ret, lift, console_log, console_error,
    process_exit.

(** The cases of a step, and of the code that runs in it. *)
Ltac step_cases Hs :=
  destruct Hs; seg_unfold; repeat case_match; simplify_eq/=.

(** The cases of the results that are bound in the goal. *)
Ltac bind_cases :=
  repeat (simpl;
          match goal with
          | |- context [mbind _ ?r] =>
              lazymatch r with
              | mbind _ _ => fail
              | Ok _ => fail
              | Throw _ => fail
              | _ => destruct r eqn:?
              end
          end); simpl.
(** ** Every run ends *)

Lemma segment_Ok (m : IO Ctl) w k w' : m w = (Ok k, w') → segment m w = (k, w').
Proof. unfold segment. by intros ->. Qed.

Lemma segment_Throw (m : IO Ctl) w e w' :
  m w = (Throw e, w') → segment m w = (Rejected e, w').
Proof. unfold segment. by intros ->. Qed.

Lemma pending_insert slots i v :
  slots !! i = Some None → pending (<[i := Some v]> slots) < pending slots.
Proof.
  unfold pending. revert i. induction slots as [|s slots IH]; [done|].
  intros [|i] Hi.
  - injection Hi as ->. change (<[0:=Some v]> (None :: slots)) with (Some v :: slots).
    rewrite filter_cons_False, filter_cons_True by done. simpl. lia.
  - specialize (IH i Hi). change (<[S i:=Some v]> (s :: slots))
      with (s :: <[i:=Some v]> slots).
    destruct (decide (s = None)).
    + rewrite !filter_cons_True by done. simpl. lia.
    + rewrite !filter_cons_False by done. done.
Qed.

Lemma step_decreases c c' : step c c' → lex_lt (measure c') (measure c).
Proof.
  intros Hs. unfold lex_lt, measure. step_cases Hs; try lia.
  all: right; split; [done|]; by apply pending_insert.
Qed.

Lemma elem_of_in_flight call all slots :
  call ∈ in_flight all slots ↔
  ∃ i cr, all !! i = Some cr ∧ slots !! i = Some None ∧
          call = CallEmbed (text (run cr)).
Proof.
  unfold in_flight. rewrite list_elem_of_omap. split.
  - intros ([cr slot] & [i Hi]%list_elem_of_lookup & Hc).
    apply lookup_zip_with_Some in Hi as (? & ? & [= <- <-] & ? & ?).
    simpl in Hc. destruct slot; simplify_eq. eauto.
  - intros (i & cr & Hcr & Hs & ->). exists (cr, None). split; [|done].
    apply list_elem_of_lookup. exists i. apply lookup_zip_with_Some. eauto.
Qed.

Lemma in_flight_fulfilled all vs : in_flight all (Some <$> vs) = [].
Proof.
  apply elem_of_nil_inv. intros call (i & cr & _ & Hs & _)%elem_of_in_flight.
  rewrite list_lookup_fmap in Hs. by destruct (vs !! i).
Qed.

Lemma in_flight_nil all slots :
  length slots = length all → in_flight all slots = [] →
  ∃ vs, fulfilled slots vs.
Proof.
  unfold fulfilled. revert all.
  induction slots as [|[v|] slots IH]; intros [|cr all] Hl Hnil;
    simplify_eq/=; [by exists []|].
  destruct (IH all) as [vs ->]; [done..|]. by exists (v :: vs).
Qed.

(** A machine can step when it is not at its end and one of the calls
    it waits for settles, or it waits for none. *)
Lemma step_red c :
  wf c.1 →
  red step c ↔
  ¬ final c ∧ (awaited c.1 = [] ∨ ∃ call, call ∈ awaited c.1 ∧ hangs call = false).
Proof.
  intros Hwf. split.
  - intros [c' Hs]. destruct Hs; (split; [by unfold final; simpl|]); simpl;
      unfold fulfilled in *; subst; rewrite ?in_flight_fulfilled;
      try (by left); right; eexists; (split; [|eassumption]);
      rewrite ?elem_of_in_flight, ?list_elem_of_singleton; eauto.
  - destruct c as [k w]. unfold final. intros [Hnf Hw].
    destruct k; simpl in *; try done;
      try (destruct Hw as [?|(call & ->%list_elem_of_singleton & ?)];
           [done|]; eexists; by constructor).
    + destruct Hw as [Hnil|(call & Hin & Hh)].
      * destruct (in_flight_nil _ _ (proj2 Hwf) Hnil) as [vs Hvs].
        eexists. by apply step_all.
      * apply elem_of_in_flight in Hin as (i & cr & Hcr & Hs & ->).
        destruct (extractor (text (run cr))) eqn:Hex; eexists;
          [by eapply step_settle|by eapply step_reject].
    + eexists. constructor.
Qed.

(** ** The slots *)

Section slots.
Context (extractor : Extractor (F:=F)).
Implicit Types (all : list ContentRun) (slots : list (option (list F))).

Lemma slots_start all :
  mapM_result (slot_result extractor) (zip all (replicate (length all) None)) =
  mapM_result (λ cr, extractor (text (run cr))) all.
Proof. induction all as [|cr all IH]; simpl; [done|]. by rewrite IH. Qed.

Lemma slots_settle all slots i cr v :
  all !! i = Some cr → slots !! i = Some None →
  extractor (text (run cr)) = Ok v →
  mapM_result (slot_result extractor) (zip all (<[i := Some v]> slots)) =
  mapM_result (slot_result extractor) (zip all slots).
Proof.
  revert slots i. induction all as [|cr' all IH]; intros [|s slots] [|i] ???;
    simplify_eq/=; try done.
  - unfold slot_result at 1 3. simpl. by run_result.
  - by rewrite IH.
Qed.

Lemma slots_reject all slots i cr e :
  all !! i = Some cr → slots !! i = Some None →
  extractor (text (run cr)) = Throw e →
  ∃ e', mapM_result (slot_result extractor) (zip all slots) = Throw e'.
Proof.
  intros Hcr Hs He.
  destruct (mapM_result _ _) as [vs|e'] eqn:Hvs; [|by eexists].
  assert (is_Ok (mapM_result (slot_result extractor) (zip all slots))) as Hok
    by (by eexists).
  apply mapM_result_is_Ok in Hok. rewrite Forall_lookup in Hok.
  destruct (Hok i (cr, None)) as [v Hv].
  - apply lookup_zip_with_Some. eauto.
  - unfold slot_result in Hv. simpl in Hv. congruence.
Qed.

Lemma slots_fulfilled all vs :
  length vs = length all →
  mapM_result (slot_result extractor) (zip all (Some <$> vs)) = Ok vs.
Proof.
  revert vs. induction all as [|cr all IH]; intros [|v vs] ?; simplify_eq/=;
    [done|]. by rewrite IH.
Qed.
End slots.

(** ** A step keeps what is left of [main] *)

Lemma step_wf c c' : step c c' → wf c.1 → wf c'.1.
Proof.
  intros Hs. step_cases Hs; try done.
  - intros ?. by rewrite length_replicate.
  - intros [? ?]. by rewrite length_insert.
Qed.

Lemma step_untouched c c' :
  step c c' → is_final c'.1 = false → untouched c.2 c'.2.
Proof. intros Hs. by step_cases Hs. Qed.

Lemma step_not_final c c' : step c c' → is_final c.1 = false.
Proof. by destruct 1. Qed.

(** Where a stretch of code ends, what is left is what was left after
    it. *)
Lemma rest_segment (m : IO Ctl) w :
  rest_at (segment m w).1 (segment m w).2 = (m ≫= rest_at) w.
Proof.
  unfold segment, mbind, io_bind. by destruct (m w) as [[k|e] w'].
Qed.

Lemma rest_loopHead extractor inputData contextText all docs w :
  (loopHead extractor inputData contextText all docs ≫= rest_at) w =
  rest_loop extractor inputData contextText all docs w.
Proof.
  destruct docs as [|doc rest]; simpl; [done|].
  unfold mbind, io_bind, lift. by destruct (required _ _).
Qed.

Lemma rest_afterReadJson extractor inputData w :
  (afterReadJson extractor inputData ≫= rest_at) w =
  rest_read extractor inputData w.
Proof.
  unfold afterReadJson, rest_read, mbind, io_bind, lift.
  repeat (destruct (_ : result _); simpl; try done). apply rest_loopHead.
Qed.

Lemma rest_afterAll inputData all ctxEmbed vs w :
  (afterAll inputData all ctxEmbed vs ≫= rest_at) w =
  rest_build inputData all ctxEmbed vs w.
Proof.
  unfold afterAll, rest_build, mbind, io_bind, lift.
  by repeat (destruct (required _ _); simpl; try done).
Qed.

Lemma rest_lift {A} (x : result A) (f : A → IO Ctl) (g : A → IO unit) w :
  (∀ a w, (f a ≫= rest_at) w = g a w) →
  ((lift x ≫= f) ≫= rest_at) w = (lift x ≫= g) w.
Proof. intros Hf. destruct x as [a|e]; [apply Hf|done]. Qed.

Lemma run_agree_eq x y : x = y → run_agree x y.
Proof. intros ->. split; [done|by left]. Qed.

Lemma run_agree_trans x y z : run_agree x y → run_agree y z → run_agree x z.
Proof.
  intros [Hw Hr] [Hw' Hr']. split; [congruence|].
  destruct Hr as [Hr|(e & e' & Hx & Hy & He)].
  - rewrite Hr. destruct Hr' as [?|(e1 & e2 & ? & ? & ?)]; [by left|right].
    by exists e1, e2.
  - right. destruct Hr' as [<-|(e1 & e2 & ? & ? & ?)]; [by exists e, e'|].
    by exists e, e2.
Qed.

(** A step leaves of [main] what was left before it, but when an
    embedding is rejected while others are in flight. *)
Lemma step_rest_cases c c' :
  step c c' → wf c.1 → is_final c'.1 = false →
  rest_at c'.1 c'.2 = rest_at c.1 c.2 ∨ rejected_slot c c'.
Proof.
  destruct 1; intros Hwf Hnf; rewrite ?rest_segment; simpl;
    try (left; apply rest_lift; intros; try done).
  - apply rest_afterReadJson.
  - apply rest_loopHead.
  - transitivity (rest_all extractor inputData allContentRuns a
                    (replicate (length allContentRuns) None) w0); [done|].
    unfold rest_all. by rewrite slots_start.
  - left. unfold rest_all. by erewrite slots_settle.
  - right. by exists extractor, inputData, allContentRuns, ctxEmbed, slots,
      i, cr, err.
  - destruct Hwf as [_ Hl]. unfold fulfilled in *. subst slots.
    rewrite length_fmap in Hl. left.
    unfold rest_all. rewrite slots_fulfilled by done. apply rest_afterAll.
  - left. unfold rest_write, write_file, mbind, io_bind.
    by destruct (writeJson _ _ _) as [[]|].
  - done.
Qed.

Lemma step_rest c c' :
  step c c' → wf c.1 → is_final c'.1 = false →
  run_agree (rest_at c'.1 c'.2) (rest_at c.1 c.2).
Proof.
  intros Hs Hwf Hnf.
  destruct (step_rest_cases c c' Hs Hwf Hnf) as [Heq|Hrej];
    [by apply run_agree_eq|].
  destruct Hrej as (ex & inp & all & ctx & slots & i & cr & err & Hk & Hk' &
                    Hw & Hcr & Hslot & Herr).
  destruct c as [k w], c' as [k' w']. simpl in *. subst k k' w'.
  destruct Hwf as [Hex _]. simpl. unfold rest_all.
  edestruct slots_reject as [e' ->]; [done..|]. split; [done|right].
  exists err, e'. split_and!; [done..|]. by exists ex, (text (run cr)).
Qed.

(** ** The machine starts as [main] *)

#[local] Opaque lift console_log for_of write_file.

(** Compare two computations bind by bind. *)
Ltac io_step :=
  first [ reflexivity
        | rewrite io_bind_assoc
        | rewrite io_ret_bind
        | apply io_bind_proper; [intros ?|reflexivity] ].

(** The loop of [main] and what follows it. *)
Lemma rest_loop_for_of extractor inputData contextText all docs :
  rest_loop extractor inputData contextText all docs ≡
  allContentRuns ← for_of (processDocument env) all docs;
  _ ← console_log ("Extracted " +:+ pretty (length allContentRuns) +:+
                   " total text chunks.");
  _ ← console_log "Generating embeddings...";
  rest_embed extractor inputData contextText allContentRuns.
Proof.
  revert all. induction docs as [|doc rest IH]; intros all.
  - by rewrite for_of_nil, io_ret_bind.
  - rewrite for_of_cons. cbn [rest_loop]. unfold processDocument.
    repeat io_step. apply IH.
Qed.

Lemma rest_at_start : rest_at AwaitImport ≡ main env.
Proof.
  unfold main, report, initializeModel, extractAll. cbn [rest_at].
  unfold rest_model, rest_input, rest_read. repeat io_step.
  rewrite rest_loop_for_of.
  unfold rest_embed, rest_build, rest_output, rest_write. by repeat io_step.
Qed.

#[local] Transparent lift console_log for_of write_file.

(** ** Runs agree with [main] *)

Lemma agrees_pending w0 c :
  is_final c.1 = false →
  agrees w0 c ↔
  wf c.1 ∧ run_agree (rest_at c.1 c.2) (main env w0) ∧ untouched w0 c.2.
Proof. unfold agrees. by intros ->. Qed.

(** The two steps that end a run: the write and the handler. *)
Lemma step_final c c' :
  step c c' → is_final c'.1 = true →
  (c'.1 = Fulfilled ∧ rest_at c.1 c.2 = (Ok (), c'.2)) ∨
  (∃ e, c.1 = Rejected e ∧ c' = (Exited, handled e c.2)).
Proof.
  intros Hs. step_cases Hs; intros ?; simplify_eq.
  - left. split; [done|]. unfold rest_write, write_file, mbind, io_bind.
    by run_result.
  - right. by eexists.
Qed.

Lemma untouched_trans w1 w2 w3 :
  untouched w1 w2 → untouched w2 w3 → untouched w1 w3.
Proof. unfold untouched. intros (-> & -> & ->) (-> & -> & ->). done. Qed.

Lemma run_agree_ends w0 c c' :
  step c c' → is_final c'.1 = true →
  run_agree (rest_at c.1 c.2) (main env w0) → ends_as w0 c'.
Proof.
  intros Hs Hfin [Hw Hr]. unfold ends_as.
  destruct (step_final c c' Hs Hfin) as [[Hk Hrest]|(e & Hk & ->)].
  - rewrite Hrest in Hw, Hr. destruct (main env w0) as [[[]|e0] w'];
      destruct c'; simplify_eq/=; [done|]. by destruct Hr as [|(? & ? & ? & _)].
  - rewrite Hk in Hw, Hr. destruct (main env w0) as [[[]|e0] w'];
      simplify_eq/=; [by destruct Hr as [|(? & ? & _ & ? & _)]|].
    exists e. split; [done|]. destruct Hr as [|(? & ? & ? & _ & ?)];
      simplify_eq; auto.
Qed.

Lemma step_agrees w0 c c' : step c c' → agrees w0 c → agrees w0 c'.
Proof.
  intros Hs. rewrite agrees_pending by by eapply step_not_final.
  intros (Hwf & Hrun & Hw). destruct (is_final c'.1) eqn:Hfin.
  - unfold agrees. rewrite Hfin. by eapply run_agree_ends.
  - apply agrees_pending; [done|]. split_and!.
    + by eapply step_wf.
    + eapply run_agree_trans; [by apply step_rest|done].
    + eapply untouched_trans; [done|by apply step_untouched].
Qed.

Lemma start_agrees w : agrees w (start w).
Proof.
  apply agrees_pending; [done|]. split_and!; [done| |done].
  apply run_agree_eq, rest_at_start.
Qed.

Lemma reachable_agrees w c : reachable w c → agrees w c.
Proof.
  apply (rtc_invariant step (agrees w)); [|apply start_agrees].
  intros c1 c2 Ha Hs. by eapply step_agrees.
Qed.

Lemma reachable_untouched w c :
  reachable w c → ¬ final c → wf c.1 ∧ untouched w c.2.
Proof.
  intros Hc%reachable_agrees Hfin. unfold final in Hfin.
  apply agrees_pending in Hc as (? & _ & ?); [done|].
  by destruct (is_final c.1).
Qed.

Lemma ends_as_final w c : ends_as w c → final c.
Proof.
  unfold ends_as, final.
  by destruct (main env w) as [[[]|e0] w']; [intros ->|intros (e & -> & _)].
Qed.

(** What [ends_as] says in terms of [program]: the same console, the
    same files and the same status, and the same errors but for the
    name of the embedding that was rejected. *)
Lemma ends_as_program w c :
  ends_as w c →
  stdout c.2 = stdout (program env w) ∧
  written c.2 = written (program env w) ∧
  exitCode c.2 = exitCode (program env w) ∧
  (stderr c.2 = stderr (program env w) ∨
   ∃ l e e', embed_error e ∧ stderr c.2 = l ++ ["Fatal error: " +:+ e] ∧
             stderr (program env w) = l ++ ["Fatal error: " +:+ e']).
Proof.
  unfold ends_as, program. destruct (main env w) as [[[]|e0] w'].
  - intros ->. auto.
  - intros (e & -> & [->|He]); split_and!; try done; [by left|right].
    by exists (stderr w'), e, e0.
Qed.

(** ** The scheduler *)

Lemma next_slot_Some all slots i cr :
  next_slot all slots = Some (i, cr) →
  all !! i = Some cr ∧ slots !! i = Some None ∧
  hangs (CallEmbed (text (run cr))) = false.
Proof.
  unfold next_slot. intros Hn. apply bind_Some in Hn as ([j [cr' s]] & Hf & Hn).
  simplify_eq/=. apply list_find_Some in Hf as (Hz & [Hs Hh] & _).
  simpl in *. subst s.
  by apply lookup_zip_with_Some in Hz as (? & ? & [= <- <-] & ? & ?).
Qed.

(** A step of the scheduler is a step of the machine. *)
Lemma step_fn_sound c c' : step_fn c = Some c' → step c c'.
Proof.
  destruct c as [k w]. unfold step_fn.
  destruct k; simpl; try done; try (case_match; [done|]; intros [= <-]);
    try (by constructor).
  - destruct (mapM id slots) as [vs|] eqn:Hvs.
    + intros [= <-]. apply step_all. unfold fulfilled.
      apply mapM_Some in Hvs. apply list_eq_Forall2, Forall2_fmap_r.
      by eapply Forall2_impl.
    + intros ([i cr] & (? & ? & ?)%next_slot_Some & Hs)%bind_Some.
      destruct (extractor _) eqn:Hex; simplify_eq;
        first [by eapply step_settle|by eapply step_reject].
  - intros [= <-]. constructor.
Qed.

Lemma exec_rtc n c : rtc step c (exec n c).
Proof.
  revert c. induction n as [|n IH]; intros c; simpl; [done|].
  destruct (step_fn c) as [c'|] eqn:Hs; [|done].
  eapply rtc_l; [by apply step_fn_sound|apply IH].
Qed.

Lemma exec_reachable n w : reachable w (exec n (start w)).
Proof. apply exec_rtc. Qed.

Lemma exec_plus n m c : exec (n + m) c = exec m (exec n c).
Proof.
  revert c. induction n as [|n IH]; intros c; simpl; [done|].
  destruct (step_fn c) as [c'|] eqn:Hs; [apply IH|].
  destruct m; simpl; by rewrite ?Hs.
Qed.

(** ** Termination, progress and stalls *)

Lemma step_sn c : sn step c.
Proof. apply (measure_sn step measure). apply step_decreases. Qed.

Lemma stalled_not_final c : stalled c → ¬ final c.
Proof. unfold final. intros [Hne _]. by destruct c.1. Qed.

(** A machine cannot step when it is at its end, or when it waits for
    calls that all hang, and only then. *)
Lemma nf_stalled c : wf c.1 → nf step c ↔ final c ∨ stalled c.
Proof.
  intros Hwf. unfold nf. rewrite step_red by done. split.
  - intros Hnf. destruct (decide (final c)) as [|Hfin]; [by left|right].
    split; [naive_solver|]. apply Forall_forall. intros call Hin.
    destruct (hangs call) eqn:Hh; naive_solver.
  - intros [Hfin|[Hne Hall]] [Hnf Hw]; [done|].
    destruct Hw as [?|(call & Hin & Hh)]; [done|].
    rewrite Forall_forall in Hall. specialize (Hall call Hin). congruence.
Qed.

Lemma pending_wf w c : reachable w c → wf c.1.
Proof.
  intros Hc. destruct (is_final c.1) eqn:Hfin; [by destruct c.1|].
  eapply proj1, reachable_untouched; [done|]. unfold final. congruence.
Qed.

(** ** [Promise.all] *)

Section promise_all.
Context (extractor : Extractor (F:=F)) (inputData : Input.InputData).
Context (allContentRuns : list ContentRun) (ctxEmbed : list F).
Context (vs : list (list F)).
Context (Hpipeline : pipeline env = Ok extractor).
Context (Hvs : mapM_result (λ cr, extractor (text (run cr))) allContentRuns
                 = Ok vs).
Context (Hsettle : ∀ cr, cr ∈ allContentRuns →
                     hangs (CallEmbed (text (run cr))) = false).

(** [Promise.all] is waiting, with the vectors that have arrived in
    their slots. *)
Definition awaiting_all (w : World) (c : Config) : Prop :=
  ∃ slots, c = (AwaitAll extractor inputData allContentRuns ctxEmbed slots, w)
           ∧ settled_in vs slots.

Lemma settled_in_fulfilled vs' : settled_in vs (Some <$> vs') → vs' = vs.
Proof.
  unfold settled_in. rewrite Forall2_fmap_l. intros Hall.
  apply list_eq_Forall2. eapply Forall2_impl; [done|].
  intros ?? [?|?]; by simplify_eq.
Qed.

Lemma embedding_lookup i cr :
  allContentRuns !! i = Some cr →
  ∃ v, vs !! i = Some v ∧ extractor (text (run cr)) = Ok v.
Proof.
  intros Hcr. apply mapM_result_Ok in Hvs.
  by destruct (Forall2_lookup_l _ _ _ _ _ Hvs Hcr) as (v & ? & ?); eauto.
Qed.

Lemma awaiting_all_red w c : awaiting_all w c → red step c.
Proof.
  intros (slots & -> & Hs). apply step_red.
  { split; [done|]. apply Forall2_length in Hs.
    apply mapM_result_length in Hvs. simpl. congruence. }
  split; [done|]. simpl.
  destruct (in_flight allContentRuns slots) as [|call calls] eqn:Hf;
    [by left|right].
  exists call. split; [left|].
  assert (call ∈ in_flight allContentRuns slots) as Hin by (rewrite Hf; left).
  apply elem_of_in_flight in Hin as (i & cr & Hcr & _ & ->).
  apply Hsettle. by eapply list_elem_of_lookup_2.
Qed.

Lemma awaiting_all_step w c c' :
  awaiting_all w c → step c c' →
  c' = segment (afterAll inputData allContentRuns ctxEmbed vs) w ∨
  awaiting_all w c'.
Proof.
  intros (slots & -> & Hs). inversion 1; simplify_eq.
  - right. eexists. split; [done|].
    destruct (embedding_lookup i cr) as (v' & Hv' & ?); [done|].
    rewrite <-(list_insert_id vs i v') by done.
    apply Forall2_insert; [done|]. right. congruence.
  - destruct (embedding_lookup i cr) as (v' & _ & ?); [done|]. congruence.
  - left. unfold fulfilled in *. subst. by rewrite (settled_in_fulfilled vs0).
Qed.
End promise_all.

(** ** The theorems *)

(** C4: Every run of [main] that ends, ends where [Main.main] ends:
    fulfilled, in the world [main] leaves, when [main] returns; exited
    after the handler of [catch], when [main] throws. This holds
    whatever the order in which the embeddings settle; only the error
    printed may be that of another rejected embedding. *)
Theorem run_outcome w c : reachable w c → final c → ends_as w c.
Proof.
  intros Hc%reachable_agrees Hfin. unfold agrees, final in *.
  by rewrite Hfin in Hc.
Qed.

(** Until a run ends no write has completed, no error is printed and
    the program has not exited. What a write in flight has left in the
    report file by then is in file [Writing]. *)
Theorem pending_untouched w c :
  reachable w c → ¬ final c → untouched w c.2.
Proof. intros Hc Hfin. by apply reachable_untouched. Qed.

(** When no call hangs every run comes to an end. *)
Lemma runs_end w :
  (∀ call, hangs call = false) →
  eventually step (λ c, reachable w c ∧ final c) (start w).
Proof.
  intros Hh.
  apply (sn_eventually step _ (reachable w)); [apply step_sn|apply rtc_refl|].
  intros c Hc. destruct (decide (final c)) as [Hfin|Hfin]; [by left|].
  right. split; [|intros c' Hs; right; by eapply rtc_r].
  apply step_red; [by eapply pending_wf|]. split; [done|].
  destruct (awaited c.1) as [|call calls]; [by left|right].
  exists call. split; [left|done].
Qed.

(** A run that has ended, in terms of [agrees]. *)
Lemma reachable_ends_as w c : reachable w c → final c → ends_as w c.
Proof.
  intros Hc%reachable_agrees Hfin. unfold agrees, final in *.
  by rewrite Hfin in Hc.
Qed.

(** C3: When no call hangs, every run of [main] ends, in whatever order
    the embeddings settle, and ends as [Main.main] does. *)
Theorem main_terminates w :
  (∀ call, hangs call = false) → eventually step (ends_as w) (start w).
Proof.
  intros Hh. eapply eventually_mono; [|by apply runs_end].
  intros c [Hc Hfin]. by apply reachable_ends_as.
Qed.

(** C29: A machine that waits for calls that all hang stays where it is:
    the run never ends, and nothing is written: no write has
    completed. When it is the write that hangs, what it leaves in the
    file is in file [Writing]. *)
Theorem stalled_forever w c c' :
  reachable w c → stalled c → rtc step c c' →
  c' = c ∧ ¬ final c ∧ untouched w c.2.
Proof.
  intros Hc Hst Hrun. pose proof (stalled_not_final c Hst) as Hfin.
  split_and!; [|done|by apply reachable_untouched].
  symmetry. eapply rtc_nf; [done|].
  apply nf_stalled; [by eapply pending_wf|by right].
Qed.

(** C28: [Promise.all] yields the vectors in the order of the sections,
    not in the order in which the embeddings settle: when every embedding
    is fulfilled, every run from the dispatch goes on with the same
    [contentEmbeddings], the vector of section [i] at index [i]. *)
Theorem promise_all_order extractor inputData allContentRuns ctxEmbed vs w :
  pipeline env = Ok extractor →
  mapM_result (λ cr, extractor (text (run cr))) allContentRuns = Ok vs →
  (∀ cr, cr ∈ allContentRuns → hangs (CallEmbed (text (run cr))) = false) →
  eventually step
    (λ c, c = segment (afterAll inputData allContentRuns ctxEmbed vs) w)
    (segment (afterCtxEmbed extractor inputData allContentRuns ctxEmbed) w).
Proof.
  intros Hex Hvs Hh.
  apply (sn_eventually step _
           (awaiting_all extractor inputData allContentRuns ctxEmbed vs w));
    [apply step_sn| |].
  - eexists. split; [done|]. apply Forall2_replicate_l.
    + by apply mapM_result_length in Hvs.
    + apply Forall_forall. auto.
  - intros c Hc. right. split; [by eapply awaiting_all_red|].
    intros c' Hs. by eapply awaiting_all_step.
Qed.

(** C31: A call that hangs does not always stall the pipeline: however many
    of the embeddings in flight never settle, when one of them is
    rejected [Promise.all] is rejected with it, and the program prints
    that error and exits with status 1. *)
Theorem hang_beside_rejection extractor inputData allContentRuns ctxEmbed
    slots i cr err w :
  allContentRuns !! i = Some cr → slots !! i = Some None →
  hangs (CallEmbed (text (run cr))) = false →
  extractor (text (run cr)) = Throw err →
  rtc step (AwaitAll extractor inputData allContentRuns ctxEmbed slots, w)
    (Exited, handled err w).
Proof.
  intros Hcr Hs Hh He. eapply rtc_l; [by eapply step_reject|].
  apply rtc_once, step_catch.
Qed.
End machine.

(** ** Sample runs

    The environments of [Main] under the scheduler. *)

Section examples.
Local Open Scope float_scope.

(** Every call settles. *)
Definition no_hang : Call → bool := λ _, false.

(** The download of the model never ends. *)
Definition model_hangs : Call → bool := λ call,
  bool_decide (call = CallPipeline).

(** The extractor rejects one text; the embedding of another never
    settles. *)
Definition sample_flaky_env : Env := {|
  importTransformers := Ok ();
  pipeline := Ok (λ s, if decide (s = "Title") then Throw "embedding failed"
                       else sample_extractor s);
  ensureDir := ensureDir sample_good_env;
  readJson := readJson sample_good_env;
  getDocument := getDocument sample_good_env;
  now := now sample_good_env;
  writeJson := writeJson sample_good_env;
|}.

Definition section_hangs : Call → bool := λ call,
  bool_decide (call = CallEmbed "1 Introduction").

(** The machine does what [program] does: 23 steps to the report. *)
Example sample_machine_run :
  exec sample_good_env no_hang 23 (start initial_world) =
  (Fulfilled, program sample_good_env initial_world).
Proof. vm_compute. reflexivity. Qed.

Example sample_machine_fatal :
  exec sample_bad_env no_hang 8 (start initial_world) =
  (Exited, program sample_bad_env initial_world).
Proof. vm_compute. reflexivity. Qed.

(** The model never arrives: the machine waits at the second [await],
    having printed one line. *)
Example sample_machine_stalls :
  (exec sample_good_env model_hangs 23 (start initial_world)).2 = {|
    stdout := ["Initializing AI Model (will download on first run)..."];
    stderr := []; written := []; exitCode := None
  |} ∧
  awaited (exec sample_good_env model_hangs 23 (start initial_world)).1 =
    [CallPipeline].
Proof. vm_compute. done. Qed.

(** The vectors of the sample sections. *)
Definition sample_vectors : list (list float) :=
  match mapM_result (λ cr, sample_extractor (text (run cr))) sample_pooled with
  | Ok vs => vs
  | Throw _ => []
  end.

Lemma hang_beside_rejection_witness :
  ∃ c, reachable sample_flaky_env section_hangs initial_world c ∧
    Exists (λ call, section_hangs call = true) (awaited c.1) ∧
    rtc (step sample_flaky_env section_hangs) c
      (Exited, handled "embedding failed" c.2).
Proof.
  exists (exec sample_flaky_env section_hangs 8 (start initial_world)).
  split_and!; [apply exec_reachable|by vm_compute; left|].
  set (c := exec _ _ _ _). vm_compute in c. subst c.
  eapply (hang_beside_rejection _ _ _ _ _ _ _ 5); reflexivity.
Defined.

Lemma run_outcome_witness :
  ends_as sample_good_env initial_world
    (exec sample_good_env no_hang 23 (start initial_world)).
Proof.
  apply (run_outcome sample_good_env no_hang initial_world).
  - apply exec_reachable.
  - vm_compute. reflexivity.
Defined.

Lemma pending_untouched_witness :
  untouched initial_world
    (exec sample_good_env no_hang 9 (start initial_world)).2.
Proof.
  apply (pending_untouched sample_good_env no_hang initial_world).
  - apply exec_reachable.
  - vm_compute. discriminate.
Defined.

Lemma main_terminates_witness :
  eventually (step sample_good_env no_hang)
    (ends_as sample_good_env initial_world) (start initial_world).
Proof. apply (main_terminates sample_good_env no_hang). reflexivity. Defined.

Lemma stalled_forever_witness :
  let c := exec sample_good_env model_hangs 1 (start initial_world) in
  c = c ∧ ¬ final c ∧ untouched initial_world c.2.
Proof.
  apply (stalled_forever sample_good_env model_hangs initial_world).
  - apply exec_reachable.
  - split; [done|]. by repeat constructor.
  - apply rtc_refl.
Defined.

Lemma promise_all_order_witness :
  eventually (step sample_good_env no_hang)
    (λ c, c = segment (afterAll sample_good_env (sample_request sample_names)
                         sample_pooled [1; 15] sample_vectors) initial_world)
    (segment (afterCtxEmbed sample_extractor (sample_request sample_names)
                sample_pooled [1; 15]) initial_world).
Proof.
  apply (promise_all_order sample_good_env no_hang).
  - reflexivity.
  - vm_compute. reflexivity.
  - reflexivity.
Defined.
End examples.
