(* ===== verification/Scheduler.v ===== *)
(** * The scheduler

    [Machine.exec] runs the machine of [main] with one schedule: the
    embeddings of [Promise.all] settle in the order of the sections.
    This file shows that the schedule is total and exact. The scheduler
    takes a step whenever the machine can take one
    ([step_fn_complete]), so it stops only at the end of a run or where
    the machine waits for calls that hang ([exec_nf]); and when no call
    hangs it ends, with enough turns, in the world of [Main.program], the
    error printed included ([scheduler_program]): [Main.main] is the
    run of the machine under this schedule. *)

From stdpp Require Import relations.
From S2P Require Import Prelude JsNumber JsString PdfDoc Process Report.
From S2P Require Import Effects Main Transition Machine.

Section scheduler.
Context `{JsArith F, JsKey F}.
Context (env : Env (F:=F)) (hangs : Call → bool).
Implicit Types (c : Config (F:=F)) (w : World).
Implicit Types (all : list ContentRun) (slots : list (option (list F))).

(** Where [main] ends from the world [w0]: the control point and the
    world. *)
Definition end_of (w0 : World) : Config (F:=F) :=
  match main env w0 with
  | (Ok _, w') => (Fulfilled, w')
  | (Throw e, w') => (Exited, handled e w')
  end.

(** A machine under the scheduler is where [main] is: what is left of
    [main] does what [main] does from the start, and at the end the
    machine is where [main] ends. *)
Definition exact (w0 : World) c : Prop :=
  if is_final c.1 then c = end_of w0
  else wf env c.1 ∧ rest_at env c.1 c.2 = main env w0.

(** ** The scheduler takes the steps there are *)

Lemma next_slot_complete all slots i cr :
  all !! i = Some cr → slots !! i = Some None →
  hangs (CallEmbed (text (run cr))) = false →
  is_Some (next_slot hangs all slots).
Proof.
  intros Hcr Hs Hh. unfold next_slot.
  destruct (list_find_elem_of
              (λ p : ContentRun * option (list F),
                 p.2 = None ∧ hangs (CallEmbed (text (run p.1))) = false)
              (zip all slots) (cr, None)) as [[j p] ->]; [|done|by eexists].
  eapply list_elem_of_lookup_2, lookup_zip_with_Some. eauto.
Qed.

(** While a slot is empty, the slots are not all fulfilled. *)
Lemma mapM_id_None slots i : slots !! i = Some None → mapM id slots = None.
Proof.
  intros Hs. destruct (mapM id slots) as [vs|] eqn:Hvs; [|done].
  apply mapM_Some in Hvs. eapply Forall2_lookup_l in Hvs as (v & _ & ?);
    [|done]. done.
Qed.

Lemma step_fn_slot extractor inputData all ctxEmbed slots i cr w :
  all !! i = Some cr → slots !! i = Some None →
  hangs (CallEmbed (text (run cr))) = false →
  is_Some (step_fn env hangs (AwaitAll extractor inputData all ctxEmbed slots, w)).
Proof.
  intros Hcr Hs Hh. unfold step_fn. simpl. rewrite (mapM_id_None slots i Hs).
  destruct (next_slot_complete all slots i cr) as [[j cr'] ->]; [done..|].
  simpl. by destruct (extractor _).
Qed.

(** The scheduler takes a step whenever the machine can. *)
Lemma step_fn_complete c :
  red (step env hangs) c → is_Some (step_fn env hangs c).
Proof.
  intros [c' Hs].
  destruct Hs;
    try (unfold step_fn; simpl;
         by repeat match goal with
                   | Hh : hangs _ = false |- _ => rewrite Hh; clear Hh
                   end).
  - by eapply step_fn_slot.
  - by eapply step_fn_slot.
  - unfold step_fn, fulfilled in *. subst slots. simpl.
    by rewrite (mapM_fmap_Some id Some vs).
Qed.

(** The scheduler stops where the machine does. *)
Lemma step_fn_None c : step_fn env hangs c = None ↔ nf (step env hangs) c.
Proof.
  split.
  - intros Hn Hred%step_fn_complete. rewrite Hn in Hred. by destruct Hred.
  - intros Hnf. destruct (step_fn env hangs c) as [c'|] eqn:Hs; [|done].
    destruct Hnf. exists c'. by apply step_fn_sound.
Qed.

Lemma exec_nf_stay n c : nf (step env hangs) c → exec env hangs n c = c.
Proof. intros Hnf%step_fn_None. destruct n; simpl; by rewrite ?Hnf. Qed.

(** With enough turns the scheduler brings the machine to where it
    cannot step, and more turns change nothing. *)
Lemma exec_nf c :
  ∃ n, ∀ m, n ≤ m →
    nf (step env hangs) (exec env hangs m c) ∧
    exec env hangs m c = exec env hangs n c.
Proof.
  induction (step_sn env hangs c) as [c _ IH].
  destruct (step_fn env hangs c) as [c'|] eqn:Hs.
  - destruct (IH c') as [n Hn]; [by apply step_fn_sound|].
    exists (S n). intros [|m] ?; [lia|]. simpl. rewrite Hs. apply Hn. lia.
  - apply step_fn_None in Hs. exists 0. intros m _.
    by rewrite exec_nf_stay.
Qed.

(** ** The first rejection is the one of [main] *)

Section first.
Context (Hh : ∀ call, hangs call = false).

Lemma next_slot_first all slots i cr :
  next_slot hangs all slots = Some (i, cr) →
  length slots = length all →
  ∀ j, j < i → slots !! j ≠ Some None.
Proof.
  unfold next_slot.
  intros ([i' [cr' s]] & Hf & ?)%bind_Some Hl j Hj Hs. simplify_eq/=.
  apply list_find_Some in Hf as (Hz & _ & Hmin).
  destruct (lookup_lt_is_Some_2 all j) as [crj Hcr].
  { rewrite <-Hl. by eapply lookup_lt_Some. }
  apply (Hmin j (crj, None)); [|done|by split].
  apply lookup_zip_with_Some. eauto.
Qed.

Lemma slots_first_reject extractor all slots i cr err :
  all !! i = Some cr → slots !! i = Some None →
  (∀ j, j < i → slots !! j ≠ Some None) →
  extractor (text (run cr)) = Throw err →
  mapM_result (slot_result extractor) (zip all slots) = Throw err.
Proof.
  intros Hcr Hs Hmin He.
  assert (zip all slots !! i = Some (cr, None)) as Hz.
  { apply lookup_zip_with_Some. eauto. }
  rewrite <-(take_drop_middle _ _ _ Hz). apply mapM_result_Throw; [|done].
  apply Forall_lookup. intros j [crj s] Hj.
  apply lookup_take_Some in Hj as [Hj ?].
  apply lookup_zip_with_Some in Hj as (? & ? & [= <- <-] & ? & Hsj).
  unfold slot_result. simpl. destruct s as [v|]; [by eexists|].
  by destruct (Hmin j).
Qed.

(** A step of the scheduler leaves of [main] what was left before it:
    the embedding it rejects is the first that [main] finds rejected. *)
Lemma step_fn_rest c c' :
  step_fn env hangs c = Some c' → wf env c.1 → is_final c'.1 = false →
  rest_at env c'.1 c'.2 = rest_at env c.1 c.2.
Proof.
  intros Hfn Hwf Hnf.
  destruct (step_rest_cases env hangs c c') as [?|Hrej];
    [by apply step_fn_sound|done..|].
  destruct Hrej as (ex & inp & all & ctx & slots & i & cr & err & Hk & Hk' &
                    Hw & _ & Hslot & _).
  destruct c as [k w], c' as [k' w']. simpl in *. subst k k' w'.
  destruct Hwf as [_ Hl]. unfold step_fn in Hfn. simpl in *.
  rewrite (mapM_id_None slots i Hslot) in Hfn.
  apply bind_Some in Hfn as ([j cr'] & Hn & Hfn).
  destruct (ex (text (run cr'))) as [v|e] eqn:He; simplify_eq.
  apply next_slot_Some in Hn as Hj. destruct Hj as (? & ? & _).
  unfold rest_all.
  by erewrite slots_first_reject; [| | |by eapply next_slot_first|].
Qed.

Lemma end_of_program w0 : (end_of w0).2 = program env w0.
Proof. unfold end_of, program. by destruct (main env w0) as [[[]|e] w']. Qed.

Lemma end_of_final w0 : final (end_of w0).
Proof. unfold end_of, final. by destruct (main env w0) as [[[]|e] w']. Qed.

Lemma exact_start w0 : exact w0 (start w0).
Proof. split; [done|]. apply rest_at_start. Qed.

(** The scheduler keeps the machine where [main] is. *)
Lemma step_fn_exact w0 c c' :
  step_fn env hangs c = Some c' → exact w0 c → exact w0 c'.
Proof.
  intros Hfn. apply step_fn_sound in Hfn as Hs. unfold exact.
  rewrite (step_not_final env hangs c c' Hs). intros [Hwf Hrest].
  destruct (is_final c'.1) eqn:Hfin.
  - unfold end_of. rewrite <-Hrest.
    destruct (step_final env hangs c c' Hs Hfin) as [[Hk ->]|(e & -> & ->)];
      [|done]. destruct c'. by simplify_eq/=.
  - split; [by eapply step_wf|]. by rewrite (step_fn_rest c c').
Qed.

Lemma exec_exact w0 n c : exact w0 c → exact w0 (exec env hangs n c).
Proof.
  revert c. induction n as [|n IH]; intros c Hc; simpl; [done|].
  destruct (step_fn env hangs c) as [c'|] eqn:Hs; [|done].
  by eapply IH, step_fn_exact.
Qed.

(** Where the scheduler stops, [main] has ended. *)
Lemma exact_nf w0 c : exact w0 c → nf (step env hangs) c → c = end_of w0.
Proof.
  unfold exact. destruct (is_final c.1) eqn:Hfin; [done|]. intros [Hwf _] Hnf.
  apply (nf_stalled env hangs c Hwf) in Hnf as [Hf|[Hne Hall]].
  - unfold final in Hf. congruence.
  - destruct (awaited c.1) as [|call calls]; [done|].
    apply Forall_cons in Hall as [Hc _]. by rewrite Hh in Hc.
Qed.

(** C5: when no call hangs, the event loop that settles the embeddings
    in the order of the sections ends, with enough turns, where
    [Main.main] ends: fulfilled in the world of [main], or exited with
    the error of [main] on the error console and status 1; more turns
    change nothing. *)
Theorem scheduler_program w :
  ∃ n, ∀ m, n ≤ m → exec env hangs m (start w) = end_of w.
Proof.
  destruct (exec_nf (start w)) as [n Hn]. exists n. intros m Hm.
  destruct (Hn m Hm) as [Hnf _].
  by apply exact_nf; [apply exec_exact, exact_start|].
Qed.
End first.

(** Whatever hangs, the scheduler stops, and it stops at the end of the
    run or where the machine waits for calls that all hang. *)
Theorem scheduler_stops w :
  ∃ n, ∀ m, n ≤ m →
    (final (exec env hangs m (start w)) ∨
     stalled hangs (exec env hangs m (start w))) ∧
    exec env hangs m (start w) = exec env hangs n (start w).
Proof.
  destruct (exec_nf (start w)) as [n Hn]. exists n. intros m Hm.
  destruct (Hn m Hm) as [Hnf Heq]. split; [|done].
  eapply nf_stalled; [|done]. eapply pending_wf, exec_reachable.
Qed.
End scheduler.

(** ** Examples *)

Section examples.
Local Open Scope float_scope.

(** An embedding is rejected: the scheduler ends as [program] does, with
    the error of the first section on the error console. *)
Example sample_scheduler_rejection :
  exec sample_flaky_env no_hang 23 (start initial_world) =
  (Exited, program sample_flaky_env initial_world) ∧
  stderr (program sample_flaky_env initial_world) =
  ["Fatal error: embedding failed"].
Proof. vm_compute. done. Qed.

Lemma scheduler_program_witness :
  ∃ n, ∀ m, n ≤ m →
    exec sample_good_env no_hang m (start initial_world) =
    end_of sample_good_env initial_world.
Proof. by apply scheduler_program. Defined.
End examples.
