(* ===== verification/EndToEnd.v ===== *)
(** * From the request file to the report file, run by the event loop

    The files of [Files] under the machine of [Machine]: what the disk
    holds while [main] of [src/extract.js] runs as the event loop runs
    it, a promise settling at each step, the embeddings in any order.

    The disk here is the disk of the writes that have completed,
    [Files.disk_after]: one write completes, at the end of a run that
    succeeds, and the file then holds the whole report
    ([completed_until_end]); when no call hangs and the pipeline
    succeeds, every run gets there ([run_writes_report]); when the
    pipeline fails, every run ends with no write completed
    ([run_fatal_disk]). Two runs that succeed write the same report but
    for the time stamp, whatever the order in which their embeddings
    settled ([rerun_fulfilled]). What a write that has not completed
    leaves in the report file is in file [Writing]. *)

From Stdlib Require Import Floats.
From stdpp Require Import relations gmap.
From S2P Require Import Prelude JsNumber JsString Json JsonText Report.
From S2P Require Import ReportJson Effects Main Console Schema Files.
From S2P Require Import Transition Machine.

Local Open Scope string_scope.

(** The report file holds the report [out]: a text that [JSON.parse]
    accepts and from which [out] is read back. *)
Definition holds_report (disk : Disk) (out : OutputJson) : Prop :=
  ∃ t v, disk !! OUTPUT_JSON = Some t ∧ JSON_parse t = Parsed v "" ∧
         reportOfValue v = Some out.

Section end_to_end.
Context `{JsArith F, JsKey F}.
Context (env : Env (F:=F)) (hangs : Call → bool) (disk : Disk).

(** The disk after the report was written. *)
Definition report_written (w : World) (d : Disk) : Prop :=
  ∃ out t, main_spec env = Ok out ∧ report_text out = Some t ∧
           d = <[OUTPUT_JSON := t]> (disk_after disk w).

Lemma report_written_holds w d out :
  main_spec env = Ok out → report_fits out = true → report_written w d →
  holds_report d out.
Proof.
  intros Hout Hfits (out' & t & Hout' & Ht & ->).
  assert (out' = out) as -> by congruence.
  exists t, (to_json (outputValue out)).
  pose proof Hfits as [_ Hempty%bool_decide_eq_true_1]%andb_prop.
  split_and!; [by rewrite lookup_insert_eq| |by apply reportOfValue_json].
  by apply writeJson_text_parse; [apply json_wf_outputValue|].
Qed.

(** The disk at the end of a run. *)
Lemma ends_as_disk w c :
  ends_as env w c →
  match main_spec env with
  | Ok _ => c.1 = Fulfilled ∧ report_written w (disk_after disk c.2)
  | Throw _ =>
      c.1 = Exited ∧ disk_after disk c.2 = disk_after disk w ∧
      exitCode c.2 = Some 1%Z
  end.
Proof.
  unfold ends_as. pose proof (main_run env w) as Hm.
  destruct (main_spec env) as [out|e] eqn:Hspec.
  - destruct Hm as (w' & -> & Hw & _). intros ->. split; [done|].
    destruct (report_text_Some out) as [t Ht]. exists out, t.
    split_and!; [done..|]. by eapply disk_after_snoc.
  - destruct Hm as (w' & -> & [Hw _ _ _]). intros (e' & -> & _).
    split_and!; [done| |done]. by apply disk_after_same.
Qed.

(** The writes that have completed: at every moment of every run none
    has, or the run is fulfilled and the write of the report has. *)
Lemma completed_until_end w c :
  reachable env hangs w c →
  disk_after disk c.2 = disk_after disk w ∨
  (c.1 = Fulfilled ∧ report_written w (disk_after disk c.2)).
Proof.
  intros Hc. destruct (decide (is_final c.1 = true)) as [Hfin|Hfin].
  - apply reachable_ends_as, ends_as_disk in Hc; [|done].
    destruct (main_spec env); [by right|left; by destruct Hc as (_ & ? & _)].
  - left. apply disk_after_same.
    by destruct (reachable_untouched env hangs w c Hc Hfin) as (_ & ? & _).
Qed.

(** C6: When the pipeline succeeds and no call hangs, every run of the
    event loop, in whatever order the embeddings settle, ends fulfilled
    with the report in the report file: a text that [JSON.parse] accepts
    and from which the whole report is read back. *)
Theorem run_writes_report w out :
  main_spec env = Ok out → report_fits out = true →
  (∀ call, hangs call = false) →
  eventually (step env hangs)
    (λ c, c.1 = Fulfilled ∧ holds_report (disk_after disk c.2) out) (start w).
Proof.
  intros Hout Hfits Hh. eapply eventually_mono; [|by apply runs_end].
  intros c [Hc Hfin]. apply reachable_ends_as in Hc; [|done].
  apply ends_as_disk in Hc. rewrite Hout in Hc. destruct Hc as [Hk Hw].
  split; [done|]. by eapply report_written_holds.
Qed.

(** A run that is fulfilled is a run of [main] that succeeded. *)
Lemma fulfilled_main w c :
  reachable env hangs w c → c.1 = Fulfilled →
  ∃ out, main_spec env = Ok out ∧ main env w = (Ok (), c.2).
Proof.
  intros Hc Hk. apply reachable_ends_as in Hc; [|unfold final; by rewrite Hk].
  unfold ends_as in Hc. pose proof (main_run env w) as Hm.
  destruct (main_spec env) as [out|e]; destruct Hm as (w' & Hw & _);
    rewrite Hw in Hc; [|destruct Hc as (? & -> & _); done].
  exists out. by subst c.
Qed.

(** C8: Whenever a run of the event loop is fulfilled, in whatever
    order the embeddings settled, a report was computed that is well
    formed, the console holds the lines of that report after what it
    held before, and the report file holds its text: what the run
    printed, what it wrote and what the pipeline computes agree. *)
Theorem fulfilled_run w c :
  reachable env hangs w c → c.1 = Fulfilled →
  ∃ out, main_spec env = Ok out ∧ valid_report out ∧
         stdout c.2 = (stdout w ++ success_log out)%list ∧
         report_written w (disk_after disk c.2).
Proof.
  intros Hc Hk. destruct (fulfilled_main w c Hc Hk) as (out & Hout & Hm).
  exists out. split_and!; [done| | |].
  - apply main_spec_report, report_spec_built in Hout
      as (ds & p & j & pooled & ce & embs & Hp & Hl & ->).
    by apply (buildOutput_valid env).
  - destruct (prints_main env out Hout w) as [_ Hp]. by rewrite Hm in Hp.
  - apply reachable_ends_as, ends_as_disk in Hc; [|unfold final; by rewrite Hk].
    rewrite Hout in Hc. by destruct Hc.
Qed.

(** When the pipeline fails and no call hangs, every run ends exited
    with status 1 and no write completed. Unless it is the write that
    failed, the disk is then as it was, the report of an earlier run
    included ([Writing.disk_during_run]). *)
Theorem run_fatal_disk w e :
  main_spec env = Throw e → (∀ call, hangs call = false) →
  eventually (step env hangs)
    (λ c, c.1 = Exited ∧ disk_after disk c.2 = disk_after disk w ∧
          exitCode c.2 = Some 1%Z) (start w).
Proof.
  intros He Hh. eapply eventually_mono; [|by apply runs_end].
  intros c [Hc Hfin]. apply reachable_ends_as in Hc; [|done].
  apply ends_as_disk in Hc. by rewrite He in Hc.
Qed.
End end_to_end.

(** ** Running again *)

Section rerun.
Context `{JsArith F, JsKey F}.
Context (env : Env (F:=F)) (hangs hangs' : Call → bool) (t : string).

(** C33: Two runs of the event loop on the same input, at different times
    and with the embeddings settling in whatever order in each, when
    both are fulfilled, have printed the same lines and written reports
    that differ in [processing_timestamp] only: the sections, their
    order and their ranks do not depend on the order in which the
    promises settle, nor on the time. The order of [sort] among equal
    scores and the order of [Object.keys] are fixed by the language and
    are functions here. *)
Theorem rerun_fulfilled w c c' :
  reachable env hangs w c → c.1 = Fulfilled →
  reachable (at_time t env) hangs' w c' → c'.1 = Fulfilled →
  ∃ out, written c.2 = (written w ++ [(OUTPUT_JSON, out)])%list ∧
         written c'.2 = (written w ++ [(OUTPUT_JSON, stamped t out)])%list ∧
         stdout c'.2 = stdout c.2 ∧ stderr c'.2 = stderr c.2 ∧
         exitCode c'.2 = exitCode c.2.
Proof.
  intros Hc Hk Hc' Hk'.
  destruct (fulfilled_main env hangs w c Hc Hk) as (out & Hout & Hm).
  destruct (fulfilled_main (at_time t env) hangs' w c' Hc' Hk')
    as (out' & Hout' & Hm').
  pose proof (main_spec_report _ _ Hout) as Hrep.
  pose proof (main_spec_report _ _ Hout') as Hrep'.
  rewrite report_spec_rerun, Hrep in Hrep'. injection Hrep' as <-.
  pose proof (main_run env w) as Hr.
  pose proof (main_run (at_time t env) w) as Hr'.
  rewrite Hout in Hr. rewrite Hout' in Hr'.
  destruct Hr as (w1 & Hw1 & Hwr & Herr & Hx).
  destruct Hr' as (w1' & Hw1' & Hwr' & Herr' & Hx'). simplify_eq.
  destruct (prints_main env out Hout w) as [_ Hp].
  destruct (prints_main (at_time t env) _ Hout' w) as [_ Hp'].
  rewrite Hm in Hp. rewrite Hm' in Hp'. simpl in *.
  assert (w1 = c.2 ∧ w1' = c'.2) as [-> ->] by (split; congruence).
  exists out. split_and!; [done|done| |congruence|congruence].
  by rewrite Hp, Hp'.
Qed.
End rerun.

(** ** Examples *)

Section examples.

(** The disk of the sample run: the request of the three documents. *)
Definition sample_disk : Disk := request_disk (sample_request sample_names).

(** The scheduler of [Machine] on the sample: after 22 turns the disk is
    as before, after 23 the report file holds the report. *)
Example sample_disk_steps :
  disk_after sample_disk
    (exec sample_good_env no_hang 22 (start initial_world)).2 = sample_disk ∧
  disk_after sample_disk
    (exec sample_good_env no_hang 23 (start initial_world)).2 !! OUTPUT_JSON =
  report_text sample_report.
Proof. split; vm_compute; reflexivity. Qed.

Lemma fulfilled_run_witness :
  let c := exec sample_good_env no_hang 23 (start initial_world) in
  ∃ out, main_spec sample_good_env = Ok out ∧ valid_report out ∧
         stdout c.2 = (stdout initial_world ++ success_log out)%list ∧
         report_written sample_good_env sample_disk initial_world
           (disk_after sample_disk c.2).
Proof.
  apply (fulfilled_run sample_good_env no_hang sample_disk initial_world);
    [apply exec_reachable|vm_compute; reflexivity].
Defined.

Lemma rerun_fulfilled_witness :
  let c := exec sample_good_env no_hang 23 (start initial_world) in
  let c' := exec (at_time "2026-01-01T00:00:00.000Z" sample_good_env) no_hang 23
              (start initial_world) in
  ∃ out, written c.2 = (written initial_world ++ [(OUTPUT_JSON, out)])%list ∧
         written c'.2 =
           (written initial_world ++
            [(OUTPUT_JSON, stamped "2026-01-01T00:00:00.000Z" out)])%list ∧
         stdout c'.2 = stdout c.2 ∧ stderr c'.2 = stderr c.2 ∧
         exitCode c'.2 = exitCode c.2.
Proof.
  apply (rerun_fulfilled sample_good_env no_hang no_hang
           "2026-01-01T00:00:00.000Z" initial_world);
    [apply exec_reachable|vm_compute; reflexivity
    |apply exec_reachable|vm_compute; reflexivity].
Defined.

Lemma run_writes_report_witness :
  eventually (step sample_good_env no_hang)
    (λ c, c.1 = Fulfilled ∧
          holds_report (disk_after sample_disk c.2) sample_report)
    (start initial_world).
Proof.
  apply (run_writes_report sample_good_env no_hang sample_disk initial_world);
    [vm_compute; reflexivity..|done].
Defined.

Lemma run_fatal_disk_witness :
  eventually (step sample_bad_env no_hang)
    (λ c, c.1 = Exited ∧
          disk_after sample_disk c.2 = disk_after sample_disk initial_world ∧
          exitCode c.2 = Some 1%Z)
    (start initial_world).
Proof.
  apply (run_fatal_disk sample_bad_env no_hang sample_disk initial_world
           "Missing PDF"); [vm_compute; reflexivity|done].
Defined.
End examples.
