(* ===== verification/Writing.v ===== *)
(** * The report file while it is written

    [main] of [src/extract.js] writes the report with
    [await fs.writeJson(OUTPUT_JSON, outputJson, { spaces: 2 })], which
    is [fs.writeFile] of the text: the file is opened for writing, which
    empties it, the text is written to it piece by piece, and the
    promise is fulfilled when all of it is there. Nothing makes the
    write atomic.

    File [Main] and file [Machine] record a write when it has
    completed: [written] is the list of the writes whose promise was
    fulfilled. This file puts the report file beside the machine while
    the write is in flight. A state is a configuration of [Machine] and
    the text that a write which has not completed has left in the
    report file, if it has touched the file; [write_step] is a step of
    the machine or a step of the file system, which goes on with the
    write.

    - At every moment of every run the disk is as it was before the
      run, or the pipeline has built the report and the report file
      holds the beginning of its text, up to some point, all of it when
      the run is fulfilled ([disk_during_run]).
    - A write that is rejected can leave any beginning of the text in
      the report file, the empty text included, and the run then exits
      with status 1 ([write_rejected_cut_short]); so can a write that
      hangs or a run that is interrupted during the write
      ([write_in_flight_cut_short]). *)

From Stdlib Require Import Floats.
From stdpp Require Import relations gmap.
From S2P Require Import Prelude JsNumber JsString Json Report ReportJson.
From S2P Require Import Effects Main Files Transition Machine EndToEnd.



(** The text [text] is the beginning of [t]. *)
Definition cut_short (text t : string) : Prop := ∃ rest, t = text +:+ rest.

(** The file has been opened, or more of the text has been written. *)
Definition grows (left : option string) (text : string) : Prop :=
  match left with
  | None => True
  | Some l => cut_short l text ∧ l ≠ text
  end.

Section writing.
Context `{JsArith F, JsKey F}.
Context (env : Env (F:=F)) (hangs : Call → bool) (disk : Disk).

(** ** The states *)

(** Where [main] is, and what a write that has not completed has left
    in the report file. *)
Definition State : Type := Config (F:=F) * option string.

(** The disk at a state: the writes that have completed, and then what
    is left of the one that has not. *)
Definition disk_at (s : State) : Disk :=
  match s.2 with
  | Some text => <[OUTPUT_JSON := text]> (disk_after disk s.1.2)
  | None => disk_after disk s.1.2
  end.

(** ** The steps *)

Definition is_fulfilled (k : Ctl (F:=F)) : bool :=
  match k with Fulfilled => true | _ => false end.

Inductive write_step : State → State → Prop :=
  (** while the write is in flight the file system opens the file, which
      is then empty, or writes more of the text *)
  | write_chunk outputJson w left t text :
      report_text outputJson = Some t → cut_short text t → grows left text →
      write_step (AwaitWriteJson outputJson, w, left)
                 (AwaitWriteJson outputJson, w, Some text)
  (** a promise settles; when the run is fulfilled the write has
      completed, and the file holds what [written] says *)
  | write_settle c c' left :
      step env hangs c c' →
      write_step (c, left)
                 (c', if is_fulfilled c'.1 then None else left).

(** ** The report is built before the write *)

(** The environment whose writes succeed. *)
Definition writable : Env := {|
  importTransformers := importTransformers env;
  pipeline := pipeline env;
  ensureDir := ensureDir env;
  readJson := readJson env;
  getDocument := getDocument env;
  now := now env;
  writeJson _ _ := Ok ();
|}.

Lemma step_phase c c' : step env hangs c c' → phase c'.1 ≤ phase c.1.
Proof. intros [?|[? _]]%step_decreases; simpl in *; lia. Qed.

Lemma rtc_step_phase c c' : rtc (step env hangs) c c' → phase c'.1 ≤ phase c.1.
Proof. induction 1 as [|c c1 c' Hs%step_phase _ IH]; [done|lia]. Qed.

(** Up to the write the answer of the write plays no part. *)
Lemma step_writable c c' :
  step env hangs c c' → 2 ≤ phase c'.1 → step writable hangs c c'.
Proof.
  intros Hs Hp. pose proof (step_decreases env hangs c c' Hs) as Hdec.
  destruct Hs;
    [ by refine (step_import writable hangs _ _)
    | by refine (step_pipeline writable hangs _ _)
    | by refine (step_ensure_input writable hangs _ _ _)
    | by refine (step_read writable hangs _ _ _)
    | by refine (step_process writable hangs _ _ _ _ _ _ _ _)
    | by refine (step_ctx writable hangs _ _ _ _ _ _)
    | by eapply step_settle
    | by eapply step_reject
    | by refine (step_all writable hangs _ _ _ _ _ _ _ _)
    | by refine (step_ensure_output writable hangs _ _ _)
    |
    | by apply step_catch ].
  exfalso. unfold lex_lt, measure in Hdec. simpl in *. lia.
Qed.

Lemma rtc_step_writable c c' :
  rtc (step env hangs) c c' → 2 ≤ phase c'.1 → rtc (step writable hangs) c c'.
Proof.
  induction 1 as [|c c1 c' Hs Hrun IH]; intros Hp; [done|].
  eapply rtc_l; [|by apply IH]. apply step_writable; [done|].
  apply rtc_step_phase in Hrun. lia.
Qed.

(** When [main] waits for the write, the pipeline has built the report
    that is to be written. *)
Lemma write_in_flight_built w outputJson w1 :
  reachable env hangs w (AwaitWriteJson outputJson, w1) →
  report_spec env = Ok outputJson.
Proof.
  intros Hc%rtc_step_writable; [|done].
  apply (reachable_agrees writable) in Hc.
  apply agrees_pending in Hc as (_ & [Hw Hr] & (Hwr & _)); [|done].
  pose proof (main_run writable w) as Hm.
  destruct (main_spec writable) as [out|e] eqn:Hspec;
    destruct Hm as (w' & Hm & Hm'); rewrite Hm in Hw, Hr; simpl in *.
  - apply main_spec_report in Hspec. destruct Hm' as (Hm' & _).
    rewrite <-Hw in Hm'. simpl in Hm'. rewrite Hwr in Hm'.
    apply app_inv_head in Hm'. by simplify_eq.
  - by destruct Hr as [|(? & ? & ? & _)].
Qed.

(** ** What the report file holds *)

(** What a write that has not completed has left is the beginning of
    the text of the report the pipeline has built. *)
Definition left_of_report (s : State) : Prop :=
  match s.2 with
  | None => True
  | Some text =>
      is_fulfilled s.1.1 = false ∧
      ∃ out t, report_spec env = Ok out ∧ report_text out = Some t ∧
               cut_short text t
  end.

Lemma write_step_reachable w s s' :
  write_step s s' → reachable env hangs w s.1 → reachable env hangs w s'.1.
Proof. intros [] Hs; [done|by eapply rtc_r]. Qed.

Lemma write_step_left w s s' :
  write_step s s' → reachable env hangs w s.1 → left_of_report s →
  left_of_report s'.
Proof.
  unfold left_of_report. intros [out w1 left t text Ht Hcut _|c c' left Hs] Hc.
  - intros _. split; [done|]. exists out, t. split_and!; [|done..].
    by eapply write_in_flight_built.
  - simpl. destruct (is_fulfilled c'.1) eqn:Hk; [done|].
    destruct left as [text|]; [|done]. by intros [_ ?].
Qed.

Lemma write_run w s :
  rtc write_step (start w, None) s →
  reachable env hangs w s.1 ∧ left_of_report s.
Proof.
  apply (rtc_invariant write_step
           (λ s, reachable env hangs w s.1 ∧ left_of_report s)).
  - intros s1 s2 [Hc Hl] Hs.
    split; [by eapply write_step_reachable|by eapply write_step_left].
  - split; [apply rtc_refl|done].
Qed.

Lemma cut_short_refl t : cut_short t t.
Proof. exists "". by rewrite str_app_nil_r. Qed.

(** C30: At every moment of every run, the file system going on with the
    write as it likes, the disk is as it was before the run, or the
    pipeline has built the report and the report file holds the
    beginning of its text up to some point, the other files being as
    they were; when the run is fulfilled the file holds all of the
    text. So a run that fails or hangs before the write leaves the
    files alone, and a write that fails, hangs or is interrupted leaves
    the report file cut short, an earlier report gone. *)
Theorem disk_during_run w s :
  rtc write_step (start w, None) s →
  disk_at s = disk_after disk w ∨
  ∃ out t text,
    report_spec env = Ok out ∧ report_text out = Some t ∧ cut_short text t ∧
    disk_at s = <[OUTPUT_JSON := text]> (disk_after disk w) ∧
    (s.1.1 = Fulfilled → text = t).
Proof.
  intros [Hc Hl]%write_run. unfold disk_at, left_of_report in *.
  pose proof (completed_until_end env hangs disk w s.1 Hc) as Hdisk.
  destruct s.2 as [text|].
  - destruct Hl as (Hk & out & t & Hout & Ht & Hcut).
    destruct Hdisk as [->|[Hf _]]; [|by rewrite Hf in Hk].
    right. exists out, t, text. split_and!; [done..|].
    intros Hf. by rewrite Hf in Hk.
  - destruct Hdisk as [?|(_ & out & t & Hout%main_spec_report & Ht & ->)];
      [by left|right].
    exists out, t, t. split_and!; [done..|apply cut_short_refl|done|done].
Qed.

(** ** A report that is cut short *)

(** The steps of the machine, beside a file that is left as it is. *)
Lemma machine_write_run c c' left :
  rtc (step env hangs) c c' → is_fulfilled c'.1 = false →
  rtc write_step (c, left) (c', left).
Proof.
  intros Hrun. revert c' Hrun.
  apply (rtc_ind_r (λ c', is_fulfilled c'.1 = false →
                          rtc write_step (c, left) (c', left))); [done|].
  intros c1 c' _ Hs IH Hk. eapply rtc_r; [apply IH|].
  - apply step_not_final in Hs. by destruct c1.1.
  - apply (write_settle _ _ left) in Hs. by rewrite Hk in Hs.
Qed.

(** A write in flight can have left any beginning of the text in the
    report file: that is what a run that is interrupted then, or whose
    write hangs, leaves. *)
Theorem write_in_flight_cut_short w outputJson w1 t text :
  reachable env hangs w (AwaitWriteJson outputJson, w1) →
  report_text outputJson = Some t → cut_short text t →
  let s := (AwaitWriteJson outputJson, w1, Some text) in
  rtc write_step (start w, None) s ∧
  disk_at s = <[OUTPUT_JSON := text]> (disk_after disk w).
Proof.
  intros Hc Ht Hcut. split.
  - eapply rtc_r; [by apply machine_write_run|]. by eapply write_chunk.
  - unfold disk_at. simpl. f_equal. apply disk_after_same.
    by destruct (reachable_untouched env hangs w _ Hc) as (_ & ? & _).
Qed.

(** A write that is rejected leaves what it had written: the run exits
    with status 1, and the report file holds the beginning of the text
    of the report, whatever it held before. *)
Theorem write_rejected_cut_short w outputJson w1 e t text :
  reachable env hangs w (AwaitWriteJson outputJson, w1) →
  hangs (CallWriteJson OUTPUT_JSON) = false →
  writeJson env OUTPUT_JSON outputJson = Throw e →
  report_text outputJson = Some t → cut_short text t →
  let s := (Exited, handled e w1, Some text) in
  rtc write_step (start w, None) s ∧
  disk_at s = <[OUTPUT_JSON := text]> (disk_after disk w).
Proof.
  intros Hc Hh He Ht Hcut.
  destruct (write_in_flight_cut_short w outputJson w1 t text Hc Ht Hcut)
    as [Hrun Hdisk].
  split; [|done].
  eapply rtc_r; [eapply rtc_r; [exact Hrun|]|].
  - apply (write_settle _ (Rejected e, w1)).
    pose proof (step_write env hangs outputJson w1 Hh) as Hs.
    unfold segment, write_file, mbind, io_bind in Hs. by rewrite He in Hs.
  - apply (write_settle _ (Exited, handled e w1)). apply step_catch.
Qed.
End writing.

(** ** Examples *)

Section examples.

(** The environment of the sample run of [Main] with a disk that is
    full. *)
Definition sample_full_env : Env := {|
  importTransformers := importTransformers sample_good_env;
  pipeline := pipeline sample_good_env;
  ensureDir := ensureDir sample_good_env;
  readJson := readJson sample_good_env;
  getDocument := getDocument sample_good_env;
  now := now sample_good_env;
  writeJson _ _ := Throw "ENOSPC: no space left on device, write";
|}.

(** The world when the write begins: after 22 turns of the event
    loop. *)
Definition sample_before_write : World :=
  (exec sample_full_env no_hang 22 (start initial_world)).2.

Example sample_before_write_at :
  exec sample_full_env no_hang 22 (start initial_world) =
  (AwaitWriteJson sample_report, sample_before_write).
Proof. vm_compute. reflexivity. Qed.

Lemma sample_write_begins :
  reachable sample_full_env no_hang initial_world
    (AwaitWriteJson sample_report, sample_before_write).
Proof. rewrite <-sample_before_write_at. apply exec_reachable. Qed.

Lemma sample_report_begins : ∃ t, report_text sample_report = Some t ∧
                                  cut_short "{" t.
Proof. eexists. split; [by vm_compute|]. eexists. by vm_compute. Qed.

(** The run whose write fails after the first character: it exits with
    status 1, and the report file, which held an earlier report, holds
    an opening brace. *)
Definition sample_cut : State (F:=float) :=
  (Exited, handled "ENOSPC: no space left on device, write" sample_before_write,
   Some "{").

Definition sample_earlier_disk : Disk :=
  <[OUTPUT_JSON := "{}"]> sample_disk.

Example sample_cut_short :
  rtc (write_step sample_full_env no_hang) (start initial_world, None)
    sample_cut ∧
  disk_at sample_earlier_disk sample_cut !! OUTPUT_JSON = Some "{" ∧
  exitCode sample_cut.1.2 = Some 1%Z ∧ written sample_cut.1.2 = [].
Proof.
  destruct sample_report_begins as (t & Ht & Hcut).
  pose proof (write_rejected_cut_short sample_full_env no_hang
              sample_earlier_disk initial_world sample_report
              sample_before_write _ t "{" sample_write_begins eq_refl eq_refl
              Ht Hcut) as Hcs.
  cbv zeta in Hcs. fold sample_cut in Hcs. destruct Hcs as [Hrun Hdisk].
  split; [exact Hrun|].
  split; [by rewrite Hdisk, lookup_insert_eq|].
  split.
  - reflexivity.
  - vm_compute. reflexivity.
Qed.

Lemma disk_during_run_witness :
  disk_at sample_earlier_disk sample_cut =
    disk_after sample_earlier_disk initial_world ∨
  ∃ out t text,
    report_spec sample_full_env = Ok out ∧ report_text out = Some t ∧
    cut_short text t ∧
    disk_at sample_earlier_disk sample_cut =
      <[OUTPUT_JSON := text]> (disk_after sample_earlier_disk initial_world) ∧
    (sample_cut.1.1 = Fulfilled → text = t).
Proof.
  apply (disk_during_run sample_full_env no_hang sample_earlier_disk
           initial_world sample_cut).
  apply sample_cut_short.
Defined.
End examples.
